(** * The call-signalling and channel core of the telphi WebRTC SDK

    A shallow embedding of the hooks and stores of the SDK, and the properties
    its specification states about them.  Every definition names the source
    function it embeds.

    JavaScript runs the handlers on one thread: a handler is a function on the
    state it reads and writes.  What the host decides (a random identifier,
    the clock, the outcome of a native call) is an argument of the handler.
    An [async] function is followed to its end; where it waits for a request
    to the gateway, the events that reach the transport in the meantime are an
    argument too, and the transport decides how the request settles. *)

From stdpp Require Import gmap strings list pretty.
From Stdlib Require Import ZArith Lia.

Set Warnings "-register-all".

(** ** JavaScript values

    The part of the JSON data model the handlers inspect: [Record<string,
    unknown>] is a finite map from property names to values.  Numbers are the
    integers; arrays are not needed by any handler modelled here. *)
Module JS.

Inductive JValue : Type :=
  | JUndefined
  | JNull
  | JBool (b : bool)
  | JNum (n : Z)
  | JStr (s : string)
  | JObj (fields : gmap string JValue).

Abbreviation Obj := (gmap string JValue).

(** [!!v] *)
Definition truthy (v : JValue) : bool :=
  match v with
  | JUndefined | JNull => false
  | JBool b => b
  | JNum n => negb (n =? 0)%Z
  | JStr s => negb (String.eqb s "")
  | JObj _ => true
  end.

(** [o.k] on an object *)
Definition get (o : Obj) (k : string) : JValue := default JUndefined (o !! k).

(** [v?.k]: undefined on null and undefined; a primitive has none of the
    properties read here. *)
Definition prop (v : JValue) (k : string) : JValue :=
  match v with
  | JObj o => get o k
  | _ => JUndefined
  end.

(** [a || b] *)
Definition or (a b : JValue) : JValue := if truthy a then a else b.

(** [v === 'lit'] *)
Definition is_str (v : JValue) (lit : string) : bool :=
  match v with
  | JStr s => String.eqb s lit
  | _ => false
  end.

(** [String(v)] *)
Definition to_String (v : JValue) : string :=
  match v with
  | JUndefined => "undefined"
  | JNull => "null"
  | JBool true => "true"
  | JBool false => "false"
  | JNum n => pretty n
  | JStr s => s
  | JObj _ => "[object Object]"
  end.

(** truthiness of a [string | null] or [string | undefined] *)
Definition truthy_str (o : option string) : bool :=
  match o with
  | Some s => negb (String.eqb s "")
  | None => false
  end.

(** truthiness of a [number | null] *)
Definition truthy_num (o : option Z) : bool :=
  match o with
  | Some n => negb (n =? 0)%Z
  | None => false
  end.

End JS.

Import JS.

(** ** GatewayTransport: [useSendMessage] and the response branch of
    [useHandleMessage]

    The promise returned by [send] is identified by a number; [settled] logs
    every call of a promise's [resolve] or [reject], in order.  A timer is the
    closure passed to [setTimeout], kept under the identifier [setTimeout]
    returned, until it runs or is cleared. *)
Module Transport.

Inductive ReadyState := CONNECTING | OPEN | CLOSING | CLOSED.

Inductive Settlement :=
  | Fulfilled (response : Obj)
  | Rejected (reason : string).

(** the closure stored in [transactionsRef] (useSendMessage.ts, 29-38):
    it captures [timeout], [transaction] and the promise's callbacks *)
Record Resolver := mkResolver {
  r_timeout : nat;
  r_transaction : string;
  r_promise : nat
}.

(** the closure passed to [setTimeout] (useSendMessage.ts, 24-27) *)
Record Timer := mkTimer {
  t_transaction : string;
  t_promise : nat;
  t_deadline : Z
}.

Record State := mkState {
  wsRef : option ReadyState;        (* null, or the socket and its readyState *)
  sessionIdRef : option Z;
  handleIdRef : option Z;
  transactionsRef : gmap string Resolver;
  timers : gmap nat Timer;          (* armed timers *)
  next_timer : nat;
  next_promise : nat;
  clock : Z;                        (* milliseconds *)
  settled : list (nat * Settlement);
  wire : list Obj                   (* frames handed to ws.send *)
}.

Definition TRANSACTION_TIMEOUT : Z := 10000.

Definition ws_open (s : State) : bool :=
  match wsRef s with
  | Some OPEN => true
  | _ => false
  end.

(** [{ ...msg, transaction }], then the session and handle identifiers when
    they are truthy *)
Definition build_message (transaction : string) (msg : Obj) (s : State) : Obj :=
  let message := <["transaction" := JStr transaction]> msg in
  let message :=
    match sessionIdRef s with
    | Some n => if truthy_num (Some n) then <["session_id" := JNum n]> message else message
    | None => message
    end in
  match handleIdRef s with
  | Some n => if truthy_num (Some n) then <["handle_id" := JNum n]> message else message
  | None => message
  end.

(** [useSendMessage]: [transaction] is the value of [randomString(12)].  The
    result is the state and the promise returned. *)
Definition sendMessage (transaction : string) (msg : Obj) (s : State) : State * nat :=
  let p := next_promise s in
  if ws_open s then
    let k := next_timer s in
    ({| wsRef := wsRef s;
        sessionIdRef := sessionIdRef s;
        handleIdRef := handleIdRef s;
        transactionsRef :=
          <[transaction := mkResolver k transaction p]> (transactionsRef s);
        timers :=
          <[k := mkTimer transaction p (clock s + TRANSACTION_TIMEOUT)]> (timers s);
        next_timer := S k;
        next_promise := S p;
        clock := clock s;
        settled := settled s;
        wire := wire s ++ [build_message transaction msg s] |}, p)
  else
    ({| wsRef := wsRef s;
        sessionIdRef := sessionIdRef s;
        handleIdRef := handleIdRef s;
        transactionsRef := transactionsRef s;
        timers := timers s;
        next_timer := next_timer s;
        next_promise := S p;
        clock := clock s;
        settled := settled s ++ [(p, Rejected "WebSocket not connected")];
        wire := wire s |}, p).

(** what the resolver does with the response (useSendMessage.ts, 32-37) *)
Definition response_outcome (response : Obj) : Settlement :=
  if is_str (get response "janus") "error" then
    let err := get response "error" in
    Rejected (to_String (or (or (prop err "reason") err) (JStr "Janus error")))
  else Fulfilled response.

(** the resolver applied to a response (useSendMessage.ts, 29-38) *)
Definition run_resolver (r : Resolver) (response : Obj) (s : State) : State :=
  {| wsRef := wsRef s;
     sessionIdRef := sessionIdRef s;
     handleIdRef := handleIdRef s;
     transactionsRef := delete (r_transaction r) (transactionsRef s);
     timers := delete (r_timeout r) (timers s);
     next_timer := next_timer s;
     next_promise := next_promise s;
     clock := clock s;
     settled := settled s ++ [(r_promise r, response_outcome response)];
     wire := wire s |}.

(** [transaction && transactionsRef.current.has(transaction)], then [get]
    (useHandleMessage, 18-20) *)
Definition find_handler (msg : Obj) (s : State) : option Resolver :=
  match get msg "transaction" with
  | JStr t => if truthy (JStr t) then transactionsRef s !! t else None
  | _ => None
  end.

(** [useHandleMessage], the response branch: [None] when the frame was
    consumed by a resolver, [Some msg] when it goes on to the event switch. *)
Definition handleMessage (msg : Obj) (s : State) : State * option Obj :=
  match find_handler msg s with
  | Some r => (run_resolver r msg s, None)
  | None => (s, Some msg)
  end.

(** the timer [k] runs, when it is armed and due (useSendMessage.ts, 24-27) *)
Definition fire_timer (k : nat) (s : State) : State :=
  match timers s !! k with
  | Some t =>
      if (clock s <? t_deadline t)%Z then s
      else
        {| wsRef := wsRef s;
           sessionIdRef := sessionIdRef s;
           handleIdRef := handleIdRef s;
           transactionsRef := delete (t_transaction t) (transactionsRef s);
           timers := delete k (timers s);
           next_timer := next_timer s;
           next_promise := next_promise s;
           clock := clock s;
           settled := settled s ++ [(t_promise t, Rejected "Transaction timeout")];
           wire := wire s |}
  | None => s
  end.

(** the transport's part of [useCleanupJanus]: the socket is closed and
    dropped, the identifiers reset, the resolver map cleared; armed timers are
    left to run *)
Definition cleanupJanus (s : State) : State :=
  {| wsRef := None;
     sessionIdRef := None;
     handleIdRef := None;
     transactionsRef := ∅;
     timers := timers s;
     next_timer := next_timer s;
     next_promise := next_promise s;
     clock := clock s;
     settled := settled s;
     wire := wire s |}.

(** the socket and the identifiers as [useInitJanus], the socket's own events
    and the [detached] notification set them *)
Definition set_connection (ws : option ReadyState) (sid hid : option Z) (s : State) : State :=
  {| wsRef := ws;
     sessionIdRef := sid;
     handleIdRef := hid;
     transactionsRef := transactionsRef s;
     timers := timers s;
     next_timer := next_timer s;
     next_promise := next_promise s;
     clock := clock s;
     settled := settled s;
     wire := wire s |}.

Definition advance (dt : Z) (s : State) : State :=
  {| wsRef := wsRef s;
     sessionIdRef := sessionIdRef s;
     handleIdRef := handleIdRef s;
     transactionsRef := transactionsRef s;
     timers := timers s;
     next_timer := next_timer s;
     next_promise := next_promise s;
     clock := (clock s + Z.max 0 dt)%Z;
     settled := settled s;
     wire := wire s |}.

(** what can happen to the transport between a [send] and its settlement *)
Inductive Event :=
  | ESend (transaction : string) (msg : Obj)
  | EFrame (msg : Obj)
  | ETimer (k : nat)
  | ETick (dt : Z)
  | ECleanup
  | EConnection (ws : option ReadyState) (sid hid : option Z).

Definition step (e : Event) (s : State) : State :=
  match e with
  | ESend x msg => fst (sendMessage x msg s)
  | EFrame msg => fst (handleMessage msg s)
  | ETimer k => fire_timer k s
  | ETick dt => advance dt s
  | ECleanup => cleanupJanus s
  | EConnection ws sid hid => set_connection ws sid hid s
  end.

Definition run (evs : list Event) (s : State) : State := foldl (fun s e => step e s) s evs.

(** the calls of [resolve] and [reject] of promise [p], in order *)
Definition settlements (p : nat) (s : State) : list Settlement :=
  (filter (fun e => e.1 = p) (settled s)).*2.
Arguments settlements : simpl never.

(** the other requests of a run do not reuse the identifier [x], and the
    transport is not torn down *)
Definition quiet (x : string) (e : Event) : bool :=
  match e with
  | ESend y _ => negb (String.eqb y x)
  | ECleanup => false
  | _ => true
  end.

Definition initial (c : Z) : State :=
  {| wsRef := None;
     sessionIdRef := None;
     handleIdRef := None;
     transactionsRef := ∅;
     timers := ∅;
     next_timer := 0;
     next_promise := 0;
     clock := c;
     settled := [];
     wire := [] |}.

(** no armed timer carries the identifier [x] *)
Definition fresh (x : string) (s : State) : Prop :=
  ∀ k t, timers s !! k = Some t → t_transaction t ≠ x.

(** identifiers in use are below the allocation counters, and a resolver is
    registered under the transaction it captured *)
Record wf (s : State) : Prop := mkWf {
  wf_resolver : ∀ y r, transactionsRef s !! y = Some r →
    r_transaction r = y ∧ r_timeout r < next_timer s ∧ r_promise r < next_promise s;
  wf_timer : ∀ k t, timers s !! k = Some t →
    k < next_timer s ∧ t_promise t < next_promise s;
  wf_settled : ∀ q o, (q, o) ∈ settled s → q < next_promise s
}.

(** the request with promise [p], transaction [x], timer [k] and deadline [d],
    as the transport holds it *)
Record tracked (p k : nat) (x : string) (d : Z) (s : State) : Prop := mkTracked {
  tr_timer_lt : k < next_timer s;
  tr_promise_lt : p < next_promise s;
  tr_timer_at : ∀ t, timers s !! k = Some t → t = mkTimer x p d;
  tr_timer_of : ∀ k' t, timers s !! k' = Some t → t_promise t = p → k' = k;
  tr_resolver_of : ∀ y r, transactionsRef s !! y = Some r → r_promise r = p →
    y = x ∧ r = mkResolver k x p;
  tr_resolver_at : ∀ y r, transactionsRef s !! y = Some r → r_timeout r = k →
    r_promise r = p;
  tr_pending : settlements p s = [] → timers s !! k = Some (mkTimer x p d);
  tr_settled : settlements p s ≠ [] →
    length (settlements p s) = 1 ∧ timers s !! k = None ∧
    ∀ y r, transactionsRef s !! y = Some r → r_promise r ≠ p
}.

(** the identifier [x] belongs to the request with promise [p] alone *)
Record exclusive (p k : nat) (x : string) (s : State) : Prop := mkExclusive {
  ex_timer : ∀ k' t, timers s !! k' = Some t → t_transaction t = x → t_promise t = p;
  ex_resolver : ∀ r, transactionsRef s !! x = Some r → r_promise r = p;
  ex_pending : settlements p s = [] →
    transactionsRef s !! x = Some (mkResolver k x p)
}.

End Transport.

(** ** The persisted call state and [sessionStorage] (types.ts,
    utils/callState.ts) *)
Module Persisted.

Record PersistedCallState := mkPersisted {
  callId : string;
  endpointId : string;
  endpointName : option string;
  appName : option string;
  startedAt : Z;
  wsToken : option string;
  telproDomain : option string
}.

(** the item stored under [CALL_STATE_STORAGE_KEY]: text that [JSON.parse]
    turns into a call state, or any other text (the empty string included) *)
Inductive Item :=
  | Json (state : PersistedCallState)
  | Garbage.

Definition MAX_CALL_AGE_MS : Z := 20 * 1000.

(** [clearCallState] *)
Definition clearCallState (storage : option Item) : option Item := None.

(** [saveCallState] *)
Definition saveCallState (state : PersistedCallState) (storage : option Item) : option Item :=
  Some (Json state).

(** [loadCallState], at time [now] = [Date.now()] *)
Definition loadCallState (now : Z) (storage : option Item)
  : option Item * option PersistedCallState :=
  match storage with
  | None => (storage, None)
  | Some Garbage => (storage, None)
  | Some (Json state) =>
      if (now - startedAt state >? MAX_CALL_AGE_MS)%Z
      then (clearCallState storage, None)
      else (storage, Some state)
  end.

End Persisted.

(** ** The phone store (stores/webrtcPhoneStore.ts) *)
Module Store.

Record WebRTCPhoneUIState := mkUI {
  open : bool;
  dialpadOpen : bool;
  chatOpen : bool;
  audioBlocked : bool;
  selectedText : string
}.

Record WebRTCPhoneConnectionState := mkConnection {
  connected : bool;
  registered : bool;
  calling : bool;
  inCall : bool;
  initialized : bool;
  reconnecting : bool;
  status : string
}.

Record WebRTCPhoneCallData := mkCallData {
  endpointId : string;
  endpointName : string;
  appName : string;
  currentCallId : option string;
  currentWsToken : option string;
  telproDomain : option string;
  dtmfDigits : string
}.

Record PhoneStore := mkStore {
  ui : WebRTCPhoneUIState;
  connection : WebRTCPhoneConnectionState;
  callData : WebRTCPhoneCallData
}.

Definition initialUIState : WebRTCPhoneUIState := mkUI false false false false "".
Definition initialConnectionState : WebRTCPhoneConnectionState :=
  mkConnection false false false false false false "Disconnected".
Definition initialCallData : WebRTCPhoneCallData := mkCallData "" "" "" None None None "".
Definition initialStore : PhoneStore := mkStore initialUIState initialConnectionState initialCallData.

Definition with_ui (f : WebRTCPhoneUIState → WebRTCPhoneUIState) (st : PhoneStore) :=
  mkStore (f (ui st)) (connection st) (callData st).
Definition with_connection
  (f : WebRTCPhoneConnectionState → WebRTCPhoneConnectionState) (st : PhoneStore) :=
  mkStore (ui st) (f (connection st)) (callData st).
Definition with_callData (f : WebRTCPhoneCallData → WebRTCPhoneCallData) (st : PhoneStore) :=
  mkStore (ui st) (connection st) (f (callData st)).

(** the setters; each returns the state itself when the value is the one
    already stored, which is the same value *)
Definition setAudioBlocked (b : bool) : PhoneStore → PhoneStore :=
  with_ui (λ u, mkUI (open u) (dialpadOpen u) (chatOpen u) b (selectedText u)).
Definition setConnected (b : bool) : PhoneStore → PhoneStore :=
  with_connection (λ c, mkConnection b (registered c) (calling c) (inCall c)
                          (initialized c) (reconnecting c) (status c)).
Definition setRegistered (b : bool) : PhoneStore → PhoneStore :=
  with_connection (λ c, mkConnection (connected c) b (calling c) (inCall c)
                          (initialized c) (reconnecting c) (status c)).
Definition setCalling (b : bool) : PhoneStore → PhoneStore :=
  with_connection (λ c, mkConnection (connected c) (registered c) b (inCall c)
                          (initialized c) (reconnecting c) (status c)).
Definition setInCall (b : bool) : PhoneStore → PhoneStore :=
  with_connection (λ c, mkConnection (connected c) (registered c) (calling c) b
                          (initialized c) (reconnecting c) (status c)).
Definition setReconnecting (b : bool) : PhoneStore → PhoneStore :=
  with_connection (λ c, mkConnection (connected c) (registered c) (calling c) (inCall c)
                          (initialized c) b (status c)).
Definition setStatus (t : string) : PhoneStore → PhoneStore :=
  with_connection (λ c, mkConnection (connected c) (registered c) (calling c) (inCall c)
                          (initialized c) (reconnecting c) t).
Definition setEndpointId (v : string) : PhoneStore → PhoneStore :=
  with_callData (λ d, mkCallData v (endpointName d) (appName d) (currentCallId d)
                        (currentWsToken d) (telproDomain d) (dtmfDigits d)).
Definition setEndpointName (v : string) : PhoneStore → PhoneStore :=
  with_callData (λ d, mkCallData (endpointId d) v (appName d) (currentCallId d)
                        (currentWsToken d) (telproDomain d) (dtmfDigits d)).
Definition setAppName (v : string) : PhoneStore → PhoneStore :=
  with_callData (λ d, mkCallData (endpointId d) (endpointName d) v (currentCallId d)
                        (currentWsToken d) (telproDomain d) (dtmfDigits d)).
Definition setCurrentCallId (v : option string) : PhoneStore → PhoneStore :=
  with_callData (λ d, mkCallData (endpointId d) (endpointName d) (appName d) v
                        (currentWsToken d) (telproDomain d) (dtmfDigits d)).
Definition setCurrentWsToken (v : option string) : PhoneStore → PhoneStore :=
  with_callData (λ d, mkCallData (endpointId d) (endpointName d) (appName d)
                        (currentCallId d) v (telproDomain d) (dtmfDigits d)).
Definition clearDtmfDigits : PhoneStore → PhoneStore :=
  with_callData (λ d, mkCallData (endpointId d) (endpointName d) (appName d)
                        (currentCallId d) (currentWsToken d) (telproDomain d) "").

(** [x || ''] and [x || null] on an optional string *)
Definition or_empty (o : option string) : string :=
  if truthy_str o then default "" o else "".
Definition or_null (o : option string) : option string :=
  if truthy_str o then o else None.

(** the first [set] of [restoreFromPersistedState] (webrtcPhoneStore.ts,
    300-347) *)
Definition restore_fields (stored : Persisted.PersistedCallState) (st : PhoneStore)
  : PhoneStore :=
  mkStore (ui st)
    (mkConnection (connected (connection st)) (registered (connection st))
       (calling (connection st)) (inCall (connection st))
       (truthy_str (Persisted.telproDomain stored))
       true
       (status (connection st)))
    (mkCallData (Persisted.endpointId stored)
       (or_empty (Persisted.endpointName stored))
       (or_empty (Persisted.appName stored))
       (or_null (Some (Persisted.callId stored)))
       (or_null (Persisted.wsToken stored))
       (or_null (Persisted.telproDomain stored))
       (dtmfDigits (callData st))).

(** [restoreFromPersistedState], at time [now]: the store and the storage
    after it, and what it returns *)
Definition restoreFromPersistedState (now : Z) (st : PhoneStore)
    (storage : option Persisted.Item)
  : PhoneStore * option Persisted.Item * option Persisted.PersistedCallState :=
  match Persisted.loadCallState now storage with
  | (storage1, None) => (st, storage1, None)
  | (storage1, Some storedState) =>
      let st1 := restore_fields storedState st in
      if negb (truthy_str (Persisted.telproDomain storedState)) then
        (setReconnecting false st1, Persisted.clearCallState storage1, None)
      else (st1, storage1, Some storedState)
  end.

End Store.

(** ** The shared refs and the host (stores/webrtcRefsStore.ts)

    A host object (peer connection, media track) is known by a number; [host]
    logs the native calls made on them and the errors written to the console,
    in order.  Whether a native call succeeds is the host's choice, which may
    depend on everything called before. *)
Module Phone.

Record Jsep := mkJsep { jsep_type : string; jsep_sdp : option string }.

(** the argument of [pc.addIceCandidate] *)
Record RTCIceCandidateInit := mkInit {
  candidate : JValue;
  sdpMid : JValue;
  sdpMLineIndex : JValue
}.

Inductive HostCall :=
  | PcSetRemoteDescription (pc : nat) (jsep : Jsep)
  | PcAddIceCandidate (pc : nat) (init : RTCIceCandidateInit)
  | PcClose (pc : nat)
  | TrackStop (track : nat)
  | GetUserMedia
  | NewPeerConnection (pc : nat) (iceDomain : string)
  | PcAddTrack (pc track : nat)
  | SetAudioCodecPreferences (pc : nat) (preferPcma : bool)
  | PcCreateOffer (pc : nat)
  | PcSetLocalDescription (pc : nat) (offer : Jsep)
  | ConsoleError (what : string).

Record MediaStream := mkStream { stream_id : nat; getTracks : list nat }.

(** an audio element and its [srcObject] *)
Record HTMLAudioElement := mkAudio { srcObject : option nat }.

(** the closure [handleHangup] of the component, which captured [registered]
    when it was created (WebRTCPhone, 269-295) *)
Inductive HangupCallback := HandleHangup (registered : bool).

Record World := mkWorld {
  store : Store.PhoneStore;
  transport : Transport.State;      (* wsRef, sessionIdRef, handleIdRef, transactionsRef *)
  pendingReconnectRef : option Persisted.PersistedCallState;
  pcRef : option nat;
  localStreamRef : option MediaStream;
  remoteAudioRef : option HTMLAudioElement;
  localAudioRef : option HTMLAudioElement;
  pendingCandidatesRef : list (option Obj);
  remoteDescriptionSetRef : bool;
  onHangupRef : option HangupCallback;
  chatOpen : bool;                  (* the component's own state *)
  sessionStorage : option Persisted.Item;
  host : list HostCall
}.

Record Host := mkHost {
  setRemoteDescription_ok : list HostCall → nat → Jsep → bool;
  addIceCandidate_ok : list HostCall → nat → RTCIceCandidateInit → bool;
  getUserMedia : list HostCall → string + MediaStream;
  newPeerConnection : list HostCall → nat;
  createOffer : list HostCall → nat → string + Jsep;
  setLocalDescription_ok : list HostCall → nat → Jsep → option string
}.

Definition with_store (f : Store.PhoneStore → Store.PhoneStore) (w : World) : World :=
  mkWorld (f (store w)) (transport w) (pendingReconnectRef w) (pcRef w) (localStreamRef w)
    (remoteAudioRef w) (localAudioRef w) (pendingCandidatesRef w)
    (remoteDescriptionSetRef w) (onHangupRef w) (chatOpen w) (sessionStorage w) (host w).
Definition set_transport (t : Transport.State) (w : World) : World :=
  mkWorld (store w) t (pendingReconnectRef w) (pcRef w) (localStreamRef w)
    (remoteAudioRef w) (localAudioRef w) (pendingCandidatesRef w)
    (remoteDescriptionSetRef w) (onHangupRef w) (chatOpen w) (sessionStorage w) (host w).
Definition set_pendingReconnectRef (v : option Persisted.PersistedCallState) (w : World) :=
  mkWorld (store w) (transport w) v (pcRef w) (localStreamRef w)
    (remoteAudioRef w) (localAudioRef w) (pendingCandidatesRef w)
    (remoteDescriptionSetRef w) (onHangupRef w) (chatOpen w) (sessionStorage w) (host w).
Definition set_pcRef (v : option nat) (w : World) : World :=
  mkWorld (store w) (transport w) (pendingReconnectRef w) v (localStreamRef w)
    (remoteAudioRef w) (localAudioRef w) (pendingCandidatesRef w)
    (remoteDescriptionSetRef w) (onHangupRef w) (chatOpen w) (sessionStorage w) (host w).
Definition set_localStreamRef (v : option MediaStream) (w : World) : World :=
  mkWorld (store w) (transport w) (pendingReconnectRef w) (pcRef w) v
    (remoteAudioRef w) (localAudioRef w) (pendingCandidatesRef w)
    (remoteDescriptionSetRef w) (onHangupRef w) (chatOpen w) (sessionStorage w) (host w).
Definition set_remoteAudioRef (v : option HTMLAudioElement) (w : World) : World :=
  mkWorld (store w) (transport w) (pendingReconnectRef w) (pcRef w) (localStreamRef w)
    v (localAudioRef w) (pendingCandidatesRef w)
    (remoteDescriptionSetRef w) (onHangupRef w) (chatOpen w) (sessionStorage w) (host w).
Definition set_localAudioRef (v : option HTMLAudioElement) (w : World) : World :=
  mkWorld (store w) (transport w) (pendingReconnectRef w) (pcRef w) (localStreamRef w)
    (remoteAudioRef w) v (pendingCandidatesRef w)
    (remoteDescriptionSetRef w) (onHangupRef w) (chatOpen w) (sessionStorage w) (host w).
Definition set_pendingCandidatesRef (v : list (option Obj)) (w : World) : World :=
  mkWorld (store w) (transport w) (pendingReconnectRef w) (pcRef w) (localStreamRef w)
    (remoteAudioRef w) (localAudioRef w) v
    (remoteDescriptionSetRef w) (onHangupRef w) (chatOpen w) (sessionStorage w) (host w).
Definition set_remoteDescriptionSetRef (v : bool) (w : World) : World :=
  mkWorld (store w) (transport w) (pendingReconnectRef w) (pcRef w) (localStreamRef w)
    (remoteAudioRef w) (localAudioRef w) (pendingCandidatesRef w)
    v (onHangupRef w) (chatOpen w) (sessionStorage w) (host w).
Definition set_chatOpen (v : bool) (w : World) : World :=
  mkWorld (store w) (transport w) (pendingReconnectRef w) (pcRef w) (localStreamRef w)
    (remoteAudioRef w) (localAudioRef w) (pendingCandidatesRef w)
    (remoteDescriptionSetRef w) (onHangupRef w) v (sessionStorage w) (host w).
Definition set_sessionStorage (v : option Persisted.Item) (w : World) : World :=
  mkWorld (store w) (transport w) (pendingReconnectRef w) (pcRef w) (localStreamRef w)
    (remoteAudioRef w) (localAudioRef w) (pendingCandidatesRef w)
    (remoteDescriptionSetRef w) (onHangupRef w) (chatOpen w) v (host w).
(** the native calls [calls] are made *)
Definition called (calls : list HostCall) (w : World) : World :=
  mkWorld (store w) (transport w) (pendingReconnectRef w) (pcRef w) (localStreamRef w)
    (remoteAudioRef w) (localAudioRef w) (pendingCandidatesRef w)
    (remoteDescriptionSetRef w) (onHangupRef w) (chatOpen w) (sessionStorage w)
    (host w ++ calls).

(** *** NegotiationEngine: [useAddIceCandidate], [useHandleRemoteTrickle],
    [useHandleRemoteJsep] *)

(** [candidate && !candidate.completed] *)
Definition is_real (candidate : option Obj) : bool :=
  match candidate with
  | Some c => negb (truthy (get c "completed"))
  | None => false
  end.

Arguments is_real : simpl never.

Definition init_of (c : Obj) : RTCIceCandidateInit :=
  mkInit (get c "candidate") (get c "sdpMid") (get c "sdpMLineIndex").

(** [useAddIceCandidate] *)
Definition addIceCandidate (h : Host) (candidate : option Obj) (w : World) : World :=
  match pcRef w with
  | None => w
  | Some pc =>
      match candidate with
      | Some c =>
          if is_real candidate then
            let w1 := called [PcAddIceCandidate pc (init_of c)] w in
            if addIceCandidate_ok h (host w) pc (init_of c) then w1
            else called [ConsoleError "Error adding remote ICE candidate:"] w1
          else w
      | None => w
      end
  end.

(** [useHandleRemoteTrickle] *)
Definition handleRemoteTrickle (h : Host) (candidate : option Obj) (w : World) : World :=
  if negb (remoteDescriptionSetRef w) then
    set_pendingCandidatesRef (pendingCandidatesRef w ++ [candidate]) w
  else addIceCandidate h candidate w.

(** [useHandleRemoteJsep] *)
Definition handleRemoteJsep (h : Host) (jsep : Jsep) (w : World) : World :=
  match pcRef w with
  | None => w
  | Some pc =>
      let w1 := called [PcSetRemoteDescription pc jsep] w in
      if setRemoteDescription_ok h (host w) pc jsep then
        let w2 := set_remoteDescriptionSetRef true w1 in
        let pending := pendingCandidatesRef w2 in
        if (0 <? length pending)%nat then
          foldl (λ w c, addIceCandidate h c w) (set_pendingCandidatesRef [] w2) pending
        else w2
      else called [ConsoleError "Error setting remote description:"] w1
  end.

(** the arguments of the native [addIceCandidate] calls made so far *)
Definition added (calls : list HostCall) : list (nat * RTCIceCandidateInit) :=
  omap (λ c, match c with PcAddIceCandidate pc i => Some (pc, i) | _ => None end) calls.

(** what a queue entry is to the native API *)
Definition native (pc : nat) (candidate : option Obj) : option (nat * RTCIceCandidateInit) :=
  match candidate with
  | Some c => if is_real candidate then Some (pc, init_of c) else None
  | None => None
  end.

(** *** [useCleanupCall] *)
Definition cleanupCall (w : World) : World :=
  let w :=
    match pcRef w with
    | Some pc => set_pcRef None (called [PcClose pc] w)
    | None => w
    end in
  let w :=
    match localStreamRef w with
    | Some stream => set_localStreamRef None (called (TrackStop <$> getTracks stream) w)
    | None => w
    end in
  let w :=
    match remoteAudioRef w with
    | Some _ => set_remoteAudioRef (Some (mkAudio None)) w
    | None => w
    end in
  let w :=
    match localAudioRef w with
    | Some _ => set_localAudioRef (Some (mkAudio None)) w
    | None => w
    end in
  let w := set_pendingCandidatesRef [] w in
  let w := set_remoteDescriptionSetRef false w in
  with_store (Store.setAudioBlocked false) w.

(** *** Asynchronous calls

    A handler that calls an [async] function does not wait for it: the call
    is a task of its own.  The handlers below make such a call as the last
    statement of a case, and give the state at the call together with the
    call; what the function called has done by the time the handler returns
    is [Synchronous.begin].  An [await] on [sendMessage] is given the
    transaction identifier drawn for the request and the events that reach the
    transport while the caller is suspended; whether and how the promise
    settles is then the transport's doing. *)
Inductive Task :=
  | RunHangup (cb : HangupCallback)                        (* onHangupRef.current() *)
  | RunRemoteJsep (jsep : Jsep)                            (* handleRemoteJsep(jsep) *)
  | LaterReconnect (state : Persisted.PersistedCallState). (* setTimeout(reconnectCall) *)

Record Await := mkAwait {
  transaction : string;
  during : list Transport.Event
}.

Definition await_send (a : Await) (msg : Obj) (w : World) : World * option Transport.Settlement :=
  let sent := Transport.sendMessage (transaction a) msg (transport w) in
  let t := Transport.run (during a) sent.1 in
  (set_transport t w, head (Transport.settlements sent.2 t)).

(** *** The call state machine: [useHandleSipEvent] *)

(** [result?.event || (data.sip !== 'event' ? data.sip : undefined)] *)
Definition sip_event (data : Obj) : JValue :=
  or (prop (get data "result") "event")
     (if negb (is_str (get data "sip") "event") then get data "sip" else JUndefined).

Definition invoke_onHangup (w : World) : list Task :=
  match onHangupRef w with
  | Some cb => [RunHangup cb]
  | None => []
  end.

(** the state the statements of the handler leave, and the call it makes
    as the last statement of its case, if any; [Synchronous.at_return] is the
    state when the handler returns *)
Definition handleSipEvent (data : Obj) (jsep : option Jsep) (w : World) : World * list Task :=
  let event := sip_event data in
  if is_str event "registering" then
    (with_store (Store.setStatus "Registering...") w, [])
  else if is_str event "registered" then
    let w1 := with_store (Store.setStatus "Connected")
                (with_store (Store.setConnected true)
                   (with_store (Store.setRegistered true) w)) in
    (w1, match pendingReconnectRef w1 with
         | Some reconnectState => [LaterReconnect reconnectState]
         | None => []
         end)
  else if is_str event "registration_failed" then
    let reason := to_String (or (prop (get data "result") "reason") (JStr "Unknown")) in
    let w1 := with_store (Store.setStatus ("Registration failed: " +:+ reason))
                (with_store (Store.setRegistered false) w) in
    (set_sessionStorage (Persisted.clearCallState (sessionStorage w1))
       (set_pendingReconnectRef None w1), [])
  else if is_str event "calling" then
    (with_store (Store.setStatus "Calling...") (with_store (Store.setCalling true) w), [])
  else if is_str event "ringing" then
    (with_store (Store.setStatus "Ringing...") w, [])
  else if is_str event "progress" then
    (with_store (Store.setStatus "Connecting...") w,
     match jsep with Some j => [RunRemoteJsep j] | None => [] end)
  else if is_str event "accepted" then
    (with_store (Store.setStatus "In Call")
       (with_store (Store.setCalling false) (with_store (Store.setInCall true) w)),
     match jsep with Some j => [RunRemoteJsep j] | None => [] end)
  else if is_str event "hangup" then (w, invoke_onHangup w)
  else if is_str event "declining" || is_str event "missed" then (w, invoke_onHangup w)
  else (w, []).

(** *** The message router: [useHandleMessage] *)

(** [msg.jsep as { type, sdp } | undefined]: an object when the gateway sends
    one *)
Definition jsep_of (v : JValue) : option Jsep :=
  match v with
  | JObj o =>
      Some (mkJsep (to_String (get o "type"))
              (match get o "sdp" with JStr t => Some t | _ => None end))
  | _ => None
  end.

(** [msg.candidate as Record<string, unknown> | null] *)
Definition candidate_of (v : JValue) : option Obj :=
  match v with
  | JObj o => Some o
  | _ => None
  end.

(** as for [handleSipEvent]: the state at the call the router or the handler
    it calls makes last, and that call *)
Definition handleMessage (h : Host) (msg : Obj) (w : World) : World * list Task :=
  match Transport.handleMessage msg (transport w) with
  | (t, None) => (set_transport t w, [])
  | (_, Some _) =>
      let janus := get msg "janus" in
      if is_str janus "event" then
        match prop (get msg "plugindata") "data" with
        | JObj data => handleSipEvent data (jsep_of (get msg "jsep")) w
        | _ => (w, [])
        end
      else if is_str janus "trickle" then
        (handleRemoteTrickle h (candidate_of (get msg "candidate")) w, [])
      else if is_str janus "webrtcup" then (w, [])
      else if is_str janus "hangup" then (w, invoke_onHangup w)
      else if is_str janus "detached" then
        (set_transport
           (Transport.set_connection (Transport.wsRef (transport w))
              (Transport.sessionIdRef (transport w)) None (transport w)) w, [])
      else (w, [])
  end.

(** *** The component's [handleHangup] (WebRTCPhone, 269-295) *)

Definition hangup_request : Obj :=
  <["janus" := JStr "message"]> {["body" := JObj {["request" := JStr "hangup"]}]}.

(** what follows the [try]/[catch] around the request *)
Definition hangup_teardown (registered : bool) (w : World) : World :=
  let w := with_store (Store.setInCall false) w in
  let w := with_store (Store.setCalling false) w in
  let w := with_store (Store.setCurrentCallId None) w in
  let w := with_store (Store.setCurrentWsToken None) w in
  let w := set_chatOpen false w in
  let w := with_store Store.clearDtmfDigits w in
  let w := with_store (Store.setStatus (if registered then "Connected" else "Disconnected")) w in
  let w := cleanupCall w in
  set_sessionStorage (Persisted.clearCallState (sessionStorage w)) w.

(** the result says whether the callback ran to its end or is still waiting
    for the request to settle *)
Definition handleHangup (cb : HangupCallback) (a : Await) (w : World) : World * bool :=
  match cb with
  | HandleHangup registered =>
      match await_send a hangup_request w with
      | (w1, Some _) => (hangup_teardown registered w1, true)
      | (w1, None) => (w1, false)
      end
  end.

(** *** Reconnection: [useReconnectCall]

    An [async] function is a state transformer that returns, throws or is
    left suspended at an [await].  A thrown value is the message of an
    [Error], or [None] for anything else. *)
Inductive Outcome (A : Type) :=
  | Returned (a : A)
  | Threw (error : option string)
  | Suspended.
Arguments Returned {A} a.
Arguments Threw {A} error.
Arguments Suspended {A}.

Definition Async (A : Type) : Type := World → World * Outcome A.

Definition ret {A} (a : A) : Async A := λ w, (w, Returned a).
Definition throw {A} (error : option string) : Async A := λ w, (w, Threw error).
Definition bind {A B} (m : Async A) (k : A → Async B) : Async B :=
  λ w, match m w with
       | (w1, Returned a) => k a w1
       | (w1, Threw e) => (w1, Threw e)
       | (w1, Suspended) => (w1, Suspended)
       end.
Definition exec (f : World → World) : Async unit := λ w, (f w, Returned tt).

(** [try { body } catch (error) { handler } finally { final }], for a handler
    and a final block that do not throw *)
Definition try_catch_finally (body : Async unit) (handler : option string → World → World)
    (final : World → World) : Async unit :=
  λ w, match body w with
       | (w1, Returned _) => (final w1, Returned tt)
       | (w1, Threw e) => (final (handler e w1), Returned tt)
       | (w1, Suspended) => (w1, Suspended)
       end.

#[export] Instance async_ret : MRet Async := @ret.
#[export] Instance async_bind : MBind Async := λ A B k m, bind m k.

(** [await navigator.mediaDevices.getUserMedia(...)] *)
Definition await_getUserMedia (h : Host) : Async MediaStream :=
  λ w, match getUserMedia h (host w) with
       | inr stream => (called [GetUserMedia] w, Returned stream)
       | inl e => (called [GetUserMedia] w, Threw (Some e))
       end.

(** [await pc.createOffer(...)] *)
Definition await_createOffer (h : Host) (pc : nat) : Async Jsep :=
  λ w, match createOffer h (host w) pc with
       | inr offer => (called [PcCreateOffer pc] w, Returned offer)
       | inl e => (called [PcCreateOffer pc] w, Threw (Some e))
       end.

(** [await pc.setLocalDescription(offer)] *)
Definition await_setLocalDescription (h : Host) (pc : nat) (offer : Jsep) : Async unit :=
  λ w, match setLocalDescription_ok h (host w) pc offer with
       | None => (called [PcSetLocalDescription pc offer] w, Returned tt)
       | Some e => (called [PcSetLocalDescription pc offer] w, Threw (Some e))
       end.

(** [await sendMessage(msg)] *)
Definition await_sendMessage (a : Await) (msg : Obj) : Async Obj :=
  λ w, match await_send a msg w with
       | (w1, Some (Transport.Fulfilled response)) => (w1, Returned response)
       | (w1, Some (Transport.Rejected reason)) => (w1, Threw (Some reason))
       | (w1, None) => (w1, Suspended)
       end.

Definition jsep_value (j : Jsep) : JValue :=
  JObj (<["type" := JStr (jsep_type j)]>
          {["sdp" := match jsep_sdp j with Some t => JStr t | None => JUndefined end]}).

Definition reconnect_request (domain callId : string) (offer : Jsep) : Obj :=
  <["janus" := JStr "message"]>
    (<["body" := JObj (<["request" := JStr "call"]>
                        (<["uri" := JStr ("sip:webrtc@" +:+ domain)]>
                           {["headers" := JObj {["X-Call-ID" := JStr callId]}]}))]>
       {["jsep" := jsep_value offer]}).

(** the [try] block (useReconnectCall.tsx, 41-142) *)
Definition reconnect_body (h : Host) (a : Await) (preferPcma : bool)
    (state : Persisted.PersistedCallState) (domain : string) : Async unit :=
  exec cleanupCall ;;
  exec (set_remoteDescriptionSetRef false) ;;
  stream ← await_getUserMedia h;
  exec (set_localStreamRef (Some stream)) ;;
  exec (λ w, match localAudioRef w with
             | Some _ => set_localAudioRef (Some (mkAudio (Some (stream_id stream)))) w
             | None => w
             end) ;;
  pc ← (λ w, (called [NewPeerConnection (newPeerConnection h (host w)) domain] w,
              Returned (newPeerConnection h (host w))));
  exec (set_pcRef (Some pc)) ;;
  exec (called (PcAddTrack pc <$> getTracks stream)) ;;
  exec (called [SetAudioCodecPreferences pc preferPcma]) ;;
  offer ← await_createOffer h pc;
  await_setLocalDescription h pc offer ;;
  _ ← await_sendMessage a (reconnect_request domain (Persisted.callId state) offer);
  exec (with_store (Store.setEndpointId (Persisted.endpointId state))) ;;
  exec (λ w, if truthy_str (Persisted.endpointName state)
             then with_store (Store.setEndpointName (default "" (Persisted.endpointName state))) w
             else w) ;;
  exec (λ w, if truthy_str (Persisted.appName state)
             then with_store (Store.setAppName (default "" (Persisted.appName state))) w
             else w) ;;
  exec (with_store (Store.setCurrentCallId (Some (Persisted.callId state)))) ;;
  exec (λ w, if truthy_str (Persisted.wsToken state)
             then with_store (Store.setCurrentWsToken (Persisted.wsToken state)) w
             else w) ;;
  exec (with_store (Store.setCalling true)).

(** the [catch] block (useReconnectCall.tsx, 143-147) *)
Definition reconnect_catch (error : option string) (w : World) : World :=
  let w := called [ConsoleError "Reconnect failed:"] w in
  let w := with_store (Store.setStatus ("Reconnect failed: " +:+ default "Unknown" error)) w in
  let w := set_sessionStorage (Persisted.clearCallState (sessionStorage w)) w in
  cleanupCall w.

(** the [finally] block (useReconnectCall.tsx, 148-151) *)
Definition reconnect_finally (w : World) : World :=
  set_pendingReconnectRef None (with_store (Store.setReconnecting false) w).

(** [useReconnectCall] *)
Definition reconnectCall (h : Host) (a : Await) (preferPcma : bool)
    (state : Persisted.PersistedCallState) : Async unit :=
  exec (with_store (Store.setReconnecting true)) ;;
  exec (with_store (Store.setStatus "Reconnecting...")) ;;
  if negb (truthy_str (Persisted.telproDomain state)) then
    throw (Some "TelPro domain not available in stored state")
  else
    try_catch_finally
      (reconnect_body h a preferPcma state (default "" (Persisted.telproDomain state)))
      reconnect_catch reconnect_finally.

End Phone.

(** ** ChannelClient: [useCallChannel] and the message builders
    (utils/channel.ts)

    A message identifier ([crypto.randomUUID()]) and a timestamp
    ([Date.now()]) are arguments of the builder that stamps them.  [calls]
    logs the calls of the optional handlers the hook was given. *)
Module Channel.

Inductive ConnectionState := Disconnected | Connecting | Connected | Reconnecting.

Inductive ChannelMessageType :=
  | TChat | TAction | TActionResult | TStatus | TControl | TReconnect | TPing | TPong | TError.

Inductive MessageDirection := to_browser | to_ari.

Inductive ActionStatus := received | executing | completed | failed.

Inductive ControlCommand :=
  | enable_text_chat | disable_text_chat | request_context | clear_context.

Inductive ResponseMode := voice | text | both.

Inductive StatusState :=
  | s_connected | s_reconnecting | s_disconnected | call_active | call_ended
  | call_hold | call_resumed | text_chat_enabled | text_chat_disabled.

Record ChatPayload := mkChat {
  role : string;
  content : string;
  intent : option string;
  responseExpected : option bool;
  preferredResponse : option ResponseMode;
  relatedActionId : option string
}.

Record ActionPayload := mkAction {
  actionId : string;
  name : string;
  parameters : Obj;
  requiresResponse : bool
}.

Record ActionResultPayload := mkActionResult {
  result_actionId : string;
  result_status : option ActionStatus;
  success : bool;
  data : option JValue;
  error : option string;
  durationMs : option Z;
  isFinal : option bool
}.

Record StatusPayload := mkStatus { state : StatusState }.

Record ControlPayload := mkControl {
  command : ControlCommand;
  settings : option (option ResponseMode)   (* settings?: { responseMode? } *)
}.

Record ErrorPayload := mkError { code : string; message : string }.

Record ChannelMessage := mkMessage {
  type : ChannelMessageType;
  callId : string;
  messageId : string;
  timestamp : Z;
  direction : MessageDirection;
  chat : option ChatPayload;
  action : option ActionPayload;
  actionResult : option ActionResultPayload;
  status : option StatusPayload;
  control : option ControlPayload;
  reconnect : option (option string);       (* reconnect?: { lastReceivedMessageId? } *)
  error_payload : option ErrorPayload
}.

(** [createBaseMessage] completed with one payload *)
Definition createActionResultMessage (id : string) (now : Z) (callId actionId : string)
    (success : bool) (data : option JValue) (error : option string) (durationMs : option Z)
  : ChannelMessage :=
  mkMessage TActionResult callId id now to_ari None None
    (Some (mkActionResult actionId None success data error durationMs (Some true)))
    None None None None.

Definition createActionAckMessage (id : string) (now : Z) (callId actionId : string)
    (status : ActionStatus) : ChannelMessage :=
  mkMessage TActionResult callId id now to_ari None None
    (Some (mkActionResult actionId (Some status) true None None None (Some false)))
    None None None None.

Definition createAsyncActionResultMessage (id : string) (now : Z) (callId actionId : string)
    (success : bool) (data : option JValue) (error : option string) (durationMs : option Z)
  : ChannelMessage :=
  mkMessage TActionResult callId id now to_ari None None
    (Some (mkActionResult actionId (Some (if success then completed else failed))
             success data error durationMs (Some true)))
    None None None None.

Definition createControlMessage (id : string) (now : Z) (callId : string)
    (command : ControlCommand) (settings : option (option ResponseMode)) : ChannelMessage :=
  mkMessage TControl callId id now to_ari None None None None
    (Some (mkControl command settings)) None None.

Definition createEnableTextChatMessage (id : string) (now : Z) (callId : string)
    (responseMode : ResponseMode) : ChannelMessage :=
  createControlMessage id now callId enable_text_chat (Some (Some responseMode)).

Definition createDisableTextChatMessage (id : string) (now : Z) (callId : string)
  : ChannelMessage :=
  createControlMessage id now callId disable_text_chat None.

(** what the action handler answers *)
Inductive ActionResult :=
  | SyncActionResult (success : bool) (data : option JValue) (error : option string)
  | AsyncActionResult (message : option string).   (* { async: true, message? } *)

(** the handler's promise: resolved with a result, or rejected with the
    message of an [Error] ([None] for any other value) *)
Inductive HandlerOutcome :=
  | Resolves (result : ActionResult)
  | Rejects (error : option string).

Definition ActionHandler := ActionPayload → HandlerOutcome.

Record UseCallChannelOptions := mkOptions {
  opt_callId : option string;
  opt_wsToken : option string;
  onAction : option ActionHandler;
  autoReconnect : option bool;      (* default true *)
  reconnectDelay : option Z;        (* default 2000 *)
  pingInterval : option Z           (* default 30000 *)
}.

Definition autoReconnect_of (o : UseCallChannelOptions) : bool := default true (autoReconnect o).
Definition reconnectDelay_of (o : UseCallChannelOptions) : Z := default 2000%Z (reconnectDelay o).
Definition pingInterval_of (o : UseCallChannelOptions) : Z := default 30000%Z (pingInterval o).

Inductive HandlerCall :=
  | OnConnectionChange (st : ConnectionState)
  | OnError (what : string)
  | OnMessage (m : ChannelMessage)
  | OnChat (m : ChannelMessage)
  | OnStatus (m : ChannelMessage)
  | OnControl (m : ChannelMessage).

(** an armed host timer: the reconnect timeout with its delay, or the ping
    interval with its period.  A browser's timer identifiers are positive, so
    a ref that holds one is truthy. *)
Inductive TimerKind := ReconnectTimeout (delay : Z) | PingInterval (period : Z).

Record Hook := mkHook {
  connectionState : ConnectionState;
  messages : list ChannelMessage;
  lastError : option string;
  textChatEnabled : bool;
  wsRef : option Transport.ReadyState;
  reconnectTimerRef : option nat;
  pingTimerRef : option nat;
  lastMessageIdRef : option string;
  mountedRef : bool;
  timers : gmap nat TimerKind;
  next_timer : nat;
  sent : list ChannelMessage;       (* frames handed to ws.send *)
  calls : list HandlerCall
}.

Definition set_view (cs : ConnectionState) (ms : list ChannelMessage) (le : option string)
    (tc : bool) (cl : list HandlerCall) (k : Hook) : Hook :=
  mkHook cs ms le tc (wsRef k) (reconnectTimerRef k) (pingTimerRef k) (lastMessageIdRef k)
    (mountedRef k) (timers k) (next_timer k) (sent k) cl.

Definition setTextChatEnabled (b : bool) (k : Hook) : Hook :=
  set_view (connectionState k) (messages k) (lastError k) b (calls k) k.

Definition setMessages (ms : list ChannelMessage) (k : Hook) : Hook :=
  set_view (connectionState k) ms (lastError k) (textChatEnabled k) (calls k) k.

Definition call (c : HandlerCall) (k : Hook) : Hook :=
  set_view (connectionState k) (messages k) (lastError k) (textChatEnabled k)
    (calls k ++ [c]) k.

(** [updateConnectionState] *)
Definition updateConnectionState (st : ConnectionState) (k : Hook) : Hook :=
  if negb (mountedRef k) then k
  else set_view st (messages k) (lastError k) (textChatEnabled k)
         (calls k ++ [OnConnectionChange st]) k.

(** [handleError] *)
Definition handleError (what : string) (k : Hook) : Hook :=
  if negb (mountedRef k) then k
  else set_view (connectionState k) (messages k) (Some what) (textChatEnabled k)
         (calls k ++ [OnError what]) k.

Definition ws_open (k : Hook) : bool :=
  match wsRef k with
  | Some Transport.OPEN => true
  | _ => false
  end.

Definition push_sent (m : ChannelMessage) (k : Hook) : Hook :=
  mkHook (connectionState k) (messages k) (lastError k) (textChatEnabled k) (wsRef k)
    (reconnectTimerRef k) (pingTimerRef k) (lastMessageIdRef k) (mountedRef k)
    (timers k) (next_timer k) (sent k ++ [m]) (calls k).

(** [sendRawMessage]: [throws m] is the error [ws.send(JSON.stringify(m))]
    throws, if it does *)
Definition sendRawMessage (throws : ChannelMessage → option string) (m : ChannelMessage)
    (k : Hook) : Hook * bool :=
  if negb (ws_open k) then (k, false)
  else match throws m with
       | None => (push_sent m k, true)
       | Some what => (handleError what k, false)
       end.

(** [enableTextChat] *)
Definition enableTextChat (o : UseCallChannelOptions) (throws : ChannelMessage → option string)
    (id : string) (now : Z) (responseMode : ResponseMode) (k : Hook) : Hook * bool :=
  if negb (truthy_str (opt_callId o)) then (k, false)
  else
    let m := createEnableTextChatMessage id now (default "" (opt_callId o)) responseMode in
    let r := sendRawMessage throws m k in
    if r.2 then (setTextChatEnabled true r.1, true) else (r.1, false).

(** [disableTextChat] *)
Definition disableTextChat (o : UseCallChannelOptions) (throws : ChannelMessage → option string)
    (id : string) (now : Z) (k : Hook) : Hook * bool :=
  if negb (truthy_str (opt_callId o)) then (k, false)
  else
    let m := createDisableTextChatMessage id now (default "" (opt_callId o)) in
    let r := sendRawMessage throws m k in
    if r.2 then (setTextChatEnabled false r.1, true) else (r.1, false).

(** [sendAsyncActionResult] *)
Definition sendAsyncActionResult (o : UseCallChannelOptions)
    (throws : ChannelMessage → option string) (id : string) (now : Z)
    (actionId : string) (success : bool) (data : option JValue) (error : option string)
    (durationMs : option Z) (k : Hook) : Hook * bool :=
  if negb (truthy_str (opt_callId o)) then (k, false)
  else sendRawMessage throws
         (createAsyncActionResultMessage id now (default "" (opt_callId o)) actionId
            success data error durationMs) k.

(** [sendActionProgress] *)
Definition sendActionProgress (o : UseCallChannelOptions)
    (throws : ChannelMessage → option string) (id : string) (now : Z)
    (actionId : string) (status : ActionStatus) (k : Hook) : Hook * bool :=
  if negb (truthy_str (opt_callId o)) then (k, false)
  else sendRawMessage throws
         (createActionAckMessage id now (default "" (opt_callId o)) actionId status) k.

Definition set_lastMessageIdRef (v : option string) (k : Hook) : Hook :=
  mkHook (connectionState k) (messages k) (lastError k) (textChatEnabled k) (wsRef k)
    (reconnectTimerRef k) (pingTimerRef k) v (mountedRef k)
    (timers k) (next_timer k) (sent k) (calls k).

(** the [action] case of [handleMessage] (useCallChannel, 302-357): [start]
    and [now] are [Date.now()] before and after the handler, [id] stamps the
    message built *)
Definition handle_action (o : UseCallChannelOptions) (throws : ChannelMessage → option string)
    (id : string) (start now : Z) (a : ActionPayload) (k : Hook) : Hook :=
  match onAction o with
  | None => k
  | Some handler =>
      let responds := requiresResponse a && truthy_str (opt_callId o) in
      let callId := default "" (opt_callId o) in
      match handler a with
      | Resolves (AsyncActionResult _) =>
          if responds
          then (sendRawMessage throws
                  (createActionAckMessage id now callId (actionId a) received) k).1
          else k
      | Resolves (SyncActionResult success data error) =>
          if responds
          then (sendRawMessage throws
                  (createActionResultMessage id now callId (actionId a) success data error
                     (Some (now - start)%Z)) k).1
          else k
      | Rejects e =>
          if responds
          then (sendRawMessage throws
                  (createActionResultMessage id now callId (actionId a) false None
                     (Some (default "Action failed" e)) None) k).1
          else k
      end
  end.

(** [handleMessage] for a frame that parsed to [m]; a frame that does not
    parse is dropped *)
Definition handleMessage (o : UseCallChannelOptions) (throws : ChannelMessage → option string)
    (id : string) (start now : Z) (m : ChannelMessage) (k : Hook) : Hook :=
  if negb (mountedRef k) then k
  else
    let k := set_lastMessageIdRef (Some (messageId m)) k in
    let k := call (OnMessage m) k in
    match type m with
    | TChat =>
        match chat m with
        | Some _ => call (OnChat m) (setMessages (messages k ++ [m]) k)
        | None => k
        end
    | TAction =>
        match action m with
        | Some a => handle_action o throws id start now a k
        | None => k
        end
    | TStatus =>
        match status m with
        | Some st =>
            let k := match state st with
                     | text_chat_enabled => setTextChatEnabled true k
                     | text_chat_disabled => setTextChatEnabled false k
                     | _ => k
                     end in
            call (OnStatus m) k
        | None => k
        end
    | TControl =>
        match control m with
        | Some _ => call (OnControl m) k
        | None => k
        end
    | TPong => k
    | TError =>
        match error_payload m with
        | Some e => handleError (code e +:+ ": " +:+ message e) k
        | None => k
        end
    | _ => k
    end.

(** [shouldReconnect] of [ws.onclose] *)
Definition shouldReconnect (o : UseCallChannelOptions) (code : Z) : bool :=
  autoReconnect_of o && truthy_str (opt_callId o) && truthy_str (opt_wsToken o)
  && negb (code =? 1000)%Z && negb (code =? 4000)%Z
  && negb ((4001 <=? code)%Z && (code <=? 4099)%Z).

Definition clear_ping (k : Hook) : Hook :=
  match pingTimerRef k with
  | Some t =>
      mkHook (connectionState k) (messages k) (lastError k) (textChatEnabled k) (wsRef k)
        (reconnectTimerRef k) None (lastMessageIdRef k) (mountedRef k)
        (delete t (timers k)) (next_timer k) (sent k) (calls k)
  | None => k
  end.

(** [reconnectTimerRef.current = setTimeout(..., reconnectDelay)] *)
Definition schedule_reconnect (delay : Z) (k : Hook) : Hook :=
  mkHook (connectionState k) (messages k) (lastError k) (textChatEnabled k) (wsRef k)
    (Some (next_timer k)) (pingTimerRef k) (lastMessageIdRef k) (mountedRef k)
    (<[next_timer k := ReconnectTimeout delay]> (timers k)) (S (next_timer k))
    (sent k) (calls k).

(** [ws.onclose] as [connect] installs it (useCallChannel, 447-484) *)
Definition onclose (o : UseCallChannelOptions) (code : Z) (k : Hook) : Hook :=
  if negb (mountedRef k) then k
  else
    let k := clear_ping k in
    let k := setTextChatEnabled false k in
    if shouldReconnect o code
    then schedule_reconnect (reconnectDelay_of o) (updateConnectionState Reconnecting k)
    else updateConnectionState Disconnected k.

(** the terminal results sent for an action *)
Definition is_terminal_for (actionId : string) (m : ChannelMessage) : bool :=
  match actionResult m with
  | Some r => String.eqb (result_actionId r) actionId && default false (isFinal r)
  | None => false
  end.

Definition terminal_results (actionId : string) (k : Hook) : list ChannelMessage :=
  filter (λ m, is_terminal_for actionId m = true) (sent k).

(** what the specification says of a close with [code]: no reconnect and
    [Disconnected] for 1000, 4000 and 4001-4099; [Reconnecting] and a
    reconnect timeout armed with the configured delay for any other code, when
    auto-reconnect is on and the call identifier and token are present *)
Definition no_reconnect_code (code : Z) : Prop :=
  code = 1000%Z ∨ code = 4000%Z ∨ (4001 ≤ code ≤ 4099)%Z.

Definition close_behaviour (o : UseCallChannelOptions) (code : Z) (k : Hook) : Prop :=
  let k' := onclose o code k in
  (no_reconnect_code code →
     connectionState k' = Disconnected ∧
     reconnectTimerRef k' = reconnectTimerRef k ∧
     ∀ t kind, timers k' !! t = Some kind → timers k !! t = Some kind) ∧
  (¬ no_reconnect_code code →
     autoReconnect_of o = true → truthy_str (opt_callId o) = true →
     truthy_str (opt_wsToken o) = true →
     connectionState k' = Reconnecting ∧
     reconnectTimerRef k' = Some (next_timer k) ∧
     timers k' !! next_timer k = Some (ReconnectTimeout (reconnectDelay_of o)) ∧
     (reconnectDelay o = None → reconnectDelay_of o = 2000%Z)).

End Channel.

(** ** What the transport keeps, over every run *)
Module TransportInvariant.
Import Transport.

(** every resolver in the map is stored under the transaction it captured
    and has its own timeout armed, due at most 10 s from now; no promise has
    two timers; a promise with an armed timer is unsettled; no promise is
    settled twice; every promise handed out is settled or has its timer
    armed *)
Record coherent (s : State) : Prop := mkCoherent {
  co_resolver : ∀ y r, transactionsRef s !! y = Some r →
    r_transaction r = y ∧
    ∃ d, timers s !! r_timeout r = Some (mkTimer y (r_promise r) d);
  co_unique : ∀ k k' t t', timers s !! k = Some t → timers s !! k' = Some t' →
    t_promise t = t_promise t' → k = k';
  co_armed : ∀ k t, timers s !! k = Some t → settlements (t_promise t) s = [];
  co_deadline : ∀ k t, timers s !! k = Some t →
    (t_deadline t ≤ clock s + TRANSACTION_TIMEOUT)%Z;
  co_once : ∀ p, length (settlements p s) ≤ 1;
  co_pending : ∀ p, p < next_promise s → settlements p s = [] →
    ∃ k t, timers s !! k = Some t ∧ t_promise t = p
}.

End TransportInvariant.

(** ** Keeping the persisted call state alive (WebRTCPhone, 221-239;
    useInitJanus.tsx, 20-38) *)
Module Upkeep.
Import Persisted.

Definition with_startedAt (t : Z) (state : PersistedCallState) : PersistedCallState :=
  mkPersisted (callId state) (endpointId state) (endpointName state) (appName state) t
    (wsToken state) (telproDomain state).

(** [updateTimestamp]: [now] is [Date.now()] inside [loadCallState], [stamp]
    the later [Date.now()] written as [startedAt] *)
Definition updateTimestamp (tick : Z * Z) (storage : option Item) : option Item :=
  match loadCallState tick.1 storage with
  | (storage1, Some currentState) =>
      saveCallState (with_startedAt tick.2 currentState) storage1
  | (storage1, None) => storage1
  end.

(** the refreshes [ticks] made one after the other *)
Definition refreshes (ticks : list (Z * Z)) (storage : option Item) : option Item :=
  foldl (λ st tick, updateTimestamp tick st) storage ticks.

(** each refresh reads the record at most 20 s after it was last stamped *)
Fixpoint in_time (last : Z) (ticks : list (Z * Z)) : Prop :=
  match ticks with
  | [] => True
  | tick :: rest => (tick.1 - last ≤ MAX_CALL_AGE_MS)%Z ∧ in_time tick.2 rest
  end.

(** the stamp the record carries after the refreshes *)
Definition last_stamp (first : Z) (ticks : list (Z * Z)) : Z :=
  default first (snd <$> last ticks).

End Upkeep.

(** ** What a handler leaves alone *)
Module Frames.
Import Phone.

(** the transport, the media refs, the hangup callback, the component's
    state and the native log of [w'] are those of [w] *)
Definition same_media (w w' : World) : Prop :=
  transport w' = transport w ∧ pcRef w' = pcRef w ∧ localStreamRef w' = localStreamRef w ∧
  remoteAudioRef w' = remoteAudioRef w ∧ localAudioRef w' = localAudioRef w ∧
  pendingCandidatesRef w' = pendingCandidatesRef w ∧
  remoteDescriptionSetRef w' = remoteDescriptionSetRef w ∧
  onHangupRef w' = onHangupRef w ∧ chatOpen w' = chatOpen w ∧ host w' = host w.

(** the names [useHandleSipEvent] has a case for *)
Definition known_sip_events : list string :=
  ["registering"; "registered"; "registration_failed"; "calling"; "ringing";
   "progress"; "accepted"; "hangup"; "declining"; "missed"].

End Frames.

(** ** Reload: the component's mount effect (WebRTCPhone, 202-210) and the
    events that follow *)
Module Reload.
Import Phone.

(** everything but the transport of [w'] is that of [w] *)
Definition only_transport (w w' : World) : Prop :=
  store w' = store w ∧ pendingReconnectRef w' = pendingReconnectRef w ∧
  pcRef w' = pcRef w ∧ localStreamRef w' = localStreamRef w ∧
  remoteAudioRef w' = remoteAudioRef w ∧ localAudioRef w' = localAudioRef w ∧
  pendingCandidatesRef w' = pendingCandidatesRef w ∧
  remoteDescriptionSetRef w' = remoteDescriptionSetRef w ∧
  onHangupRef w' = onHangupRef w ∧ chatOpen w' = chatOpen w ∧
  sessionStorage w' = sessionStorage w ∧ host w' = host w.

(** the mount effect, at time [now]: the world after it, and the domain
    [initJanus] is called with, if it is called *)
Definition restore_on_mount (now : Z) (w : World) : World * option string :=
  match Store.restoreFromPersistedState now (store w) (sessionStorage w) with
  | (st, storage, Some storedState) =>
      (set_pendingReconnectRef (Some storedState)
         (set_sessionStorage storage (with_store (λ _, st) w)),
       if truthy_str (Persisted.telproDomain storedState)
       then Persisted.telproDomain storedState else None)
  | (st, storage, None) => (set_sessionStorage storage (with_store (λ _, st) w), None)
  end.

(** SIP events handled one after the other; the tasks they start, in order *)
Definition sip_events (evs : list (Obj * option Jsep)) (w : World) : World * list Task :=
  foldl (λ acc ev, let r := handleSipEvent ev.1 ev.2 acc.1 in (r.1, acc.2 ++ r.2))
    (w, []) evs.

Definition is_reconnect (t : Task) : bool :=
  match t with
  | LaterReconnect _ => true
  | _ => false
  end.

Definition names (name : string) (ev : Obj * option Jsep) : bool :=
  is_str (sip_event ev.1) name.

End Reload.

(** ** The requests of a transport *)
Module Requests.
Import Transport.

(** the socket, the session, the pending requests, their timers, what was
    settled and what was sent of [s'] are those of [s] *)
Definition same_requests (s s' : State) : Prop :=
  wsRef s' = wsRef s ∧ sessionIdRef s' = sessionIdRef s ∧
  transactionsRef s' = transactionsRef s ∧ timers s' = timers s ∧
  next_timer s' = next_timer s ∧ next_promise s' = next_promise s ∧
  clock s' = clock s ∧ settled s' = settled s ∧ wire s' = wire s.

End Requests.

(** ** The channel over a connection's life (useCallChannel, 392-532,
    596-658; utils/channel.ts) *)
Module ChannelSession.
Import Channel.

(** *** Frames as they arrive *)

(** a frame with the values drawn while it is handled: the identifier of
    the answer built, and [Date.now()] before and after the action handler *)
Record Arrival := mkArrival {
  a_id : string;
  a_start : Z;
  a_now : Z;
  a_frame : ChannelMessage
}.

Definition receive (o : UseCallChannelOptions) (throws : ChannelMessage → option string)
    (arrivals : list Arrival) (k : Hook) : Hook :=
  foldl (λ k a, handleMessage o throws (a_id a) (a_start a) (a_now a) (a_frame a) k)
    k arrivals.

(** a chat frame that carries its payload *)
Definition is_chat (m : ChannelMessage) : bool :=
  match type m, chat m with
  | TChat, Some _ => true
  | _, _ => false
  end.

(** what a frame says of the text chat mode, if anything *)
Definition chat_flag (m : ChannelMessage) : option bool :=
  match type m, status m with
  | TStatus, Some st =>
      match state st with
      | text_chat_enabled => Some true
      | text_chat_disabled => Some false
      | _ => None
      end
  | _, _ => None
  end.

(** the frames [onMessage] was called with, in order *)
Definition observed (cs : list HandlerCall) : list ChannelMessage :=
  omap (λ c, match c with OnMessage m => Some m | _ => None end) cs.

(** the answer to an action, as the handler's outcome decides it *)
Definition answer (id : string) (start now : Z) (callId : string) (a : ActionPayload)
    (outcome : HandlerOutcome) : ChannelMessage :=
  match outcome with
  | Resolves (AsyncActionResult _) => createActionAckMessage id now callId (actionId a) received
  | Resolves (SyncActionResult success data error) =>
      createActionResultMessage id now callId (actionId a) success data error
        (Some (now - start)%Z)
  | Rejects e =>
      createActionResultMessage id now callId (actionId a) false None
        (Some (default "Action failed" e)) None
  end.

(** *** Messages of the connection itself *)

(** [createReconnectMessage(callId, lastReceivedMessageId)] *)
Definition createReconnectMessage (id : string) (now : Z) (callId : string)
    (lastReceivedMessageId : option string) : ChannelMessage :=
  mkMessage TReconnect callId id now to_ari None None None None None
    (Some lastReceivedMessageId) None.

(** [createPingMessage] *)
Definition createPingMessage (id : string) (now : Z) (callId : string) : ChannelMessage :=
  mkMessage TPing callId id now to_ari None None None None None None None.

(** *** The chat builders, called with the content alone as the component
    calls them *)

Definition createContextUpdateMessage (id : string) (now : Z) (callId content : string)
  : ChannelMessage :=
  mkMessage TChat callId id now to_ari
    (Some (mkChat "user" content (Some "context_update") (Some false) None None))
    None None None None None None.

Definition createTextChatMessage (id : string) (now : Z) (callId content : string)
  : ChannelMessage :=
  mkMessage TChat callId id now to_ari
    (Some (mkChat "user" content (Some "conversation") (Some true) (Some text) None))
    None None None None None None.

Definition createReadAloudMessage (id : string) (now : Z) (callId content : string)
  : ChannelMessage :=
  mkMessage TChat callId id now to_ari
    (Some (mkChat "user" content (Some "read_aloud") (Some true) (Some voice) None))
    None None None None None None.

(** what [sendContextUpdate], [sendTextChat] and [sendReadAloud] do with the
    message built *)
Definition send_recorded (o : UseCallChannelOptions) (throws : ChannelMessage → option string)
    (build : string → ChannelMessage) (k : Hook) : Hook * bool :=
  if negb (truthy_str (opt_callId o)) then (k, false)
  else
    let m := build (default "" (opt_callId o)) in
    sendRawMessage throws m (setMessages (messages k ++ [m]) k).

Definition sendContextUpdate (o : UseCallChannelOptions)
    (throws : ChannelMessage → option string) (id : string) (now : Z) (content : string)
  : Hook → Hook * bool :=
  send_recorded o throws (λ callId, createContextUpdateMessage id now callId content).

Definition sendTextChat (o : UseCallChannelOptions)
    (throws : ChannelMessage → option string) (id : string) (now : Z) (content : string)
  : Hook → Hook * bool :=
  send_recorded o throws (λ callId, createTextChatMessage id now callId content).

Definition sendReadAloud (o : UseCallChannelOptions)
    (throws : ChannelMessage → option string) (id : string) (now : Z) (content : string)
  : Hook → Hook * bool :=
  send_recorded o throws (λ callId, createReadAloudMessage id now callId content).

(** the component's [handleSendChat] (WebRTCPhone, 369-379); [input] is
    [chatInput.trim()] *)
Definition handleSendChat (o : UseCallChannelOptions)
    (throws : ChannelMessage → option string) (id : string) (now : Z) (input : string)
    (k : Hook) : Hook :=
  if negb (truthy_str (Some input)) then k
  else if textChatEnabled k then (sendTextChat o throws id now input k).1
  else (sendContextUpdate o throws id now input k).1.

(** *** Connecting and disconnecting *)

Definition set_ws (ws : option Transport.ReadyState) (k : Hook) : Hook :=
  mkHook (connectionState k) (messages k) (lastError k) (textChatEnabled k) ws
    (reconnectTimerRef k) (pingTimerRef k) (lastMessageIdRef k) (mountedRef k)
    (timers k) (next_timer k) (sent k) (calls k).

Definition set_mountedRef (b : bool) (k : Hook) : Hook :=
  mkHook (connectionState k) (messages k) (lastError k) (textChatEnabled k) (wsRef k)
    (reconnectTimerRef k) (pingTimerRef k) (lastMessageIdRef k) b
    (timers k) (next_timer k) (sent k) (calls k).

Definition setLastError (e : option string) (k : Hook) : Hook :=
  set_view (connectionState k) (messages k) e (textChatEnabled k) (calls k) k.

(** [if (reconnectTimerRef.current) { clearTimeout(...); ... = null }] *)
Definition clear_reconnect (k : Hook) : Hook :=
  match reconnectTimerRef k with
  | Some t =>
      mkHook (connectionState k) (messages k) (lastError k) (textChatEnabled k) (wsRef k)
        None (pingTimerRef k) (lastMessageIdRef k) (mountedRef k)
        (delete t (timers k)) (next_timer k) (sent k) (calls k)
  | None => k
  end.

(** [pingTimerRef.current = setInterval(..., pingInterval)] *)
Definition start_ping (period : Z) (k : Hook) : Hook :=
  mkHook (connectionState k) (messages k) (lastError k) (textChatEnabled k) (wsRef k)
    (reconnectTimerRef k) (Some (next_timer k)) (lastMessageIdRef k) (mountedRef k)
    (<[next_timer k := PingInterval period]> (timers k)) (S (next_timer k))
    (sent k) (calls k).

(** [connect]: [creates] is what [new WebSocket(url)] throws, if it throws:
    the message of an [Error], or [None] for another value *)
Definition connect (o : UseCallChannelOptions) (creates : option (option string)) (k : Hook)
  : Hook :=
  if negb (truthy_str (opt_callId o)) || negb (truthy_str (opt_wsToken o)) then k
  else
    let k := clear_reconnect k in
    let k := set_ws None k in
    let k := clear_ping k in
    let k := updateConnectionState Connecting k in
    match creates with
    | None => set_ws (Some Transport.CONNECTING) k
    | Some e =>
        updateConnectionState Disconnected
          (handleError (default "Failed to create WebSocket" e) k)
    end.

(** the socket held opens: [ws.onopen] (useCallChannel, 424-443) *)
Definition onopen (o : UseCallChannelOptions) (id : string) (now : Z) (k : Hook) : Hook :=
  let k := set_ws (Some Transport.OPEN) k in
  if negb (mountedRef k) then k
  else
    let k := updateConnectionState Connected k in
    let k := setLastError None k in
    let k :=
      if truthy_str (lastMessageIdRef k)
      then push_sent (createReconnectMessage id now (default "" (opt_callId o))
                        (lastMessageIdRef k)) k
      else k in
    start_ping (pingInterval_of o) k.

(** the ping interval runs *)
Definition ping (o : UseCallChannelOptions) (id : string) (now : Z) (k : Hook) : Hook :=
  if ws_open k then push_sent (createPingMessage id now (default "" (opt_callId o))) k else k.

(** the socket held closes with [code] *)
Definition close_event (o : UseCallChannelOptions) (code : Z) (k : Hook) : Hook :=
  onclose o code (set_ws (Some Transport.CLOSED) k).

(** the reconnect timeout [t] runs; it runs once *)
Definition reconnect_due (o : UseCallChannelOptions) (creates : option (option string))
    (t : nat) (k : Hook) : Hook :=
  match timers k !! t with
  | Some (ReconnectTimeout _) =>
      let k := mkHook (connectionState k) (messages k) (lastError k) (textChatEnabled k)
                 (wsRef k) (reconnectTimerRef k) (pingTimerRef k) (lastMessageIdRef k)
                 (mountedRef k) (delete t (timers k)) (next_timer k) (sent k) (calls k) in
      if mountedRef k then connect o creates k else k
  | _ => k
  end.

(** [disconnect] *)
Definition disconnect (k : Hook) : Hook :=
  let k := clear_reconnect k in
  let k := clear_ping k in
  let k := set_ws None k in
  let k := updateConnectionState Disconnected k in
  let k := setTextChatEnabled false k in
  set_lastMessageIdRef None k.

(** the component unmounts: the cleanups of the mounted effect and of the
    auto-connect effect (useCallChannel, 685-690, 723-737) *)
Definition unmount (k : Hook) : Hook :=
  set_ws None (clear_ping (clear_reconnect (set_mountedRef false k))).

(** *** A connection's life, event by event

    [Opened] and [Closed] are events of the socket the hook holds. *)
Inductive Event :=
  | Connect (creates : option (option string))
  | Opened (id : string) (now : Z)
  | Frame (a : Arrival)
  | Ping (t : nat) (id : string) (now : Z)
  | Closed (code : Z)
  | ReconnectDue (t : nat) (creates : option (option string))
  | Disconnect
  | Unmount.

Definition step (o : UseCallChannelOptions) (throws : ChannelMessage → option string)
    (e : Event) (k : Hook) : Hook :=
  match e with
  | Connect creates => connect o creates k
  | Opened id now => onopen o id now k
  | Frame a => handleMessage o throws (a_id a) (a_start a) (a_now a) (a_frame a) k
  | Ping t id now =>
      match timers k !! t with
      | Some (PingInterval _) => ping o id now k
      | _ => k
      end
  | Closed code => close_event o code k
  | ReconnectDue t creates => reconnect_due o creates t k
  | Disconnect => disconnect k
  | Unmount => unmount k
  end.

Definition run (o : UseCallChannelOptions) (throws : ChannelMessage → option string)
    (evs : list Event) (k : Hook) : Hook :=
  foldl (λ k e, step o throws e k) k evs.

(** a socket opens once, while it is connecting, and closes once *)
Definition allowed (e : Event) (k : Hook) : bool :=
  match e with
  | Opened _ _ =>
      match wsRef k with
      | Some Transport.CONNECTING => true
      | _ => false
      end
  | Closed _ =>
      match wsRef k with
      | Some Transport.CLOSED | None => false
      | Some _ => true
      end
  | _ => true
  end.

Fixpoint orderly (o : UseCallChannelOptions) (throws : ChannelMessage → option string)
    (evs : list Event) (k : Hook) : bool :=
  match evs with
  | [] => true
  | e :: rest => allowed e k && orderly o throws rest (step o throws e k)
  end.

(** the hook as it is first rendered *)
Definition initial : Hook :=
  mkHook Disconnected [] None false None None None None true ∅ 0 [] [].

(** every armed timer is the one its ref holds, with the period configured;
    the reconnect ref holds an armed timeout and the socket held is closed,
    the ping ref holds an armed interval and the socket held is open; an
    unmounted hook has no timer *)
Record tidy (o : UseCallChannelOptions) (k : Hook) : Prop := mkTidy {
  tidy_timer : ∀ t kind, timers k !! t = Some kind →
    (reconnectTimerRef k = Some t ∧ kind = ReconnectTimeout (reconnectDelay_of o)) ∨
    (pingTimerRef k = Some t ∧ kind = PingInterval (pingInterval_of o));
  tidy_fresh : ∀ t kind, timers k !! t = Some kind → t < next_timer k;
  tidy_ping : ∀ t, pingTimerRef k = Some t →
    wsRef k = Some Transport.OPEN ∧ timers k !! t = Some (PingInterval (pingInterval_of o));
  tidy_reconnect : ∀ t, reconnectTimerRef k = Some t →
    wsRef k = Some Transport.CLOSED ∧
    timers k !! t = Some (ReconnectTimeout (reconnectDelay_of o)) ∧
    truthy_str (opt_callId o) = true ∧ truthy_str (opt_wsToken o) = true;
  tidy_unmounted : mountedRef k = false → ∀ t, timers k !! t = None
}.

End ChannelSession.

(** ** The dial pad: [useSendDtmf], [playDtmfTone] and the store's digit
    actions *)
Module Dialpad.
Import Phone.

(** the own properties of [DTMF_FREQUENCIES] *)
Definition DTMF_FREQUENCIES : list (string * (Z * Z)) :=
  [("1", (697, 1209)); ("2", (697, 1336)); ("3", (697, 1477));
   ("4", (770, 1209)); ("5", (770, 1336)); ("6", (770, 1477));
   ("7", (852, 1209)); ("8", (852, 1336)); ("9", (852, 1477));
   ("*", (941, 1209)); ("0", (941, 1336)); ("#", (941, 1477))]%Z.

Definition frequencies (digit : string) : option (Z * Z) :=
  match list_find (λ e, e.1 = digit) DTMF_FREQUENCIES with
  | Some (_, (_, tone)) => Some tone
  | None => None
  end.

(** the phone and the tones started on the audio output, in order *)
Record Pad := mkPad {
  world : World;
  tones : list (Z * Z)
}.

(** [playDtmfTone]: [audio_ok] says whether the Web Audio calls go through;
    when they throw, and for a key that names no pair of frequencies, no tone
    starts and nothing is thrown *)
Definition playDtmfTone (audio_ok : bool) (digit : string) (p : Pad) : Pad :=
  match frequencies digit with
  | Some tone => if audio_ok then mkPad (world p) (tones p ++ [tone]) else p
  | None => p
  end.

(** [appendDtmfDigit] *)
Definition appendDtmfDigit (digit : string) : Store.PhoneStore → Store.PhoneStore :=
  Store.with_callData
    (λ d, Store.mkCallData (Store.endpointId d) (Store.endpointName d) (Store.appName d)
            (Store.currentCallId d) (Store.currentWsToken d) (Store.telproDomain d)
            (Store.dtmfDigits d +:+ digit)).

Definition dtmf_request (digit : string) : Obj :=
  <["janus" := JStr "message"]>
    {["body" := JObj (<["request" := JStr "dtmf_info"]> {["digit" := JStr digit]})]}.

(** [useSendDtmf]; the callback is created anew whenever [inCall] changes,
    so the value it captured is the store's *)
Definition sendDtmf (audio_ok : bool) (digit : string) (a : Await) (p : Pad)
  : Pad * Outcome unit :=
  let p := playDtmfTone audio_ok digit p in
  let w := with_store (appendDtmfDigit digit) (world p) in
  if negb (Store.inCall (Store.connection (store w))) then (mkPad w (tones p), Returned tt)
  else
    match await_sendMessage a (dtmf_request digit) w with
    | (w1, Returned _) => (mkPad w1 (tones p), Returned tt)
    | (w1, Threw _) => (mkPad w1 (tones p), Returned tt)
    | (w1, Suspended) => (mkPad w1 (tones p), Suspended)
    end.

(** a key pressed: the digit, whether the audio output works, and what
    happens to the request while the caller waits *)
Record Press := mkPress {
  key : string;
  audible : bool;
  wait : Await
}.

(** keys pressed one after the other *)
Definition dial (presses : list Press) (p : Pad) : Pad :=
  foldl (λ p k, (sendDtmf (audible k) (key k) (wait k) p).1) p presses.

Definition digits (presses : list Press) : string :=
  foldr (λ k rest, key k +:+ rest) "" presses.

End Dialpad.

(** ** Playing the remote audio: [useTryPlayAudio], [useEnableAudio] and the
    [ontrack] handler of [useMakeCall] and [useReconnectCall] *)
Module Playback.
Import Phone.

(** what [audio.play()] does: it resolves, it is rejected with a
    [NotAllowedError], or it is rejected with something else *)
Inductive PlayOutcome := Plays | NotAllowed | Fails.

(** [useTryPlayAudio] *)
Definition tryPlayAudio (play : PlayOutcome) (w : World) : World :=
  match remoteAudioRef w with
  | Some audio =>
      match srcObject audio with
      | Some _ =>
          match play with
          | Plays => with_store (Store.setAudioBlocked false) w
          | NotAllowed => with_store (Store.setAudioBlocked true) w
          | Fails => called [ConsoleError "Audio playback failed:"] w
          end
      | None => w
      end
  | None => w
  end.

(** [useEnableAudio] *)
Definition enableAudio (play : PlayOutcome) (w : World) : World :=
  match remoteAudioRef w with
  | Some _ =>
      match play with
      | Plays => with_store (Store.setAudioBlocked false) w
      | _ => called [ConsoleError "Failed to enable audio:"] w
      end
  | None => w
  end.

(** [pc.ontrack]: [stream] is [event.streams[0]] *)
Definition ontrack (stream : option nat) (play : PlayOutcome) (w : World) : World :=
  match stream, remoteAudioRef w with
  | Some s, Some _ => tryPlayAudio play (set_remoteAudioRef (Some (mkAudio (Some s))) w)
  | _, _ => w
  end.

Inductive Event :=
  | Track (stream : option nat) (play : PlayOutcome)
  | TryPlay (play : PlayOutcome)
  | Enable (play : PlayOutcome)
  | Cleanup.

Definition step (e : Event) (w : World) : World :=
  match e with
  | Track stream play => ontrack stream play w
  | TryPlay play => tryPlayAudio play w
  | Enable play => enableAudio play w
  | Cleanup => cleanupCall w
  end.

Definition run (evs : list Event) (w : World) : World := foldl (λ w e, step e w) w evs.

(** the browser refused to play in one of the events *)
Definition refused (e : Event) : bool :=
  match e with
  | Track (Some _) NotAllowed | TryPlay NotAllowed => true
  | _ => false
  end.

Definition blocked (w : World) : bool := Store.audioBlocked (Store.ui (store w)).

End Playback.

(** ** Derived URLs (utils/getDerivedUrl.ts; the store's [getDerivedUrlsFor]) *)
Module Urls.

Record IceServer := mkIce {
  urls : string + list string;      (* urls: string | string[] *)
  username : option string;
  credential : option string
}.

Record Settings := mkSettings {
  janusDomain : string;
  apiDomain : string;
  janusUrl : option string;
  iceServers : option (list IceServer);
  apiUrl : option string
}.

Record DerivedUrls := mkUrls {
  janusServer : string;
  telapiUrl : string;
  telapiWsUrl : string;
  derivedIceServers : list IceServer
}.

Definition isLocalhost (apiDomain : string) : bool :=
  String.eqb apiDomain "localhost" || String.prefix "127.0.0.1" apiDomain
  || String.prefix "localhost:" apiDomain.

Definition defaultIceServers (janusDomain : string) : list IceServer :=
  [mkIce (inl ("stun:" +:+ janusDomain +:+ ":3478")) None None;
   mkIce (inr ["turn:" +:+ janusDomain +:+ ":3478?transport=udp";
               "turn:" +:+ janusDomain +:+ ":3478?transport=tcp"])
     (Some "telpro") (Some "changeme")].

Definition getDerivedUrls (settings : Settings) : DerivedUrls :=
  let httpProtocol := if isLocalhost (apiDomain settings) then "http" else "https" in
  let wsProtocol := if isLocalhost (apiDomain settings) then "ws" else "wss" in
  let janusUrl :=
    if truthy_str (janusUrl settings) then default "" (janusUrl settings)
    else wsProtocol +:+ "://" +:+ janusDomain settings in
  let apiUrl :=
    if truthy_str (apiUrl settings) then default "" (apiUrl settings)
    else httpProtocol +:+ "://" +:+ apiDomain settings in
  mkUrls janusUrl apiUrl (wsProtocol +:+ "://" +:+ apiDomain settings)
    (default (defaultIceServers (janusDomain settings)) (iceServers settings)).

(** the optional fields of the store's call data, which [setCallData] writes
    from the configuration *)
Record Overrides := mkOverrides {
  o_janusUrl : option string;
  o_apiUrl : option string;
  o_iceServers : option (list IceServer)
}.

(** [getDerivedUrlsFor] *)
Definition getDerivedUrlsFor (ov : Overrides) (st : Store.PhoneStore) (apiDomain : string)
  : DerivedUrls :=
  getDerivedUrls
    (mkSettings (Store.or_empty (Store.telproDomain (Store.callData st))) apiDomain
       (o_janusUrl ov) (o_iceServers ov) (o_apiUrl ov)).

(** the URL asks for a secure transport *)
Definition secure (url : string) : bool :=
  String.prefix "https://" url || String.prefix "wss://" url.

End Urls.

(** ** Placing a call: [useRequestCallToken] and [useMakeCall] *)
Module Calling.
Import Phone Urls.

Record WebRTCConfig := mkConfig {
  cfg_apiDomain : string;
  cfg_apiKey : string;
  cfg_preferPcma : option bool      (* default true *)
}.

Record CallTokenResponse := mkToken {
  tk_callId : string;
  tk_wsToken : string;
  tk_telproDomain : option string
}.

(** the request [fetch] is called with *)
Record Request := mkRequest {
  req_url : string;
  req_apiKey : string;
  req_endpointId : string
}.

(** what becomes of the request: [fetch] is rejected; the response is not
    [ok], with its status and its body when that parses to an object; the
    response is [ok], and its body parses to the token or fails to parse *)
Inductive FetchOutcome :=
  | FetchRejects (message : string)
  | NotOk (status : Z) (body : option Obj)
  | Ok (data : string + CallTokenResponse).

(** the phone, the requests made and the ICE servers each peer connection
    was created with *)
Record Caller := mkCaller {
  world : World;
  fetched : list Request;
  configured : list (nat * list IceServer)
}.

Definition CallM (A : Type) : Type := Caller → Caller * Outcome A.

Definition call_ret {A} (a : A) : CallM A := λ c, (c, Returned a).
Definition call_bind {A B} (m : CallM A) (k : A → CallM B) : CallM B :=
  λ c, match m c with
       | (c1, Returned a) => k a c1
       | (c1, Threw e) => (c1, Threw e)
       | (c1, Suspended) => (c1, Suspended)
       end.
Definition call_throw {A} (error : option string) : CallM A := λ c, (c, Threw error).

(** a step of the phone alone *)
Definition lift {A} (m : Async A) : CallM A :=
  λ c, let r := m (world c) in (mkCaller r.1 (fetched c) (configured c), r.2).

Definition in_world (f : World → World) : CallM unit := lift (exec f).

(** [try { body } catch (error) { handler }], for a handler that does not
    throw *)
Definition try_catch {A} (body : CallM A) (handler : option string → CallM A) : CallM A :=
  λ c, match body c with
       | (c1, Threw e) => handler e c1
       | r => r
       end.

(** [haystack.includes(needle)] *)
Fixpoint includes (needle haystack : string) : bool :=
  String.prefix needle haystack ||
  match haystack with
  | EmptyString => false
  | String _ rest => includes needle rest
  end.

(** the [try] block of [useRequestCallToken] *)
Definition token_fetch (fetch : Request → FetchOutcome) (req : Request)
  : CallM CallTokenResponse :=
  λ c,
    let c := mkCaller (world c) (fetched c ++ [req]) (configured c) in
    match fetch req with
    | FetchRejects message => (c, Threw (Some message))
    | NotOk status body =>
        let error := default {["error" := JStr "Unknown error"]} body in
        (c, Threw (Some (to_String
                           (or (get error "error")
                               (JStr ("Failed to get call token: " +:+ pretty status))))))
    | Ok (inl message) => (c, Threw (Some message))
    | Ok (inr data) => (c, Returned data)
    end.

(** [useRequestCallToken]; [telapiUrl] is the value the hook memoised *)
Definition requestCallToken (cfg : WebRTCConfig) (telapiUrl : string)
    (fetch : Request → FetchOutcome) (targetEndpointId : string) : CallM CallTokenResponse :=
  if negb (truthy_str (Some (cfg_apiDomain cfg))) then
    call_throw (Some "API domain not configured. Please set apiDomain in webrtcConfig.")
  else if negb (truthy_str (Some (cfg_apiKey cfg))) then
    call_throw (Some "API key not configured. Please set apiKey in webrtcConfig.")
  else
    try_catch
      (token_fetch fetch
         (mkRequest (telapiUrl +:+ "/api/v1/calls/token") (cfg_apiKey cfg) targetEndpointId))
      (λ error,
         if includes "Failed to fetch" (default "" error) && bool_decide (is_Some error)
         then call_throw
                (Some ("Network error: Cannot reach " +:+ cfg_apiDomain cfg +:+
                       ". Check your network connection and API domain configuration."))
         else call_throw error).

(** [setTelproDomain] *)
Definition setTelproDomain (v : option string) : Store.PhoneStore → Store.PhoneStore :=
  Store.with_callData
    (λ d, Store.mkCallData (Store.endpointId d) (Store.endpointName d) (Store.appName d)
            (Store.currentCallId d) (Store.currentWsToken d) v (Store.dtmfDigits d)).

(** the call request (useMakeCall, 161-177) *)
Definition call_request (domain : string) (callId : option string) (offer : Jsep) : Obj :=
  let body : Obj :=
    <["request" := JStr "call"]> {["uri" := JStr ("sip:webrtc@" +:+ domain)]} in
  let body : Obj :=
    if truthy_str callId
    then <["headers" := JObj {["X-Call-ID" := JStr (default "" callId)]}]> body
    else body in
  <["janus" := JStr "message"]>
    (<["body" := JObj body]> {["jsep" := jsep_value offer]}).

#[export] Instance caller_ret : MRet CallM := @call_ret.
#[export] Instance caller_bind : MBind CallM := λ A B k m, call_bind m k.

(** the token step (useMakeCall, 73-104): the call and token identifiers the
    call goes on with *)
Definition acquire_token (cfg : WebRTCConfig) (telapiUrl : string)
    (fetch : Request → FetchOutcome) (now : Z)
    (endpointId endpointName appName : string) (currentCallId currentWsToken : option string)
  : CallM (option string * option string) :=
  if negb (truthy_str currentCallId) && truthy_str (Some (cfg_apiKey cfg)) then
    in_world (with_store (Store.setStatus "Requesting call token...")) ;;
    try_catch
      (tokenResponse ← requestCallToken cfg telapiUrl fetch endpointId;
       in_world (with_store (Store.setCurrentCallId (Some (tk_callId tokenResponse)))) ;;
       in_world (with_store (Store.setCurrentWsToken (Some (tk_wsToken tokenResponse)))) ;;
       in_world (λ w, if truthy_str (tk_telproDomain tokenResponse)
                      then with_store (setTelproDomain (tk_telproDomain tokenResponse)) w
                      else w) ;;
       in_world (λ w, set_sessionStorage
                        (Persisted.saveCallState
                           (Persisted.mkPersisted (tk_callId tokenResponse) endpointId
                              (Some endpointName) (Some appName) now
                              (Some (tk_wsToken tokenResponse))
                              (Store.or_null (tk_telproDomain tokenResponse)))
                           (sessionStorage w)) w) ;;
       mret (Some (tk_callId tokenResponse), Some (tk_wsToken tokenResponse)))
      (λ _, mret (currentCallId, currentWsToken))
  else mret (currentCallId, currentWsToken).

(** [new RTCPeerConnection({ iceServers })] *)
Definition new_peer_connection (h : Host) (domain : string) (servers : list IceServer)
  : CallM nat :=
  λ c, let pc := newPeerConnection h (host (world c)) in
       (mkCaller (called [NewPeerConnection pc domain] (world c)) (fetched c)
          (configured c ++ [(pc, servers)]), Returned pc).

(** the [try] block from the microphone on (useMakeCall, 106-177) *)
Definition negotiate (h : Host) (cfg : WebRTCConfig) (a : Await)
    (domain : string) (servers : list IceServer) (callId : option string) : CallM unit :=
  in_world (with_store (Store.setStatus "Getting microphone...")) ;;
  stream ← lift (await_getUserMedia h);
  in_world (set_localStreamRef (Some stream)) ;;
  in_world (λ w, match localAudioRef w with
                 | Some _ => set_localAudioRef (Some (mkAudio (Some (stream_id stream)))) w
                 | None => w
                 end) ;;
  pc ← new_peer_connection h domain servers;
  in_world (set_pcRef (Some pc)) ;;
  in_world (called (PcAddTrack pc <$> getTracks stream)) ;;
  in_world (called [SetAudioCodecPreferences pc (default true (cfg_preferPcma cfg))]) ;;
  offer ← lift (await_createOffer h pc);
  lift (await_setLocalDescription h pc offer) ;;
  currentTelproDomain ← (λ c, (c, Returned (Store.telproDomain
                                              (Store.callData (store (world c))))));
  if negb (truthy_str currentTelproDomain) then
    call_throw (Some "TelPro domain not available. Please ensure call token was received.")
  else
    _ ← lift (await_sendMessage a
                (call_request (default "" currentTelproDomain) callId offer));
    mret tt.

(** the [try] block (useMakeCall, 69-177) *)
Definition call_body (h : Host) (cfg : WebRTCConfig) (telapiUrl : string)
    (fetch : Request → FetchOutcome) (now : Z) (a : Await)
    (domain : string) (servers : list IceServer)
    (endpointId endpointName appName : string) (currentCallId currentWsToken : option string)
  : CallM unit :=
  in_world (with_store (Store.setCalling true)) ;;
  in_world (with_store (Store.setStatus "Setting up call...")) ;;
  ids ← acquire_token cfg telapiUrl fetch now endpointId endpointName appName
          currentCallId currentWsToken;
  negotiate h cfg a domain servers ids.1.

(** the [catch] block (useMakeCall, 178-185) *)
Definition call_catch (error : option string) (w : World) : World :=
  let w := called [ConsoleError "Call failed:"] w in
  let w := with_store (Store.setCalling false) w in
  let w := with_store (Store.setCurrentCallId None) w in
  let w := with_store (Store.setCurrentWsToken None) w in
  let w := with_store (Store.setStatus ("Call failed: " +:+ default "Unknown" error)) w in
  cleanupCall w.

(** [useMakeCall]; the state is read from the store when the call starts *)
Definition makeCall (h : Host) (cfg : WebRTCConfig) (ov : Overrides) (telapiUrl : string)
    (fetch : Request → FetchOutcome) (now : Z) (a : Await) : CallM unit :=
  λ c,
    let st := store (world c) in
    let d := Store.callData st in
    if negb (Store.registered (Store.connection st)) then (c, Returned tt)
    else if negb (truthy_str (Some (Store.endpointId d))) then (c, Returned tt)
    else
      try_catch
        (call_body h cfg telapiUrl fetch now a
           (Store.or_empty (Store.telproDomain d))
           (derivedIceServers (getDerivedUrlsFor ov st (cfg_apiDomain cfg)))
           (Store.endpointId d) (Store.endpointName d) (Store.appName d)
           (Store.currentCallId d) (Store.currentWsToken d))
        (λ error, in_world (call_catch error)) c.

End Calling.

(** ** What a step of a call keeps *)
Module CallingLogic.
Import Phone Calling.

(** the parts of the phone a token request may write: the status, the call
    and token identifiers, the signalling domain and the persisted state *)
Definition token_frame (w w' : World) : Prop :=
  Frames.same_media w w' ∧ pendingReconnectRef w' = pendingReconnectRef w ∧
  Store.ui (store w') = Store.ui (store w) ∧
  Store.connected (Store.connection (store w')) = Store.connected (Store.connection (store w)) ∧
  Store.registered (Store.connection (store w'))
    = Store.registered (Store.connection (store w)) ∧
  Store.calling (Store.connection (store w')) = Store.calling (Store.connection (store w)) ∧
  Store.inCall (Store.connection (store w')) = Store.inCall (Store.connection (store w)) ∧
  Store.endpointId (Store.callData (store w')) = Store.endpointId (Store.callData (store w)) ∧
  Store.dtmfDigits (Store.callData (store w')) = Store.dtmfDigits (Store.callData (store w)).

End CallingLogic.

(** ** The gateway session: [useInitJanus], [useCleanupJanus] and the
    component's [handleDisconnect] (WebRTCPhone, 311-316) *)
Module Session.
Import Phone.

(** the phone with the refs of the session: the two initialisation flags,
    the keepalive interval, the intervals armed with their periods, and the
    URLs sockets were opened to *)
Record Refs := mkRefs {
  world : World;
  initializingRef : bool;
  initializedRef : bool;
  keepAliveRef : option nat;
  intervals : gmap nat Z;
  next_interval : nat;
  sockets : list string
}.

Definition Job (A : Type) : Type := Refs → Refs * Outcome A.

Definition job_ret {A} (a : A) : Job A := λ s, (s, Returned a).
Definition job_bind {A B} (m : Job A) (k : A → Job B) : Job B :=
  λ s, match m s with
       | (s1, Returned a) => k a s1
       | (s1, Threw e) => (s1, Threw e)
       | (s1, Suspended) => (s1, Suspended)
       end.
Definition job_throw {A} (error : option string) : Job A := λ s, (s, Threw error).

Definition set_world (w : World) (s : Refs) : Refs :=
  mkRefs w (initializingRef s) (initializedRef s) (keepAliveRef s) (intervals s)
    (next_interval s) (sockets s).

Definition set_flags (initializing initialized : bool) (s : Refs) : Refs :=
  mkRefs (world s) initializing initialized (keepAliveRef s) (intervals s)
    (next_interval s) (sockets s).

(** a step of the phone alone *)
Definition lift {A} (m : Async A) : Job A :=
  λ s, let r := m (world s) in (set_world r.1 s, r.2).

Definition in_world (f : World → World) : Job unit := lift (exec f).

#[export] Instance session_ret : MRet Job := @job_ret.
#[export] Instance session_bind : MBind Job := λ A B k m, job_bind m k.

(** what becomes of [new WebSocket(url, 'janus-protocol')] and of the wait
    for it: the constructor throws; the socket opens; it fails; neither
    happens within 10 s *)
Inductive Connecting :=
  | SocketThrows (message : string)
  | Opens
  | Errors
  | TimesOut.

Definition set_ws (ws : option Transport.ReadyState) (w : World) : World :=
  set_transport
    (Transport.set_connection ws (Transport.sessionIdRef (transport w))
       (Transport.handleIdRef (transport w)) (transport w)) w.

Definition set_sessionId (sid : option Z) (w : World) : World :=
  set_transport
    (Transport.set_connection (Transport.wsRef (transport w)) sid
       (Transport.handleIdRef (transport w)) (transport w)) w.

Definition set_handleId (hid : option Z) (w : World) : World :=
  set_transport
    (Transport.set_connection (Transport.wsRef (transport w))
       (Transport.sessionIdRef (transport w)) hid (transport w)) w.

(** the socket is created and waited for (useInitJanus.tsx, 59-74) *)
Definition open_socket (connecting : Connecting) (url : string) : Job unit :=
  λ s,
    let opened ws :=
      mkRefs (set_ws (Some ws) (world s)) (initializingRef s) (initializedRef s)
        (keepAliveRef s) (intervals s) (next_interval s) (sockets s ++ [url]) in
    match connecting with
    | SocketThrows message => (s, Threw (Some message))
    | Opens => (opened Transport.OPEN, Returned tt)
    | Errors =>
        let s1 := opened Transport.CLOSED in
        (set_world (called [ConsoleError "WebSocket error:"] (world s1)) s1,
         Threw (Some "Connection failed"))
    | TimesOut => (opened Transport.CONNECTING, Threw (Some "Connection timeout"))
    end.

(** [keepAliveRef.current = setInterval(..., 25000)] *)
Definition start_keepalive : Job unit :=
  λ s, (mkRefs (world s) (initializingRef s) (initializedRef s) (Some (next_interval s))
          (<[next_interval s := 25000%Z]> (intervals s)) (S (next_interval s)) (sockets s),
        Returned tt).

(** [(resp.data as Record<string, unknown>)?.id as number]: the number the
    gateway sends *)
Definition id_of (resp : Obj) : option Z :=
  match prop (get resp "data") "id" with
  | JNum n => Some n
  | _ => None
  end.

Definition create_request : Obj := {["janus" := JStr "create"]}.

Definition attach_request : Obj :=
  <["janus" := JStr "attach"]> {["plugin" := JStr "janus.plugin.sip"]}.

Definition register_request (hostname domain : string) : Obj :=
  <["janus" := JStr "message"]>
    {["body" := JObj (<["request" := JStr "register"]>
                        (<["type" := JStr "guest"]>
                           (<["username" := JStr ("sip:" +:+ hostname +:+ "@" +:+ domain)]>
                              {["proxy" := JStr ("sip:" +:+ domain)]})))]}.

(** the requests of the handshake wait on [create], [attach] and
    [register] *)
Record Handshake := mkHandshake {
  on_create : Await;
  on_attach : Await;
  on_register : Await
}.

(** [initializedRef.current = true; initializingRef.current = false] *)
Definition mark_initialized : Job unit := λ s, (set_flags false true s, Returned tt).

(** the store's domain, when none is given: [providedTelproDomain ||
    telproDomain] *)
Definition domain_to_use (providedTelproDomain : option string) : Job (option string) :=
  λ s, (s, Returned (if truthy_str providedTelproDomain then providedTelproDomain
                     else Store.telproDomain (Store.callData (store (world s))))).

(** the [try] block (useInitJanus.tsx, 48-133): [hostname] is
    [window.location.hostname], [janusUrl] the override of the call data *)
Definition init_body (connecting : Connecting) (hostname : string)
    (janusUrl : option string) (hs : Handshake) (providedTelproDomain : option string)
  : Job unit :=
  domainToUse ← domain_to_use providedTelproDomain;
  if negb (truthy_str domainToUse) then
    job_throw (Some "TelPro domain is required to initialize Janus")
  else
    let domain := default "" domainToUse in
    let janusServerUrl :=
      if truthy_str janusUrl then default "" janusUrl else "wss://" +:+ domain in
    in_world (with_store (Store.setStatus "Connecting...")) ;;
    open_socket connecting janusServerUrl ;;
    in_world (with_store (Store.setStatus "Creating session...")) ;;
    createResp ← lift (await_sendMessage (on_create hs) create_request);
    in_world (set_sessionId (id_of createResp)) ;;
    start_keepalive ;;
    in_world (with_store (Store.setStatus "Attaching SIP plugin...")) ;;
    attachResp ← lift (await_sendMessage (on_attach hs) attach_request);
    in_world (set_handleId (id_of attachResp)) ;;
    in_world (with_store (Store.setStatus "Registering...")) ;;
    _ ← lift (await_sendMessage (on_register hs) (register_request hostname domain));
    mark_initialized.

(** the [catch] block (useInitJanus.tsx, 134-138) *)
Definition init_catch (error : option string) (s : Refs) : Refs :=
  let w := called [ConsoleError "Init failed:"] (world s) in
  let w := with_store (Store.setStatus ("Failed: " +:+ default "Unknown" error)) w in
  set_flags false (initializedRef s) (set_world w s).

(** [useInitJanus] *)
Definition initJanus (connecting : Connecting) (hostname : string)
    (janusUrl : option string) (hs : Handshake) (providedTelproDomain : option string)
  : Job unit :=
  λ s,
    if initializingRef s || initializedRef s then (s, Returned tt)
    else
      match init_body connecting hostname janusUrl hs providedTelproDomain
              (set_flags true (initializedRef s) s) with
      | (s1, Threw e) => (init_catch e s1, Returned tt)
      | r => r
      end.

(** [ws.onclose] as [initJanus] installs it (useInitJanus.tsx, 84-92) *)
Definition clear_keepalive (s : Refs) : Refs :=
  match keepAliveRef s with
  | Some t =>
      mkRefs (world s) (initializingRef s) (initializedRef s) None
        (delete t (intervals s)) (next_interval s) (sockets s)
  | None => s
  end.

Definition onclose (s : Refs) : Refs :=
  let w := with_store (Store.setRegistered false)
             (with_store (Store.setConnected false) (world s)) in
  clear_keepalive (set_world w s).

(** [useCleanupJanus] *)
Definition cleanupJanus (s : Refs) : Refs :=
  let s := set_world (cleanupCall (world s)) s in
  let s := clear_keepalive s in
  let s := set_world (set_transport (Transport.cleanupJanus (transport (world s)))
                        (world s)) s in
  let s := set_flags false false s in
  set_world
    (with_store (Store.setCalling false)
       (with_store (Store.setInCall false)
          (with_store (Store.setRegistered false)
             (with_store (Store.setConnected false) (world s))))) s.

(** [setInitialized] of the store *)
Definition setInitialized (b : bool) : Store.PhoneStore → Store.PhoneStore :=
  Store.with_connection
    (λ c, Store.mkConnection (Store.connected c) (Store.registered c) (Store.calling c)
            (Store.inCall c) b (Store.reconnecting c) (Store.status c)).

(** the session beside the component's own [open] state ([useState],
    WebRTCPhone 136), which [setOpen] writes *)
Record Component := mkComponent {
  session : Refs;
  open : bool
}.

(** what follows the hangup in [handleDisconnect] *)
Definition disconnect_teardown (c : Component) : Component :=
  let s := cleanupJanus (session c) in
  mkComponent (set_world (with_store (setInitialized false) (world s)) s) false.

(** [handleDisconnect]: [cb] is the component's [handleHangup] *)
Definition handleDisconnect (cb : HangupCallback) (a : Await) (c : Component)
  : Component * Outcome unit :=
  let s := session c in
  let conn := Store.connection (store (world s)) in
  if Store.inCall conn || Store.calling conn then
    match handleHangup cb a (world s) with
    | (w1, true) => (disconnect_teardown (mkComponent (set_world w1 s) (open c)), Returned tt)
    | (w1, false) => (mkComponent (set_world w1 s) (open c), Suspended)
    end
  else (disconnect_teardown c, Returned tt).

End Session.

(** ** Preparing a call: [useInitializeForCall]

    The hook asks for the call token and then brings the session up with
    the signalling domain of the answer. *)
Module Preparing.
Import Phone.

(** [pendingCall] *)
Record PendingCall := mkPending {
  endpointId : string;
  endpointName : option string;
  appName : option string
}.

(** the session and the requests made *)
Record Prep := mkPrep {
  refs : Session.Refs;
  fetched : list Calling.Request
}.

Definition in_phone (f : World → World) (p : Prep) : Prep :=
  mkPrep (Session.set_world (f (Session.world (refs p))) (refs p)) (fetched p).

(** [await requestCallToken(pendingEndpointId)] *)
Definition await_requestCallToken (cfg : Calling.WebRTCConfig) (telapiUrl : string)
    (fetch : Calling.Request → Calling.FetchOutcome) (target : string) (p : Prep)
  : Prep * Outcome Calling.CallTokenResponse :=
  let r := Calling.requestCallToken cfg telapiUrl fetch target
             (Calling.mkCaller (Session.world (refs p)) (fetched p) []) in
  (mkPrep (Session.set_world (Calling.world r.1) (refs p)) (Calling.fetched r.1), r.2).

(** [await initJanus(tokenResponse.telproDomain)] *)
Definition await_initJanus (connecting : Session.Connecting) (hostname : string)
    (janusUrl : option string) (hs : Session.Handshake) (domain : option string) (p : Prep)
  : Prep * Outcome unit :=
  let r := Session.initJanus connecting hostname janusUrl hs domain (refs p) in
  (mkPrep r.1 (fetched p), r.2).

(** [x || ''] *)
Definition or_empty (x : option string) : option string :=
  if truthy_str x then x else Some "".

(** the [try] block (useInitializeForCall, 43-74): [stringify] is
    [JSON.stringify] on the token response, [now] is [Date.now()] and
    [initialized] the flag of the store the hook was rendered with *)
Definition prepare_body (cfg : Calling.WebRTCConfig) (telapiUrl : string)
    (fetch : Calling.Request → Calling.FetchOutcome)
    (stringify : Calling.CallTokenResponse → string) (now : Z)
    (connecting : Session.Connecting) (hostname : string) (janusUrl : option string)
    (hs : Session.Handshake) (pendingCall : PendingCall) (initialized : bool) (p : Prep)
  : Prep * Outcome unit :=
  let p := in_phone (with_store (Store.setStatus "Preparing call...")) p in
  match await_requestCallToken cfg telapiUrl fetch (endpointId pendingCall) p with
  | (p, Returned tokenResponse) =>
      let p := in_phone (with_store
                           (Store.setCurrentCallId (Some (Calling.tk_callId tokenResponse)))) p in
      let p := in_phone (with_store
                           (Store.setCurrentWsToken (Some (Calling.tk_wsToken tokenResponse)))) p in
      if truthy_str (Calling.tk_telproDomain tokenResponse) then
        let p := in_phone (with_store
                             (Calling.setTelproDomain (Calling.tk_telproDomain tokenResponse))) p in
        let p := in_phone
                   (λ w, set_sessionStorage
                           (Persisted.saveCallState
                              (Persisted.mkPersisted (Calling.tk_callId tokenResponse)
                                 (endpointId pendingCall)
                                 (or_empty (endpointName pendingCall))
                                 (or_empty (appName pendingCall)) now
                                 (Some (Calling.tk_wsToken tokenResponse))
                                 (Calling.tk_telproDomain tokenResponse))
                              (sessionStorage w)) w) p in
        if negb initialized && negb (Session.initializingRef (refs p)) then
          let p := in_phone (with_store (Session.setInitialized true)) p in
          await_initJanus connecting hostname janusUrl hs
            (Calling.tk_telproDomain tokenResponse) p
        else (p, Returned tt)
      else
        (p, Threw (Some ("TelPro domain not provided in call token response. Received: "
                         +:+ stringify tokenResponse)))
  | (p, Threw e) => (p, Threw e)
  | (p, Suspended) => (p, Suspended)
  end.

(** the [catch] block (useInitializeForCall, 75-79) *)
Definition prepare_catch (error : option string) (p : Prep) : Prep :=
  let p := in_phone (called [ConsoleError "Failed to prepare call:"]) p in
  let p := in_phone (with_store (Store.setStatus ("Failed: " +:+ default "Unknown" error))) p in
  in_phone (with_store (Store.setCalling false)) p.

Definition no_key : string :=
  "API key not configured. Set TELAPI_KEY environment variable.".

(** [useInitializeForCall] *)
Definition initializeForCall (cfg : Calling.WebRTCConfig) (telapiUrl : string)
    (fetch : Calling.Request → Calling.FetchOutcome)
    (stringify : Calling.CallTokenResponse → string) (now : Z)
    (connecting : Session.Connecting) (hostname : string) (janusUrl : option string)
    (hs : Session.Handshake) (pendingCall : PendingCall) (p : Prep)
  : Prep * Outcome unit :=
  if negb (truthy_str (Some (Calling.cfg_apiKey cfg))) then
    (in_phone (called [ConsoleError no_key])
       (in_phone (with_store (Store.setStatus ("Failed: " +:+ no_key))) p),
     Returned tt)
  else
    let initialized :=
      Store.initialized (Store.connection (store (Session.world (refs p)))) in
    match prepare_body cfg telapiUrl fetch stringify now connecting hostname janusUrl hs
            pendingCall initialized p with
    | (p1, Threw e) => (prepare_catch e p1, Returned tt)
    | r => r
    end.

End Preparing.

(** ** What has run when a handler returns

    A handler of the router calls [onHangupRef.current] or [handleRemoteJsep]
    as the last statement of its case, and does not wait for it.  The
    handlers of [Phone] give the state at that call and the call made, as a
    [Task].  The function called is [async]: it runs at once up to its first
    [await], so that part of it has run when the handler returns, and the
    rest runs later.  A [setTimeout] callback has not started. *)
Module Synchronous.
Import Phone.

(** [handleHangup] up to [await sendMessage(...)] (WebRTCPhone, 269-271): the
    hangup request is made, with the transaction [tx] drawn for it *)
Definition begin_hangup (tx : string) (w : World) : World :=
  set_transport (Transport.sendMessage tx hangup_request (transport w)).1 w.

(** [handleRemoteJsep] up to [await pc.setRemoteDescription(...)]
    (useHandleRemoteJsep, 10-19) *)
Definition begin_remoteJsep (jsep : Jsep) (w : World) : World :=
  match pcRef w with
  | None => w
  | Some pc => called [PcSetRemoteDescription pc jsep] w
  end.

(** the part of a task that runs inside the handler that starts it *)
Definition begin (tx : string) (task : Task) (w : World) : World :=
  match task with
  | RunHangup (HandleHangup _) => begin_hangup tx w
  | RunRemoteJsep jsep => begin_remoteJsep jsep w
  | LaterReconnect _ => w
  end.

(** the state when the handler returns: [r] is what the handler gives, and
    [tx] the transaction drawn if a request is made *)
Definition at_return (tx : string) (r : World * list Task) : World :=
  foldl (λ w task, begin tx task w) r.1 r.2.

(** the events that end the call, and those that may carry the answer *)
Definition ends_call (data : Obj) : bool :=
  is_str (sip_event data) "hangup" || is_str (sip_event data) "declining"
  || is_str (sip_event data) "missed".

Definition answers (data : Obj) : bool :=
  is_str (sip_event data) "progress" || is_str (sip_event data) "accepted".

End Synchronous.

(** * Properties *)

Section JSFacts.

Lemma is_str_true v lit : is_str v lit = true -> v = JStr lit.
Proof.
  destruct v; simpl; try discriminate.
  intros H. apply String.eqb_eq in H. by subst.
Qed.

End JSFacts.

(** ** GatewayTransport *)
Section TransportFacts.
Import Transport.

Lemma settlements_snoc p q o (l : list (nat * Settlement)) :
  (filter (λ e : nat * Settlement, e.1 = p) (l ++ [(q, o)])).*2 =
  (filter (λ e : nat * Settlement, e.1 = p) l).*2 ++ (if decide (q = p) then [o] else []).
Proof.
  rewrite filter_app, fmap_app. f_equal.
  rewrite filter_cons. simpl. destruct (decide (q = p)); reflexivity.
Qed.

Lemma nil_or_not {A} (l : list A) : l = [] ∨ l ≠ [].
Proof. destruct l; [by left|by right]. Qed.

Lemma settlements_elem p o s :
  o ∈ settlements p s → (p, o) ∈ settled s.
Proof.
  unfold settlements. intros H.
  apply list_elem_of_fmap in H as [[q o'] [-> H]].
  apply list_elem_of_filter in H as [Hq H]. simpl in *. by subst.
Qed.

Lemma settlements_unused s : wf s → settlements (next_promise s) s = [].
Proof.
  intros Hwf. destruct (settlements (next_promise s) s) as [|o l] eqn:E; [done|].
  assert (o ∈ settlements (next_promise s) s) as H by (rewrite E; left).
  apply settlements_elem, (wf_settled _ Hwf) in H. lia.
Qed.

(** *** Well-formedness of every reachable state *)

Lemma wf_initial c : wf (initial c).
Proof.
  split; simpl.
  - intros y r H. by rewrite lookup_empty in H.
  - intros k t H. by rewrite lookup_empty in H.
  - intros q o H. by apply elem_of_nil in H.
Qed.

Lemma wf_step e s : wf s → wf (step e s).
Proof.
  intros [Hr Ht Hs]. destruct e as [y msg|msg|k|dt| |ws sid hid]; simpl.
  - unfold sendMessage. destruct (ws_open s); split; simpl.
    + intros z r. rewrite lookup_insert. case_decide.
      * intros [= <-]. simpl. split; [done|lia].
      * intros H'. destruct (Hr _ _ H') as (?&?&?). split; [done|lia].
    + intros k t. rewrite lookup_insert. case_decide.
      * intros [= <-]. simpl. subst. lia.
      * intros H'. destruct (Ht _ _ H'). lia.
    + intros q o H'. specialize (Hs _ _ H'). lia.
    + intros z r H'. destruct (Hr _ _ H') as (?&?&?). split; [done|lia].
    + intros k t H'. destruct (Ht _ _ H'). lia.
    + intros q o H'. apply elem_of_app in H' as [H'|H'].
      * specialize (Hs _ _ H'). lia.
      * apply list_elem_of_singleton in H'. injection H' as -> _. lia.
  - unfold handleMessage. destruct (find_handler msg s) as [r|] eqn:E; simpl; [|done].
    assert (∃ y, transactionsRef s !! y = Some r) as [y Hy].
    { unfold find_handler in E. destruct (get msg "transaction"); try discriminate.
      destruct (truthy _); [eauto|discriminate]. }
    destruct (Hr _ _ Hy) as (?&?&?).
    split; simpl.
    + intros z r' H'. apply lookup_delete_Some in H' as [_ H']. eauto.
    + intros k t H'. apply lookup_delete_Some in H' as [_ H']. eauto.
    + intros q o H'. apply elem_of_app in H' as [H'|H']; [eauto|].
      apply list_elem_of_singleton in H'. by injection H' as -> _.
  - unfold fire_timer. destruct (timers s !! k) as [t|] eqn:E; [|done].
    destruct (clock s <? t_deadline t)%Z; [done|].
    destruct (Ht _ _ E). split; simpl.
    + intros z r' H'. apply lookup_delete_Some in H' as [_ H']. eauto.
    + intros k' t' H'. apply lookup_delete_Some in H' as [_ H']. eauto.
    + intros q o H'. apply elem_of_app in H' as [H'|H']; [eauto|].
      apply list_elem_of_singleton in H'. by injection H' as -> _.
  - done.
  - split; simpl; [|done|done]. intros y r H. by rewrite lookup_empty in H.
  - done.
Qed.

Lemma wf_run evs s : wf s → wf (run evs s).
Proof.
  revert s. induction evs as [|e evs IH]; intros s H; simpl; [done|].
  apply IH. by apply wf_step.
Qed.

(** *** One request, followed through every event *)

Lemma tracked_send p k x d y msg s :
  tracked p k x d s → tracked p k x d (sendMessage y msg s).1.
Proof.
  intros [Hk Hp Hat Hof Hrof Hrat Hpend Hset].
  unfold sendMessage. destruct (ws_open s); split;
    unfold settlements in *; simpl; rewrite ?settlements_snoc; try lia.
  - intros t. rewrite lookup_insert_ne by lia. apply Hat.
  - intros k' t. rewrite lookup_insert. case_decide.
    + intros [= <-]. simpl. lia.
    + apply Hof.
  - intros z r. rewrite lookup_insert. case_decide.
    + intros [= <-]. simpl. lia.
    + apply Hrof.
  - intros z r. rewrite lookup_insert. case_decide.
    + intros [= <-]. simpl. lia.
    + apply Hrat.
  - rewrite lookup_insert_ne by lia. apply Hpend.
  - intros Hne. destruct (Hset Hne) as (H1 & H2 & H3). split; [done|]. split.
    + by rewrite lookup_insert_ne by lia.
    + intros z r. rewrite lookup_insert. case_decide.
      * intros [= <-]. simpl. lia.
      * apply H3.
  - done.
  - done.
  - done.
  - done.
  - destruct (decide (next_promise s = p)); [lia|]. by rewrite app_nil_r.
  - destruct (decide (next_promise s = p)); [lia|]. by rewrite app_nil_r.
Qed.

Lemma tracked_resolver p k x d y r msg s :
  tracked p k x d s → transactionsRef s !! y = Some r →
  tracked p k x d (run_resolver r msg s).
Proof.
  intros [Hk Hp Hat Hof Hrof Hrat Hpend Hset] Hy.
  destruct (decide (r_promise r = p)) as [Hrp|Hrp].
  - destruct (Hrof _ _ Hy Hrp) as [-> ->]. simpl in *.
    assert (settlements p s = []) as Hnil.
    { destruct (nil_or_not (settlements p s)) as [|Hne]; [done|].
      destruct (Hset Hne) as (_ & _ & H3). by destruct (H3 _ _ Hy). }
    split; unfold settlements in *; simpl; rewrite ?settlements_snoc; try done.
    + intros t. by rewrite lookup_delete_eq.
    + intros k' t H'. apply lookup_delete_Some in H' as [_ H']. eauto.
    + intros z r H'. apply lookup_delete_Some in H' as [_ H']. eauto.
    + intros z r H'. apply lookup_delete_Some in H' as [_ H']. eauto.
    + rewrite Hnil. by destruct (decide (p = p)).
    + intros _. rewrite Hnil. destruct (decide (p = p)); [|done].
      split; [done|]. split; [by rewrite lookup_delete_eq|].
      intros z r H' Hz. apply lookup_delete_Some in H' as [Hne H'].
      by destruct (Hrof _ _ H' Hz).
  - assert (r_timeout r ≠ k) as Hrk by (intros E; by apply Hrp, (Hrat _ _ Hy)).
    split; unfold settlements in *; simpl; rewrite ?settlements_snoc; try done;
      destruct (decide (r_promise r = p)); try done; rewrite ?app_nil_r.
    + intros t. rewrite lookup_delete_ne by done. apply Hat.
    + intros k' t H'. apply lookup_delete_Some in H' as [_ H']. eauto.
    + intros z r' H'. apply lookup_delete_Some in H' as [_ H']. eauto.
    + intros z r' H'. apply lookup_delete_Some in H' as [_ H']. eauto.
    + rewrite lookup_delete_ne by done. apply Hpend.
    + intros Hne. destruct (Hset Hne) as (H1 & H2 & H3). split; [done|]. split.
      * by rewrite lookup_delete_ne by done.
      * intros z r' H'. apply lookup_delete_Some in H' as [_ H']. eauto.
Qed.

Lemma find_handler_Some msg s r :
  find_handler msg s = Some r →
  ∃ y, get msg "transaction" = JStr y ∧ y ≠ "" ∧ transactionsRef s !! y = Some r.
Proof.
  unfold find_handler. destruct (get msg "transaction") as [| | | |y|]; try discriminate.
  simpl. destruct (String.eqb y "") eqn:E; simpl; [discriminate|].
  intros H. exists y. split; [done|]. split; [|done].
  intros ->. by rewrite String.eqb_refl in E.
Qed.

Lemma find_handler_str msg s y :
  get msg "transaction" = JStr y → y ≠ "" →
  find_handler msg s = transactionsRef s !! y.
Proof.
  unfold find_handler. intros -> Hy. simpl.
  destruct (String.eqb y "") eqn:E; [|done].
  apply String.eqb_eq in E. done.
Qed.

Lemma tracked_timer p k x d k' s :
  tracked p k x d s → tracked p k x d (fire_timer k' s).
Proof.
  intros T. unfold fire_timer. destruct (timers s !! k') as [t|] eqn:E; [|done].
  destruct (clock s <? t_deadline t)%Z; [done|].
  destruct T as [Hk Hp Hat Hof Hrof Hrat Hpend Hset].
  destruct (decide (t_promise t = p)) as [Htp|Htp].
  - assert (k' = k) as -> by eauto. rewrite (Hat _ E) in *. simpl in *.
    assert (settlements p s = []) as Hnil.
    { destruct (nil_or_not (settlements p s)) as [|Hne]; [done|].
      destruct (Hset Hne) as (_ & H2 & _). congruence. }
    split; unfold settlements in *; simpl; rewrite ?settlements_snoc; try done.
    + intros t'. by rewrite lookup_delete_eq.
    + intros k' t' H'. apply lookup_delete_Some in H' as [_ H']. eauto.
    + intros z r H'. apply lookup_delete_Some in H' as [_ H']. eauto.
    + intros z r H'. apply lookup_delete_Some in H' as [_ H']. eauto.
    + rewrite Hnil. by destruct (decide (p = p)).
    + intros _. rewrite Hnil. destruct (decide (p = p)); [|done].
      split; [done|]. split; [by rewrite lookup_delete_eq|].
      intros z r H' Hz. apply lookup_delete_Some in H' as [Hne H'].
      by destruct (Hrof _ _ H' Hz).
  - assert (k' ≠ k) as Hkk.
    { intros ->. apply Htp. by rewrite (Hat _ E). }
    split; unfold settlements in *; simpl; rewrite ?settlements_snoc; try done;
      destruct (decide (t_promise t = p)); try done; rewrite ?app_nil_r.
    + intros t'. rewrite lookup_delete_ne by done. apply Hat.
    + intros k'' t' H'. apply lookup_delete_Some in H' as [_ H']. eauto.
    + intros z r' H'. apply lookup_delete_Some in H' as [_ H']. eauto.
    + intros z r' H'. apply lookup_delete_Some in H' as [_ H']. eauto.
    + rewrite lookup_delete_ne by done. apply Hpend.
    + intros Hne. destruct (Hset Hne) as (H1 & H2 & H3). split; [done|]. split.
      * by rewrite lookup_delete_ne by done.
      * intros z r' H'. apply lookup_delete_Some in H' as [_ H']. eauto.
Qed.

Lemma tracked_step p k x d e s :
  tracked p k x d s → tracked p k x d (step e s).
Proof.
  intros T. destruct e as [y msg|msg|k'|dt| |ws sid hid]; simpl.
  - by apply tracked_send.
  - unfold handleMessage. destruct (find_handler msg s) as [r|] eqn:E; [|done].
    apply find_handler_Some in E as (y & _ & _ & Hy). simpl.
    by eapply tracked_resolver.
  - by apply tracked_timer.
  - destruct T. by split.
  - destruct T as [Hk Hp Hat Hof Hrof Hrat Hpend Hset].
    split; unfold settlements in *; simpl; try done.
    intros Hne. destruct (Hset Hne) as (H1 & H2 & _). by repeat split.
  - destruct T. by split.
Qed.

Lemma tracked_run p k x d evs s :
  tracked p k x d s → tracked p k x d (run evs s).
Proof.
  revert s. induction evs as [|e evs IH]; intros s H; simpl; [done|].
  apply IH. by apply tracked_step.
Qed.

Lemma tracked_after_send x msg s :
  wf s → ws_open s = true →
  tracked (next_promise s) (next_timer s) x (clock s + TRANSACTION_TIMEOUT)
    (sendMessage x msg s).1 ∧
  settlements (next_promise s) (sendMessage x msg s).1 = [].
Proof.
  intros Hwf Hopen. pose proof (settlements_unused s Hwf) as Hnil.
  destruct Hwf as [Hr Ht Hs].
  unfold sendMessage. rewrite Hopen. simpl.
  split; [split|]; unfold settlements in *; simpl; try lia; try done.
  - intros t. rewrite lookup_insert_eq. by intros [= <-].
  - intros k' t. rewrite lookup_insert. case_decide; [done|].
    intros H' Hp. destruct (Ht _ _ H'). lia.
  - intros y r. rewrite lookup_insert. case_decide.
    + by intros [= <-].
    + intros H' Hp. destruct (Hr _ _ H') as (?&?&?). lia.
  - intros y r. rewrite lookup_insert. case_decide.
    + by intros [= <-].
    + intros H' Hp. destruct (Hr _ _ H') as (?&?&?). lia.
  - intros _. by rewrite lookup_insert_eq.
Qed.

Lemma settlements_origin_step p k x d e s o :
  tracked p k x d s → o ∈ settlements p (step e s) →
  o ∈ settlements p s ∨ o = Rejected "Transaction timeout" ∨
  ∃ f, e = EFrame f ∧ get f "transaction" = JStr x ∧ o = response_outcome f.
Proof.
  intros T. destruct e as [y msg|msg|k'|dt| |ws sid hid]; simpl; try by left.
  - unfold sendMessage. destruct (ws_open s); simpl; [by left|].
    unfold settlements; simpl. rewrite settlements_snoc.
    destruct (decide (next_promise s = p)) as [E|_].
    + destruct T. lia.
    + rewrite app_nil_r. by left.
  - unfold handleMessage. destruct (find_handler msg s) as [r|] eqn:E; [|by left].
    apply find_handler_Some in E as (y & Hmsg & _ & Hy). simpl.
    unfold settlements; simpl. rewrite settlements_snoc.
    destruct (decide (r_promise r = p)) as [Hp|_].
    + destruct (tr_resolver_of _ _ _ _ _ T _ _ Hy Hp) as [-> _].
      intros H. apply elem_of_app in H as [H|H]; [by left|].
      apply list_elem_of_singleton in H as ->. right; right. by exists msg.
    + rewrite app_nil_r. by left.
  - unfold fire_timer. destruct (timers s !! k') as [t|]; [|by left].
    destruct (clock s <? t_deadline t)%Z; [by left|].
    unfold settlements; simpl. rewrite settlements_snoc.
    destruct (decide (t_promise t = p)) as [Hp|_].
    + intros H. apply elem_of_app in H as [H|H]; [by left|].
      apply list_elem_of_singleton in H as ->. right; by left.
    + rewrite app_nil_r. by left.
Qed.

Lemma settlements_origin p k x d evs s o :
  tracked p k x d s → o ∈ settlements p (run evs s) →
  o ∈ settlements p s ∨ o = Rejected "Transaction timeout" ∨
  ∃ f, EFrame f ∈ evs ∧ get f "transaction" = JStr x ∧ o = response_outcome f.
Proof.
  revert s. induction evs as [|e evs IH]; intros s T H; simpl in *; [by left|].
  destruct (IH _ (tracked_step _ _ _ _ e _ T) H) as [H'|[H'|(f & Hf & Hx & Ho)]].
  - destruct (settlements_origin_step _ _ _ _ _ _ _ T H') as [?|[?|(f & -> & Hx & Ho)]].
    + by left.
    + right; by left.
    + right; right. exists f. split; [left|done].
  - right; by left.
  - right; right. exists f. split; [by right|done].
Qed.

(** *** The two ways a request settles *)

Lemma timeout_settles p k x d s :
  tracked p k x d s → settlements p s = [] → (d ≤ clock s)%Z →
  settlements p (fire_timer k s) = [Rejected "Transaction timeout"] ∧
  transactionsRef (fire_timer k s) !! x = None ∧
  timers (fire_timer k s) !! k = None.
Proof.
  intros T Hnil Hd. unfold fire_timer.
  rewrite (tr_pending _ _ _ _ _ T Hnil). simpl.
  destruct (Z.ltb_spec (clock s) d) as [?|_]; [lia|].
  unfold settlements in *; simpl. rewrite settlements_snoc, Hnil.
  destruct (decide (p = p)); [|done].
  by rewrite !lookup_delete_eq.
Qed.

Lemma timeout_not_before p k x d s :
  tracked p k x d s → settlements p s = [] → (clock s < d)%Z →
  fire_timer k s = s.
Proof.
  intros T Hnil Hd. unfold fire_timer.
  rewrite (tr_pending _ _ _ _ _ T Hnil). simpl.
  destruct (Z.ltb_spec (clock s) d) as [_|?]; [done|lia].
Qed.

Lemma response_settles p k x f s :
  transactionsRef s !! x = Some (mkResolver k x p) → settlements p s = [] →
  get f "transaction" = JStr x → x ≠ "" →
  handleMessage f s = (run_resolver (mkResolver k x p) f s, None) ∧
  settlements p (handleMessage f s).1 = [response_outcome f] ∧
  transactionsRef (handleMessage f s).1 !! x = None ∧
  timers (handleMessage f s).1 !! k = None.
Proof.
  intros Hx Hnil Hf Hne. unfold handleMessage.
  rewrite (find_handler_str _ _ _ Hf Hne), Hx. simpl.
  split; [done|]. unfold settlements in *; simpl.
  rewrite settlements_snoc, Hnil. destruct (decide (p = p)); [|done].
  by rewrite !lookup_delete_eq.
Qed.

(** *** A transaction identifier used by one request only *)

Lemma exclusive_after_send x msg s :
  wf s → ws_open s = true → fresh x s →
  exclusive (next_promise s) (next_timer s) x (sendMessage x msg s).1.
Proof.
  intros Hwf Hopen Hfresh. unfold sendMessage. rewrite Hopen. simpl.
  split; simpl.
  - intros k' t. rewrite lookup_insert. case_decide.
    + by intros [= <-].
    + intros H' Hx. by destruct (Hfresh _ _ H').
  - intros r. rewrite lookup_insert_eq. by intros [= <-].
  - intros _. by rewrite lookup_insert_eq.
Qed.

Lemma exclusive_step p k x d e s :
  wf s → tracked p k x d s → exclusive p k x s → quiet x e = true →
  exclusive p k x (step e s).
Proof.
  intros Hwf T [Het Her Hep] Hq.
  destruct e as [y msg|msg|k'|dt| |ws sid hid]; simpl in *; try discriminate.
  - assert (y ≠ x) as Hne.
    { intros ->. by rewrite String.eqb_refl in Hq. }
    unfold sendMessage. destruct (ws_open s); split;
      unfold settlements in *; simpl; rewrite ?settlements_snoc; try done.
    + intros k'' t. rewrite lookup_insert. case_decide; [by intros [= <-]|apply Het].
    + intros r. rewrite lookup_insert_ne by done. apply Her.
    + rewrite lookup_insert_ne by done. apply Hep.
    + destruct (decide (next_promise s = p)) as [E|_]; [destruct T; lia|].
      by rewrite app_nil_r.
  - unfold handleMessage. destruct (find_handler msg s) as [r|] eqn:E; [|done].
    apply find_handler_Some in E as (y & _ & _ & Hy). simpl.
    destruct (wf_resolver _ Hwf _ _ Hy) as (Hkey & _ & _).
    split; unfold settlements in *; simpl; rewrite ?settlements_snoc.
    + intros k'' t H'. apply lookup_delete_Some in H' as [_ H']. eauto.
    + intros r' H'. apply lookup_delete_Some in H' as [_ H']. eauto.
    + destruct (decide (r_promise r = p)) as [Hp|Hp].
      * intros H'. by apply app_nil in H' as [_ ?].
      * rewrite app_nil_r. intros Hnil. rewrite lookup_delete_ne; [by apply Hep|].
        rewrite Hkey. intros ->. rewrite (Hep Hnil) in Hy. by injection Hy as <-.
  - unfold fire_timer. destruct (timers s !! k') as [t|] eqn:E; [|done].
    destruct (clock s <? t_deadline t)%Z; [done|].
    split; unfold settlements in *; simpl; rewrite ?settlements_snoc.
    + intros k'' t' H'. apply lookup_delete_Some in H' as [_ H']. eauto.
    + intros r' H'. apply lookup_delete_Some in H' as [_ H']. eauto.
    + destruct (decide (t_promise t = p)) as [Hp|Hp].
      * intros H'. by apply app_nil in H' as [_ ?].
      * rewrite app_nil_r. intros Hnil. rewrite lookup_delete_ne; [by apply Hep|].
        intros Hx. by apply Hp, (Het _ _ E).
  - done.
  - done.
Qed.

Lemma exclusive_run p k x d evs s :
  wf s → tracked p k x d s → exclusive p k x s → forallb (quiet x) evs = true →
  exclusive p k x (run evs s).
Proof.
  revert s. induction evs as [|e evs IH]; intros s Hwf T Hex Hq; simpl in *; [done|].
  apply andb_true_iff in Hq as [Hq1 Hq2].
  apply IH; [by apply wf_step|by apply tracked_step| |done].
  by eapply exclusive_step.
Qed.

Lemma duplicate_ignored p k x d f s :
  tracked p k x d s → exclusive p k x s → settlements p s ≠ [] →
  get f "transaction" = JStr x → x ≠ "" →
  handleMessage f s = (s, Some f).
Proof.
  intros T Hex Hne Hf Hx. unfold handleMessage.
  rewrite (find_handler_str _ _ _ Hf Hx).
  destruct (transactionsRef s !! x) as [r|] eqn:E; [|done].
  destruct (tr_settled _ _ _ _ _ T Hne) as (_ & _ & H3).
  destruct (H3 _ _ E). by apply (ex_resolver _ _ _ _ Hex).
Qed.

(** the reason of a rejection, on the error payloads a gateway sends *)
Example response_outcome_reason :
  response_outcome
    (<["janus" := JStr "error"]>
       {["error" := JObj (<["code" := JNum 458]> {["reason" := JStr "No such session"]})]})
    = Rejected "No such session" ∧
  response_outcome (<["janus" := JStr "error"]> {["error" := JStr "denied"]})
    = Rejected "denied" ∧
  response_outcome (<["janus" := JStr "error"]> {["error" := JObj {["code" := JNum 458]}]})
    = Rejected "[object Object]" ∧
  response_outcome {["janus" := JStr "error"]} = Rejected "Janus error" ∧
  response_outcome {["janus" := JStr "ack"]} = Fulfilled {["janus" := JStr "ack"]}.
Proof. vm_compute. repeat split. Qed.

(** C1.  A request sent while the socket is open, in any reachable state of
    the transport and followed by any events [evs]: its promise is settled at
    most once; a settlement is the timeout or the outcome of an inbound frame
    carrying the request's transaction; once settled, its timer and its
    resolver are gone; while it is pending its timeout stays armed for 10 s
    after the send, cannot run before, and settles it with the timeout error
    when it runs.  When the transaction identifier is used by this request
    only, the first frame carrying it settles the promise with that frame's
    outcome (the response, or the reason derived from the error payload) and
    removes the registration, and a later frame carrying it is not consumed.
    The outcome of a frame is a rejection exactly when the frame is a gateway
    error. *)
Theorem transaction_settles_exactly_once :
  ∀ (c : Z) (pre evs : list Event) (x : string) (msg : Obj),
    let s := run pre (initial c) in
    let p := next_promise s in
    let k := next_timer s in
    let d := (clock s + 10000)%Z in
    let s' := run evs (sendMessage x msg s).1 in
    ws_open s = true →
    (sendMessage x msg s).2 = p ∧
    length (settlements p s') ≤ 1 ∧
    (∀ o, o ∈ settlements p s' →
       o = Rejected "Transaction timeout" ∨
       ∃ f, EFrame f ∈ evs ∧ get f "transaction" = JStr x ∧ o = response_outcome f) ∧
    (settlements p s' ≠ [] →
       timers s' !! k = None ∧
       ∀ y r, transactionsRef s' !! y = Some r → r_promise r ≠ p) ∧
    (settlements p s' = [] →
       timers s' !! k = Some (mkTimer x p d) ∧
       ((clock s' < d)%Z → fire_timer k s' = s') ∧
       ((d ≤ clock s')%Z →
          settlements p (fire_timer k s') = [Rejected "Transaction timeout"] ∧
          transactionsRef (fire_timer k s') !! x = None ∧
          timers (fire_timer k s') !! k = None)) ∧
    (x ≠ "" → fresh x s → forallb (quiet x) evs = true →
     ∀ f, get f "transaction" = JStr x →
       (settlements p s' = [] →
          settlements p (handleMessage f s').1 = [response_outcome f] ∧
          (handleMessage f s').2 = None ∧
          transactionsRef (handleMessage f s').1 !! x = None ∧
          timers (handleMessage f s').1 !! k = None) ∧
       (settlements p s' ≠ [] → handleMessage f s' = (s', Some f))) ∧
    (∀ f, response_outcome f =
            if is_str (get f "janus") "error"
            then Rejected (to_String (or (or (prop (get f "error") "reason") (get f "error"))
                                        (JStr "Janus error")))
            else Fulfilled f).
Proof.
  intros c pre evs x msg s p k d s' Hopen.
  assert (wf s) as Hwf by apply wf_run, wf_initial.
  destruct (tracked_after_send x msg s Hwf Hopen) as [T0 Hnil0].
  fold p k in T0, Hnil0. change (clock s + TRANSACTION_TIMEOUT)%Z with d in T0.
  pose proof (tracked_run _ _ _ _ evs _ T0) as T. fold s' in T.
  split; [|split; [|split; [|split; [|split; [|split; [|done]]]]]].
  - unfold sendMessage. by destruct (ws_open s).
  - destruct (nil_or_not (settlements p s')) as [->|Hne]; [simpl; lia|].
    destruct (tr_settled _ _ _ _ _ T Hne) as [-> _]. lia.
  - intros o Ho.
    destruct (settlements_origin _ _ _ _ _ _ _ T0 Ho) as [H|H]; [|done].
    fold p in H. rewrite Hnil0 in H. by apply elem_of_nil in H.
  - intros Hne. by destruct (tr_settled _ _ _ _ _ T Hne) as (_ & ? & ?).
  - intros Hnil. split; [by apply (tr_pending _ _ _ _ _ T)|]. split.
    + by apply (timeout_not_before p k x d).
    + by apply (timeout_settles p k x d).
  - intros Hx Hfresh Hq f Hf.
    pose proof (exclusive_after_send x msg s Hwf Hopen Hfresh) as E0.
    assert (exclusive p k x s') as E.
    { eapply exclusive_run; [|exact T0|exact E0|exact Hq].
      apply (wf_step (ESend x msg)), Hwf. }
    split.
    + intros Hnil.
      destruct (response_settles p k x f s' (ex_pending _ _ _ _ E Hnil) Hnil Hf Hx)
        as (Hh & ? & ? & ?).
      split; [done|]. split; [by rewrite Hh|done].
    + intros Hne. by apply (duplicate_ignored p k x d).
Qed.

(** The scenario of the specification: [create] is sent, the gateway answers
    [success] under the same transaction before the timeout; the promise
    resolves with the answer and a second copy of the answer is an event. *)
Lemma transaction_settles_exactly_once_witness :
  let s := run [EConnection (Some OPEN) None None] (initial 0) in
  let create : Obj := {[ "janus" := JStr "create" ]} in
  let reply : Obj :=
    <[ "janus" := JStr "success" ]> {[ "transaction" := JStr "Xk3mP0qLw9Zt" ]} in
  let s1 := run [ETick 500] (sendMessage "Xk3mP0qLw9Zt" create s).1 in
  ws_open s = true ∧
  settlements 0 (handleMessage reply s1).1 = [Fulfilled reply] ∧
  transactionsRef (handleMessage reply s1).1 !! "Xk3mP0qLw9Zt" = None ∧
  handleMessage reply (handleMessage reply s1).1 = ((handleMessage reply s1).1, Some reply).
Proof.
  intros s create reply s1.
  assert (ws_open s = true) as Hopen by reflexivity.
  assert ("Xk3mP0qLw9Zt" ≠ "") as Hx by discriminate.
  assert (fresh "Xk3mP0qLw9Zt" s) as Hfresh.
  { intros k t H. vm_compute in H. discriminate. }
  assert (get reply "transaction" = JStr "Xk3mP0qLw9Zt") as Hf by (vm_compute; reflexivity).
  split; [exact Hopen|].
  destruct (transaction_settles_exactly_once 0 [EConnection (Some OPEN) None None]
              [ETick 500] "Xk3mP0qLw9Zt" create Hopen)
    as (_ & _ & _ & _ & _ & H & _).
  destruct (H Hx Hfresh eq_refl reply Hf) as [H1 _].
  destruct H1 as (Hs & _ & Ht & _); [vm_compute; reflexivity|].
  split; [exact Hs|]. split; [exact Ht|].
  destruct (transaction_settles_exactly_once 0 [EConnection (Some OPEN) None None]
              [ETick 500; EFrame reply] "Xk3mP0qLw9Zt" create Hopen)
    as (_ & _ & _ & _ & _ & H' & _).
  destruct (H' Hx Hfresh eq_refl reply Hf) as [_ H2].
  apply H2. vm_compute. discriminate.
Defined.

(** no answer within 10 s: the timeout rejects the promise and drops the
    registration; the reply that arrives afterwards finds no resolver, and
    the promise keeps its one settlement *)
Example timeout_then_late_reply :
  let s := run [EConnection (Some OPEN) None None] (initial 0) in
  let reply : Obj :=
    <[ "janus" := JStr "success" ]> {[ "transaction" := JStr "Xk3mP0qLw9Zt" ]} in
  let s1 := (sendMessage "Xk3mP0qLw9Zt" {[ "janus" := JStr "create" ]} s).1 in
  let early := run [ETick 9999; ETimer 0] s1 in
  let late := run [ETick 10000; ETimer 0] s1 in
  settlements 0 early = [] ∧
  settlements 0 late = [Rejected "Transaction timeout"] ∧
  transactionsRef late !! "Xk3mP0qLw9Zt" = None ∧
  find_handler reply late = None ∧
  settlements 0 (handleMessage reply late).1 = [Rejected "Transaction timeout"].
Proof. repeat split; vm_compute; reflexivity. Qed.

(** C8.  With the socket absent or not open, [send] rejects its promise at
    once with the connection error; the resolver map, the timers and the wire
    are as before. *)
Theorem send_rejects_when_not_connected :
  ∀ (c : Z) (pre : list Event) (x : string) (msg : Obj),
    let s := run pre (initial c) in
    wsRef s ≠ Some OPEN →
    settlements (sendMessage x msg s).2 (sendMessage x msg s).1 =
      [Rejected "WebSocket not connected"] ∧
    transactionsRef (sendMessage x msg s).1 = transactionsRef s ∧
    timers (sendMessage x msg s).1 = timers s ∧
    wire (sendMessage x msg s).1 = wire s.
Proof.
  intros c pre x msg s Hws.
  assert (wf s) as Hwf by apply wf_run, wf_initial.
  assert (ws_open s = false) as Hopen.
  { unfold ws_open. destruct (wsRef s) as [[]|]; done. }
  unfold sendMessage. rewrite Hopen. simpl. split; [|done].
  unfold settlements; simpl. rewrite settlements_snoc.
  pose proof (settlements_unused s Hwf) as Hnil. unfold settlements in Hnil.
  rewrite Hnil. by destruct (decide (next_promise s = next_promise s)).
Qed.

Lemma send_rejects_when_not_connected_witness :
  let s := run [EConnection (Some CLOSED) (Some 42%Z) None] (initial 0) in
  wsRef s ≠ Some OPEN ∧
  settlements 0 (sendMessage "Xk3mP0qLw9Zt" ∅ s).1 = [Rejected "WebSocket not connected"] ∧
  transactionsRef (sendMessage "Xk3mP0qLw9Zt" ∅ s).1 = ∅.
Proof.
  intros s.
  assert (wsRef s ≠ Some OPEN) as H by discriminate.
  split; [exact H|].
  destruct (send_rejects_when_not_connected 0
              [EConnection (Some CLOSED) (Some 42%Z) None] "Xk3mP0qLw9Zt" ∅ H)
    as (H1 & H2 & _).
  split; [exact H1|exact H2].
Defined.

End TransportFacts.

(** ** NegotiationEngine *)
Section NegotiationFacts.
Import Phone.
Variable h : Host.

Lemma addIceCandidate_frame c w :
  pcRef (addIceCandidate h c w) = pcRef w ∧
  remoteDescriptionSetRef (addIceCandidate h c w) = remoteDescriptionSetRef w ∧
  pendingCandidatesRef (addIceCandidate h c w) = pendingCandidatesRef w.
Proof.
  unfold addIceCandidate. destruct (pcRef w) as [pc|] eqn:E; [|by rewrite E].
  destruct c as [c|]; [|by rewrite E].
  destruct (is_real (Some c)); [|by rewrite E].
  by destruct (addIceCandidate_ok h (host w) pc (init_of c)).
Qed.

(** one candidate: the native call is made exactly when the entry is a real
    candidate, whether or not the call then fails *)
Lemma addIceCandidate_added pc c w :
  pcRef w = Some pc →
  added (host (addIceCandidate h c w)) = added (host w) ++ option_list (native pc c).
Proof.
  intros Hpc. unfold addIceCandidate, native. rewrite Hpc.
  destruct c as [c|]; simpl; [|by rewrite app_nil_r].
  destruct (is_real (Some c)); simpl; [|by rewrite app_nil_r].
  destruct (addIceCandidate_ok h (host w) pc (init_of c)); simpl;
    unfold added; by rewrite ?omap_app, ?app_nil_r.
Qed.

Lemma flush_frame cs w :
  pcRef (foldl (λ w c, addIceCandidate h c w) w cs) = pcRef w ∧
  remoteDescriptionSetRef (foldl (λ w c, addIceCandidate h c w) w cs)
    = remoteDescriptionSetRef w ∧
  pendingCandidatesRef (foldl (λ w c, addIceCandidate h c w) w cs)
    = pendingCandidatesRef w.
Proof.
  revert w. induction cs as [|c cs IH]; intros w; simpl; [done|].
  destruct (IH (addIceCandidate h c w)) as (-> & -> & ->).
  apply addIceCandidate_frame.
Qed.

(** the flush: the native calls follow the queue, first in first out *)
Lemma flush_added pc cs w :
  pcRef w = Some pc →
  added (host (foldl (λ w c, addIceCandidate h c w) w cs))
    = added (host w) ++ omap (native pc) cs.
Proof.
  revert w. induction cs as [|c cs IH]; intros w Hpc; simpl; [by rewrite app_nil_r|].
  rewrite IH by (by destruct (addIceCandidate_frame c w) as [-> _]).
  rewrite (addIceCandidate_added pc) by done.
  rewrite <-app_assoc. f_equal. by destruct (native pc c).
Qed.

Lemma deliver_queued cs w :
  remoteDescriptionSetRef w = false →
  let w1 := foldl (λ w c, handleRemoteTrickle h c w) w cs in
  pendingCandidatesRef w1 = pendingCandidatesRef w ++ cs ∧
  host w1 = host w ∧ pcRef w1 = pcRef w ∧ remoteDescriptionSetRef w1 = false.
Proof.
  revert w. induction cs as [|c cs IH]; intros w Hflag; simpl.
  - by rewrite app_nil_r.
  - unfold handleRemoteTrickle at 2 4 6 8. rewrite Hflag. simpl.
    destruct (IH (set_pendingCandidatesRef (pendingCandidatesRef w ++ [c]) w) Hflag)
      as (-> & -> & -> & ->).
    simpl. by rewrite <-app_assoc.
Qed.

Lemma handleRemoteJsep_flush pc jsep w :
  pcRef w = Some pc → setRemoteDescription_ok h (host w) pc jsep = true →
  let w2 := handleRemoteJsep h jsep w in
  remoteDescriptionSetRef w2 = true ∧ pendingCandidatesRef w2 = [] ∧
  pcRef w2 = Some pc ∧
  added (host w2) = added (host w) ++ omap (native pc) (pendingCandidatesRef w).
Proof.
  intros Hpc Hok. unfold handleRemoteJsep. rewrite Hpc, Hok. simpl.
  destruct (pendingCandidatesRef w) as [|c cs] eqn:E; simpl.
  - repeat split; try done. unfold added. by rewrite omap_app, !app_nil_r.
  - set (w0 := set_pendingCandidatesRef [] _).
    pose proof (flush_frame cs (addIceCandidate h c w0)) as (H1 & H2 & H3).
    pose proof (addIceCandidate_frame c w0) as (H4 & H5 & H6).
    rewrite H1, H2, H3, H4, H5, H6. repeat split; try done.
    rewrite (flush_added pc) by (by rewrite H4).
    rewrite (addIceCandidate_added pc) by done.
    subst w0. simpl. unfold added at 1. rewrite omap_app. simpl. rewrite app_nil_r.
    rewrite <-app_assoc. f_equal. by destruct (native pc c).
Qed.

(** C2.  Candidates (null included) delivered while the remote description
    is not set are appended to the queue and nothing is passed to the peer
    connection; when [handleRemoteJsep] then applies the remote description
    with success, the native add-candidate calls made are those of the queued
    entries in arrival order, the null and completed entries leaving none,
    and the queue is empty; a candidate delivered afterwards goes through
    [addIceCandidate] at once.  This holds for every host, so whichever native
    calls fail. *)
Theorem queued_candidates_flushed_in_order :
  ∀ (w : World) (pc : nat) (cs : list (option Obj)) (jsep : Jsep) (late : option Obj),
    remoteDescriptionSetRef w = false →
    pcRef w = Some pc →
    let w1 := foldl (λ w c, handleRemoteTrickle h c w) w cs in
    setRemoteDescription_ok h (host w1) pc jsep = true →
    let w2 := handleRemoteJsep h jsep w1 in
    let w3 := handleRemoteTrickle h late w2 in
    (pendingCandidatesRef w1 = pendingCandidatesRef w ++ cs ∧ host w1 = host w) ∧
    (remoteDescriptionSetRef w2 = true ∧ pendingCandidatesRef w2 = [] ∧
     added (host w2) = added (host w) ++ omap (native pc) (pendingCandidatesRef w ++ cs)) ∧
    (w3 = addIceCandidate h late w2 ∧ pendingCandidatesRef w3 = [] ∧
     added (host w3) = added (host w2) ++ option_list (native pc late)).
Proof.
  intros w pc cs jsep late Hflag Hpc w1 Hok w2 w3.
  destruct (deliver_queued cs w Hflag) as (Hq & Hh & Hp & Hf). fold w1 in Hq, Hh, Hp, Hf.
  assert (pcRef w1 = Some pc) as Hpc1 by congruence.
  destruct (handleRemoteJsep_flush pc jsep w1 Hpc1 Hok) as (H1 & H2 & H3 & H4).
  fold w2 in H1, H2, H3, H4.
  split; [done|]. split.
  - split; [done|]. split; [done|]. by rewrite H4, Hh, Hq.
  - assert (w3 = addIceCandidate h late w2) as ->.
    { unfold w3, handleRemoteTrickle. by rewrite H1. }
    split; [done|]. split.
    + by destruct (addIceCandidate_frame late w2) as (_ & _ & ->).
    + by apply addIceCandidate_added.
Qed.

End NegotiationFacts.

Lemma queued_candidates_flushed_in_order_witness :
  let h := Phone.mkHost (λ _ _ _, true) (λ _ _ _, false) (λ _, inl "denied")
             (λ _, 0) (λ _ _, inl "no offer") (λ _ _ _, None) in
  let w := Phone.mkWorld Store.initialStore (Transport.initial 0) None (Some 7) None None None
             [] false None false None [] in
  let c1 : Obj := <["candidate" := JStr "candidate:1 1 udp 2122 10.0.0.1 5000 typ host"]>
                    {["sdpMid" := JStr "0"]} in
  let c2 : Obj := <["candidate" := JStr "candidate:2 1 udp 1686 1.2.3.4 6000 typ srflx"]>
                    {["sdpMid" := JStr "0"]} in
  let answer := Phone.mkJsep "answer" (Some "v=0") in
  let w2 := Phone.handleRemoteJsep h answer
              (foldl (λ w c, Phone.handleRemoteTrickle h c w) w [Some c1; None; Some c2]) in
  Phone.remoteDescriptionSetRef w = false ∧
  Phone.pendingCandidatesRef w2 = [] ∧
  Phone.added (Phone.host w2) = [(7, Phone.init_of c1); (7, Phone.init_of c2)].
Proof.
  intros h w c1 c2 answer w2.
  assert (Phone.remoteDescriptionSetRef w = false) as Hflag by reflexivity.
  assert (Phone.pcRef w = Some 7) as Hpc by reflexivity.
  split; [exact Hflag|].
  destruct (queued_candidates_flushed_in_order h w 7 [Some c1; None; Some c2]
              answer None Hflag Hpc eq_refl) as (_ & (_ & Hq & Ha) & _).
  split; [exact Hq|]. exact Ha.
Defined.

(** ** The teardown routine *)
Section CleanupFacts.
Import Phone.

(** reduction of the setters and projections of [World], each argument
    evaluated once *)
Ltac world_compute :=
  cbv [cleanupCall hangup_teardown reconnect_catch reconnect_finally
       with_store set_transport set_pendingReconnectRef set_pcRef set_localStreamRef
       set_remoteAudioRef set_localAudioRef set_pendingCandidatesRef
       set_remoteDescriptionSetRef set_chatOpen set_sessionStorage called
       store transport pendingReconnectRef pcRef localStreamRef remoteAudioRef
       localAudioRef pendingCandidatesRef remoteDescriptionSetRef onHangupRef chatOpen
       sessionStorage host Persisted.clearCallState].

(** the state [cleanupCall] leaves, field by field *)
Lemma cleanupCall_eq w :
  cleanupCall w =
  mkWorld (Store.setAudioBlocked false (store w)) (transport w) (pendingReconnectRef w)
    None None
    (match remoteAudioRef w with Some _ => Some (mkAudio None) | None => None end)
    (match localAudioRef w with Some _ => Some (mkAudio None) | None => None end)
    [] false (onHangupRef w) (chatOpen w) (sessionStorage w)
    (host w ++ match pcRef w with Some pc => [PcClose pc] | None => [] end
            ++ match localStreamRef w with
               | Some stream => TrackStop <$> getTracks stream
               | None => []
               end).
Proof.
  destruct w as [st tr pr [pc|] [stream|] [ra|] [la|] q f cb co ss hs];
    world_compute; by rewrite <-?app_assoc, ?app_nil_r.
Qed.

Lemma setAudioBlocked_idem b st :
  Store.setAudioBlocked b (Store.setAudioBlocked b st) = Store.setAudioBlocked b st.
Proof. reflexivity. Qed.

(** C9.  [cleanupCall] run twice leaves what one run leaves; after a run
    the peer-connection and local-stream refs are null, the candidate queue is
    empty and the remote-description flag is false; the peer connection that
    was held has been closed and every track of the stream held stopped. *)
Theorem cleanupCall_idempotent :
  ∀ w : World,
    cleanupCall (cleanupCall w) = cleanupCall w ∧
    pcRef (cleanupCall w) = None ∧
    localStreamRef (cleanupCall w) = None ∧
    pendingCandidatesRef (cleanupCall w) = [] ∧
    remoteDescriptionSetRef (cleanupCall w) = false ∧
    (∀ pc, pcRef w = Some pc → PcClose pc ∈ host (cleanupCall w)) ∧
    (∀ stream track, localStreamRef w = Some stream → track ∈ getTracks stream →
       TrackStop track ∈ host (cleanupCall w)).
Proof.
  intros w. split.
  - rewrite (cleanupCall_eq w). set (w1 := mkWorld _ _ _ _ _ _ _ _ _ _ _ _ _).
    rewrite (cleanupCall_eq w1). subst w1. cbn [store transport pendingReconnectRef pcRef
      localStreamRef remoteAudioRef localAudioRef onHangupRef chatOpen sessionStorage host].
    rewrite setAudioBlocked_idem, !app_nil_r.
    by destruct (remoteAudioRef w), (localAudioRef w).
  - rewrite (cleanupCall_eq w).
    cbn [pcRef localStreamRef pendingCandidatesRef remoteDescriptionSetRef host].
    repeat split.
    + intros pc ->. apply elem_of_app. right. apply elem_of_app. left. left.
    + intros stream track -> Ht. apply elem_of_app. right. apply elem_of_app. right.
      apply list_elem_of_fmap. by exists track.
Qed.

Lemma cleanupCall_idempotent_witness :
  let w := mkWorld Store.initialStore (Transport.initial 0) None (Some 3)
             (Some (mkStream 1 [10; 11])) (Some (mkAudio (Some 5))) None
             [None] true None false None [] in
  cleanupCall (cleanupCall w) = cleanupCall w ∧
  PcClose 3 ∈ host (cleanupCall w) ∧
  TrackStop 11 ∈ host (cleanupCall w).
Proof.
  intros w.
  destruct (cleanupCall_idempotent w) as (Hidem & _ & _ & _ & _ & Hpc & Htracks).
  split; [exact Hidem|]. split.
  - apply Hpc. reflexivity.
  - apply (Htracks (mkStream 1 [10; 11])); [reflexivity|].
    right. left.
Defined.

End CleanupFacts.

(** ** Restoring the persisted call state *)
Section RestoreFacts.
Import Persisted Store.

(** C3.  [restoreFromPersistedState] over [loadCallState]: nothing stored
    gives nothing; a record older than 20 s at load time is deleted and gives
    nothing, the store untouched; a fresh record without a signalling domain
    is deleted, the reconnecting flag ends cleared, and gives nothing; any
    other record is returned, stays stored, and the reconnecting flag is set. *)
Theorem restore_from_persisted_state :
  ∀ (now : Z) (st : PhoneStore) (storage : option Item),
    let r := restoreFromPersistedState now st storage in
    (storage = None → r = (st, None, None)) ∧
    (∀ state, storage = Some (Json state) → (now - startedAt state > 20000)%Z →
       r = (st, None, None)) ∧
    (∀ state, storage = Some (Json state) → (now - startedAt state ≤ 20000)%Z →
       truthy_str (Persisted.telproDomain state) = false →
       r.2 = None ∧ r.1.2 = None ∧ reconnecting (connection r.1.1) = false) ∧
    (∀ state, storage = Some (Json state) → (now - startedAt state ≤ 20000)%Z →
       truthy_str (Persisted.telproDomain state) = true →
       r.2 = Some state ∧ r.1.2 = storage ∧ reconnecting (connection r.1.1) = true).
Proof.
  intros now st storage r. subst r. unfold restoreFromPersistedState, loadCallState.
  split; [|split; [|split]].
  - by intros ->.
  - intros state -> Hage.
    destruct (Z.gtb_spec (now - startedAt state) MAX_CALL_AGE_MS) as [_|H]; [done|].
    unfold MAX_CALL_AGE_MS in H. lia.
  - intros state -> Hage Hdom.
    destruct (Z.gtb_spec (now - startedAt state) MAX_CALL_AGE_MS) as [H|_].
    + unfold MAX_CALL_AGE_MS in H. lia.
    + by rewrite Hdom.
  - intros state -> Hage Hdom.
    destruct (Z.gtb_spec (now - startedAt state) MAX_CALL_AGE_MS) as [H|_].
    + unfold MAX_CALL_AGE_MS in H. lia.
    + by rewrite Hdom.
Qed.

Lemma restore_from_persisted_state_witness :
  let saved := mkPersisted "call-1" "ep-1" (Some "Front desk") None 100000 (Some "token-1")
                 (Some "eu.telpro.example") in
  let nodomain := mkPersisted "call-1" "ep-1" None None 100000 None None in
  restoreFromPersistedState 130000 initialStore (Some (Json saved))
    = (initialStore, None, None) ∧
  (restoreFromPersistedState 120000 initialStore (Some (Json saved))).2 = Some saved ∧
  reconnecting
    (connection (restoreFromPersistedState 120000 initialStore (Some (Json saved))).1.1)
    = true ∧
  (restoreFromPersistedState 120000 initialStore (Some (Json nodomain))).1.2 = None.
Proof.
  intros saved nodomain.
  destruct (restore_from_persisted_state 130000 initialStore (Some (Json saved)))
    as (_ & Hstale & _).
  split; [apply (Hstale saved eq_refl); simpl; lia|].
  destruct (restore_from_persisted_state 120000 initialStore (Some (Json saved)))
    as (_ & _ & _ & Hfresh).
  destruct (Hfresh saved eq_refl) as (H1 & _ & H3); [simpl; lia|reflexivity|].
  split; [exact H1|]. split; [exact H3|].
  destruct (restore_from_persisted_state 120000 initialStore (Some (Json nodomain)))
    as (_ & _ & Hno & _).
  destruct (Hno nodomain eq_refl) as (_ & H2 & _); [simpl; lia|reflexivity|].
  exact H2.
Defined.

End RestoreFacts.

(** ** ChannelClient *)
Section ChannelFacts.
Import Channel.

Lemma shouldReconnect_no o code : no_reconnect_code code → shouldReconnect o code = false.
Proof.
  unfold shouldReconnect. intros [->|[->|[H1 H2]]].
  - by rewrite !andb_false_r.
  - by rewrite !andb_false_r.
  - apply Z.leb_le in H1, H2. rewrite H1, H2. simpl. by rewrite !andb_false_r.
Qed.

Lemma shouldReconnect_yes o code :
  ¬ no_reconnect_code code → autoReconnect_of o = true →
  truthy_str (opt_callId o) = true → truthy_str (opt_wsToken o) = true →
  shouldReconnect o code = true.
Proof.
  unfold shouldReconnect, no_reconnect_code. intros Hno -> -> ->. simpl.
  destruct (Z.eqb_spec code 1000) as [->|H1]; [destruct Hno; by left|].
  destruct (Z.eqb_spec code 4000) as [->|H2]; [destruct Hno; right; by left|].
  simpl. destruct (Z.leb_spec 4001 code) as [H3|H3]; [|done].
  destruct (Z.leb_spec code 4099) as [H4|H4]; [|done].
  destruct Hno. right; right. lia.
Qed.

Lemma clear_ping_timers k t kind :
  timers (clear_ping k) !! t = Some kind → timers k !! t = Some kind.
Proof.
  unfold clear_ping. destruct (pingTimerRef k) as [p|]; simpl; [|done].
  intros H. by apply lookup_delete_Some in H as [_ H].
Qed.

Lemma clear_ping_frame k :
  reconnectTimerRef (clear_ping k) = reconnectTimerRef k ∧
  next_timer (clear_ping k) = next_timer k ∧
  mountedRef (clear_ping k) = mountedRef k.
Proof. unfold clear_ping. by destruct (pingTimerRef k). Qed.

(** C4.  The socket of a mounted hook closes: a close with code 1000,
    4000 or 4001-4099 arms no timer and leaves the connection state
    [Disconnected]; a close with any other code, when auto-reconnect is on and
    the call identifier and token are present, leaves it [Reconnecting] with a
    reconnect timeout armed for the configured delay, 2000 ms when none is
    configured. *)
Theorem close_reconnects_unless_normal_or_client_error :
  ∀ (o : UseCallChannelOptions) (code : Z) (k : Hook),
    mountedRef k = true → close_behaviour o code k.
Proof.
  intros o code k Hm. unfold close_behaviour, onclose. rewrite Hm. simpl.
  destruct (clear_ping_frame k) as (Hr & Hn & Hm').
  split.
  - intros Hno. rewrite (shouldReconnect_no _ _ Hno).
    unfold updateConnectionState. simpl. rewrite Hm', Hm. simpl.
    split; [done|]. split; [done|]. apply clear_ping_timers.
  - intros Hno Ha Hc Ht. rewrite (shouldReconnect_yes _ _ Hno Ha Hc Ht).
    unfold updateConnectionState. simpl. rewrite Hm', Hm. simpl. rewrite Hn.
    split; [done|]. split; [done|]. split; [by rewrite lookup_insert_eq|].
    unfold reconnectDelay_of. by intros ->.
Qed.

Lemma close_reconnects_unless_normal_or_client_error_witness :
  let o := mkOptions (Some "call-1") (Some "token-1") None None None None in
  let k := mkHook Connected [] None true (Some Transport.CLOSED) None (Some 1) None true
             {[1 := PingInterval 30000]} 2 [] [] in
  mountedRef k = true ∧
  connectionState (onclose o 1006 k) = Reconnecting ∧
  timers (onclose o 1006 k) !! 2 = Some (ReconnectTimeout 2000) ∧
  connectionState (onclose o 4050 k) = Disconnected.
Proof.
  intros o k.
  assert (mountedRef k = true) as Hm by reflexivity.
  split; [exact Hm|].
  destruct (close_reconnects_unless_normal_or_client_error o 1006 k Hm) as [_ H].
  destruct H as (H1 & _ & H3 & _); try reflexivity.
  { unfold no_reconnect_code. lia. }
  split; [exact H1|]. split; [exact H3|].
  destruct (close_reconnects_unless_normal_or_client_error o 4050 k Hm) as [H _].
  destruct H as (H4 & _).
  { unfold no_reconnect_code. lia. }
  exact H4.
Defined.

(** the close handler starts with the guard on [mountedRef]: the close of a
    socket that arrives after the hook was unmounted, when its cleanup has
    dropped the socket and cleared the timers, changes nothing *)
Lemma close_after_unmount_is_ignored o code k :
  mountedRef k = false → onclose o code k = k.
Proof. intros Hm. unfold onclose. by rewrite Hm. Qed.

(** *** Text chat *)

Lemma sendRawMessage_false throws m k :
  (sendRawMessage throws m k).2 = false →
  sent (sendRawMessage throws m k).1 = sent k ∧
  textChatEnabled (sendRawMessage throws m k).1 = textChatEnabled k.
Proof.
  unfold sendRawMessage. destruct (ws_open k); simpl; [|done].
  destruct (throws m); simpl; [|discriminate].
  intros _. unfold handleError. by destruct (mountedRef k).
Qed.

Lemma sendRawMessage_true throws m k :
  (sendRawMessage throws m k).2 = true →
  (sendRawMessage throws m k).1 = push_sent m k ∧ ws_open k = true ∧ throws m = None.
Proof.
  unfold sendRawMessage. destruct (ws_open k); simpl; [|discriminate].
  by destruct (throws m).
Qed.

Lemma sendRawMessage_closed throws m k :
  ws_open k = false → sendRawMessage throws m k = (k, false).
Proof. unfold sendRawMessage. by intros ->. Qed.

(** C10.  [enableTextChat] and [disableTextChat] return [true] exactly when
    the control message was handed to the open socket, and only then is
    [textChatEnabled] written; when they return [false] the flag is as before,
    and when the call identifier is absent or the socket is not open the whole
    hook state is as before. *)
Theorem text_chat_flag_follows_transmission :
  ∀ (o : UseCallChannelOptions) (throws : ChannelMessage → option string)
    (id : string) (now : Z) (mode : ResponseMode) (k : Hook),
    let en := enableTextChat o throws id now mode k in
    let dis := disableTextChat o throws id now k in
    let cid := default "" (opt_callId o) in
    (en.2 = true →
       sent en.1 = sent k ++ [createEnableTextChatMessage id now cid mode] ∧
       textChatEnabled en.1 = true) ∧
    (en.2 = false → textChatEnabled en.1 = textChatEnabled k ∧ sent en.1 = sent k) ∧
    (dis.2 = true →
       sent dis.1 = sent k ++ [createDisableTextChatMessage id now cid] ∧
       textChatEnabled dis.1 = false) ∧
    (dis.2 = false → textChatEnabled dis.1 = textChatEnabled k ∧ sent dis.1 = sent k) ∧
    (truthy_str (opt_callId o) = false ∨ ws_open k = false →
       en = (k, false) ∧ dis = (k, false)).
Proof.
  intros o throws id now mode k en dis cid. subst en dis cid.
  unfold enableTextChat, disableTextChat.
  destruct (truthy_str (opt_callId o)) eqn:Hc; simpl.
  - set (me := createEnableTextChatMessage _ _ _ _).
    set (md := createDisableTextChatMessage _ _ _).
    split; [|split; [|split; [|split]]].
    + destruct (sendRawMessage throws me k).2 eqn:E; simpl; [|discriminate].
      intros _. by destruct (sendRawMessage_true _ _ _ E) as (-> & _).
    + destruct (sendRawMessage throws me k).2 eqn:E; simpl; [discriminate|].
      intros _. by destruct (sendRawMessage_false _ _ _ E).
    + destruct (sendRawMessage throws md k).2 eqn:E; simpl; [|discriminate].
      intros _. by destruct (sendRawMessage_true _ _ _ E) as (-> & _).
    + destruct (sendRawMessage throws md k).2 eqn:E; simpl; [discriminate|].
      intros _. by destruct (sendRawMessage_false _ _ _ E).
    + intros [?|Hw]; [done|]. by rewrite !(sendRawMessage_closed _ _ _ Hw).
  - repeat split; try discriminate; done.
Qed.

Lemma text_chat_flag_follows_transmission_witness :
  let o := mkOptions (Some "call-1") (Some "token-1") None None None None in
  let closed := mkHook Reconnecting [] None true (Some Transport.CLOSED) None None None true
                  ∅ 0 [] [] in
  let opened := mkHook Connected [] None false (Some Transport.OPEN) None None None true
                  ∅ 0 [] [] in
  disableTextChat o (λ _, None) "m-1" 5 closed = (closed, false) ∧
  textChatEnabled (enableTextChat o (λ _, None) "m-2" 6 text opened).1 = true.
Proof.
  intros o closed opened.
  destruct (text_chat_flag_follows_transmission o (λ _, None) "m-1" 5 text closed)
    as (_ & _ & _ & _ & H).
  destruct H as [_ H]; [by right|].
  split; [exact H|].
  destruct (text_chat_flag_follows_transmission o (λ _, None) "m-2" 6 text opened)
    as (H' & _).
  destruct H' as [_ H']; [reflexivity|]. exact H'.
Defined.

(** *** Actions answered asynchronously *)

Lemma is_terminal_ack id now cid aid st aid' :
  is_terminal_for aid' (createActionAckMessage id now cid aid st) = false.
Proof. unfold is_terminal_for. simpl. by rewrite andb_false_r. Qed.

Lemma is_terminal_async id now cid aid ok d e ms :
  is_terminal_for aid (createAsyncActionResultMessage id now cid aid ok d e ms) = true.
Proof. unfold is_terminal_for. simpl. by rewrite String.eqb_refl. Qed.

Lemma terminal_results_push aid m k :
  terminal_results aid (push_sent m k) =
  terminal_results aid k ++ (if is_terminal_for aid m then [m] else []).
Proof.
  unfold terminal_results. simpl. rewrite filter_app. f_equal.
  rewrite filter_cons. simpl. destruct (is_terminal_for aid m); by case_decide.
Qed.

Lemma sendRawMessage_sent throws m k :
  sent (sendRawMessage throws m k).1 = sent k ∨
  (sendRawMessage throws m k).1 = push_sent m k.
Proof.
  unfold sendRawMessage. destruct (ws_open k); simpl; [|by left].
  destruct (throws m); simpl; [|by right].
  left. unfold handleError. by destruct (mountedRef k).
Qed.

Lemma handleMessage_async o throws id start now m a handler note k :
  type m = TAction → action m = Some a → onAction o = Some handler →
  handler a = Resolves (AsyncActionResult note) →
  handleMessage o throws id start now m k =
    if mountedRef k then
      let k1 := call (OnMessage m) (set_lastMessageIdRef (Some (messageId m)) k) in
      if requiresResponse a && truthy_str (opt_callId o)
      then (sendRawMessage throws
              (createActionAckMessage id now (default "" (opt_callId o)) (actionId a)
                 received) k1).1
      else k1
    else k.
Proof.
  intros Hty Ha Ho Hh. unfold handleMessage. destruct (mountedRef k); simpl; [|done].
  rewrite Hty, Ha. unfold handle_action. by rewrite Ho, Hh.
Qed.

(** C5, as amended.  For an action whose handler answers with the
    asynchronous shape, the hook sends nothing or the one non-final
    acknowledgment [received], and so no terminal result, for any action; the
    acknowledgment is sent when the hook is mounted, the action requires a
    response, the call identifier is present, the socket is open and the send
    does not throw.  A call of [sendAsyncActionResult] that is transmitted
    sends exactly one message, a terminal result for its action with status
    [completed] or [failed]; one that is not transmitted sends nothing. *)
Theorem async_action_sends_only_acknowledgment :
  ∀ (o : UseCallChannelOptions) (throws : ChannelMessage → option string)
    (id : string) (start now : Z) (m : ChannelMessage) (a : ActionPayload)
    (handler : ActionHandler) (note : option string) (k : Hook),
    type m = TAction → action m = Some a → onAction o = Some handler →
    handler a = Resolves (AsyncActionResult note) →
    let k' := handleMessage o throws id start now m k in
    let ack := createActionAckMessage id now (default "" (opt_callId o)) (actionId a)
                 received in
    (sent k' = sent k ∨ sent k' = sent k ++ [ack]) ∧
    (∀ aid, terminal_results aid k' = terminal_results aid k) ∧
    (actionResult ack =
       Some (mkActionResult (actionId a) (Some received) true None None None (Some false))) ∧
    (mountedRef k = true → requiresResponse a = true →
     truthy_str (opt_callId o) = true → ws_open k = true → throws ack = None →
       sent k' = sent k ++ [ack]) ∧
    (∀ id' now' ok d e ms,
       let r := sendAsyncActionResult o throws id' now' (actionId a) ok d e ms k' in
       let final := createAsyncActionResultMessage id' now' (default "" (opt_callId o))
                      (actionId a) ok d e ms in
       (r.2 = true →
          sent r.1 = sent k' ++ [final] ∧
          terminal_results (actionId a) r.1 = terminal_results (actionId a) k' ++ [final] ∧
          actionResult final =
            Some (mkActionResult (actionId a) (Some (if ok then completed else failed))
                    ok d e ms (Some true))) ∧
       (r.2 = false → sent r.1 = sent k')).
Proof.
  intros o throws id start now m a handler note k Hty Ha Ho Hh k' ack.
  pose proof (handleMessage_async o throws id start now m a handler note k Hty Ha Ho Hh)
    as Hk'. cbv zeta in Hk'. fold k' ack in Hk'.
  set (k1 := call (OnMessage m) (set_lastMessageIdRef (Some (messageId m)) k)) in Hk'.
  assert (sent k' = sent k ∨ sent k' = sent k ++ [ack]) as Hsent.
  { rewrite Hk'. destruct (mountedRef k); [|by left].
    destruct (requiresResponse a && truthy_str (opt_callId o)); [|by left].
    destruct (sendRawMessage_sent throws ack k1) as [E|E]; rewrite E; [by left|by right]. }
  split; [exact Hsent|]. split; [|split; [done|split]].
  - intros aid. destruct Hsent as [Hs|Hs].
    + unfold terminal_results. by rewrite Hs.
    + change (terminal_results aid k') with
        (filter (λ m, is_terminal_for aid m = true) (sent k')).
      rewrite Hs. change (sent k ++ [ack]) with (sent (push_sent ack k)).
      change (filter (λ m, is_terminal_for aid m = true) (sent (push_sent ack k)))
        with (terminal_results aid (push_sent ack k)).
      rewrite terminal_results_push. unfold ack. rewrite is_terminal_ack.
      by rewrite app_nil_r.
  - intros Hm Hr Hc Hw Ht. rewrite Hk', Hm, Hr, Hc. simpl.
    unfold sendRawMessage. change (ws_open k1) with (ws_open k). by rewrite Hw, Ht.
  - intros id' now' ok d e ms r final. subst r. unfold sendAsyncActionResult.
    destruct (truthy_str (opt_callId o)); simpl; [|split; [discriminate|done]].
    fold final. split.
    + intros E. destruct (sendRawMessage_true _ _ _ E) as (-> & _).
      split; [done|]. split; [|done].
      rewrite terminal_results_push. unfold final. by rewrite is_terminal_async.
    + intros E. by destruct (sendRawMessage_false _ _ _ E).
Qed.

Lemma async_action_sends_only_acknowledgment_witness :
  let act := mkAction "a-1" "fill_form" ∅ true in
  let o := mkOptions (Some "call-1") (Some "token-1")
             (Some (λ _, Resolves (AsyncActionResult None))) None None None in
  let m := mkMessage TAction "call-1" "m-0" 1 to_browser None (Some act) None None None
             None None in
  let k := mkHook Connected [] None false (Some Transport.OPEN) None None None true
             ∅ 0 [] [] in
  let k' := handleMessage o (λ _, None) "m-1" 2 3 m k in
  sent k' = [createActionAckMessage "m-1" 3 "call-1" "a-1" received] ∧
  terminal_results "a-1" k' = [] ∧
  terminal_results "a-1"
    (sendAsyncActionResult o (λ _, None) "m-2" 9 "a-1" true None None (Some 6%Z) k').1
  = [createAsyncActionResultMessage "m-2" 9 "call-1" "a-1" true None None (Some 6%Z)].
Proof.
  intros act o m k k'.
  destruct (async_action_sends_only_acknowledgment o (λ _, None) "m-1" 2 3 m act
              (λ _, Resolves (AsyncActionResult None)) None k
              eq_refl eq_refl eq_refl eq_refl) as (_ & Hterm & _ & Hack & Hfinal).
  split; [exact (Hack eq_refl eq_refl eq_refl eq_refl eq_refl)|].
  split; [exact (Hterm "a-1")|].
  destruct (Hfinal "m-2" 9%Z true None None (Some 6%Z)) as [H _].
  destruct (H eq_refl) as (_ & H2 & _). exact H2.
Defined.

(** C5, as stated, fails: nothing counts the terminal results of an action.
    After an action answered asynchronously, two calls of
    [sendAsyncActionResult] for it put two terminal results on the socket. *)
Lemma two_terminal_results_counterexample :
  let act := mkAction "a-1" "fill_form" ∅ true in
  let o := mkOptions (Some "call-1") (Some "token-1")
             (Some (λ _, Resolves (AsyncActionResult None))) None None None in
  let m := mkMessage TAction "call-1" "m-0" 1 to_browser None (Some act) None None None
             None None in
  let k := mkHook Connected [] None false (Some Transport.OPEN) None None None true
             ∅ 0 [] [] in
  let k1 := handleMessage o (λ _, None) "m-1" 2 3 m k in
  let k2 := (sendAsyncActionResult o (λ _, None) "m-2" 9 "a-1" true None None None k1).1 in
  let k3 := (sendAsyncActionResult o (λ _, None) "m-3" 12 "a-1" false None (Some "late")
               None k2).1 in
  terminal_results "a-1" k3 =
    [createAsyncActionResultMessage "m-2" 9 "call-1" "a-1" true None None None;
     createAsyncActionResultMessage "m-3" 12 "call-1" "a-1" false None (Some "late") None] ∧
  length (terminal_results "a-1" k3) ≠ 1.
Proof. intros act o m k k1 k2 k3. split; [reflexivity|]. vm_compute. discriminate. Qed.

End ChannelFacts.

(** ** The call state machine and the hangup path *)
Section HangupFacts.
Import Phone.

Lemma settled_step e s : ∃ l, Transport.settled (Transport.step e s) = Transport.settled s ++ l.
Proof.
  destruct e as [y msg|msg|k|dt| |ws sid hid]; simpl;
    try (exists []; by rewrite app_nil_r).
  - unfold Transport.sendMessage. destruct (Transport.ws_open s); simpl; eauto.
    exists []. by rewrite app_nil_r.
  - unfold Transport.handleMessage.
    destruct (Transport.find_handler msg s); simpl; eauto.
    exists []. by rewrite app_nil_r.
  - unfold Transport.fire_timer. destruct (Transport.timers s !! k) as [t|].
    + destruct (Transport.clock s <? Transport.t_deadline t)%Z; simpl; eauto.
      exists []. by rewrite app_nil_r.
    + exists []. by rewrite app_nil_r.
Qed.

(** a settlement is never taken back *)
Lemma settlements_run p evs s :
  ∃ l, Transport.settlements p (Transport.run evs s) = Transport.settlements p s ++ l.
Proof.
  revert s. induction evs as [|e evs IH]; intros s; simpl.
  - exists []. by rewrite app_nil_r.
  - destruct (IH (Transport.step e s)) as [l ->].
    destruct (settled_step e s) as [l' E].
    unfold Transport.settlements. rewrite E, filter_app, fmap_app, <-app_assoc. eauto.
Qed.

Lemma clock_step e s : (Transport.clock s ≤ Transport.clock (Transport.step e s))%Z.
Proof.
  destruct e as [y msg|msg|k|dt| |ws sid hid]; simpl; try lia.
  - unfold Transport.sendMessage. destruct (Transport.ws_open s); simpl; lia.
  - unfold Transport.handleMessage. destruct (Transport.find_handler msg s); simpl; lia.
  - unfold Transport.fire_timer. destruct (Transport.timers s !! k) as [t|]; [|lia].
    destruct (Transport.clock s <? Transport.t_deadline t)%Z; simpl; lia.
Qed.

Lemma clock_run evs s : (Transport.clock s ≤ Transport.clock (Transport.run evs s))%Z.
Proof.
  revert s. induction evs as [|e evs IH]; intros s; simpl; [lia|].
  pose proof (clock_step e s). pose proof (IH (Transport.step e s)). lia.
Qed.

(** a request is settled once its timeout has had the time to run: at once
    when the socket is not open, and otherwise at the latest when 10 s have
    passed and the timer runs *)
Lemma await_send_completes a msg w :
  (Transport.ws_open (transport w) = false ∨
   ∃ c pre evs, transport w = Transport.run pre (Transport.initial c) ∧
     during a = evs ++ [Transport.ETick 10000;
                        Transport.ETimer (Transport.next_timer (transport w))]) →
  is_Some (await_send a msg w).2.
Proof.
  unfold await_send. simpl. intros [Hclosed|(c & pre & evs & Ht & Hd)].
  - destruct (settlements_run (Transport.sendMessage (transaction a) msg (transport w)).2
                (during a)
                (Transport.sendMessage (transaction a) msg (transport w)).1) as [l ->].
    unfold Transport.sendMessage. rewrite Hclosed. simpl.
    unfold Transport.settlements. simpl. rewrite settlements_snoc.
    destruct (decide (Transport.next_promise (transport w)
                      = Transport.next_promise (transport w))); [|done].
    destruct (filter _ _).*2; simpl; eauto.
  - destruct (Transport.ws_open (transport w)) eqn:Hopen; cycle 1.
    { destruct (settlements_run (Transport.sendMessage (transaction a) msg (transport w)).2
                  (during a)
                  (Transport.sendMessage (transaction a) msg (transport w)).1) as [l ->].
      unfold Transport.sendMessage. rewrite Hopen. simpl.
      unfold Transport.settlements. simpl. rewrite settlements_snoc.
      destruct (decide (Transport.next_promise (transport w)
                        = Transport.next_promise (transport w))); [|done].
      destruct (filter _ _).*2; simpl; eauto. }
    set (s := transport w) in *.
    assert (Transport.wf s) as Hwf by (rewrite Ht; apply wf_run, wf_initial).
    destruct (tracked_after_send (transaction a) msg s Hwf Hopen) as [T0 _].
    assert ((Transport.sendMessage (transaction a) msg s).2 = Transport.next_promise s)
      as -> by (unfold Transport.sendMessage; by destruct (Transport.ws_open s)).
    rewrite Hd. unfold Transport.run. rewrite foldl_app. simpl.
    fold (Transport.run evs (Transport.sendMessage (transaction a) msg s).1).
    set (s1 := Transport.run evs _).
    pose proof (tracked_run _ _ _ _ evs _ T0) as T1. fold s1 in T1.
    pose proof (tracked_step _ _ _ _ (Transport.ETick 10000) _ T1) as T2. simpl in T2.
    destruct (nil_or_not (Transport.settlements (Transport.next_promise s)
                            (Transport.advance 10000 s1))) as [Hnil|Hne].
    + destruct (timeout_settles _ _ _ _ _ T2 Hnil) as [-> _]; [|by eauto].
      pose proof (clock_run evs (Transport.sendMessage (transaction a) msg s).1) as Hc.
      fold s1 in Hc. unfold Transport.sendMessage in Hc. rewrite Hopen in Hc.
      simpl in *. unfold Transport.TRANSACTION_TIMEOUT. lia.
    + destruct (settlements_run (Transport.next_promise s)
                  [Transport.ETimer (Transport.next_timer s)]
                  (Transport.advance 10000 s1)) as [l E].
      simpl in E. rewrite E.
      destruct (Transport.settlements _ (Transport.advance 10000 s1)); [done|].
      simpl. eauto.
Qed.

Lemma hangup_teardown_spec registered w :
  let w' := hangup_teardown registered w in
  Store.inCall (Store.connection (store w')) = false ∧
  Store.calling (Store.connection (store w')) = false ∧
  sessionStorage w' = None ∧
  pcRef w' = None ∧ localStreamRef w' = None ∧
  pendingCandidatesRef w' = [] ∧ remoteDescriptionSetRef w' = false ∧
  host w' = host (cleanupCall w).
Proof.
  unfold hangup_teardown. rewrite cleanupCall_eq, (cleanupCall_eq w).
  by cbn [store sessionStorage pcRef localStreamRef pendingCandidatesRef
          remoteDescriptionSetRef host set_sessionStorage with_store set_chatOpen].
Qed.

Lemma cleanupCall_host_transport t w :
  host (cleanupCall (set_transport t w)) = host (cleanupCall w).
Proof. by rewrite !cleanupCall_eq. Qed.

Lemma await_send_world a msg w :
  (await_send a msg w).1 = set_transport (transport (await_send a msg w).1) w.
Proof. reflexivity. Qed.

Lemma handleHangup_eq cb a w :
  handleHangup cb a w =
  match (await_send a hangup_request w).2 with
  | Some _ =>
      (hangup_teardown match cb with HandleHangup registered => registered end
         (await_send a hangup_request w).1, true)
  | None => ((await_send a hangup_request w).1, false)
  end.
Proof.
  unfold handleHangup. destruct cb as [registered].
  by destruct (await_send a hangup_request w) as [w1 [o|]].
Qed.

Lemma sip_hangup_dispatch data jsep w :
  is_str (sip_event data) "hangup" || is_str (sip_event data) "declining"
    || is_str (sip_event data) "missed" = true →
  handleSipEvent data jsep w = (w, invoke_onHangup w).
Proof.
  intros H. unfold handleSipEvent.
  apply orb_true_iff in H as [H|H]; [apply orb_true_iff in H as [H|H]|];
    apply is_str_true in H; by rewrite H.
Qed.

(** C7.  With a hangup callback registered, a [hangup], [declining] or
    [missed] event leaves the state as it is and calls the callback once.  The
    callback, once its hangup request has settled, has cleared [inCall] and
    [calling], deleted the persisted call state, and left the refs and the
    native calls as [cleanupCall] leaves them; until then it has touched the
    transport only.  The request settles at once when the socket is not open,
    and at the latest when its timeout runs. *)
Theorem hangup_event_runs_callback_once :
  ∀ (w : World) (data : Obj) (jsep : option Jsep) (cb : HangupCallback) (a : Await),
    onHangupRef w = Some cb →
    is_str (sip_event data) "hangup" || is_str (sip_event data) "declining"
      || is_str (sip_event data) "missed" = true →
    let r := handleHangup cb a w in
    handleSipEvent data jsep w = (w, [RunHangup cb]) ∧
    (r.2 = true →
       Store.inCall (Store.connection (store r.1)) = false ∧
       Store.calling (Store.connection (store r.1)) = false ∧
       sessionStorage r.1 = None ∧
       pcRef r.1 = None ∧ localStreamRef r.1 = None ∧
       pendingCandidatesRef r.1 = [] ∧ remoteDescriptionSetRef r.1 = false ∧
       host r.1 = host (cleanupCall w)) ∧
    (r.2 = false → r.1 = set_transport (transport r.1) w) ∧
    ((Transport.ws_open (transport w) = false ∨
      ∃ c pre evs, transport w = Transport.run pre (Transport.initial c) ∧
        during a = evs ++ [Transport.ETick 10000;
                           Transport.ETimer (Transport.next_timer (transport w))]) →
       r.2 = true).
Proof.
  intros w data jsep cb a Hcb Hev r. split; [|split; [|split]].
  - rewrite (sip_hangup_dispatch _ _ _ Hev). unfold invoke_onHangup. by rewrite Hcb.
  - subst r. rewrite handleHangup_eq. destruct (await_send a hangup_request w).2;
      cbn [fst snd]; [|discriminate].
    intros _. rewrite await_send_world.
    pose proof (hangup_teardown_spec
                  match cb with HandleHangup registered => registered end
                  (set_transport (transport (await_send a hangup_request w).1) w)) as H.
    cbv zeta in H. by rewrite cleanupCall_host_transport in H.
  - subst r. rewrite handleHangup_eq. destruct (await_send a hangup_request w).2;
      cbn [fst snd]; [discriminate|].
    intros _. by rewrite await_send_world at 1.
  - intros Hc. subst r. rewrite handleHangup_eq.
    by destruct (await_send_completes a hangup_request w Hc) as [o ->].
Qed.

Lemma hangup_event_runs_callback_once_witness :
  let saved := Persisted.mkPersisted "call-1" "ep-1" None None 100000 (Some "token-1")
                 (Some "eu.telpro.example") in
  let st := Store.mkStore Store.initialUIState
              (Store.mkConnection true true false true true false "In Call")
              (Store.mkCallData "ep-1" "" "" (Some "call-1") (Some "token-1")
                 (Some "eu.telpro.example") "12") in
  let w := mkWorld st (Transport.initial 0) None (Some 3) (Some (mkStream 1 [10; 11]))
             None None [None] true (Some (HandleHangup true)) true
             (Some (Persisted.Json saved)) [] in
  let data : Obj := {["result" := JObj {["event" := JStr "hangup"]}]} in
  let r := handleHangup (HandleHangup true) (mkAwait "Xk3mP0qLw9Zt" []) w in
  onHangupRef w = Some (HandleHangup true) ∧
  handleSipEvent data None w = (w, [RunHangup (HandleHangup true)]) ∧
  r.2 = true ∧
  Store.inCall (Store.connection (store r.1)) = false ∧
  sessionStorage r.1 = None ∧
  host r.1 = [PcClose 3; TrackStop 10; TrackStop 11].
Proof.
  intros saved st w data r.
  assert (onHangupRef w = Some (HandleHangup true)) as Hcb by reflexivity.
  assert (is_str (sip_event data) "hangup" || is_str (sip_event data) "declining"
            || is_str (sip_event data) "missed" = true) as Hev by (vm_compute; reflexivity).
  split; [exact Hcb|].
  destruct (hangup_event_runs_callback_once w data None (HandleHangup true)
              (mkAwait "Xk3mP0qLw9Zt" []) Hcb Hev) as (H1 & H2 & _ & H4).
  split; [exact H1|].
  assert (r.2 = true) as Hdone by (apply H4; left; reflexivity).
  split; [exact Hdone|].
  destruct (H2 Hdone) as (Hin & _ & Hss & _ & _ & _ & _ & Hhost).
  split; [exact Hin|]. split; [exact Hss|].
  etrans; [exact Hhost|]. vm_compute. reflexivity.
Defined.

(** the same event as the gateway frames it, through the router: the frame
    matches no transaction, and its plugin data reach [handleSipEvent] *)
Example inbound_hangup_frame :
  let h := mkHost (λ _ _ _, true) (λ _ _ _, true) (λ _, inl "denied")
             (λ _, 0) (λ _ _, inl "no offer") (λ _ _ _, None) in
  let w := mkWorld Store.initialStore (Transport.initial 0) None None None None None
             [] false (Some (HandleHangup true)) false None [] in
  let frame : Obj :=
    <["janus" := JStr "event"]>
      {["plugindata" :=
          JObj {["data" :=
                   JObj (<["sip" := JStr "event"]>
                           {["result" := JObj {["event" := JStr "hangup"]}]})]}]} in
  let bye : Obj := {["janus" := JStr "hangup"]} in
  handleMessage h frame w = (w, [RunHangup (HandleHangup true)]) ∧
  handleMessage h bye w = (w, [RunHangup (HandleHangup true)]).
Proof. vm_compute. split; reflexivity. Qed.

End HangupFacts.

(** ** Reconnection *)
Section ReconnectFacts.
Import Phone.

Lemma reconnectCall_eq h a preferPcma state w :
  reconnectCall h a preferPcma state w =
  let w0 := with_store (Store.setStatus "Reconnecting...")
              (with_store (Store.setReconnecting true) w) in
  if negb (truthy_str (Persisted.telproDomain state)) then
    (w0, Threw (Some "TelPro domain not available in stored state"))
  else
    try_catch_finally
      (reconnect_body h a preferPcma state (default "" (Persisted.telproDomain state)))
      reconnect_catch reconnect_finally w0.
Proof.
  unfold reconnectCall. cbv zeta.
  by destruct (negb (truthy_str (Persisted.telproDomain state))).
Qed.

Lemma reconnect_finally_spec w :
  Store.reconnecting (Store.connection (store (reconnect_finally w))) = false ∧
  pendingReconnectRef (reconnect_finally w) = None ∧
  Store.status (Store.connection (store (reconnect_finally w)))
    = Store.status (Store.connection (store w)) ∧
  sessionStorage (reconnect_finally w) = sessionStorage w ∧
  pcRef (reconnect_finally w) = pcRef w ∧
  localStreamRef (reconnect_finally w) = localStreamRef w ∧
  host (reconnect_finally w) = host w.
Proof. done. Qed.

Lemma reconnect_catch_spec e w :
  Store.status (Store.connection (store (reconnect_catch e w)))
    = "Reconnect failed: " +:+ default "Unknown" e ∧
  sessionStorage (reconnect_catch e w) = None ∧
  pcRef (reconnect_catch e w) = None ∧
  localStreamRef (reconnect_catch e w) = None ∧
  (∀ pc, pcRef w = Some pc → PcClose pc ∈ host (reconnect_catch e w)) ∧
  (∀ stream track, localStreamRef w = Some stream → track ∈ getTracks stream →
     TrackStop track ∈ host (reconnect_catch e w)).
Proof.
  unfold reconnect_catch. cbv zeta. rewrite cleanupCall_eq.
  cbn [store sessionStorage pcRef localStreamRef host set_sessionStorage with_store called].
  repeat split.
  - intros pc ->. apply elem_of_app. right. apply elem_of_app. left. left.
  - intros stream track -> Ht. apply elem_of_app. right. apply elem_of_app. right.
    apply list_elem_of_fmap. by exists track.
Qed.

(** with a signalling domain in the stored state, [reconnectCall] never
    throws; when it completes the reconnecting flag and the pending-reconnect
    marker are cleared; when a step of its [try] block failed, the status
    reports the failure, the persisted state is deleted, and the peer
    connection and the stream acquired are released *)
Lemma reconnectCall_with_domain h a preferPcma state w :
  truthy_str (Persisted.telproDomain state) = true →
  let w0 := with_store (Store.setStatus "Reconnecting...")
              (with_store (Store.setReconnecting true) w) in
  let body := reconnect_body h a preferPcma state
                (default "" (Persisted.telproDomain state)) w0 in
  let r := reconnectCall h a preferPcma state w in
  (r.2 = Suspended ∨ r.2 = Returned tt) ∧
  (r.2 = Returned tt →
     Store.reconnecting (Store.connection (store r.1)) = false ∧
     pendingReconnectRef r.1 = None) ∧
  (∀ e, body.2 = Threw e →
     r.2 = Returned tt ∧
     Store.status (Store.connection (store r.1))
       = "Reconnect failed: " +:+ default "Unknown" e ∧
     sessionStorage r.1 = None ∧ pcRef r.1 = None ∧ localStreamRef r.1 = None ∧
     (∀ pc, pcRef body.1 = Some pc → PcClose pc ∈ host r.1) ∧
     (∀ stream track, localStreamRef body.1 = Some stream → track ∈ getTracks stream →
        TrackStop track ∈ host r.1)).
Proof.
  intros Hd w0 body r. subst r. rewrite reconnectCall_eq. cbv zeta. rewrite Hd.
  cbn [negb]. unfold try_catch_finally. fold w0. fold body.
  destruct body as [w1 [[]|e|]]; cbn [fst snd].
  - split; [by right|]. split; [|discriminate].
    intros _. by destruct (reconnect_finally_spec w1) as (? & ? & _).
  - split; [by right|]. split.
    + intros _. by destruct (reconnect_finally_spec (reconnect_catch e w1)) as (? & ? & _).
    + intros e' [= <-].
      destruct (reconnect_finally_spec (reconnect_catch e w1))
        as (_ & _ & -> & -> & -> & -> & ->).
      destruct (reconnect_catch_spec e w1) as (? & ? & ? & ? & ? & ?). done.
  - split; [by left|]. split; discriminate.
Qed.

(** without one it throws before its [try] block: neither the [catch] nor
    the [finally] block runs *)
Lemma reconnectCall_without_domain h a preferPcma state w :
  truthy_str (Persisted.telproDomain state) = false →
  reconnectCall h a preferPcma state w =
    (with_store (Store.setStatus "Reconnecting...")
       (with_store (Store.setReconnecting true) w),
     Threw (Some "TelPro domain not available in stored state")).
Proof. intros Hd. rewrite reconnectCall_eq. cbv zeta. by rewrite Hd. Qed.




(** the guard seen from a direct call, which the component never makes: a
    state without a signalling domain makes [reconnectCall] throw before its
    [try] block, so that neither its [catch] nor its [finally] block runs *)
Example reconnect_without_domain_leaves_reconnecting :
  let state := Persisted.mkPersisted "call-1" "ep-1" None None 100000 (Some "token-1") None in
  let h := mkHost (λ _ _ _, true) (λ _ _ _, true) (λ _, inr (mkStream 1 [10]))
             (λ _, 2) (λ _ _, inr (mkJsep "offer" (Some "v=0"))) (λ _ _ _, None) in
  let w := mkWorld Store.initialStore (Transport.initial 0) (Some state) None None None None
             [] false None false (Some (Persisted.Json state)) [] in
  let r := reconnectCall h (mkAwait "Xk3mP0qLw9Zt" []) true state w in
  r.2 = Threw (Some "TelPro domain not available in stored state") ∧
  Store.reconnecting (Store.connection (store r.1)) = true ∧
  Store.status (Store.connection (store r.1)) = "Reconnecting..." ∧
  pendingReconnectRef r.1 = Some state ∧
  sessionStorage r.1 = Some (Persisted.Json state) ∧
  host r.1 = [].
Proof.
  intros state h w r. subst r.
  rewrite (reconnectCall_without_domain h _ true state w eq_refl). done.
Qed.

(** a reconnection that goes through: the gateway acknowledges the call
    request while the caller waits *)
Example reconnect_succeeds :
  let state := Persisted.mkPersisted "call-1" "ep-1" (Some "Front desk") None 100000
                 (Some "token-1") (Some "eu.telpro.example") in
  let h := mkHost (λ _ _ _, true) (λ _ _ _, true) (λ _, inr (mkStream 1 [10]))
             (λ _, 2) (λ _ _, inr (mkJsep "offer" (Some "v=0"))) (λ _ _ _, None) in
  let t := Transport.run [Transport.EConnection (Some Transport.OPEN) (Some 42%Z) (Some 7%Z)]
             (Transport.initial 0) in
  let w := mkWorld Store.initialStore t (Some state) (Some 1) None None None
             [] true None false (Some (Persisted.Json state)) [] in
  let ack : Obj := <["janus" := JStr "ack"]> {["transaction" := JStr "Xk3mP0qLw9Zt"]} in
  let r := reconnectCall h (mkAwait "Xk3mP0qLw9Zt" [Transport.EFrame ack]) true state w in
  r.2 = Returned tt ∧
  Store.reconnecting (Store.connection (store r.1)) = false ∧
  Store.calling (Store.connection (store r.1)) = true ∧
  pendingReconnectRef r.1 = None ∧
  pcRef r.1 = Some 2 ∧
  sessionStorage r.1 = Some (Persisted.Json state) ∧
  host r.1 = [PcClose 1; GetUserMedia; NewPeerConnection 2 "eu.telpro.example";
              PcAddTrack 2 10; SetAudioCodecPreferences 2 true; PcCreateOffer 2;
              PcSetLocalDescription 2 (mkJsep "offer" (Some "v=0"))].
Proof. vm_compute. repeat split. Qed.

(** a reconnection that fails at the microphone *)
Example reconnect_fails_at_microphone :
  let state := Persisted.mkPersisted "call-1" "ep-1" None None 100000
                 (Some "token-1") (Some "eu.telpro.example") in
  let h := mkHost (λ _ _ _, true) (λ _ _ _, true) (λ _, inl "Permission denied")
             (λ _, 2) (λ _ _, inr (mkJsep "offer" (Some "v=0"))) (λ _ _ _, None) in
  let w := mkWorld Store.initialStore (Transport.initial 0) (Some state) (Some 1) None None
             None [] true None false (Some (Persisted.Json state)) [] in
  let r := reconnectCall h (mkAwait "Xk3mP0qLw9Zt" []) true state w in
  r.2 = Returned tt ∧
  Store.reconnecting (Store.connection (store r.1)) = false ∧
  Store.status (Store.connection (store r.1)) = "Reconnect failed: Permission denied" ∧
  pendingReconnectRef r.1 = None ∧
  pcRef r.1 = None ∧
  sessionStorage r.1 = None.
Proof. vm_compute. repeat split. Qed.

End ReconnectFacts.

(** ** The transport, over every run *)
Section TransportInvariantFacts.
Import Transport TransportInvariant.

Lemma coherent_initial c : coherent (initial c).
Proof.
  split; simpl; try (intros; by rewrite lookup_empty in *).
  - intros _. lia.
  - intros p Hp. lia.
Qed.

Lemma coherent_send x msg s : wf s → coherent s → coherent (sendMessage x msg s).1.
Proof.
  intros Hwf [Hr Hu Ha Hd Ho Hp]. pose proof (settlements_unused s Hwf) as Hnew.
  destruct Hwf as [Wr Wt Ws].
  unfold sendMessage. destruct (ws_open s); split;
    unfold settlements in *; simpl; rewrite ?settlements_snoc.
  - intros y r. rewrite lookup_insert. case_decide.
    + intros [= <-]. subst. simpl. split; [done|]. rewrite lookup_insert_eq. eauto.
    + intros H'. destruct (Hr _ _ H') as [? [d Hd']]. split; [done|].
      destruct (Wr _ _ H') as (_ & ? & _). rewrite lookup_insert_ne by lia. eauto.
  - intros k k' t t'. rewrite !lookup_insert. repeat case_decide; subst.
    + done.
    + intros [= <-] H' E. simpl in E. destruct (Wt _ _ H'). lia.
    + intros H' [= <-] E. simpl in E. destruct (Wt _ _ H'). lia.
    + apply Hu.
  - intros k t. rewrite lookup_insert. case_decide.
    + by intros [= <-].
    + apply Ha.
  - intros k t. rewrite lookup_insert. case_decide.
    + intros [= <-]. simpl. lia.
    + apply Hd.
  - apply Ho.
  - intros p Hlt Hnil. destruct (decide (p = next_promise s)) as [->|Hne].
    + exists (next_timer s), (mkTimer x (next_promise s) (clock s + TRANSACTION_TIMEOUT)).
      by rewrite lookup_insert_eq.
    + destruct (Hp p) as (k & t & Hk & Ht); [lia|done|].
      exists k, t. split; [|done]. destruct (Wt _ _ Hk).
      rewrite lookup_insert_ne by lia. done.
  - done.
  - done.
  - intros k t H'. rewrite settlements_snoc.
    destruct (decide (next_promise s = t_promise t)) as [E|_].
    + destruct (Wt _ _ H'). lia.
    + rewrite app_nil_r. by apply (Ha k).
  - done.
  - intros p. rewrite settlements_snoc.
    destruct (decide (next_promise s = p)) as [<-|_].
    + rewrite Hnew. simpl. lia.
    + rewrite app_nil_r. apply Ho.
  - intros p Hlt. rewrite settlements_snoc.
    destruct (decide (next_promise s = p)) as [<-|Hne].
    + rewrite Hnew. done.
    + rewrite app_nil_r. apply Hp. lia.
Qed.

(** a settlement logged for the promise of a timer that is then disarmed *)
Lemma coherent_settle s s' k t o :
  coherent s → timers s !! k = Some t →
  timers s' = delete k (timers s) →
  transactionsRef s' = delete (t_transaction t) (transactionsRef s) →
  settled s' = settled s ++ [(t_promise t, o)] →
  next_promise s' = next_promise s → clock s' = clock s →
  coherent s'.
Proof.
  intros [Hr Hu Ha Hd Ho Hp] Hk Et Em Es En Ec.
  split; unfold settlements in *; rewrite ?Et, ?Em, ?Es, ?En, ?Ec, ?settlements_snoc.
  - intros y r H'. apply lookup_delete_Some in H' as [Hne H'].
    destruct (Hr _ _ H') as [? [d Hd']]. split; [done|].
    exists d. rewrite lookup_delete_ne; [done|].
    intros ->. rewrite Hk in Hd'. injection Hd' as ->. by simpl in Hne.
  - intros k1 k2 t1 t2 H1 H2. apply lookup_delete_Some in H1 as [_ H1].
    apply lookup_delete_Some in H2 as [_ H2]. by apply Hu.
  - intros k' t' H'. apply lookup_delete_Some in H' as [Hne H']. rewrite settlements_snoc.
    destruct (decide (t_promise t = t_promise t')) as [E|_].
    + destruct Hne. by apply (Hu _ _ _ _ Hk H').
    + rewrite app_nil_r. by apply (Ha k').
  - intros k' t' H'. apply lookup_delete_Some in H' as [_ H']. by apply (Hd k').
  - intros p. rewrite settlements_snoc.
    destruct (decide (t_promise t = p)) as [<-|_].
    + rewrite (Ha _ _ Hk). simpl. lia.
    + rewrite app_nil_r. apply Ho.
  - intros p Hlt. rewrite settlements_snoc.
    destruct (decide (t_promise t = p)) as [<-|Hne].
    + rewrite (Ha _ _ Hk). done.
    + rewrite app_nil_r. intros Hnil. destruct (Hp p Hlt Hnil) as (k' & t' & Hk' & Ht').
      exists k', t'. split; [|done]. rewrite lookup_delete_ne; [done|].
      intros <-. rewrite Hk in Hk'. injection Hk' as <-. done.
Qed.

Lemma coherent_step e s : wf s → coherent s → coherent (step e s).
Proof.
  intros Hwf C. destruct e as [y msg|msg|k|dt| |ws sid hid]; simpl.
  - by apply coherent_send.
  - unfold handleMessage. destruct (find_handler msg s) as [r|] eqn:E; [|done].
    apply find_handler_Some in E as (y & _ & _ & Hy). simpl.
    destruct (co_resolver _ C _ _ Hy) as [Hkey [d Hd]].
    eapply (coherent_settle s _ (r_timeout r) _ (response_outcome msg) C Hd); simpl;
      by rewrite ?Hkey.
  - unfold fire_timer. destruct (timers s !! k) as [t|] eqn:E; [|done].
    destruct (clock s <? t_deadline t)%Z; [done|].
    by eapply (coherent_settle s _ k t _ C E).
  - destruct C as [Hr Hu Ha Hd Ho Hp]. split; try done.
    simpl. intros k t H'. specialize (Hd _ _ H'). lia.
  - destruct C as [Hr Hu Ha Hd Ho Hp]. by split.
  - destruct C. by split.
Qed.

Lemma coherent_run evs s : wf s → coherent s → coherent (run evs s).
Proof.
  revert s. induction evs as [|e evs IH]; intros s Hwf C; simpl; [done|].
  apply IH; [by apply wf_step|by apply coherent_step].
Qed.

(** X1.  In every state the transport reaches: a resolver in the map is
    stored under the transaction it captured and its own timeout is armed, due
    within 10 s; a promise whose timeout is armed is unsettled; no promise is
    settled twice; and every promise [send] has returned is settled or still
    has its timeout armed. *)
Theorem transport_never_leaves_a_resolver_without_timeout :
  ∀ (c : Z) (evs : list Event),
    let s := run evs (initial c) in
    (∀ y r, transactionsRef s !! y = Some r →
       r_transaction r = y ∧
       ∃ d, timers s !! r_timeout r = Some (mkTimer y (r_promise r) d) ∧
            (d ≤ clock s + 10000)%Z ∧ settlements (r_promise r) s = []) ∧
    (∀ p, length (settlements p s) ≤ 1) ∧
    (∀ p, p < next_promise s →
       settlements p s ≠ [] ∨ ∃ k t, timers s !! k = Some t ∧ t_promise t = p).
Proof.
  intros c evs s.
  assert (coherent s) as C by (apply coherent_run; [apply wf_initial|apply coherent_initial]).
  split; [|split].
  - intros y r Hy. destruct (co_resolver _ C _ _ Hy) as [Hkey [d Hd]].
    split; [done|]. exists d. split; [done|]. split.
    + apply (co_deadline _ C _ _ Hd).
    + apply (co_armed _ C _ _ Hd).
  - apply (co_once _ C).
  - intros p Hp. destruct (nil_or_not (settlements p s)) as [Hnil|Hne]; [|by left].
    right. by apply (co_pending _ C).
Qed.

Lemma transport_never_leaves_a_resolver_without_timeout_witness :
  let s := run [EConnection (Some OPEN) None None;
                ESend "Xk3mP0qLw9Zt" {["janus" := JStr "create"]}; ETick 3] (initial 0) in
  transactionsRef s !! "Xk3mP0qLw9Zt" = Some (mkResolver 0 "Xk3mP0qLw9Zt" 0) ∧
  (∃ d, timers s !! 0 = Some (mkTimer "Xk3mP0qLw9Zt" 0 d) ∧ (d ≤ clock s + 10000)%Z) ∧
  settlements 0 s = [].
Proof.
  intros s.
  assert (transactionsRef s !! "Xk3mP0qLw9Zt" = Some (mkResolver 0 "Xk3mP0qLw9Zt" 0))
    as Hy by (vm_compute; reflexivity).
  split; [exact Hy|].
  destruct (transport_never_leaves_a_resolver_without_timeout 0
              [EConnection (Some OPEN) None None;
               ESend "Xk3mP0qLw9Zt" {["janus" := JStr "create"]}; ETick 3])
    as (H & _ & _).
  destruct (H _ _ Hy) as (_ & d & Hd & Hle & Hnil).
  split; [exists d; split; [exact Hd|exact Hle]|exact Hnil].
Defined.

(** the frame [send] builds *)
Lemma build_message_other x msg s key :
  key ≠ "transaction" → key ≠ "session_id" → key ≠ "handle_id" →
  build_message x msg s !! key = msg !! key.
Proof.
  intros H1 H2 H3. unfold build_message.
  destruct (handleIdRef s) as [hid|], (sessionIdRef s) as [sid|];
    repeat (case_match; simpl); by rewrite ?lookup_insert_ne.
Qed.

(** X2.  The frame [send] puts on the wire carries the transaction drawn for
    the request, whatever [transaction] the caller's message had; the session
    and handle identifiers are written over the caller's when the refs hold a
    non-zero number, and are the caller's own (or absent) when the refs are
    null or 0; every other field is the caller's.  With the socket open that
    frame, and no other, is added to the wire, and the resolver is registered
    under the same transaction. *)
Theorem sent_frame_carries_the_generated_transaction :
  ∀ (x : string) (msg : Obj) (s : State),
    let frame := build_message x msg s in
    frame !! "transaction" = Some (JStr x) ∧
    frame !! "session_id" =
      (if truthy_num (sessionIdRef s) then JNum <$> sessionIdRef s else msg !! "session_id") ∧
    frame !! "handle_id" =
      (if truthy_num (handleIdRef s) then JNum <$> handleIdRef s else msg !! "handle_id") ∧
    (∀ key, key ≠ "transaction" → key ≠ "session_id" → key ≠ "handle_id" →
       frame !! key = msg !! key) ∧
    (ws_open s = true →
       wire (sendMessage x msg s).1 = wire s ++ [frame] ∧
       r_transaction <$> transactionsRef (sendMessage x msg s).1 !! x = Some x).
Proof.
  intros x msg s frame. subst frame. split; [|split; [|split; [|split]]].
  - unfold build_message.
    destruct (handleIdRef s) as [hid|], (sessionIdRef s) as [sid|];
      repeat (case_match; simpl);
      by rewrite ?(lookup_insert_ne _ "handle_id"), ?(lookup_insert_ne _ "session_id"),
           lookup_insert_eq.
  - unfold build_message.
    destruct (handleIdRef s) as [hid|], (sessionIdRef s) as [sid|]; simpl;
      repeat (case_match; simpl);
      by rewrite ?(lookup_insert_ne _ "handle_id"), ?lookup_insert_eq,
           ?(lookup_insert_ne _ "transaction").
  - unfold build_message.
    destruct (handleIdRef s) as [hid|], (sessionIdRef s) as [sid|]; simpl;
      repeat (case_match; simpl);
      by rewrite ?lookup_insert_eq, ?(lookup_insert_ne _ "session_id"),
           ?(lookup_insert_ne _ "transaction").
  - intros key. apply build_message_other.
  - intros Hopen. unfold sendMessage. rewrite Hopen. simpl.
    by rewrite lookup_insert_eq.
Qed.

Lemma sent_frame_carries_the_generated_transaction_witness :
  let s := run [EConnection (Some OPEN) (Some 42%Z) (Some 0%Z)] (initial 0) in
  let msg : Obj := <["transaction" := JStr "forged"]>
                     (<["handle_id" := JNum 9]> {["janus" := JStr "keepalive"]}) in
  let frame := build_message "Xk3mP0qLw9Zt" msg s in
  ws_open s = true ∧
  frame !! "transaction" = Some (JStr "Xk3mP0qLw9Zt") ∧
  frame !! "session_id" = Some (JNum 42) ∧
  frame !! "handle_id" = Some (JNum 9) ∧
  frame !! "janus" = Some (JStr "keepalive") ∧
  wire (sendMessage "Xk3mP0qLw9Zt" msg s).1 = [frame].
Proof.
  intros s msg frame.
  assert (ws_open s = true) as Hopen by reflexivity.
  split; [exact Hopen|].
  destruct (sent_frame_carries_the_generated_transaction "Xk3mP0qLw9Zt" msg s)
    as (H1 & H2 & H3 & H4 & H5).
  split; [exact H1|]. split; [exact H2|]. split; [exact H3|].
  split; [etrans; [apply H4; discriminate|vm_compute; reflexivity]|].
  destruct (H5 Hopen) as [H6 _]. exact H6.
Defined.

(** X3.  Tearing the transport down settles nothing: after [cleanupJanus],
    whatever came before, the settlements of a request sent earlier are those
    it had, no frame is consumed as a response any more, and a request still
    pending keeps its timeout armed and is rejected with the timeout error
    when that timer runs, not before. *)
Theorem teardown_leaves_pending_requests_to_their_timeouts :
  ∀ (c : Z) (pre evs : list Event) (x : string) (msg : Obj),
    let s := run pre (initial c) in
    let p := next_promise s in
    let k := next_timer s in
    let before := run evs (sendMessage x msg s).1 in
    let after := cleanupJanus before in
    ws_open s = true →
    settlements p after = settlements p before ∧
    (∀ f, handleMessage f after = (after, Some f)) ∧
    (settlements p before = [] →
       timers after !! k = Some (mkTimer x p (clock s + 10000)) ∧
       ((clock after < clock s + 10000)%Z → fire_timer k after = after) ∧
       ((clock s + 10000 ≤ clock after)%Z →
          settlements p (fire_timer k after) = [Rejected "Transaction timeout"])).
Proof.
  intros c pre evs x msg s p k before after Hopen.
  assert (wf s) as Hwf by apply wf_run, wf_initial.
  destruct (tracked_after_send x msg s Hwf Hopen) as [T0 _].
  fold p k in T0. change (clock s + TRANSACTION_TIMEOUT)%Z with (clock s + 10000)%Z in T0.
  pose proof (tracked_run _ _ _ _ (evs ++ [ECleanup]) _ T0) as T.
  unfold run in T. rewrite foldl_app in T. simpl in T. fold (run evs (sendMessage x msg s).1) in T.
  fold before in T. fold after in T.
  split; [done|]. split.
  - intros f. unfold handleMessage, find_handler. simpl.
    destruct (get f "transaction") as [| | | |t|]; try done.
    simpl. destruct (negb (String.eqb t "")); by rewrite ?lookup_empty.
  - intros Hnil. change (settlements p before) with (settlements p after) in Hnil.
    split; [by apply (tr_pending _ _ _ _ _ T)|]. split.
    + by apply (timeout_not_before p k x (clock s + 10000)).
    + intros Hd. by destruct (timeout_settles p k x _ _ T Hnil Hd) as [-> _].
Qed.

Lemma teardown_leaves_pending_requests_to_their_timeouts_witness :
  let s := run [EConnection (Some OPEN) None None] (initial 0) in
  let after := cleanupJanus (run [ETick 400] (sendMessage "Xk3mP0qLw9Zt" ∅ s).1) in
  let later := cleanupJanus (run [ETick 10000] (sendMessage "Xk3mP0qLw9Zt" ∅ s).1) in
  ws_open s = true ∧
  settlements 0 after = [] ∧
  fire_timer 0 after = after ∧
  settlements 0 (fire_timer 0 later) = [Rejected "Transaction timeout"].
Proof.
  intros s after later.
  assert (ws_open s = true) as Hopen by reflexivity.
  split; [exact Hopen|].
  destruct (teardown_leaves_pending_requests_to_their_timeouts 0
              [EConnection (Some OPEN) None None] [ETick 400] "Xk3mP0qLw9Zt" ∅ Hopen)
    as (H1 & _ & H3).
  split; [exact H1|].
  destruct H3 as (_ & H4 & _); [vm_compute; reflexivity|].
  split; [apply H4; vm_compute; reflexivity|].
  destruct (teardown_leaves_pending_requests_to_their_timeouts 0
              [EConnection (Some OPEN) None None] [ETick 10000] "Xk3mP0qLw9Zt" ∅ Hopen)
    as (_ & _ & H5).
  destruct H5 as (_ & _ & H6); [vm_compute; reflexivity|].
  apply H6. vm_compute. discriminate.
Defined.

End TransportInvariantFacts.

(** ** Keeping the persisted call state alive *)
Section UpkeepFacts.
Import Persisted Upkeep.

Lemma with_startedAt_twice a b st : with_startedAt a (with_startedAt b st) = with_startedAt a st.
Proof. reflexivity. Qed.

Lemma with_startedAt_same st : with_startedAt (startedAt st) st = st.
Proof. by destruct st. Qed.

Lemma last_stamp_cons first tick rest :
  last_stamp first (tick :: rest) = last_stamp tick.2 rest.
Proof.
  unfold last_stamp. destruct rest as [|tick' rest]; [done|].
  change (last (tick :: tick' :: rest)) with (last (tick' :: rest)).
  destruct (last (tick' :: rest)) eqn:E; [done|].
  by apply last_None in E.
Qed.

Lemma loadCallState_fresh now st :
  (now - startedAt st ≤ MAX_CALL_AGE_MS)%Z →
  loadCallState now (Some (Json st)) = (Some (Json st), Some st).
Proof.
  intros H. unfold loadCallState.
  destruct (Z.gtb_spec (now - startedAt st) MAX_CALL_AGE_MS); [lia|done].
Qed.

Lemma loadCallState_stale now st :
  (now - startedAt st > MAX_CALL_AGE_MS)%Z →
  loadCallState now (Some (Json st)) = (None, None).
Proof.
  intros H. unfold loadCallState.
  destruct (Z.gtb_spec (now - startedAt st) MAX_CALL_AGE_MS); [done|lia].
Qed.

Lemma refreshes_in_time st ticks :
  in_time (startedAt st) ticks →
  refreshes ticks (Some (Json st))
    = Some (Json (with_startedAt (last_stamp (startedAt st) ticks) st)).
Proof.
  revert st. induction ticks as [|tick rest IH]; intros st Hin.
  - unfold last_stamp. simpl. by rewrite with_startedAt_same.
  - destruct Hin as [H1 H2]. rewrite last_stamp_cons.
    change (refreshes (tick :: rest) (Some (Json st)))
      with (refreshes rest (updateTimestamp tick (Some (Json st)))).
    unfold updateTimestamp. rewrite (loadCallState_fresh _ _ H1).
    change (saveCallState (with_startedAt tick.2 st) (Some (Json st)))
      with (Some (Json (with_startedAt tick.2 st))).
    by rewrite (IH (with_startedAt tick.2 st)).
Qed.

Lemma refreshes_empty ticks : refreshes ticks None = None.
Proof. induction ticks as [|tick rest IH]; [done|]. unfold refreshes in *. by simpl. Qed.

(** X4.  A stored call state that is refreshed in time (each refresh reads
    it at most 20 s after the stamp it carries) survives any number of
    refreshes with only its [startedAt] changed, to the last stamp written; it
    can then be loaded up to 20 s after that stamp.  Read later than that, by
    a load or by a refresh, it is deleted, and no later refresh brings it
    back. *)
Theorem refreshed_call_state_survives :
  ∀ (st : PersistedCallState) (ticks : list (Z * Z)) (now : Z),
    in_time (startedAt st) ticks →
    let stamp := last_stamp (startedAt st) ticks in
    let storage := refreshes ticks (Some (Json st)) in
    storage = Some (Json (with_startedAt stamp st)) ∧
    ((now - stamp ≤ 20000)%Z →
       loadCallState now storage = (storage, Some (with_startedAt stamp st))) ∧
    ((now - stamp > 20000)%Z →
       loadCallState now storage = (None, None) ∧
       ∀ late more, refreshes ((now, late) :: more) storage = None).
Proof.
  intros st ticks now Hin stamp storage.
  assert (storage = Some (Json (with_startedAt stamp st))) as Hs
    by (by apply refreshes_in_time).
  split; [done|]. rewrite Hs. split.
  - intros H. by apply loadCallState_fresh.
  - intros H. split; [by apply loadCallState_stale|].
    intros late more.
    change (refreshes ((now, late) :: more) (Some (Json (with_startedAt stamp st))))
      with (refreshes more (updateTimestamp (now, late)
                              (Some (Json (with_startedAt stamp st))))).
    unfold updateTimestamp. rewrite loadCallState_stale by done.
    apply refreshes_empty.
Qed.

Lemma refreshed_call_state_survives_witness :
  let st := mkPersisted "call-1" "ep-1" None None 1000 (Some "token-1")
              (Some "eu.telpro.example") in
  let ticks := [(6000, 6001); (11001, 11002); (16002, 16003)]%Z in
  in_time 1000 ticks ∧
  refreshes ticks (Some (Json st)) = Some (Json (with_startedAt 16003 st)) ∧
  (loadCallState 36003 (refreshes ticks (Some (Json st)))).2 = Some (with_startedAt 16003 st) ∧
  loadCallState 36004 (refreshes ticks (Some (Json st))) = (None, None).
Proof.
  intros st ticks.
  assert (in_time (startedAt st) ticks) as Hin.
  { unfold ticks, MAX_CALL_AGE_MS. simpl. unfold MAX_CALL_AGE_MS. lia. }
  split; [exact Hin|].
  destruct (refreshed_call_state_survives st ticks 36003 Hin) as (H1 & H2 & _).
  split; [exact H1|]. split.
  - rewrite H2; [reflexivity|]. unfold last_stamp. simpl. lia.
  - destruct (refreshed_call_state_survives st ticks 36004 Hin) as (_ & _ & H3).
    apply H3. unfold last_stamp. simpl. lia.
Defined.

End UpkeepFacts.

(** ** The router and the state machine *)
Section RouterFacts.
Import Phone Frames Requests Reload.

Lemma invoke_onHangup_length w : length (invoke_onHangup w) ≤ 1.
Proof. unfold invoke_onHangup. destruct (onHangupRef w); simpl; lia. Qed.

Lemma handleSipEvent_frame data jsep w :
  let r := handleSipEvent data jsep w in
  length r.2 ≤ 1 ∧ same_media w r.1 ∧
  (is_str (sip_event data) "registration_failed" = false →
     pendingReconnectRef r.1 = pendingReconnectRef w ∧
     sessionStorage r.1 = sessionStorage w).
Proof.
  unfold handleSipEvent, same_media. cbv zeta.
  repeat (match goal with
          | |- context [if ?b then _ else _] => destruct b eqn:?
          end; cbn [fst snd];
          try (split; [|split; [by repeat split|]];
               [try (simpl; lia); try apply invoke_onHangup_length;
                try (destruct (pendingReconnectRef _); simpl; lia);
                try (destruct jsep; simpl; lia)
               |try done; try discriminate])).
Qed.


Lemma handleMessage_consumed h msg w r :
  Transport.find_handler msg (transport w) = Some r →
  handleMessage h msg w = (set_transport (Transport.run_resolver r msg (transport w)) w, []).
Proof. intros H. unfold handleMessage, Transport.handleMessage. by rewrite H. Qed.

Lemma handleRemoteTrickle_frame h c w :
  let w' := handleRemoteTrickle h c w in
  store w' = store w ∧ transport w' = transport w ∧
  pendingReconnectRef w' = pendingReconnectRef w ∧ pcRef w' = pcRef w ∧
  localStreamRef w' = localStreamRef w ∧ remoteAudioRef w' = remoteAudioRef w ∧
  localAudioRef w' = localAudioRef w ∧
  remoteDescriptionSetRef w' = remoteDescriptionSetRef w ∧
  onHangupRef w' = onHangupRef w ∧ chatOpen w' = chatOpen w ∧
  sessionStorage w' = sessionStorage w.
Proof.
  unfold handleRemoteTrickle, addIceCandidate.
  destruct (negb (remoteDescriptionSetRef w)); [done|].
  destruct (pcRef w) as [pc|] eqn:E; [|by rewrite E].
  destruct c as [c|]; [|by rewrite E].
  destruct (is_real (Some c)); [|by rewrite E].
  by destruct (addIceCandidate_ok h (host w) pc (init_of c)).
Qed.

(** X5.  The first frame that carries the transaction of a pending request
    settles that request and goes no further: the router starts no task and
    changes nothing but the transport, whatever the frame's [janus] field
    says.  The request's promise is settled with the outcome of that frame,
    its resolver is gone, and a later frame with the same transaction is no
    longer a response: it is passed on to the event switch. *)
Theorem reply_settles_the_request_and_is_not_dispatched :
  ∀ (h : Host) (x : string) (request reply next : Obj) (w : World),
    Transport.wf (transport w) →
    Transport.ws_open (transport w) = true →
    x ≠ "" →
    get reply "transaction" = JStr x →
    get next "transaction" = JStr x →
    let sent := Transport.sendMessage x request (transport w) in
    let out := handleMessage h reply (set_transport sent.1 w) in
    out.2 = [] ∧
    only_transport w out.1 ∧
    Transport.settlements sent.2 (transport out.1) = [Transport.response_outcome reply] ∧
    Transport.transactionsRef (transport out.1) !! x = None ∧
    Transport.handleMessage next (transport out.1) = (transport out.1, Some next).
Proof.
  intros h x request reply next w Hwf Hopen Hx Hreply Hnext sent out.
  pose proof (settlements_unused _ Hwf) as Hnone.
  assert (Transport.find_handler reply (transport (set_transport sent.1 w))
          = Some (Transport.mkResolver (Transport.next_timer (transport w)) x
                    (Transport.next_promise (transport w)))) as Hfind.
  { rewrite (find_handler_str _ _ x) by done. subst sent.
    unfold Transport.sendMessage. rewrite Hopen. cbn. by rewrite lookup_insert_eq. }
  subst out. rewrite (handleMessage_consumed _ _ _ _ Hfind).
  cbn [fst snd transport set_transport]. split; [done|]. split; [done|].
  subst sent. unfold Transport.sendMessage. rewrite Hopen. cbn [fst snd].
  split; [|split].
  - unfold Transport.settlements, Transport.run_resolver. cbn.
    rewrite settlements_snoc. unfold Transport.settlements in Hnone. rewrite Hnone.
    by destruct (decide _).
  - cbn. by rewrite lookup_delete_eq.
  - unfold Transport.handleMessage. rewrite (find_handler_str _ _ x) by done.
    cbn. by rewrite lookup_delete_eq.
Qed.

Lemma reply_settles_the_request_and_is_not_dispatched_witness :
  let h := mkHost (λ _ _ _, true) (λ _ _ _, true) (λ _, inr (mkStream 1 [10]))
             (λ _, 2) (λ _ _, inr (mkJsep "offer" (Some "v=0"))) (λ _ _ _, None) in
  let t := Transport.run [Transport.EConnection (Some Transport.OPEN) (Some 42%Z) (Some 7%Z)]
             (Transport.initial 0) in
  let w := mkWorld Store.initialStore t None (Some 1) None None None
             [] true (Some (HandleHangup true)) false None [] in
  let ack : Obj := <["janus" := JStr "ack"]> {["transaction" := JStr "Xk3mP0qLw9Zt"]} in
  let bye : Obj := <["janus" := JStr "hangup"]> {["transaction" := JStr "Xk3mP0qLw9Zt"]} in
  let sent := Transport.sendMessage "Xk3mP0qLw9Zt" hangup_request (transport w) in
  let out := handleMessage h bye (set_transport sent.1 w) in
  out.2 = [] ∧
  only_transport w out.1 ∧
  Transport.settlements sent.2 (transport out.1) = [Transport.response_outcome bye] ∧
  Transport.transactionsRef (transport out.1) !! "Xk3mP0qLw9Zt" = None ∧
  Transport.handleMessage ack (transport out.1) = (transport out.1, Some ack).
Proof.
  intros h t w ack bye.
  apply (reply_settles_the_request_and_is_not_dispatched h "Xk3mP0qLw9Zt"
           hangup_request bye ack w).
  - apply wf_run, wf_initial.
  - reflexivity.
  - discriminate.
  - reflexivity.
  - reflexivity.
Defined.

End RouterFacts.

(** ** The call state machine and the reload *)
Section SipFacts.
Import Phone Frames Reload.

Lemma handleSipEvent_unknown data jsep w :
  (∀ name, name ∈ known_sip_events → is_str (sip_event data) name = false) →
  handleSipEvent data jsep w = (w, []).
Proof.
  intros H. unfold handleSipEvent. cbv zeta.
  rewrite !H; [done|..]; unfold known_sip_events; set_solver.
Qed.

Lemma sip_events_acc evs w acc :
  foldl (λ (acc : World * list Task) (ev : Obj * option Jsep),
           let r := handleSipEvent ev.1 ev.2 acc.1 in (r.1, acc.2 ++ r.2)) (w, acc) evs
  = ((sip_events evs w).1, acc ++ (sip_events evs w).2).
Proof.
  unfold sip_events. revert w acc. induction evs as [|ev evs IH]; intros w acc.
  - simpl. by rewrite app_nil_r.
  - cbn [foldl fst snd]. rewrite IH. rewrite (IH _ ([] ++ _)).
    cbn [fst snd app]. by rewrite app_assoc.
Qed.

Lemma sip_events_cons ev evs w :
  sip_events (ev :: evs) w =
  ((sip_events evs (handleSipEvent ev.1 ev.2 w).1).1,
   (handleSipEvent ev.1 ev.2 w).2 ++ (sip_events evs (handleSipEvent ev.1 ev.2 w).1).2).
Proof. unfold sip_events at 1. cbn [foldl fst snd app]. apply sip_events_acc. Qed.

Lemma handleSipEvent_reconnects data jsep w :
  List.filter is_reconnect (handleSipEvent data jsep w).2 =
  if is_str (sip_event data) "registered"
  then match pendingReconnectRef w with
       | Some st => [LaterReconnect st]
       | None => []
       end
  else [].
Proof.
  unfold handleSipEvent, invoke_onHangup. cbv zeta.
  destruct (is_str (sip_event data) "registered") eqn:E.
  { apply is_str_true in E. rewrite E. cbn [is_str String.eqb Ascii.eqb Bool.eqb fst snd].
    cbn [pendingReconnectRef with_store]. by destruct (pendingReconnectRef w). }
  repeat (match goal with
          | |- context [if ?b then _ else _] => destruct b eqn:?
          end; cbn [fst snd]; try done);
    try (by destruct jsep); by destruct (onHangupRef w).
Qed.

Lemma handleSipEvent_marker data jsep w :
  pendingReconnectRef (handleSipEvent data jsep w).1 =
  if is_str (sip_event data) "registration_failed" then None else pendingReconnectRef w.
Proof.
  destruct (is_str (sip_event data) "registration_failed") eqn:E.
  - unfold handleSipEvent. cbv zeta. apply is_str_true in E. by rewrite E.
  - by destruct (handleSipEvent_frame data jsep w) as (_ & _ & H); destruct (H E).
Qed.

(** X8.  While a reconnect is pending, every [registered] event schedules a
    reconnection of the same persisted call: the marker is read, not taken.
    Over any sequence of SIP events without a registration failure the marker
    stays as it was and the reconnections scheduled are one per [registered]
    event.  After a [registration_failed] event the marker and the persisted
    call state are gone, and no later event schedules a reconnection. *)
Theorem each_registered_event_schedules_the_pending_reconnect :
  ∀ (evs : list (Obj * option Jsep)) (w : World),
    ((∀ ev, ev ∈ evs → names "registration_failed" ev = false) →
       pendingReconnectRef (sip_events evs w).1 = pendingReconnectRef w ∧
       List.filter is_reconnect (sip_events evs w).2 =
         match pendingReconnectRef w with
         | Some st => replicate (length (List.filter (names "registered") evs))
                        (LaterReconnect st)
         | None => []
         end) ∧
    (∀ failed j,
       names "registration_failed" (failed, j) = true →
       let r := sip_events ((failed, j) :: evs) w in
       pendingReconnectRef r.1 = None ∧ List.filter is_reconnect r.2 = [] ∧
       sessionStorage r.1 = None).
Proof.
  assert (∀ evs w,
    (∀ ev, ev ∈ evs → names "registration_failed" ev = false) →
    pendingReconnectRef (sip_events evs w).1 = pendingReconnectRef w ∧
    sessionStorage (sip_events evs w).1 = sessionStorage w ∧
    List.filter is_reconnect (sip_events evs w).2 =
      match pendingReconnectRef w with
      | Some st => replicate (length (List.filter (names "registered") evs))
                     (LaterReconnect st)
      | None => []
      end) as Hquiet.
  { induction evs as [|[data jsep] evs IH]; intros w Hno.
    - cbn. by destruct (pendingReconnectRef w).
    - rewrite sip_events_cons. cbn [fst snd].
      assert (names "registration_failed" (data, jsep) = false) as Hd by (apply Hno; left).
      unfold names in Hd. cbn [fst] in Hd.
      destruct (IH (handleSipEvent data jsep w).1) as (-> & -> & Hf).
      { intros ev Hev. apply Hno. by right. }
      rewrite List.filter_app, Hf, handleSipEvent_reconnects, handleSipEvent_marker, Hd.
      destruct (handleSipEvent_frame data jsep w) as (_ & _ & H). destruct (H Hd) as [_ ->].
      split; [done|]. split; [done|].
      cbn [List.filter].
      change (names "registered" (data, jsep)) with (is_str (sip_event data) "registered").
      destruct (is_str (sip_event data) "registered"), (pendingReconnectRef w); done. }
  intros evs w. split.
  - intros Hno. destruct (Hquiet evs w Hno) as (? & _ & ?). done.
  - intros failed j Hf r. subst r. unfold names in Hf. cbn [fst] in Hf.
    rewrite sip_events_cons. cbn [fst snd].
    rewrite List.filter_app, handleSipEvent_reconnects.
    assert (is_str (sip_event failed) "registered" = false) as ->.
    { apply is_str_true in Hf. by rewrite Hf. }
    assert (pendingReconnectRef (handleSipEvent failed j w).1 = None) as Hm.
    { by rewrite handleSipEvent_marker, Hf. }
    assert (sessionStorage (handleSipEvent failed j w).1 = None) as Hs.
    { unfold handleSipEvent. cbv zeta. apply is_str_true in Hf. by rewrite Hf. }
    split; [|split].
    + clear Hs. revert Hm. generalize (handleSipEvent failed j w).1.
      induction evs as [|[data jsep] evs IH]; intros w1 Hm; [done|].
      rewrite sip_events_cons. cbn [fst snd]. apply IH.
      rewrite handleSipEvent_marker, Hm. by destruct (is_str (sip_event data) _).
    + clear Hs. cbn [app]. revert Hm. generalize (handleSipEvent failed j w).1.
      induction evs as [|[data jsep] evs IH]; intros w1 Hm; [done|].
      rewrite sip_events_cons. cbn [fst snd].
      rewrite List.filter_app, handleSipEvent_reconnects, Hm, IH.
      * by destruct (is_str (sip_event data) _).
      * rewrite handleSipEvent_marker, Hm. by destruct (is_str (sip_event data) _).
    + clear Hm. revert Hs. generalize (handleSipEvent failed j w).1.
      induction evs as [|[data jsep] evs IH]; intros w1 Hs; [done|].
      rewrite sip_events_cons. cbn [fst snd]. apply IH.
      destruct (is_str (sip_event data) "registration_failed") eqn:E.
      * unfold handleSipEvent. cbv zeta. apply is_str_true in E. by rewrite E.
      * destruct (handleSipEvent_frame data jsep w1) as (_ & _ & H).
        destruct (H E) as [_ ->]. done.
Qed.

Lemma each_registered_event_schedules_the_pending_reconnect_witness :
  let st := Persisted.mkPersisted "call-1" "ep-1" None None 100000 (Some "token-1")
              (Some "eu.telpro.example") in
  let registered : Obj := {["result" := JObj {["event" := JStr "registered"]}]} in
  let failed : Obj :=
    {["result" := JObj (<["event" := JStr "registration_failed"]> {["reason" := JStr "403"]})]} in
  let w := mkWorld Store.initialStore (Transport.initial 0) (Some st) None None None None
             [] false None false (Some (Persisted.Json st)) [] in
  List.filter is_reconnect (sip_events [(registered, None); (registered, None)] w).2
    = [LaterReconnect st; LaterReconnect st] ∧
  List.filter is_reconnect (sip_events [(failed, None); (registered, None)] w).2 = [].
Proof.
  intros st registered failed w. split.
  - refine (proj2 (proj1 (each_registered_event_schedules_the_pending_reconnect
                            [(registered, None); (registered, None)] w) _)).
    intros ev Hin.
    repeat (apply elem_of_cons in Hin as [->|Hin]; [reflexivity|]).
    by apply elem_of_nil in Hin.
  - exact (proj1 (proj2 (proj2 (each_registered_event_schedules_the_pending_reconnect
                                  [(registered, None)] w) failed None eq_refl))).
Defined.

Lemma restore_on_mount_nothing now w :
  sessionStorage w = None → restore_on_mount now w = (w, None).
Proof.
  intros H. unfold restore_on_mount, Store.restoreFromPersistedState. rewrite H.
  cbn [Persisted.loadCallState]. destruct w. cbn in H. by subst.
Qed.

(** X9.  A page reload during a call, end to end.  A call state saved with
    a signalling domain and read back within 20 s of its stamp is restored on
    mount: the gateway connection is started for the stored domain, the
    reconnect marker holds the saved state, the store shows a reconnection in
    progress and the record stays in storage.  The next [registered] event
    then schedules the reconnection of exactly the saved call, and that
    reconnection never throws; once it has completed, the marker and the
    reconnecting flag are cleared. *)
Theorem reload_within_the_window_reconnects_the_saved_call :
  ∀ (st : Persisted.PersistedCallState) (old : option Persisted.Item) (now : Z)
    (data : Obj) (jsep : option Jsep) (w : World),
    truthy_str (Persisted.telproDomain st) = true →
    (now - Persisted.startedAt st ≤ Persisted.MAX_CALL_AGE_MS)%Z →
    sessionStorage w = Persisted.saveCallState st old →
    is_str (sip_event data) "registered" = true →
    let m := restore_on_mount now w in
    let e := handleSipEvent data jsep m.1 in
    m.2 = Persisted.telproDomain st ∧
    pendingReconnectRef m.1 = Some st ∧
    sessionStorage m.1 = Some (Persisted.Json st) ∧
    Store.reconnecting (Store.connection (store m.1)) = true ∧
    e.2 = [LaterReconnect st] ∧
    ∀ (h : Host) (a : Await) (preferPcma : bool),
      let r := reconnectCall h a preferPcma st e.1 in
      (r.2 = Suspended ∨ r.2 = Returned tt) ∧
      (r.2 = Returned tt →
         pendingReconnectRef r.1 = None ∧
         Store.reconnecting (Store.connection (store r.1)) = false).
Proof.
  intros st old now data jsep w Hd Hage Hs Hev m e.
  assert (restore_on_mount now w =
          (set_pendingReconnectRef (Some st)
             (set_sessionStorage (Some (Persisted.Json st))
                (with_store (λ _, Store.restore_fields st (store w)) w)),
           Persisted.telproDomain st)) as Hm.
  { unfold restore_on_mount, Store.restoreFromPersistedState. rewrite Hs.
    unfold Persisted.saveCallState, Persisted.loadCallState.
    destruct (Z.gtb_spec (now - Persisted.startedAt st) Persisted.MAX_CALL_AGE_MS); [lia|].
    rewrite Hd. cbn [negb]. by rewrite Hd. }
  subst e m. rewrite Hm. cbn [fst snd].
  split; [done|]. split; [done|]. split; [done|]. split; [done|]. split.
  - unfold handleSipEvent. cbv zeta. apply is_str_true in Hev. by rewrite Hev.
  - intros h a preferPcma.
    pose proof (reconnectCall_with_domain h a preferPcma st
                  (handleSipEvent data jsep
                     (set_pendingReconnectRef (Some st)
                        (set_sessionStorage (Some (Persisted.Json st))
                           (with_store (λ _, Store.restore_fields st (store w)) w)))).1 Hd)
      as H.
    cbv zeta in H. destruct H as (H1 & H2 & _).
    split; [exact H1|]. intros Hr. destruct (H2 Hr) as [? ?]. done.
Qed.

Lemma reload_within_the_window_reconnects_the_saved_call_witness :
  let st := Persisted.mkPersisted "call-1" "ep-1" None None 100000 (Some "token-1")
              (Some "eu.telpro.example") in
  let registered : Obj := {["result" := JObj {["event" := JStr "registered"]}]} in
  let w := mkWorld Store.initialStore (Transport.initial 0) None None None None None
             [] false None false (Some (Persisted.Json st)) [] in
  (restore_on_mount 112000 w).2 = Some "eu.telpro.example" ∧
  (handleSipEvent registered None (restore_on_mount 112000 w).1).2 = [LaterReconnect st].
Proof.
  intros st registered w.
  destruct (reload_within_the_window_reconnects_the_saved_call st None 112000 registered
              None w eq_refl ltac:(by vm_compute) eq_refl eq_refl) as (H1 & _ & _ & _ & H2 & _).
  split; [exact H1|exact H2].
Defined.

(** X10.  A call that has ended is not brought back by a reload.  After a
    hangup that ran to its end, after a reconnection that failed, and after a
    registration failure, the mount effect finds nothing to restore, whenever
    it runs: it starts no gateway connection, sets no reconnect marker and
    leaves the state as it is. *)
Theorem ended_call_is_not_restored_on_reload :
  ∀ (now : Z) (cb : HangupCallback) (a : Await) (error : option string)
    (data : Obj) (jsep : option Jsep) (w : World),
    ((handleHangup cb a w).2 = true →
       restore_on_mount now (handleHangup cb a w).1 = ((handleHangup cb a w).1, None)) ∧
    restore_on_mount now (reconnect_catch error w) = (reconnect_catch error w, None) ∧
    (is_str (sip_event data) "registration_failed" = true →
       restore_on_mount now (handleSipEvent data jsep w).1
         = ((handleSipEvent data jsep w).1, None)).
Proof.
  intros now cb a error data jsep w. split; [|split].
  - rewrite handleHangup_eq.
    destruct (await_send a hangup_request w).2; cbn [fst snd]; [|discriminate].
    intros _. apply restore_on_mount_nothing.
    by destruct (hangup_teardown_spec
                   match cb with HandleHangup registered => registered end
                   (await_send a hangup_request w).1) as (_ & _ & ? & _).
  - apply restore_on_mount_nothing. by destruct (reconnect_catch_spec error w) as (_ & ? & _).
  - intros H. apply restore_on_mount_nothing.
    unfold handleSipEvent. cbv zeta. apply is_str_true in H. by rewrite H.
Qed.

Lemma ended_call_is_not_restored_on_reload_witness :
  let st := Persisted.mkPersisted "call-1" "ep-1" None None 100000 (Some "token-1")
              (Some "eu.telpro.example") in
  let w := mkWorld Store.initialStore (Transport.initial 0) None (Some 1) None None None
             [] true None false (Some (Persisted.Json st)) [] in
  let a := mkAwait "Xk3mP0qLw9Zt" [] in
  (handleHangup (HandleHangup true) a w).2 = true ∧
  restore_on_mount 100001 (handleHangup (HandleHangup true) a w).1
    = ((handleHangup (HandleHangup true) a w).1, None).
Proof.
  intros st w a.
  assert ((handleHangup (HandleHangup true) a w).2 = true) as H by (by vm_compute).
  split; [exact H|].
  exact (proj1 (ended_call_is_not_restored_on_reload 100001 (HandleHangup true) a None
                  ∅ None w) H).
Defined.

End SipFacts.

(** ** The router and the state machine, up to the return of the handler *)
Section SynchronousFacts.
Import Phone Frames Requests Synchronous.

(** the callee goes on from where [begin] leaves it *)
Lemma begin_hangup_start tx w :
  begin_hangup tx w = (await_send (mkAwait tx []) hangup_request w).1.
Proof. done. Qed.

Lemma handleRemoteJsep_from_begin h jsep w :
  handleRemoteJsep h jsep w =
  match pcRef w with
  | None => begin_remoteJsep jsep w
  | Some pc =>
      if setRemoteDescription_ok h (host w) pc jsep then
        let w2 := set_remoteDescriptionSetRef true (begin_remoteJsep jsep w) in
        if (0 <? length (pendingCandidatesRef w2))%nat
        then foldl (λ w c, addIceCandidate h c w) (set_pendingCandidatesRef [] w2)
               (pendingCandidatesRef w2)
        else w2
      else called [ConsoleError "Error setting remote description:"]
             (begin_remoteJsep jsep w)
  end.
Proof.
  unfold handleRemoteJsep, begin_remoteJsep. by destruct (pcRef w).
Qed.

Ltac sip_is name :=
  match goal with
  | |- context [is_str (sip_event ?data) name] =>
      let E := fresh "E" in
      destruct (is_str (sip_event data) name) eqn:E;
      [apply is_str_true in E; try rewrite E;
       cbn [is_str String.eqb Ascii.eqb Bool.eqb orb andb negb fst snd foldl length]|]
  end.

Ltac sip_norm :=
  cbn [foldl fst snd length begin];
  unfold begin_remoteJsep, begin_hangup;
  cbn [store transport host pcRef localStreamRef remoteAudioRef localAudioRef
       pendingCandidatesRef remoteDescriptionSetRef onHangupRef chatOpen
       pendingReconnectRef sessionStorage with_store set_transport called
       set_sessionStorage set_pendingReconnectRef].

Ltac sip_refs :=
  repeat match goal with
         | H : pendingReconnectRef _ = _ |- _ => rewrite H
         | H : onHangupRef _ = _ |- _ => rewrite H
         | H : pcRef _ = _ |- _ => rewrite H
         end.

Ltac sip_iff :=
  let x := fresh "x" in
  let Hx := fresh "Hx" in
  let Hy := fresh "Hy" in
  intros x; split;
  [intros Hx; inversion Hx; subst; done
  |intros [Hx Hy]; first [discriminate Hx | discriminate Hy | by inversion Hx]].

Ltac sip_close :=
  let HU := fresh "HU" in
  sip_norm; sip_refs; sip_norm; intros HU;
  split; [lia
  |split; [done
  |split; [done
  |split; [by repeat split
  |split; [done
  |split; [done
  |split; [first [done | by intros [=]]
  |split; [sip_iff
  |split; [sip_iff
  |exact HU]]]]]]]]].

Ltac sip_cases w jsep :=
  let Ecb := fresh "Ecb" in
  let Epc := fresh "Epc" in
  destruct jsep as [?|], (onHangupRef w) as [[?]|] eqn:Ecb, (pcRef w) as [?|] eqn:Epc;
  sip_close.

(** a SIP event, up to the return of its handler *)
Lemma handleSipEvent_at_return tx data jsep w (U : Prop) :
  (U → handleSipEvent data jsep w = (w, []) ∧
       at_return tx (handleSipEvent data jsep w) = w) →
  let r := handleSipEvent data jsep w in
  let q := at_return tx r in
  length r.2 ≤ 1 ∧
  Store.ui (store q) = Store.ui (store w) ∧
  Store.callData (store q) = Store.callData (store w) ∧
  (pcRef q = pcRef w ∧ localStreamRef q = localStreamRef w ∧
   remoteAudioRef q = remoteAudioRef w ∧ localAudioRef q = localAudioRef w ∧
   pendingCandidatesRef q = pendingCandidatesRef w ∧
   remoteDescriptionSetRef q = remoteDescriptionSetRef w ∧
   onHangupRef q = onHangupRef w ∧ chatOpen q = chatOpen w) ∧
  transport q =
    match onHangupRef w with
    | Some _ =>
        if ends_call data
        then (Transport.sendMessage tx hangup_request (transport w)).1
        else transport w
    | None => transport w
    end ∧
  host q =
    match jsep, pcRef w with
    | Some j, Some pc =>
        if answers data then host w ++ [PcSetRemoteDescription pc j] else host w
    | _, _ => host w
    end ∧
  (is_str (sip_event data) "registration_failed" = false →
     pendingReconnectRef q = pendingReconnectRef w ∧
     sessionStorage q = sessionStorage w) ∧
  (∀ cb, r.2 = [RunHangup cb] ↔ onHangupRef w = Some cb ∧ ends_call data = true) ∧
  (∀ j, r.2 = [RunRemoteJsep j] ↔ jsep = Some j ∧ answers data = true) ∧
  (U → r = (w, []) ∧ q = w).
Proof.
  intros HU r q. subst q r. revert HU.
  unfold handleSipEvent, at_return, ends_call, answers. cbv zeta.
  unfold invoke_onHangup.
  sip_is "registering". { sip_cases w jsep. }
  sip_is "registered".
  { destruct (pendingReconnectRef w) as [st|] eqn:Ep; sip_cases w jsep. }
  sip_is "registration_failed". { sip_cases w jsep. }
  sip_is "calling". { sip_cases w jsep. }
  sip_is "ringing". { sip_cases w jsep. }
  sip_is "progress". { sip_cases w jsep. }
  sip_is "accepted". { sip_cases w jsep. }
  sip_is "hangup". { sip_cases w jsep. }
  sip_is "declining". { sip_cases w jsep. }
  sip_is "missed". { sip_cases w jsep. }
  cbn [orb andb]. sip_cases w jsep.
Qed.


Lemma sendMessage_handle tx msg s :
  Transport.handleIdRef (Transport.sendMessage tx msg s).1 = Transport.handleIdRef s.
Proof. unfold Transport.sendMessage. by destruct (Transport.ws_open s). Qed.

(** X7.  A SIP event, up to the return of its handler.  The handler
    itself writes the connection part of the store and nothing else of the
    call, and it starts at most one callee, as its last statement, which runs
    to its first [await] before the handler returns.  The events [hangup],
    [declining] and [missed], and no other, call the hangup callback when one
    is registered: at the return the hangup request has been made on the
    transport, which no other event touches.  The events [progress] and
    [accepted], and no other, call [handleRemoteJsep] when they carry a
    [jsep]: at the return the remote description has been handed to the peer
    connection, if there is one, and no other native call has been made.  The
    UI state, the call data, the peer connection, the streams, the audio
    elements, the candidate queue and its flag are as they were.  Only
    [registration_failed] touches the pending-reconnect marker and the
    persisted call state, and an event the handler has no case for does
    nothing at all. *)
Theorem sip_event_writes_the_connection_state_and_starts_its_callee :
  ∀ (tx : string) (data : Obj) (jsep : option Jsep) (w : World),
    let r := handleSipEvent data jsep w in
    let q := at_return tx r in
    length r.2 ≤ 1 ∧
    (∀ cb, r.2 = [RunHangup cb] ↔ onHangupRef w = Some cb ∧ ends_call data = true) ∧
    (∀ j, r.2 = [RunRemoteJsep j] ↔ jsep = Some j ∧ answers data = true) ∧
    transport q =
      match onHangupRef w with
      | Some _ =>
          if ends_call data
          then (Transport.sendMessage tx hangup_request (transport w)).1
          else transport w
      | None => transport w
      end ∧
    host q =
      match jsep, pcRef w with
      | Some j, Some pc =>
          if answers data then host w ++ [PcSetRemoteDescription pc j] else host w
      | _, _ => host w
      end ∧
    Store.ui (store q) = Store.ui (store w) ∧
    Store.callData (store q) = Store.callData (store w) ∧
    (pcRef q = pcRef w ∧ localStreamRef q = localStreamRef w ∧
     remoteAudioRef q = remoteAudioRef w ∧ localAudioRef q = localAudioRef w ∧
     pendingCandidatesRef q = pendingCandidatesRef w ∧
     remoteDescriptionSetRef q = remoteDescriptionSetRef w ∧
     onHangupRef q = onHangupRef w ∧ chatOpen q = chatOpen w) ∧
    (is_str (sip_event data) "registration_failed" = false →
       pendingReconnectRef q = pendingReconnectRef w ∧
       sessionStorage q = sessionStorage w) ∧
    ((∀ name, name ∈ known_sip_events → is_str (sip_event data) name = false) →
       r = (w, []) ∧ q = w).
Proof.
  intros tx data jsep w r q.
  assert ((∀ name, name ∈ known_sip_events → is_str (sip_event data) name = false) →
          handleSipEvent data jsep w = (w, []) ∧
          at_return tx (handleSipEvent data jsep w) = w) as HU.
  { intros H. by rewrite (handleSipEvent_unknown data jsep w H). }
  destruct (handleSipEvent_at_return tx data jsep w _ HU)
    as (H1 & H2 & H3 & H4 & H5 & H6 & H7 & H8 & H9 & H10).
  split; [exact H1|]. split; [exact H8|]. split; [exact H9|]. split; [exact H5|].
  split; [exact H6|]. split; [exact H2|]. split; [exact H3|]. split; [exact H4|].
  split; [exact H7|exact H10].
Qed.

Lemma sip_event_writes_the_connection_state_and_starts_its_callee_witness :
  let t := Transport.set_connection (Some Transport.OPEN) (Some 42%Z) (Some 7%Z)
             (Transport.initial 0) in
  let w := mkWorld Store.initialStore t None (Some 1) None None None
             [] false (Some (HandleHangup true)) false None [] in
  let answer := mkJsep "answer" (Some "v=0") in
  let accepted : Obj := {["result" := JObj {["event" := JStr "accepted"]}]} in
  let bye : Obj := {["result" := JObj {["event" := JStr "hangup"]}]} in
  let q := at_return "Xk3mP0qLw9Zt" (handleSipEvent accepted (Some answer) w) in
  let q' := at_return "Xk3mP0qLw9Zt" (handleSipEvent bye None w) in
  host q = [PcSetRemoteDescription 1 answer] ∧ transport q = transport w ∧
  transport q' = (Transport.sendMessage "Xk3mP0qLw9Zt" hangup_request t).1 ∧
  host q' = [].
Proof.
  intros t w answer accepted bye q q'.
  destruct (sip_event_writes_the_connection_state_and_starts_its_callee "Xk3mP0qLw9Zt"
              accepted (Some answer) w) as (_ & _ & _ & H1 & H2 & _).
  destruct (sip_event_writes_the_connection_state_and_starts_its_callee "Xk3mP0qLw9Zt"
              bye None w) as (_ & _ & _ & H3 & H4 & _).
  split; [exact H2|]. split; [exact H1|]. split; [exact H3|exact H4].
Defined.

Ltac frame_close :=
  unfold at_return; cbn [foldl fst snd length begin];
  unfold same_requests;
  cbn [store transport host pcRef localStreamRef remoteAudioRef localAudioRef
       pendingCandidatesRef remoteDescriptionSetRef onHangupRef chatOpen
       pendingReconnectRef sessionStorage with_store set_transport called
       Transport.set_connection Transport.wsRef Transport.sessionIdRef
       Transport.handleIdRef Transport.transactionsRef Transport.timers
       Transport.next_timer Transport.next_promise Transport.clock Transport.settled
       Transport.wire];
  repeat split; solve [done | lia | by intros ? [=] | by intros [=]].

(** X6.  A frame that answers no pending request, up to the return of the
    router.  The router and the handlers it calls start at most one callee.
    The hangup callback is called only by a [hangup] frame, which calls it
    whenever one is registered, or by an [event] frame: at the return the
    hangup request has been made on the transport; a frame that does not
    call it registers, settles or drops no request and sends nothing, and
    only [detached] changes the transport otherwise, clearing the handle and
    nothing else.  Only an [event] frame changes the store, the
    pending-reconnect marker or the persisted call state.  Only a [trickle]
    frame changes the candidate queue; a native call is made by a [trickle]
    frame or by [handleRemoteJsep], which an [event] frame may call and
    which has handed the remote description to the peer connection, if there
    is one, at the return.  No frame touches the peer connection ref, the
    streams, the audio elements or the hangup callback. *)
Theorem unsolicited_frame_touches_only_its_own_part :
  ∀ (h : Host) (tx : string) (msg : Obj) (w : World),
    Transport.find_handler msg (transport w) = None →
    let janus := get msg "janus" in
    let out := handleMessage h msg w in
    let q := at_return tx out in
    length out.2 ≤ 1 ∧
    ((∀ cb, out.2 ≠ [RunHangup cb]) → same_requests (transport w) (transport q)) ∧
    (∀ cb, out.2 = [RunHangup cb] →
       onHangupRef w = Some cb ∧
       (is_str janus "hangup" = true ∨ is_str janus "event" = true) ∧
       transport q = (Transport.sendMessage tx hangup_request (transport w)).1) ∧
    (is_str janus "hangup" = true → ∀ cb, onHangupRef w = Some cb → out.2 = [RunHangup cb]) ∧
    Transport.handleIdRef (transport q)
      = (if is_str janus "detached" then None else Transport.handleIdRef (transport w)) ∧
    (pcRef q = pcRef w ∧ localStreamRef q = localStreamRef w ∧
     remoteAudioRef q = remoteAudioRef w ∧ localAudioRef q = localAudioRef w ∧
     remoteDescriptionSetRef q = remoteDescriptionSetRef w ∧
     onHangupRef q = onHangupRef w ∧ chatOpen q = chatOpen w) ∧
    (is_str janus "event" = false →
       store q = store w ∧ pendingReconnectRef q = pendingReconnectRef w ∧
       sessionStorage q = sessionStorage w) ∧
    (is_str janus "trickle" = false →
       pendingCandidatesRef q = pendingCandidatesRef w ∧
       ((∀ j, out.2 ≠ [RunRemoteJsep j]) → host q = host w) ∧
       (∀ j, out.2 = [RunRemoteJsep j] →
          is_str janus "event" = true ∧
          host q = host w ++ match pcRef w with
                             | Some pc => [PcSetRemoteDescription pc j]
                             | None => []
                             end)) ∧
    (is_str janus "event" = false → is_str janus "hangup" = false →
       out.2 = [] ∧ q = out.1).
Proof.
  intros h tx msg w Hnone janus out q. subst q out.
  unfold handleMessage, Transport.handleMessage. rewrite Hnone. fold janus.
  destruct (is_str janus "event") eqn:Eev.
  { apply is_str_true in Eev. rewrite Eev. cbn [is_str String.eqb Ascii.eqb Bool.eqb].
    destruct (prop (get msg "plugindata") "data") as [| | | | |data]; try frame_close.
    set (jsep := jsep_of (get msg "jsep")).
    destruct (handleSipEvent_at_return tx data jsep w False ltac:(done))
      as (H1 & H2 & H3 & (P1 & P2 & P3 & P4 & P5 & P6 & P7 & P8) & H5 & H6 & _ & H8 & H9 & _).
    set (r := handleSipEvent data jsep w) in *. set (q := at_return tx r) in *.
    clearbody q r.
    split; [exact H1|].
    split.
    { intros Hno. rewrite H5. destruct (onHangupRef w) as [cb|]; [|by repeat split].
      destruct (ends_call data) eqn:Ee; [|by repeat split].
      destruct (Hno cb). by apply H8. }
    split.
    { intros cb Hcb. apply H8 in Hcb as [Hcb He]. split; [done|]. split; [by right|].
      by rewrite H5, Hcb, He. }
    split; [by intros [=]|].
    split.
    { rewrite H5. destruct (onHangupRef w); [|done].
      destruct (ends_call data); [apply sendMessage_handle|done]. }
    split; [by repeat split|].
    split; [by intros [=]|].
    split; [|by intros [=]].
    intros _. split; [done|]. split.
    - intros Hno. rewrite H6. destruct jsep as [j|]; [|done].
      destruct (pcRef w); [|done]. destruct (answers data) eqn:Ea; [|done].
      destruct (Hno j). by apply H9.
    - intros j Hj. apply H9 in Hj as [Hj Ha]. split; [done|].
      rewrite H6, Hj, Ha. destruct (pcRef w); [done|by rewrite app_nil_r]. }
  destruct (is_str janus "trickle") eqn:Etr.
  { apply is_str_true in Etr. rewrite Etr. cbn [is_str String.eqb Ascii.eqb Bool.eqb].
    destruct (handleRemoteTrickle_frame h (candidate_of (get msg "candidate")) w)
      as (? & Ht & ? & ? & ? & ? & ? & ? & ? & ? & ?).
    unfold at_return. cbn [foldl fst snd length]. rewrite Ht. unfold same_requests.
    repeat split; solve [done | lia | by intros ? [=] | by intros [=]]. }
  destruct (is_str janus "webrtcup") eqn:Eup.
  { apply is_str_true in Eup. rewrite Eup. cbn [is_str String.eqb Ascii.eqb Bool.eqb].
    frame_close. }
  destruct (is_str janus "hangup") eqn:Ehu.
  { apply is_str_true in Ehu. rewrite Ehu. cbn [is_str String.eqb Ascii.eqb Bool.eqb].
    unfold invoke_onHangup. destruct (onHangupRef w) as [[registered]|] eqn:Ecb.
    - unfold at_return. cbn [foldl fst snd length begin]. unfold begin_hangup.
      cbn [store transport host pcRef localStreamRef remoteAudioRef localAudioRef
           pendingCandidatesRef remoteDescriptionSetRef onHangupRef chatOpen
           pendingReconnectRef sessionStorage with_store set_transport].
      split; [lia|]. split; [by intros H; destruct (H (HandleHangup registered))|].
      split; [intros cb [= <-]; split; [done|]; split; [by left|done]|].
      split; [by intros _ cb [= <-]|].
      split; [apply sendMessage_handle|].
      repeat split; solve [done | by intros ? [=]]. 
    - frame_close. }
  destruct (is_str janus "detached") eqn:Ede.
  { frame_close. }
  frame_close.
Qed.

Lemma unsolicited_frame_touches_only_its_own_part_witness :
  let h := mkHost (λ _ _ _, true) (λ _ _ _, true) (λ _, inr (mkStream 1 [10]))
             (λ _, 2) (λ _ _, inr (mkJsep "offer" (Some "v=0"))) (λ _ _ _, None) in
  let t := Transport.set_connection (Some Transport.OPEN) (Some 42%Z) (Some 7%Z)
             (Transport.initial 0) in
  let w := mkWorld Store.initialStore t None (Some 1) None None None
             [] true (Some (HandleHangup true)) false None [] in
  let bye : Obj := {["janus" := JStr "hangup"]} in
  let q := at_return "Xk3mP0qLw9Zt" (handleMessage h bye w) in
  Transport.find_handler bye (transport w) = None ∧
  (handleMessage h bye w).2 = [RunHangup (HandleHangup true)] ∧
  transport q = (Transport.sendMessage "Xk3mP0qLw9Zt" hangup_request t).1 ∧
  store q = store w ∧ host q = [].
Proof.
  intros h t w bye q.
  assert (Transport.find_handler bye (transport w) = None) as H by (by vm_compute).
  destruct (unsolicited_frame_touches_only_its_own_part h "Xk3mP0qLw9Zt" bye w H)
    as (_ & _ & Hcb & Hrun & _ & _ & Hst & Htr & _).
  pose proof (Hrun eq_refl (HandleHangup true) eq_refl) as Hout.
  destruct (Hcb _ Hout) as (_ & _ & Ht).
  destruct (Hst eq_refl) as (Hs & _).
  destruct (Htr eq_refl) as (_ & Hh & _).
  split; [exact H|]. split; [exact Hout|]. split; [exact Ht|]. split; [exact Hs|].
  apply Hh. intros j Hj. rewrite Hout in Hj. discriminate Hj.
Defined.

End SynchronousFacts.

(** ** The channel: frames received *)
Section ChannelFrameFacts.
Import Channel ChannelSession.
Variable o : UseCallChannelOptions.
Variable throws : ChannelMessage → option string.

(** what sending leaves alone *)
Lemma sendRawMessage_frame m k :
  let k' := (sendRawMessage throws m k).1 in
  connectionState k' = connectionState k ∧ messages k' = messages k ∧
  textChatEnabled k' = textChatEnabled k ∧ wsRef k' = wsRef k ∧
  reconnectTimerRef k' = reconnectTimerRef k ∧ pingTimerRef k' = pingTimerRef k ∧
  lastMessageIdRef k' = lastMessageIdRef k ∧ mountedRef k' = mountedRef k ∧
  timers k' = timers k ∧ next_timer k' = next_timer k ∧
  observed (calls k') = observed (calls k).
Proof.
  unfold sendRawMessage. destruct (ws_open k); [|done].
  destruct (throws m); [|done]. unfold handleError.
  destruct (mountedRef k) eqn:E; cbn; rewrite ?E; [|done].
  unfold observed. rewrite omap_app. cbn. by rewrite app_nil_r.
Qed.

Lemma handle_action_frame id start now a k :
  let k' := handle_action o throws id start now a k in
  connectionState k' = connectionState k ∧ messages k' = messages k ∧
  textChatEnabled k' = textChatEnabled k ∧ wsRef k' = wsRef k ∧
  reconnectTimerRef k' = reconnectTimerRef k ∧ pingTimerRef k' = pingTimerRef k ∧
  lastMessageIdRef k' = lastMessageIdRef k ∧ mountedRef k' = mountedRef k ∧
  timers k' = timers k ∧ next_timer k' = next_timer k ∧
  observed (calls k') = observed (calls k).
Proof.
  unfold handle_action. destruct (onAction o) as [handler|]; [|done].
  destruct (handler a) as [[success data error|note]|e];
    destruct (requiresResponse a && truthy_str (opt_callId o)); try done;
    apply sendRawMessage_frame.
Qed.

(** the answer to an action is the one frame [handle_action] may send *)
Lemma handle_action_sent id start now a handler k :
  onAction o = Some handler →
  handle_action o throws id start now a k =
  if requiresResponse a && truthy_str (opt_callId o)
  then (sendRawMessage throws
          (answer id start now (default "" (opt_callId o)) a (handler a)) k).1
  else k.
Proof.
  intros H. unfold handle_action, answer. rewrite H.
  destruct (handler a) as [[success data error|note]|e]; done.
Qed.

Lemma observed_snoc cs m : observed (cs ++ [OnMessage m]) = observed cs ++ [m].
Proof. unfold observed. by rewrite omap_app. Qed.

Lemma observed_other cs c :
  match c with OnMessage _ => False | _ => True end → observed (cs ++ [c]) = observed cs.
Proof. intros H. unfold observed. rewrite omap_app. destruct c; try done; cbn; by rewrite app_nil_r. Qed.

(** one frame, on a mounted hook *)
Lemma handleMessage_frame id start now m k :
  mountedRef k = true →
  let k' := handleMessage o throws id start now m k in
  messages k' = messages k ++ (if is_chat m then [m] else []) ∧
  observed (calls k') = observed (calls k) ++ [m] ∧
  lastMessageIdRef k' = Some (messageId m) ∧
  textChatEnabled k' = default (textChatEnabled k) (chat_flag m) ∧
  connectionState k' = connectionState k ∧ wsRef k' = wsRef k ∧
  reconnectTimerRef k' = reconnectTimerRef k ∧ pingTimerRef k' = pingTimerRef k ∧
  mountedRef k' = true ∧ timers k' = timers k ∧ next_timer k' = next_timer k.
Proof.
  intros Hm. unfold handleMessage, is_chat, chat_flag. rewrite Hm. cbn [negb]. cbv zeta.
  set (k1 := call (OnMessage m) (set_lastMessageIdRef (Some (messageId m)) k)).
  assert (messages k1 = messages k ∧ observed (calls k1) = observed (calls k) ++ [m] ∧
          lastMessageIdRef k1 = Some (messageId m) ∧
          textChatEnabled k1 = textChatEnabled k ∧
          connectionState k1 = connectionState k ∧ wsRef k1 = wsRef k ∧
          reconnectTimerRef k1 = reconnectTimerRef k ∧ pingTimerRef k1 = pingTimerRef k ∧
          mountedRef k1 = true ∧ timers k1 = timers k ∧ next_timer k1 = next_timer k)
    as (H1 & H2 & H3 & H4 & H5 & H6 & H7 & H8 & H9 & H10 & H11).
  { subst k1. cbn. rewrite observed_snoc. by rewrite Hm. }
  destruct (type m).
  - destruct (chat m); cbn; rewrite ?observed_other by done;
      rewrite ?H1, ?H2, ?H3, ?H4, ?H5, ?H6, ?H7, ?H8, ?H9, ?H10, ?H11, ?app_nil_r; done.
  - destruct (action m) as [a|].
    + destruct (handle_action_frame id start now a k1)
        as (-> & -> & -> & -> & -> & -> & -> & -> & -> & -> & ->).
      rewrite ?H1, ?H2, ?H3, ?H4, ?H5, ?H6, ?H7, ?H8, ?H9, ?H10, ?H11, ?app_nil_r; done.
    + rewrite ?H1, ?H2, ?H3, ?H4, ?H5, ?H6, ?H7, ?H8, ?H9, ?H10, ?H11, ?app_nil_r; done.
  - rewrite ?H1, ?H2, ?H3, ?H4, ?H5, ?H6, ?H7, ?H8, ?H9, ?H10, ?H11, ?app_nil_r; done.
  - destruct (status m) as [st|].
    + destruct (state st); cbn; rewrite ?observed_other by done;
        rewrite ?H1, ?H2, ?H3, ?H4, ?H5, ?H6, ?H7, ?H8, ?H9, ?H10, ?H11, ?app_nil_r; done.
    + rewrite ?H1, ?H2, ?H3, ?H4, ?H5, ?H6, ?H7, ?H8, ?H9, ?H10, ?H11, ?app_nil_r; done.
  - destruct (control m); cbn; rewrite ?observed_other by done;
      rewrite ?H1, ?H2, ?H3, ?H4, ?H5, ?H6, ?H7, ?H8, ?H9, ?H10, ?H11, ?app_nil_r; done.
  - rewrite ?H1, ?H2, ?H3, ?H4, ?H5, ?H6, ?H7, ?H8, ?H9, ?H10, ?H11, ?app_nil_r; done.
  - rewrite ?H1, ?H2, ?H3, ?H4, ?H5, ?H6, ?H7, ?H8, ?H9, ?H10, ?H11, ?app_nil_r; done.
  - rewrite ?H1, ?H2, ?H3, ?H4, ?H5, ?H6, ?H7, ?H8, ?H9, ?H10, ?H11, ?app_nil_r; done.
  - destruct (error_payload m) as [e|].
    + unfold handleError. rewrite H9. cbn. rewrite ?observed_other by done.
      rewrite ?H1, ?H2, ?H3, ?H4, ?H5, ?H6, ?H7, ?H8, ?H9, ?H10, ?H11, ?app_nil_r; done.
    + rewrite ?H1, ?H2, ?H3, ?H4, ?H5, ?H6, ?H7, ?H8, ?H9, ?H10, ?H11, ?app_nil_r; done.
Qed.

Lemma handleMessage_sent_other id start now m k :
  type m ≠ TAction → sent (handleMessage o throws id start now m k) = sent k.
Proof.
  intros Hty. unfold handleMessage. destruct (mountedRef k) eqn:Hm; [|done]. cbn [negb].
  cbv zeta. destruct (type m); try done.
  - by destruct (chat m).
  - destruct (status m) as [st|]; [|done]. by destruct (state st).
  - by destruct (control m).
  - destruct (error_payload m); [|done]. unfold handleError. cbn. by rewrite Hm.
Qed.

(** X11.  An action frame handled by a mounted hook is answered with at
    most one frame, and that frame is decided by the handler's outcome: the
    result the handler returned, with its success flag, data and error and the
    time the handler took, marked final; a failed result carrying the error's
    message, or "Action failed", when the handler threw; the non-final
    acknowledgment when the handler answered asynchronously.  The answer is
    sent when the action requires a response, the call identifier is present,
    the socket is open and the send does not throw; nothing is sent when the
    action requires no response, the call identifier is absent, the socket is
    not open or no action handler is configured.  The chat history, the text
    chat flag and the connection state are left as they were. *)
Theorem action_is_answered_once_with_the_handler_outcome :
  ∀ (id : string) (start now : Z) (m : ChannelMessage) (a : ActionPayload) (k : Hook),
    type m = TAction → action m = Some a → mountedRef k = true →
    let k' := handleMessage o throws id start now m k in
    (onAction o = None → sent k' = sent k) ∧
    (∀ handler, onAction o = Some handler →
       let reply := answer id start now (default "" (opt_callId o)) a (handler a) in
       (sent k' = sent k ∨ sent k' = sent k ++ [reply]) ∧
       (requiresResponse a = true → truthy_str (opt_callId o) = true →
        ws_open k = true → throws reply = None → sent k' = sent k ++ [reply]) ∧
       (requiresResponse a = false ∨ truthy_str (opt_callId o) = false ∨ ws_open k = false →
          sent k' = sent k) ∧
       type reply = TActionResult ∧ direction reply = to_ari ∧
       callId reply = default "" (opt_callId o) ∧
       (∀ success data error,
          handler a = Resolves (SyncActionResult success data error) →
          actionResult reply =
            Some (mkActionResult (actionId a) None success data error
                    (Some (now - start)%Z) (Some true))) ∧
       (∀ e, handler a = Rejects e →
          actionResult reply =
            Some (mkActionResult (actionId a) None false None
                    (Some (default "Action failed" e)) None (Some true))) ∧
       (∀ note, handler a = Resolves (AsyncActionResult note) →
          actionResult reply =
            Some (mkActionResult (actionId a) (Some received) true None None None
                    (Some false)))) ∧
    messages k' = messages k ∧ textChatEnabled k' = textChatEnabled k ∧
    connectionState k' = connectionState k.
Proof.
  intros id start now m a k Hty Ha Hm k'.
  destruct (handleMessage_frame id start now m k Hm) as (H1 & _ & _ & H4 & H5 & _).
  fold k' in H1, H4, H5.
  assert (is_chat m = false) as Hc by (unfold is_chat; by rewrite Hty).
  assert (chat_flag m = None) as Hf by (unfold chat_flag; by rewrite Hty).
  rewrite Hc, app_nil_r in H1. rewrite Hf in H4. cbn in H4.
  split; [|split; [|done]].
  - intros Hno. subst k'. unfold handleMessage. rewrite Hm, Hty, Ha. cbn [negb].
    unfold handle_action. by rewrite Hno.
  - intros handler Hh reply.
    set (k1 := call (OnMessage m) (set_lastMessageIdRef (Some (messageId m)) k)).
    assert (k' = if requiresResponse a && truthy_str (opt_callId o)
                 then (sendRawMessage throws reply k1).1 else k1) as Hk.
    { subst k'. unfold handleMessage. rewrite Hm, Hty, Ha. cbn [negb]. cbv zeta.
      by rewrite (handle_action_sent _ _ _ _ handler). }
    assert (sent k1 = sent k) as Hs by done.
    assert (ws_open k1 = ws_open k) as Hw by done.
    split; [|split; [|split]].
    + rewrite Hk. destruct (requiresResponse a && truthy_str (opt_callId o)); [|by left].
      destruct (sendRawMessage_sent throws reply k1) as [->| ->]; [by left|right].
      done.
    + intros Hr Hc' Ho Ht. rewrite Hk, Hr, Hc'. cbn [andb].
      unfold sendRawMessage. rewrite Hw, Ho, Ht. done.
    + intros Hor. rewrite Hk.
      destruct (requiresResponse a) eqn:Hr; [|done].
      destruct (truthy_str (opt_callId o)) eqn:Hc'; [|done]. cbn [andb].
      destruct Hor as [?|[?|Ho]]; try done.
      rewrite sendRawMessage_closed by (by rewrite Hw). done.
    + subst reply. unfold answer.
      destruct (handler a) as [[success data error|note]|e]; cbn;
        repeat split; try done; intros; congruence.
Qed.

End ChannelFrameFacts.

Lemma action_is_answered_once_with_the_handler_outcome_witness :
  let handler : Channel.ActionHandler :=
    λ a, Channel.Resolves (Channel.SyncActionResult true (Some (JStr "done")) None) in
  let o := Channel.mkOptions (Some "call-1") (Some "token-1") (Some handler) None None None in
  let a := Channel.mkAction "act-1" "navigate" ∅ true in
  let m := Channel.mkMessage Channel.TAction "call-1" "m-1" 100 Channel.to_browser None
             (Some a) None None None None None in
  let k := Channel.mkHook Channel.Connected [] None false (Some Transport.OPEN) None None None
             true ∅ 0 [] [] in
  Channel.sent (Channel.handleMessage o (λ _, None) "m-2" 100 140 m k) =
    [Channel.createActionResultMessage "m-2" 140 "call-1" "act-1" true (Some (JStr "done"))
       None (Some 40%Z)].
Proof.
  intros handler o a m k.
  destruct (action_is_answered_once_with_the_handler_outcome o (λ _, None) "m-2" 100 140
              m a k eq_refl eq_refl eq_refl) as (_ & H & _).
  destruct (H handler eq_refl) as (_ & H' & _).
  exact (H' eq_refl eq_refl eq_refl eq_refl).
Defined.

(** ** The channel: history *)
Section ChannelHistoryFacts.
Import Channel ChannelSession.
Variable o : UseCallChannelOptions.
Variable throws : ChannelMessage → option string.

Lemma receive_snoc arrivals a k :
  receive o throws (arrivals ++ [a]) k =
  handleMessage o throws (a_id a) (a_start a) (a_now a) (a_frame a)
    (receive o throws arrivals k).
Proof. unfold receive. by rewrite foldl_app. Qed.

Lemma receive_unmounted arrivals k :
  mountedRef k = false → receive o throws arrivals k = k.
Proof.
  intros Hm. induction arrivals as [|a arrivals IH] using rev_ind; [done|].
  rewrite receive_snoc, IH. unfold handleMessage. by rewrite Hm.
Qed.

(** X12.  Frames received by a mounted hook, in any number and of any
    kind: the chat history grows by exactly the chat frames that carry a
    payload, in the order of arrival; [onMessage] is called once for every
    frame, in order; the last-message marker holds the identifier of the
    last frame; the text chat flag is what the last [text_chat_enabled] or
    [text_chat_disabled] status frame said, and as before when there was
    none; the connection state, the socket and the timers are untouched.  An
    unmounted hook ignores every frame. *)
Theorem received_frames_are_recorded_in_order :
  ∀ (arrivals : list Arrival) (k : Hook),
    let k' := receive o throws arrivals k in
    (mountedRef k = true →
       messages k' = messages k ++ List.filter is_chat (a_frame <$> arrivals) ∧
       observed (calls k') = observed (calls k) ++ (a_frame <$> arrivals) ∧
       lastMessageIdRef k' =
         match last arrivals with
         | Some a => Some (messageId (a_frame a))
         | None => lastMessageIdRef k
         end ∧
       textChatEnabled k' =
         default (textChatEnabled k) (last (omap (λ a, chat_flag (a_frame a)) arrivals)) ∧
       connectionState k' = connectionState k ∧ wsRef k' = wsRef k ∧
       timers k' = timers k ∧ mountedRef k' = true) ∧
    (mountedRef k = false → k' = k).
Proof.
  intros arrivals k k'. subst k'. split; [|apply receive_unmounted].
  intros Hm. induction arrivals as [|a arrivals IH] using rev_ind.
  - cbn. by rewrite !app_nil_r.
  - destruct IH as (I1 & I2 & I3 & I4 & I5 & I6 & I7 & I8).
    rewrite receive_snoc.
    destruct (handleMessage_frame o throws (a_id a) (a_start a) (a_now a) (a_frame a)
                (receive o throws arrivals k) I8)
      as (H1 & H2 & H3 & H4 & H5 & H6 & _ & _ & H9 & H10 & _).
    rewrite H1, H2, H3, H4, H5, H6, H9, H10, I1, I2, I4, I5, I6, I7.
    rewrite fmap_app, List.filter_app, omap_app, last_snoc, <-!app_assoc. cbn.
    repeat split.
    destruct (chat_flag (a_frame a)) as [b|]; cbn.
    + by rewrite last_snoc.
    + by rewrite app_nil_r.
Qed.

Lemma send_recorded_spec build k :
  truthy_str (opt_callId o) = true →
  let m := build (default "" (opt_callId o)) in
  let r := send_recorded o throws build k in
  messages r.1 = messages k ++ [m] ∧
  (r.2 = true → sent r.1 = sent k ++ [m]) ∧
  (r.2 = false → sent r.1 = sent k) ∧
  (r.2 = true ↔ ws_open k = true ∧ throws m = None).
Proof.
  intros Hc m r. subst r m. unfold send_recorded. rewrite Hc. cbn [negb]. cbv zeta.
  set (m := build _). set (k1 := setMessages (messages k ++ [m]) k).
  assert (ws_open k1 = ws_open k) as Hw by done.
  destruct (sendRawMessage_frame throws m k1) as (_ & -> & _).
  split; [done|]. unfold sendRawMessage. rewrite Hw.
  destruct (ws_open k); cbn; [|by repeat split; try done; intros [? _]].
  destruct (throws m) as [e|]; cbn.
  - unfold handleError. destruct (mountedRef k1); repeat split; try done; by intros [_ ?].
  - repeat split; done.
Qed.

(** X13.  What the user types is kept whether or not it could be sent.
    [sendContextUpdate], [sendTextChat] and [sendReadAloud] append the message
    they build to the local history before they try to send it, and return
    [true] exactly when the socket was open and took the frame; so with the
    socket closed the message is in the history and was never transmitted.
    Without a call identifier they do nothing.  The component's
    [handleSendChat] sends nothing for empty input, a [conversation] message
    asking for a text response while text chat is enabled, and a
    [context_update] that asks for no response otherwise. *)
Theorem typed_message_is_recorded_even_when_not_sent :
  ∀ (id : string) (now : Z) (content : string) (k : Hook),
    let cid := default "" (opt_callId o) in
    (truthy_str (opt_callId o) = false →
       sendContextUpdate o throws id now content k = (k, false) ∧
       sendTextChat o throws id now content k = (k, false) ∧
       sendReadAloud o throws id now content k = (k, false)) ∧
    (truthy_str (opt_callId o) = true →
       (∀ (send : Hook → Hook * bool) (m : ChannelMessage),
          (send = sendContextUpdate o throws id now content ∧
           m = createContextUpdateMessage id now cid content) ∨
          (send = sendTextChat o throws id now content ∧
           m = createTextChatMessage id now cid content) ∨
          (send = sendReadAloud o throws id now content ∧
           m = createReadAloudMessage id now cid content) →
          messages (send k).1 = messages k ++ [m] ∧
          ((send k).2 = true ↔ ws_open k = true ∧ throws m = None) ∧
          sent (send k).1 = sent k ++ (if (send k).2 then [m] else [])) ∧
       let k' := handleSendChat o throws id now content k in
       (content = "" → k' = k) ∧
       (content ≠ "" →
          messages k' = messages k ++
            [if textChatEnabled k
             then createTextChatMessage id now cid content
             else createContextUpdateMessage id now cid content])).
Proof.
  intros id now content k cid. split.
  - intros Hc. unfold sendContextUpdate, sendTextChat, sendReadAloud, send_recorded.
    by rewrite Hc.
  - intros Hc. split.
    + intros send m Hcase.
      assert (∃ build, send = send_recorded o throws build ∧ m = build cid)
        as (build & -> & ->).
      { destruct Hcase as [[-> ->]|[[-> ->]|[-> ->]]]; eexists; split; reflexivity. }
      destruct (send_recorded_spec build k Hc) as (H1 & H2 & H3 & H4). fold cid in H1, H2, H3, H4.
      split; [done|]. split; [done|].
      destruct (send_recorded o throws build k).2; [by rewrite H2|by rewrite H3, app_nil_r].
    + cbv zeta. unfold handleSendChat. split.
      * by intros ->.
      * intros Hne. assert (truthy_str (Some content) = true) as ->.
        { cbn. destruct content; done. }
        cbn [negb]. destruct (textChatEnabled k).
        -- by destruct (send_recorded_spec
                          (λ c, createTextChatMessage id now c content) k Hc) as (H1 & _).
        -- by destruct (send_recorded_spec
                          (λ c, createContextUpdateMessage id now c content) k Hc) as (H1 & _).
Qed.

End ChannelHistoryFacts.

Lemma received_frames_are_recorded_in_order_witness :
  let o := Channel.mkOptions (Some "call-1") (Some "token-1") None None None None in
  let hello := Channel.mkMessage Channel.TChat "call-1" "m-1" 100 Channel.to_browser
                 (Some (Channel.mkChat "assistant" "Hello" None None None None))
                 None None None None None None in
  let enabled := Channel.mkMessage Channel.TStatus "call-1" "m-2" 105 Channel.to_browser
                   None None None (Some (Channel.mkStatus Channel.text_chat_enabled))
                   None None None in
  let pong := Channel.mkMessage Channel.TPong "call-1" "m-3" 110 Channel.to_browser
                None None None None None None None in
  let k := Channel.mkHook Channel.Connected [] None false (Some Transport.OPEN) None (Some 0)
             None true {[0 := Channel.PingInterval 30000]} 1 [] [] in
  let k' := ChannelSession.receive o (λ _, None)
              [ChannelSession.mkArrival "a-1" 100 101 hello;
               ChannelSession.mkArrival "a-2" 105 106 enabled;
               ChannelSession.mkArrival "a-3" 110 111 pong] k in
  Channel.messages k' = [hello] ∧
  ChannelSession.observed (Channel.calls k') = [hello; enabled; pong] ∧
  Channel.lastMessageIdRef k' = Some "m-3" ∧
  Channel.textChatEnabled k' = true ∧
  Channel.timers k' = {[0 := Channel.PingInterval 30000]}.
Proof.
  intros o hello enabled pong k k'.
  destruct (proj1 (received_frames_are_recorded_in_order o (λ _, None)
                     [ChannelSession.mkArrival "a-1" 100 101 hello;
                      ChannelSession.mkArrival "a-2" 105 106 enabled;
                      ChannelSession.mkArrival "a-3" 110 111 pong] k) eq_refl)
    as (H1 & H2 & H3 & H4 & _ & _ & H7 & _).
  split; [exact H1|]. split; [exact H2|]. split; [exact H3|]. split; [exact H4|exact H7].
Defined.

Lemma typed_message_is_recorded_even_when_not_sent_witness :
  let o := Channel.mkOptions (Some "call-1") (Some "token-1") None None None None in
  let k := Channel.mkHook Channel.Reconnecting [] None true (Some Transport.CLOSED) None None
             None true ∅ 0 [] [] in
  Channel.messages (ChannelSession.handleSendChat o (λ _, None) "m-1" 100 "hello" k)
    = [ChannelSession.createTextChatMessage "m-1" 100 "call-1" "hello"].
Proof.
  intros o k.
  destruct (typed_message_is_recorded_even_when_not_sent o (λ _, None) "m-1" 100 "hello" k)
    as (_ & H).
  destruct (H eq_refl) as (_ & _ & H').
  exact (H' ltac:(discriminate)).
Defined.

(** ** The channel: a connection's life *)
Section ChannelLifeFacts.
Import Channel ChannelSession.
Variable o : UseCallChannelOptions.
Variable throws : ChannelMessage → option string.

(** reduction of the setters and projections of [Hook] *)
Ltac hook_compute :=
  cbv [onopen connect disconnect unmount onclose close_event ping reconnect_due
       updateConnectionState handleError clear_reconnect clear_ping start_ping
       schedule_reconnect set_ws set_mountedRef setLastError set_view setTextChatEnabled
       setMessages call push_sent set_lastMessageIdRef
       connectionState messages lastError textChatEnabled wsRef reconnectTimerRef
       pingTimerRef lastMessageIdRef mountedRef timers next_timer sent calls
       ws_open negb orb andb].

Ltac hook_compute_in H :=
  cbv [onopen connect disconnect unmount onclose close_event ping reconnect_due
       updateConnectionState handleError clear_reconnect clear_ping start_ping
       schedule_reconnect set_ws set_mountedRef setLastError set_view setTextChatEnabled
       setMessages call push_sent set_lastMessageIdRef
       connectionState messages lastError textChatEnabled wsRef reconnectTimerRef
       pingTimerRef lastMessageIdRef mountedRef timers next_timer sent calls
       ws_open negb orb andb] in H.

(** a connection made and opened, on a mounted hook *)
Lemma onopen_connect id now k :
  truthy_str (opt_callId o) = true → truthy_str (opt_wsToken o) = true →
  mountedRef k = true →
  let k' := onopen o id now (connect o None k) in
  connectionState k' = Connected ∧ lastError k' = None ∧ ws_open k' = true ∧
  sent k' = sent k ++
    (if truthy_str (lastMessageIdRef k)
     then [createReconnectMessage id now (default "" (opt_callId o)) (lastMessageIdRef k)]
     else []) ∧
  pingTimerRef k' = Some (next_timer k) ∧ reconnectTimerRef k' = None ∧
  timers k' !! next_timer k = Some (PingInterval (pingInterval_of o)) ∧
  messages k' = messages k ∧ lastMessageIdRef k' = lastMessageIdRef k ∧
  mountedRef k' = true.
Proof.
  intros Hc Ht Hm. unfold onopen, connect. rewrite Hc, Ht. cbn [negb orb]. cbv zeta.
  destruct k as [cs ms le tc ws rt pt lm mt tm nt se cl]. cbn [mountedRef] in Hm. subst mt.
  destruct rt as [rt|], pt as [pt|]; hook_compute;
    (destruct (truthy_str lm); rewrite ?app_nil_r, lookup_insert_eq; done).
Qed.

Lemma disconnect_spec k :
  let k' := disconnect k in
  lastMessageIdRef k' = None ∧ wsRef k' = None ∧ textChatEnabled k' = false ∧
  reconnectTimerRef k' = None ∧ pingTimerRef k' = None ∧
  sent k' = sent k ∧ messages k' = messages k ∧ mountedRef k' = mountedRef k ∧
  next_timer k' = next_timer k ∧
  (mountedRef k = true → connectionState k' = Disconnected).
Proof.
  destruct k as [cs ms le tc ws rt pt lm mt tm nt se cl].
  destruct rt as [rt|], pt as [pt|], mt; hook_compute; done.
Qed.

Lemma close_event_reconnects code k :
  mountedRef k = true → shouldReconnect o code = true →
  let k' := close_event o code k in
  connectionState k' = Reconnecting ∧ textChatEnabled k' = false ∧
  reconnectTimerRef k' = Some (next_timer k) ∧
  timers k' !! next_timer k = Some (ReconnectTimeout (reconnectDelay_of o)) ∧
  pingTimerRef k' = None ∧ wsRef k' = Some Transport.CLOSED ∧
  sent k' = sent k ∧ messages k' = messages k ∧
  lastMessageIdRef k' = lastMessageIdRef k ∧ mountedRef k' = true ∧
  next_timer k' = S (next_timer k).
Proof.
  intros Hm Hs. unfold close_event, onclose. cbn [mountedRef set_ws]. rewrite Hm, Hs.
  cbn [negb]. cbv zeta.
  destruct k as [cs ms le tc ws rt pt lm mt tm nt se cl]. cbn [mountedRef] in Hm. subst mt.
  destruct pt as [pt|]; hook_compute; rewrite lookup_insert_eq; done.
Qed.

Lemma reconnect_due_armed creates t d k :
  timers k !! t = Some (ReconnectTimeout d) → mountedRef k = true →
  reconnect_due o creates t k =
  connect o creates
    (mkHook (connectionState k) (messages k) (lastError k) (textChatEnabled k)
       (wsRef k) (reconnectTimerRef k) (pingTimerRef k) (lastMessageIdRef k)
       (mountedRef k) (delete t (timers k)) (next_timer k) (sent k) (calls k)).
Proof. intros Ht Hm. unfold reconnect_due. rewrite Ht. cbn [mountedRef]. by rewrite Hm. Qed.

(** X14.  What a new connection asks of the server.  When a connection made
    by a mounted hook opens, the state becomes [Connected], the last error is
    cleared and a ping interval with the configured period (30 s by default)
    is armed; if a frame was received before, the first thing sent is a
    reconnect request that carries the identifier of the last frame received,
    and nothing is sent otherwise.  After [disconnect] the marker is
    forgotten: the next connection asks for no replay.  After a close the
    hook reconnects from, the reconnection made when the timeout runs asks
    for a replay from the last frame that was handled before the close. *)
Theorem reconnection_asks_for_replay_unless_disconnected :
  ∀ (id : string) (now : Z) (k : Hook),
    truthy_str (opt_callId o) = true → truthy_str (opt_wsToken o) = true →
    mountedRef k = true →
    let cid := default "" (opt_callId o) in
    let opened := onopen o id now (connect o None k) in
    let again := onopen o id now (connect o None (disconnect k)) in
    (connectionState opened = Connected ∧ lastError opened = None ∧
     ws_open opened = true ∧
     sent opened = sent k ++
       (if truthy_str (lastMessageIdRef k)
        then [createReconnectMessage id now cid (lastMessageIdRef k)]
        else []) ∧
     pingTimerRef opened = Some (next_timer k) ∧
     timers opened !! next_timer k = Some (PingInterval (pingInterval_of o)) ∧
     (pingInterval o = None → pingInterval_of o = 30000%Z)) ∧
    (sent again = sent k ∧ connectionState again = Connected) ∧
    (∀ (a : Arrival) (code : Z),
       shouldReconnect o code = true → messageId (a_frame a) ≠ "" →
       let before := handleMessage o throws (a_id a) (a_start a) (a_now a) (a_frame a) k in
       let closed := close_event o code before in
       let reopened := onopen o id now (reconnect_due o None (next_timer k) closed) in
       connectionState closed = Reconnecting ∧
       connectionState reopened = Connected ∧
       sent reopened = sent before ++
         [createReconnectMessage id now cid (Some (messageId (a_frame a)))]).
Proof.
  intros id now k Hc Ht Hm cid opened again. split; [|split].
  - destruct (onopen_connect id now k Hc Ht Hm) as (H1 & H2 & H3 & H4 & H5 & _ & H7 & _).
    repeat split; try done. unfold pingInterval_of. by intros ->.
  - destruct (disconnect_spec k) as (D1 & _ & _ & _ & _ & D6 & _ & D8 & _).
    destruct (onopen_connect id now (disconnect k) Hc Ht) as (H1 & _ & _ & H4 & _).
    { by rewrite D8. }
    subst again. rewrite H4, D1, D6. cbn. by rewrite app_nil_r.
  - intros a code Hs Hid before closed reopened.
    destruct (handleMessage_frame o throws (a_id a) (a_start a) (a_now a) (a_frame a) k Hm)
      as (_ & _ & F3 & _ & _ & _ & _ & _ & F9 & _ & F11).
    fold before in F3, F9, F11.
    destruct (close_event_reconnects code before F9 Hs)
      as (C1 & _ & _ & C4 & _ & _ & C7 & _ & C9 & C10 & _).
    fold closed in C1, C4, C7, C9, C10. rewrite F11 in C4.
    split; [done|]. subst reopened.
    rewrite (reconnect_due_armed None _ _ _ C4 C10).
    match goal with
    | |- context [connect o None ?h] =>
        destruct (onopen_connect id now h Hc Ht C10) as (H1 & _ & _ & H4 & _)
    end.
    split; [done|]. rewrite H4. cbn [sent lastMessageIdRef]. rewrite C7, C9, F3.
    assert (truthy_str (Some (messageId (a_frame a))) = true) as ->; [|done].
    cbn. by destruct (messageId (a_frame a)).
Qed.

(** [tidy] reads the timers, their refs, the socket and the mounted flag *)
Lemma tidy_ext k k' :
  timers k' = timers k → next_timer k' = next_timer k →
  reconnectTimerRef k' = reconnectTimerRef k → pingTimerRef k' = pingTimerRef k →
  wsRef k' = wsRef k → mountedRef k' = mountedRef k →
  tidy o k → tidy o k'.
Proof.
  intros E1 E2 E3 E4 E5 E6 [T1 T2 T3 T4 T5].
  split; rewrite ?E1, ?E2, ?E3, ?E4, ?E5, ?E6; done.
Qed.

(** a hook without timers, its refs empty, is tidy *)
Lemma tidy_quiet k :
  (∀ t, timers k !! t = None) → reconnectTimerRef k = None → pingTimerRef k = None →
  tidy o k.
Proof.
  intros Hn Hr Hp. split; rewrite ?Hr, ?Hp; try done; intros; by rewrite Hn in *.
Qed.

(** once both refs are cleared no timer is left, when every timer was held
    by one of them *)
Lemma cleared_quiet k t :
  (∀ t kind, timers k !! t = Some kind →
     reconnectTimerRef k = Some t ∨ pingTimerRef k = Some t) →
  timers (clear_ping (clear_reconnect k)) !! t = None.
Proof.
  intros T1.
  destruct k as [cs ms le tc ws rt pt lm mt tm nt se cl].
  cbn [timers reconnectTimerRef pingTimerRef] in T1.
  destruct (tm !! t) as [kind|] eqn:E.
  - destruct (T1 t kind E) as [->| ->].
    + destruct pt as [pt|]; hook_compute; rewrite ?lookup_delete_None; auto.
    + destruct rt as [rt|]; hook_compute; rewrite ?lookup_delete_None; auto.
  - destruct rt as [rt|], pt as [pt|]; hook_compute; rewrite ?lookup_delete_None; auto.
Qed.

Lemma tidy_held k :
  tidy o k →
  ∀ t kind, timers k !! t = Some kind →
    reconnectTimerRef k = Some t ∨ pingTimerRef k = Some t.
Proof.
  intros [T1 _ _ _ _] t kind E. destruct (T1 t kind E) as [[? _]|[? _]]; auto.
Qed.

Lemma connect_timers creates k :
  truthy_str (opt_callId o) = true → truthy_str (opt_wsToken o) = true →
  timers (connect o creates k) = timers (clear_ping (clear_reconnect k)) ∧
  reconnectTimerRef (connect o creates k) = None ∧
  pingTimerRef (connect o creates k) = None.
Proof.
  intros Hc Ht. unfold connect. rewrite Hc, Ht. cbn [negb orb]. cbv zeta.
  destruct k as [cs ms le tc ws rt pt lm mt tm nt se cl].
  destruct rt as [rt|], pt as [pt|], mt, creates as [e|]; hook_compute; done.
Qed.

Lemma quiet_connect creates k :
  truthy_str (opt_callId o) = true → truthy_str (opt_wsToken o) = true →
  (∀ t kind, timers k !! t = Some kind →
     reconnectTimerRef k = Some t ∨ pingTimerRef k = Some t) →
  tidy o (connect o creates k).
Proof.
  intros Hc Ht Hk. destruct (connect_timers creates k Hc Ht) as (E & Hr & Hp).
  apply tidy_quiet; [|done|done]. intros t. rewrite E. by apply cleared_quiet.
Qed.

Lemma tidy_connect creates k : tidy o k → tidy o (connect o creates k).
Proof.
  intros Hk.
  destruct (truthy_str (opt_callId o)) eqn:Hc; [|by unfold connect; rewrite Hc].
  destruct (truthy_str (opt_wsToken o)) eqn:Ht;
    [|by unfold connect; rewrite Hc, Ht].
  apply quiet_connect; [done|done|]. by apply tidy_held.
Qed.

Lemma tidy_disconnect k : tidy o k → tidy o (disconnect k).
Proof.
  intros Hk.
  assert (timers (disconnect k) = timers (clear_ping (clear_reconnect k)) ∧
          reconnectTimerRef (disconnect k) = None ∧ pingTimerRef (disconnect k) = None)
    as (E & Hr & Hp).
  { destruct k as [cs ms le tc ws rt pt lm mt tm nt se cl].
    destruct rt as [rt|], pt as [pt|], mt; hook_compute; done. }
  apply tidy_quiet; [|done|done]. intros t. rewrite E. by apply cleared_quiet, tidy_held.
Qed.

Lemma tidy_unmount k : tidy o k → tidy o (unmount k).
Proof.
  intros Hk.
  assert (timers (unmount k) = timers (clear_ping (clear_reconnect k)) ∧
          reconnectTimerRef (unmount k) = None ∧ pingTimerRef (unmount k) = None)
    as (E & Hr & Hp).
  { destruct k as [cs ms le tc ws rt pt lm mt tm nt se cl].
    destruct rt as [rt|], pt as [pt|]; hook_compute; done. }
  apply tidy_quiet; [|done|done]. intros t. rewrite E. by apply cleared_quiet, tidy_held.
Qed.

(** while the socket held is connecting, nothing is armed *)
Lemma tidy_connecting k :
  tidy o k → wsRef k = Some Transport.CONNECTING →
  (∀ t, timers k !! t = None) ∧ reconnectTimerRef k = None ∧ pingTimerRef k = None.
Proof.
  intros [T1 _ T3 T4 _] Hws.
  assert (reconnectTimerRef k = None) as Hr.
  { destruct (reconnectTimerRef k) as [t|] eqn:E; [|done].
    destruct (T4 t eq_refl) as [? _]. congruence. }
  assert (pingTimerRef k = None) as Hp.
  { destruct (pingTimerRef k) as [t|] eqn:E; [|done].
    destruct (T3 t eq_refl) as [? _]. congruence. }
  split; [|done]. intros t. destruct (timers k !! t) as [kind|] eqn:E; [|done].
  destruct (T1 t kind E) as [[? _]|[? _]]; congruence.
Qed.

Lemma tidy_onopen id now k :
  tidy o k → wsRef k = Some Transport.CONNECTING → tidy o (onopen o id now k).
Proof.
  intros Hk Hws. destruct (tidy_connecting k Hk Hws) as (Hnone & Hr & Hp).
  destruct k as [cs ms le tc ws rt pt lm mt tm nt se cl].
  cbn [timers pingTimerRef reconnectTimerRef next_timer wsRef] in *. subst pt rt ws.
  destruct mt.
  - destruct (truthy_str lm) eqn:El; hook_compute; rewrite El;
      (split; cbn [timers pingTimerRef reconnectTimerRef next_timer wsRef mountedRef];
       [intros t kind E; apply lookup_insert_Some in E as [[<- <-]|[_ E]];
          [by right|by rewrite Hnone in E]
       |intros t kind E; apply lookup_insert_Some in E as [[<- <-]|[_ E]];
          [lia|by rewrite Hnone in E]
       |intros t [= <-]; by rewrite lookup_insert_eq
       |done
       |done]).
  - hook_compute. by apply tidy_quiet.
Qed.

Lemma tidy_close_event code k :
  tidy o k → wsRef k ≠ Some Transport.CLOSED → tidy o (close_event o code k).
Proof.
  intros Hk Hws.
  assert (reconnectTimerRef k = None) as Hr.
  { destruct (reconnectTimerRef k) as [t|] eqn:E; [|done].
    by destruct (tidy_reconnect _ _ Hk t E) as [? _]. }
  assert (∀ t kind, timers k !! t = Some kind → pingTimerRef k = Some t) as Hping.
  { intros t kind E. destruct (tidy_timer _ _ Hk t kind E) as [[? _]|[? _]]; congruence. }
  pose proof (tidy_unmounted _ _ Hk) as Hun.
  assert (mountedRef k = false → pingTimerRef k = None) as Hunp.
  { intros Hm. destruct (pingTimerRef k) as [t|] eqn:E; [|done].
    destruct (tidy_ping _ _ Hk t E) as [_ Ht]. by rewrite (Hun Hm) in Ht. }
  destruct k as [cs ms le tc ws rt pt lm mt tm nt se cl].
  cbn [timers pingTimerRef reconnectTimerRef next_timer wsRef mountedRef] in *. subst rt.
  unfold close_event, onclose. cbn [mountedRef set_ws]. destruct mt; cbn [negb]; cbv zeta.
  - assert (∀ t, timers (clear_ping (set_ws (Some Transport.CLOSED)
                (mkHook cs ms le tc ws None pt lm true tm nt se cl))) !! t = None) as Hnone.
    { intros t. destruct pt as [pt|]; hook_compute.
      - apply lookup_delete_None. destruct (decide (pt = t)) as [|Hne]; [by left|right].
        destruct (tm !! t) as [kind|] eqn:E; [|done]. specialize (Hping t kind E). congruence.
      - destruct (tm !! t) as [kind|] eqn:E; [|done]. by specialize (Hping t kind E). }
    destruct (shouldReconnect o code) eqn:Hs.
    + assert (truthy_str (opt_callId o) = true ∧ truthy_str (opt_wsToken o) = true)
        as [Hc Ht].
      { unfold shouldReconnect in Hs.
        destruct (truthy_str (opt_callId o)), (truthy_str (opt_wsToken o));
          rewrite ?andb_false_r in Hs; done. }
      destruct pt as [pt|]; hook_compute; hook_compute_in Hnone;
        (split; cbn [timers pingTimerRef reconnectTimerRef next_timer wsRef mountedRef];
         [intros t kind E; apply lookup_insert_Some in E as [[<- <-]|[_ E]];
            [by left|by rewrite Hnone in E]
         |intros t kind E; apply lookup_insert_Some in E as [[<- <-]|[_ E]];
            [lia|by rewrite Hnone in E]
         |done
         |intros t [= <-]; by rewrite lookup_insert_eq
         |done]).
    + apply tidy_quiet.
      * intros t. specialize (Hnone t). revert Hnone.
        destruct pt as [pt|]; hook_compute; done.
      * destruct pt as [pt|]; hook_compute; done.
      * destruct pt as [pt|]; hook_compute; done.
  - rewrite (Hunp eq_refl). apply tidy_quiet; cbn [timers pingTimerRef reconnectTimerRef]; try done.
    by apply Hun.
Qed.

Lemma tidy_reconnect_due creates t k : tidy o k → tidy o (reconnect_due o creates t k).
Proof.
  intros Hk. unfold reconnect_due.
  destruct (timers k !! t) as [[d|p]|] eqn:E; [|done|done].
  destruct (mountedRef k) eqn:Hm; cbn [mountedRef].
  - destruct (tidy_timer _ _ Hk t _ E) as [[Hr _]|[_ ?]]; [|done].
    destruct (tidy_reconnect _ _ Hk t Hr) as (_ & _ & Hc & Ht).
    apply quiet_connect; [done|done|].
    cbn [timers pingTimerRef reconnectTimerRef].
    intros t' kind E'. apply lookup_delete_Some in E' as [_ E'].
    by apply (tidy_held k Hk t' kind).
  - by rewrite (tidy_unmounted _ _ Hk Hm) in E.
Qed.

Lemma tidy_initial : tidy o initial.
Proof. by apply tidy_quiet. Qed.

Lemma tidy_step e k : tidy o k → allowed e k = true → tidy o (step o throws e k).
Proof.
  intros Hk Ha. destruct e as [creates|id now|a|t id now|code|t creates| |]; cbn [step].
  - by apply tidy_connect.
  - apply tidy_onopen; [done|]. cbn in Ha. by destruct (wsRef k) as [[]|].
  - destruct (mountedRef k) eqn:Hm.
    + destruct (handleMessage_frame o throws (a_id a) (a_start a) (a_now a) (a_frame a) k Hm)
        as (_ & _ & _ & _ & _ & H6 & H7 & H8 & H9 & H10 & H11).
      apply (tidy_ext k); try done. congruence.
    + unfold handleMessage. by rewrite Hm.
  - destruct (timers k !! t) as [[d|p]|]; try done.
    unfold ping. destruct (ws_open k); [|done]. by apply (tidy_ext k).
  - apply tidy_close_event; [done|]. cbn in Ha. by destruct (wsRef k) as [[]|].
  - by apply tidy_reconnect_due.
  - by apply tidy_disconnect.
  - by apply tidy_unmount.
Qed.

Lemma tidy_run evs k : tidy o k → orderly o throws evs k = true → tidy o (run o throws evs k).
Proof.
  revert k. induction evs as [|e evs IH]; intros k Hk Ho; [done|].
  cbn in Ho. apply andb_true_iff in Ho as [Ha Ho].
  cbn [run foldl]. apply IH; [by apply tidy_step|done].
Qed.

(** X15.  Timers do not leak.  Over any sequence of connects, disconnects,
    frames, opens and closes of the socket held, timer runs and an unmount,
    in which a socket opens only while it is connecting and closes only
    once, starting from the hook as first rendered: every timer armed is the
    one its ref holds, a ping interval with the configured period while the
    socket is open or a reconnect timeout with the configured delay while the
    socket is closed; so at most one timer is armed at any time, and none
    once the hook is unmounted. *)
Theorem orderly_connection_never_leaks_a_timer :
  ∀ (evs : list Event),
    orderly o throws evs initial = true →
    let k := run o throws evs initial in
    (∀ t kind, timers k !! t = Some kind →
       (kind = PingInterval (pingInterval_of o) ∧ pingTimerRef k = Some t ∧
        ws_open k = true) ∨
       (kind = ReconnectTimeout (reconnectDelay_of o) ∧ reconnectTimerRef k = Some t ∧
        wsRef k = Some Transport.CLOSED)) ∧
    (∀ t t' kind kind',
       timers k !! t = Some kind → timers k !! t' = Some kind' → t = t') ∧
    (mountedRef k = false → timers k = ∅).
Proof.
  intros evs Ho k.
  pose proof (tidy_run evs initial tidy_initial Ho) as [T1 T2 T3 T4 T5]. fold k in T1, T2, T3, T4, T5.
  assert (∀ t kind, timers k !! t = Some kind →
            (kind = PingInterval (pingInterval_of o) ∧ pingTimerRef k = Some t ∧
             ws_open k = true) ∨
            (kind = ReconnectTimeout (reconnectDelay_of o) ∧ reconnectTimerRef k = Some t ∧
             wsRef k = Some Transport.CLOSED)) as Hall.
  { intros t kind E. destruct (T1 t kind E) as [[Hr ->]|[Hp ->]].
    - right. by destruct (T4 t Hr) as [? _].
    - left. destruct (T3 t Hp) as [Hws _]. unfold ws_open. by rewrite Hws. }
  split; [exact Hall|]. split.
  - intros t t' kind kind' E E'.
    destruct (Hall t kind E) as [(_ & Hp & Hw)|(_ & Hr & Hw)];
      destruct (Hall t' kind' E') as [(_ & Hp' & Hw')|(_ & Hr' & Hw')];
      try congruence; unfold ws_open in *; rewrite ?Hw, ?Hw' in *; done.
  - intros Hm. apply map_empty. by apply T5.
Qed.

End ChannelLifeFacts.

Lemma reconnection_asks_for_replay_unless_disconnected_witness :
  let o := Channel.mkOptions (Some "call-1") (Some "token-1") None None None None in
  let k := Channel.mkHook Channel.Connected [] None false (Some Transport.OPEN) None (Some 0)
             (Some "m-7") true {[0 := Channel.PingInterval 30000]} 1 [] [] in
  Channel.sent (ChannelSession.onopen o "m-9" 500 (ChannelSession.connect o None k))
    = [ChannelSession.createReconnectMessage "m-9" 500 "call-1" (Some "m-7")] ∧
  Channel.sent (ChannelSession.onopen o "m-9" 500
                  (ChannelSession.connect o None (ChannelSession.disconnect k))) = [].
Proof.
  intros o k.
  destruct (reconnection_asks_for_replay_unless_disconnected o (λ _, None) "m-9" 500 k
              eq_refl eq_refl eq_refl) as ((_ & _ & _ & H & _) & (H' & _) & _).
  split; [exact H|exact H'].
Defined.

Lemma orderly_connection_never_leaks_a_timer_witness :
  let o := Channel.mkOptions (Some "call-1") (Some "token-1") None None None None in
  let evs := [ChannelSession.Connect None; ChannelSession.Opened "m-1" 100;
              ChannelSession.Closed 1006; ChannelSession.ReconnectDue 1 None;
              ChannelSession.Opened "m-2" 2200] in
  let k := ChannelSession.run o (λ _, None) evs ChannelSession.initial in
  ChannelSession.orderly o (λ _, None) evs ChannelSession.initial = true ∧
  Channel.timers k !! 2 = Some (Channel.PingInterval 30000) ∧
  Channel.pingTimerRef k = Some 2 ∧ Channel.wsRef k = Some Transport.OPEN.
Proof.
  intros o evs k.
  assert (Channel.timers k !! 2 = Some (Channel.PingInterval 30000)) as E
    by (vm_compute; reflexivity).
  split; [reflexivity|]. split; [exact E|].
  destruct (proj1 (orderly_connection_never_leaks_a_timer o (λ _, None) evs eq_refl)
              2 (Channel.PingInterval 30000) E) as [(_ & Hp & Hw)|(Hk & _)];
    [|discriminate Hk].
  split; [exact Hp|]. vm_compute. reflexivity.
Defined.

(** ** The dial pad *)
Section DialpadFacts.
Import Phone Dialpad.

Lemma string_app_assoc (a b c : string) : (a +:+ b) +:+ c = a +:+ (b +:+ c).
Proof.
  induction a as [|x a IH]; [done|].
  change (String x ((a +:+ b) +:+ c) = String x (a +:+ (b +:+ c))). by f_equal.
Qed.

Lemma string_app_empty (a : string) : a +:+ "" = a.
Proof.
  induction a as [|x a IH]; [done|].
  change (String x (a +:+ "") = String x a). by f_equal.
Qed.

Lemma wire_step e s : ∃ l, Transport.wire (Transport.step e s) = Transport.wire s ++ l.
Proof.
  destruct e as [x msg|msg|k|dt| |ws sid hid]; cbn.
  - unfold Transport.sendMessage. destruct (Transport.ws_open s); cbn; [eauto|].
    exists []. by rewrite app_nil_r.
  - unfold Transport.handleMessage. destruct (Transport.find_handler msg s); cbn;
      exists []; by rewrite app_nil_r.
  - unfold Transport.fire_timer. destruct (Transport.timers s !! k) as [t|];
      [destruct (Transport.clock s <? Transport.t_deadline t)%Z|]; cbn;
      exists []; by rewrite app_nil_r.
  - exists []. by rewrite app_nil_r.
  - exists []. by rewrite app_nil_r.
  - exists []. by rewrite app_nil_r.
Qed.

Lemma wire_run evs s : ∃ l, Transport.wire (Transport.run evs s) = Transport.wire s ++ l.
Proof.
  revert s. induction evs as [|e evs IH]; intros s.
  - exists []. by rewrite app_nil_r.
  - change (Transport.run (e :: evs) s) with (Transport.run evs (Transport.step e s)).
    destruct (IH (Transport.step e s)) as [l ->]. destruct (wire_step e s) as [l' ->].
    exists (l' ++ l). by rewrite app_assoc.
Qed.

(** one key *)
Lemma sendDtmf_spec audio_ok digit a p :
  let r := sendDtmf audio_ok digit a p in
  let w := with_store (appendDtmfDigit digit) (world p) in
  tones r.1 = tones p ++ (if audio_ok then option_list (frequencies digit) else []) ∧
  world r.1 =
    (if Store.inCall (Store.connection (store (world p)))
     then (await_send a (dtmf_request digit) w).1 else w) ∧
  (∀ e, r.2 ≠ Threw e).
Proof.
  unfold sendDtmf, playDtmfTone. cbv zeta.
  assert (Store.inCall (Store.connection
            (store (with_store (appendDtmfDigit digit) (world p))))
          = Store.inCall (Store.connection (store (world p)))) as Hin by done.
  destruct (frequencies digit) as [tone|], audio_ok; cbn [world tones option_list];
    rewrite ?app_nil_r, Hin;
    (destruct (Store.inCall (Store.connection (store (world p)))); cbn [negb];
     [unfold await_sendMessage;
      destruct (await_send a (dtmf_request digit)
                  (with_store (appendDtmfDigit digit) (world p))) as [w1 [[r|r]|]];
      cbn; repeat split; done
     |cbn; repeat split; done]).
Qed.

Lemma sendDtmf_store audio_ok digit a p :
  store (world (sendDtmf audio_ok digit a p).1) = appendDtmfDigit digit (store (world p)).
Proof.
  destruct (sendDtmf_spec audio_ok digit a p) as (_ & -> & _).
  by destruct (Store.inCall (Store.connection (store (world p)))).
Qed.

(** X16.  The digits shown are the digits dialled.  Over any sequence of
    keys, the digit string of the store grows by exactly the keys pressed, in
    order, whether or not a call is up, whether or not the tone could be
    played and whatever became of the request; a tone starts for each of the
    twelve keys when the audio output works; outside a call nothing is sent
    and the transport is untouched; in a call over an open socket the
    [dtmf_info] request of a key is put on the wire; and [sendDtmf] never
    throws. *)
Theorem dialled_digits_are_kept_in_order :
  ∀ (presses : list Press) (p : Pad),
    let p' := dial presses p in
    let digits_of (q : Pad) := Store.dtmfDigits (Store.callData (store (world q))) in
    let in_call (q : Pad) := Store.inCall (Store.connection (store (world q))) in
    digits_of p' = digits_of p +:+ digits presses ∧
    tones p' = tones p ++
      omap (λ k, if audible k then frequencies (key k) else None) presses ∧
    in_call p' = in_call p ∧
    (in_call p = false → transport (world p') = transport (world p)) ∧
    (∀ k, in_call p = true → Transport.ws_open (transport (world p)) = true →
       Transport.build_message (transaction (wait k)) (dtmf_request (key k))
         (transport (world p))
       ∈ Transport.wire (transport (world (sendDtmf (audible k) (key k) (wait k) p).1))) ∧
    (∀ k q e, (sendDtmf (audible k) (key k) (wait k) q).2 ≠ Threw e).
Proof.
  intros presses p p' digits_of in_call. subst p' digits_of in_call. cbv beta.
  split; [|split; [|split; [|split; [|split]]]].
  - revert p. induction presses as [|k presses IH]; intros p; cbn.
    + by rewrite string_app_empty.
    + unfold dial in IH. rewrite IH, sendDtmf_store. cbn. by rewrite string_app_assoc.
  - revert p. induction presses as [|k presses IH]; intros p; cbn.
    + by rewrite app_nil_r.
    + unfold dial in IH. rewrite IH.
      destruct (sendDtmf_spec (audible k) (key k) (wait k) p) as (-> & _).
      rewrite <-app_assoc. f_equal.
      by destruct (audible k), (frequencies (key k)).
  - revert p. induction presses as [|k presses IH]; intros p; cbn; [done|].
    unfold dial in IH. by rewrite IH, sendDtmf_store.
  - revert p. induction presses as [|k presses IH]; intros p Hin; cbn; [done|].
    unfold dial in IH. rewrite IH.
    + destruct (sendDtmf_spec (audible k) (key k) (wait k) p) as (_ & -> & _).
      by rewrite Hin.
    + by rewrite sendDtmf_store.
  - intros k Hin Hopen.
    destruct (sendDtmf_spec (audible k) (key k) (wait k) p) as (_ & -> & _).
    rewrite Hin. unfold await_send. cbn [fst transport set_transport with_store].
    destruct (wire_run (during (wait k))
                (Transport.sendMessage (transaction (wait k)) (dtmf_request (key k))
                   (transport (world p))).1) as [l ->].
    unfold Transport.sendMessage. rewrite Hopen. cbn.
    apply elem_of_app. left. apply elem_of_app. right. left.
  - intros k q e. by destruct (sendDtmf_spec (audible k) (key k) (wait k) q) as (_ & _ & H).
Qed.

Lemma dialled_digits_are_kept_in_order_witness :
  let st := Store.setInCall true (Store.setRegistered true
              (Store.setConnected true Store.initialStore)) in
  let tr := Transport.set_connection (Some Transport.OPEN) (Some 11%Z) (Some 12%Z)
              (Transport.initial 0) in
  let w := mkWorld st tr None (Some 0) None None None [] true None false None [] in
  let four := mkPress "4" true (mkAwait "Xk3mP0qLw9Zt" []) in
  let two := mkPress "2" false (mkAwait "Qq3mP0qLw9Zt" []) in
  let p' := dial [four; two] (mkPad w []) in
  Store.dtmfDigits (Store.callData (store (world p'))) = "42" ∧
  tones p' = [(770, 1209)%Z] ∧
  Store.inCall (Store.connection (store (world p'))) = true ∧
  Transport.build_message "Xk3mP0qLw9Zt" (dtmf_request "4") tr
    ∈ Transport.wire (transport (world (sendDtmf true "4" (wait four) (mkPad w [])).1)).
Proof.
  intros st tr w four two p'.
  destruct (dialled_digits_are_kept_in_order [four; two] (mkPad w []))
    as (H1 & H2 & H3 & _ & H5 & _).
  split; [exact H1|]. split; [exact H2|]. split; [exact H3|].
  exact (H5 four eq_refl eq_refl).
Defined.

End DialpadFacts.

(** ** Playing the remote audio *)
Section PlaybackFacts.
Import Phone Playback Frames.

Lemma playback_step e w :
  let w' := step e w in
  (blocked w' = true → blocked w = true ∨ refused e = true) ∧
  transport w' = transport w ∧ pendingReconnectRef w' = pendingReconnectRef w ∧
  sessionStorage w' = sessionStorage w ∧ onHangupRef w' = onHangupRef w ∧
  chatOpen w' = chatOpen w ∧
  Store.connection (store w') = Store.connection (store w) ∧
  Store.callData (store w') = Store.callData (store w).
Proof.
  destruct e as [stream play|play|play|]; cbn [step].
  - unfold ontrack, tryPlayAudio. destruct stream as [s|]; [|by auto 10].
    destruct (remoteAudioRef w) as [audio|]; [|by auto 10].
    cbn [remoteAudioRef set_remoteAudioRef srcObject].
    destruct play; cbn; auto 10.
  - unfold tryPlayAudio. destruct (remoteAudioRef w) as [[[s|]]|]; cbn [srcObject];
      try (by auto 10).
    destruct play; cbn; auto 10.
  - unfold enableAudio. destruct (remoteAudioRef w) as [audio|]; [|by auto 10].
    destruct play; cbn; auto 10.
  - rewrite cleanupCall_eq. cbn. repeat split; done.
Qed.

(** X17.  The audio-blocked banner.  Over any sequence of remote tracks,
    play attempts, clicks on the enable button and call cleanups, the store
    reports the audio as blocked only if it did before or the browser refused
    a play attempt with [NotAllowedError] on the way; none of these touches
    the transport, the persisted state, the connection state or the call
    data.  Once a call is cleaned up the flag is down and a play attempt does
    nothing at all, whatever the browser would answer, until a new track
    arrives. *)
Theorem audio_is_reported_blocked_only_when_the_browser_refused :
  ∀ (evs : list Event) (w : World),
    let w' := run evs w in
    (blocked w' = true → blocked w = true ∨ ∃ e, e ∈ evs ∧ refused e = true) ∧
    (transport w' = transport w ∧ sessionStorage w' = sessionStorage w ∧
     pendingReconnectRef w' = pendingReconnectRef w ∧
     Store.connection (store w') = Store.connection (store w) ∧
     Store.callData (store w') = Store.callData (store w)) ∧
    (∀ play, blocked (cleanupCall w') = false ∧
             tryPlayAudio play (cleanupCall w') = cleanupCall w').
Proof.
  intros evs w w'. subst w'. split; [|split].
  - revert w. induction evs as [|e evs IH]; intros w; [by left|].
    change (run (e :: evs) w) with (run evs (step e w)).
    intros H. destruct (IH _ H) as [Hb|(e' & Hin & Hr)].
    + destruct (playback_step e w) as (Hs & _). destruct (Hs Hb) as [?|?]; [by left|].
      right. exists e. split; [left|done].
    + right. exists e'. split; [by right|done].
  - revert w. induction evs as [|e evs IH]; intros w; [done|].
    change (run (e :: evs) w) with (run evs (step e w)).
    destruct (IH (step e w)) as (-> & -> & -> & -> & ->).
    by destruct (playback_step e w) as (_ & -> & -> & -> & _ & _ & -> & ->).
  - intros play. rewrite cleanupCall_eq. unfold blocked, tryPlayAudio.
    cbn [store remoteAudioRef]. split; [done|].
    by destruct (remoteAudioRef (run evs w)).
Qed.

Lemma audio_is_reported_blocked_only_when_the_browser_refused_witness :
  let w := mkWorld Store.initialStore (Transport.initial 0) None (Some 1) None
             (Some (mkAudio None)) None [] false None false None [] in
  let evs := [Enable Fails; Track (Some 7) NotAllowed] in
  blocked (run evs w) = true ∧
  (blocked w = true ∨ ∃ e, e ∈ evs ∧ refused e = true).
Proof.
  intros w evs. split; [reflexivity|].
  apply (proj1 (audio_is_reported_blocked_only_when_the_browser_refused evs w)).
  reflexivity.
Defined.

End PlaybackFacts.

(** ** Derived URLs *)
Section UrlFacts.
Import Urls.

Lemma secure_wss d : secure ("wss" +:+ "://" +:+ d) = true.
Proof. unfold secure. apply orb_true_iff. right. by destruct d. Qed.

Lemma secure_https d : secure ("https" +:+ "://" +:+ d) = true.
Proof. unfold secure. apply orb_true_iff. left. by destruct d. Qed.

Lemma secure_ws d : secure ("ws" +:+ "://" +:+ d) = false.
Proof. done. Qed.

Lemma secure_http d : secure ("http" +:+ "://" +:+ d) = false.
Proof. done. Qed.

(** X18.  The URLs derived from the configuration.  Without overrides the
    three endpoints share one security level, decided by the API domain
    alone: plain [http]/[ws] when it is [localhost], starts with
    [localhost:] or starts with [127.0.0.1], and [https]/[wss] otherwise, the
    gateway URL included whatever the gateway domain is.  An override of the
    API or gateway URL is used as given when it is a non-empty string and
    ignored when it is empty; the API WebSocket URL is always derived from
    the API domain and follows no override.  Without an ICE override there
    are two ICE servers, a STUN entry without credentials and a TURN entry
    with two URLs and credentials; an override, even an empty list, replaces
    them. *)
Theorem derived_urls_follow_the_api_domain :
  ∀ (settings : Settings),
    let u := getDerivedUrls settings in
    let local := isLocalhost (apiDomain settings) in
    secure (telapiWsUrl u) = negb local ∧
    (truthy_str (apiUrl settings) = false → secure (telapiUrl u) = negb local) ∧
    (truthy_str (janusUrl settings) = false → secure (janusServer u) = negb local) ∧
    (truthy_str (apiUrl settings) = true → apiUrl settings = Some (telapiUrl u)) ∧
    (truthy_str (janusUrl settings) = true → janusUrl settings = Some (janusServer u)) ∧
    telapiWsUrl u =
      telapiWsUrl (getDerivedUrls
                     (mkSettings (janusDomain settings) (apiDomain settings) None None None)) ∧
    (∀ servers, iceServers settings = Some servers → derivedIceServers u = servers) ∧
    (iceServers settings = None →
       ∃ stun udp tcp user pass,
         derivedIceServers u = [mkIce (inl stun) None None;
                                mkIce (inr [udp; tcp]) (Some user) (Some pass)]).
Proof.
  intros settings u local. subst u local. unfold getDerivedUrls. cbv zeta.
  cbn [telapiWsUrl telapiUrl janusServer derivedIceServers apiDomain janusDomain
       janusUrl apiUrl iceServers].
  split; [|split; [|split; [|split; [|split; [|split; [|split]]]]]].
  - destruct (isLocalhost (apiDomain settings)); [apply secure_ws|apply secure_wss].
  - intros ->. destruct (isLocalhost (apiDomain settings));
      [apply secure_http|apply secure_https].
  - intros ->. destruct (isLocalhost (apiDomain settings)); [apply secure_ws|apply secure_wss].
  - intros H. rewrite H. by destruct (apiUrl settings).
  - intros H. rewrite H. by destruct (janusUrl settings).
  - done.
  - by intros servers ->.
  - intros ->. unfold defaultIceServers. cbn [default]. by eauto 10.
Qed.

Lemma derived_urls_follow_the_api_domain_witness :
  let settings := mkSettings "eu.telpro.example" "localhost:3001" (Some "") None None in
  secure (janusServer (getDerivedUrls settings)) = false ∧
  derivedIceServers (getDerivedUrls settings) = defaultIceServers "eu.telpro.example".
Proof.
  intros settings.
  destruct (derived_urls_follow_the_api_domain settings) as (_ & _ & H & _).
  split; [exact (H eq_refl)|reflexivity].
Defined.

End UrlFacts.

(** ** Placing a call *)
Section CallingFacts.
Import Phone Urls Calling CallingLogic Frames.

Lemma in_world_eq f c :
  in_world f c = (mkCaller (f (world c)) (fetched c) (configured c), Returned tt).
Proof. done. Qed.

Lemma then_in_world {A} f (k : CallM A) c :
  (in_world f ;; k) c = k (mkCaller (f (world c)) (fetched c) (configured c)).
Proof. done. Qed.

(** [requestCallToken], outcome by outcome *)
Lemma requestCallToken_eq cfg telapiUrl fetch target c :
  cfg_apiDomain cfg ≠ "" → cfg_apiKey cfg ≠ "" →
  let req := mkRequest (telapiUrl +:+ "/api/v1/calls/token") (cfg_apiKey cfg) target in
  let c1 := mkCaller (world c) (fetched c ++ [req]) (configured c) in
  let report (message : string) :=
    if includes "Failed to fetch" message
    then "Network error: Cannot reach " +:+ cfg_apiDomain cfg +:+
         ". Check your network connection and API domain configuration."
    else message in
  requestCallToken cfg telapiUrl fetch target c =
  match fetch req with
  | Ok (inr data) => (c1, Returned data)
  | FetchRejects message | Ok (inl message) => (c1, Threw (Some (report message)))
  | NotOk status body =>
      (c1, Threw (Some (report
                          (to_String
                             (or (get (default {["error" := JStr "Unknown error"]} body)
                                    "error")
                                 (JStr ("Failed to get call token: " +:+ pretty status)))))))
  end.
Proof.
  intros Hd Hk req c1 report. unfold requestCallToken.
  destruct (cfg_apiDomain cfg) as [|x d] eqn:Ed; [done|].
  destruct (cfg_apiKey cfg) as [|y k] eqn:Ek; [done|].
  cbn [truthy_str String.eqb negb Ascii.eqb Bool.eqb].
  replace (negb (String.eqb (String x d) "")) with true by (by destruct x).
  replace (negb (String.eqb (String y k) "")) with true by (by destruct y).
  cbn [negb]. fold req. unfold try_catch, token_fetch. cbv zeta. fold c1.
  subst report. cbv beta.
  destruct (fetch req) as [m|st body|[m|data]]; cbn [default];
    try (destruct (includes "Failed to fetch" _); cbn; by rewrite ?andb_true_r);
    done.
Qed.

(** X19.  Asking for a call token.  [requestCallToken] never changes the
    phone; without an API domain or an API key it throws before any request is
    made; otherwise it makes exactly one request, to the memoised API URL
    followed by [/api/v1/calls/token], with the API key and the endpoint
    identifier.  It returns the token exactly when the response is [ok] and
    its body parses, and throws otherwise; a failure whose message contains
    [Failed to fetch] is reported as a network error naming the API domain,
    any other failure with its own message, and a response that is not [ok]
    and whose body does not parse as [Unknown error]. *)
Theorem token_request_is_made_once_and_leaves_the_phone_alone :
  ∀ (cfg : WebRTCConfig) (telapiUrl : string) (fetch : Request → FetchOutcome)
    (target : string) (c : Caller),
    let r := requestCallToken cfg telapiUrl fetch target c in
    let req := mkRequest (telapiUrl +:+ "/api/v1/calls/token") (cfg_apiKey cfg) target in
    world r.1 = world c ∧ configured r.1 = configured c ∧ r.2 ≠ Suspended ∧
    (cfg_apiDomain cfg = "" ∨ cfg_apiKey cfg = "" →
       fetched r.1 = fetched c ∧ ∃ e, r.2 = Threw (Some e)) ∧
    (cfg_apiDomain cfg ≠ "" → cfg_apiKey cfg ≠ "" →
       fetched r.1 = fetched c ++ [req] ∧
       (∀ data, r.2 = Returned data ↔ fetch req = Ok (inr data)) ∧
       (∀ message, fetch req = FetchRejects message ∨ fetch req = Ok (inl message) →
          r.2 = Threw (Some (if includes "Failed to fetch" message
                             then "Network error: Cannot reach " +:+ cfg_apiDomain cfg +:+
                                  ". Check your network connection and API domain configuration."
                             else message))) ∧
       (∀ status, fetch req = NotOk status None → r.2 = Threw (Some "Unknown error"))).
Proof.
  intros cfg telapiUrl fetch target c r req. subst r.
  destruct (decide (cfg_apiDomain cfg = "")) as [Hd|Hd].
  { unfold requestCallToken. rewrite Hd. cbn. repeat split; try done; eauto. }
  destruct (decide (cfg_apiKey cfg = "")) as [Hk|Hk].
  { unfold requestCallToken. rewrite Hk.
    destruct (cfg_apiDomain cfg) as [|x d]; [done|]. cbn.
    replace (negb (String.eqb (String x d) "")) with true by (by destruct x).
    cbn. repeat split; try done; eauto. }
  rewrite (requestCallToken_eq cfg telapiUrl fetch target c Hd Hk). cbv zeta. fold req.
  destruct (fetch req) as [m|st body|[m|data]] eqn:E; cbn [fst snd world configured fetched].
  - split; [done|]. split; [done|]. split; [done|]. split; [by intros [?|?]|].
    intros _ _. split; [done|]. split; [done|]. split; [|done].
    intros message [[= ->]|[=]]. done.
  - split; [done|]. split; [done|]. split; [done|]. split; [by intros [?|?]|].
    intros _ _. split; [done|]. split; [done|]. split; [by intros message [[=]|[=]]|].
    intros status [= -> ->]. done.
  - split; [done|]. split; [done|]. split; [done|]. split; [by intros [?|?]|].
    intros _ _. split; [done|]. split; [done|]. split; [|done].
    intros message [[=]|[= ->]]. done.
  - split; [done|]. split; [done|]. split; [done|]. split; [by intros [?|?]|].
    intros _ _. split; [done|]. split.
    + intros data'. split; intros [=]; by subst.
    + split; [by intros message [[=]|[=]]|done].
Qed.

Lemma token_request_is_made_once_and_leaves_the_phone_alone_witness :
  let cfg := mkConfig "api.example.com" "key-1" None in
  let c := mkCaller (mkWorld Store.initialStore (Transport.initial 0) None None None None None
                       [] false None false None []) [] [] in
  let fetch : Request → FetchOutcome := λ _, FetchRejects "TypeError: Failed to fetch" in
  (requestCallToken cfg "https://api.example.com" fetch "ep-1" c).2 =
    Threw (Some ("Network error: Cannot reach api.example.com" +:+
                 ". Check your network connection and API domain configuration.")).
Proof.
  intros cfg c fetch.
  destruct (token_request_is_made_once_and_leaves_the_phone_alone cfg
              "https://api.example.com" fetch "ep-1" c) as (_ & _ & _ & _ & H).
  destruct (H ltac:(discriminate) ltac:(discriminate)) as (_ & _ & H' & _).
  exact (H' "TypeError: Failed to fetch" (or_introl eq_refl)).
Defined.

Lemma call_bind_in_world {A} f (k : unit → CallM A) c :
  call_bind (in_world f) k c = k tt (mkCaller (f (world c)) (fetched c) (configured c)).
Proof. done. Qed.

Lemma token_frame_refl w : token_frame w w.
Proof. by repeat split. Qed.

(** the token step, case by case *)
Lemma acquire_token_eq cfg telapiUrl fetch now eid ename aname cid tok c :
  let req := mkRequest (telapiUrl +:+ "/api/v1/calls/token") (cfg_apiKey cfg) eid in
  let asked := with_store (Store.setStatus "Requesting call token...") (world c) in
  acquire_token cfg telapiUrl fetch now eid ename aname cid tok c =
  if negb (truthy_str cid) && truthy_str (Some (cfg_apiKey cfg)) then
    if negb (truthy_str (Some (cfg_apiDomain cfg)))
    then (mkCaller asked (fetched c) (configured c), Returned (cid, tok))
    else
      match fetch req with
      | Ok (inr data) =>
          let w1 := with_store (Store.setCurrentWsToken (Some (tk_wsToken data)))
                      (with_store (Store.setCurrentCallId (Some (tk_callId data))) asked) in
          let w2 := if truthy_str (tk_telproDomain data)
                    then with_store (setTelproDomain (tk_telproDomain data)) w1 else w1 in
          (mkCaller
             (set_sessionStorage
                (Some (Persisted.Json
                         (Persisted.mkPersisted (tk_callId data) eid (Some ename) (Some aname)
                            now (Some (tk_wsToken data))
                            (Store.or_null (tk_telproDomain data))))) w2)
             (fetched c ++ [req]) (configured c),
           Returned (Some (tk_callId data), Some (tk_wsToken data)))
      | _ => (mkCaller asked (fetched c ++ [req]) (configured c), Returned (cid, tok))
      end
  else (c, Returned (cid, tok)).
Proof.
  intros req asked. unfold acquire_token.
  destruct (negb (truthy_str cid) && truthy_str (Some (cfg_apiKey cfg))) eqn:Hc; [|done].
  apply andb_true_iff in Hc as [_ Hk].
  rewrite then_in_world. unfold try_catch.
  destruct (truthy_str (Some (cfg_apiDomain cfg))) eqn:Hd; cbn [negb].
  - assert (cfg_apiDomain cfg ≠ "") as Hd' by (intros E; by rewrite E in Hd).
    assert (cfg_apiKey cfg ≠ "") as Hk' by (intros E; by rewrite E in Hk).
    unfold mbind, caller_bind, call_bind at 1.
    rewrite (requestCallToken_eq cfg telapiUrl fetch eid _ Hd' Hk'). cbv zeta.
    cbn [world fetched configured]. fold req. fold asked.
    destruct (fetch req) as [m|st body|[m|data]]; done.
  - unfold mbind, caller_bind, call_bind at 1. unfold requestCallToken. rewrite Hd.
    cbn [negb]. done.
Qed.

(** X21.  The token step of a call.  [makeCall] asks for a token only when
    the store holds no call identifier and an API key is configured, and the
    step never throws and never waits: when the token cannot be had the call
    goes on with the identifiers it had, and the store and the persisted
    state show no token.  When the token arrives the store holds its call
    identifier and WebSocket token, its signalling domain if it names one, and
    the call is persisted with these, the endpoint, and the time of saving as
    its stamp.  Whatever happens, the step writes nothing but the status,
    these identifiers, the domain and the persisted state. *)
Theorem call_goes_on_without_a_token :
  ∀ (cfg : WebRTCConfig) (telapiUrl : string) (fetch : Request → FetchOutcome) (now : Z)
    (eid ename aname : string) (cid tok : option string) (c : Caller),
    let r := acquire_token cfg telapiUrl fetch now eid ename aname cid tok c in
    let req := mkRequest (telapiUrl +:+ "/api/v1/calls/token") (cfg_apiKey cfg) eid in
    (∃ ids, r.2 = Returned ids) ∧
    token_frame (world c) (world r.1) ∧ configured r.1 = configured c ∧
    (truthy_str cid = true ∨ cfg_apiKey cfg = "" → r = (c, Returned (cid, tok))) ∧
    (∀ data, truthy_str cid = false → cfg_apiKey cfg ≠ "" → cfg_apiDomain cfg ≠ "" →
       fetch req = Ok (inr data) →
       r.2 = Returned (Some (tk_callId data), Some (tk_wsToken data)) ∧
       fetched r.1 = fetched c ++ [req] ∧
       Store.currentCallId (Store.callData (store (world r.1))) = Some (tk_callId data) ∧
       Store.currentWsToken (Store.callData (store (world r.1))) = Some (tk_wsToken data) ∧
       Store.telproDomain (Store.callData (store (world r.1))) =
         (if truthy_str (tk_telproDomain data) then tk_telproDomain data
          else Store.telproDomain (Store.callData (store (world c)))) ∧
       sessionStorage (world r.1) =
         Some (Persisted.Json
                 (Persisted.mkPersisted (tk_callId data) eid (Some ename) (Some aname) now
                    (Some (tk_wsToken data)) (Store.or_null (tk_telproDomain data))))) ∧
    ((∀ data, fetch req ≠ Ok (inr data)) ∨ cfg_apiDomain cfg = "" →
       r.2 = Returned (cid, tok) ∧
       sessionStorage (world r.1) = sessionStorage (world c) ∧
       Store.callData (store (world r.1)) = Store.callData (store (world c))).
Proof.
  intros cfg telapiUrl fetch now eid ename aname cid tok c r req. subst r.
  rewrite acquire_token_eq. cbv zeta. fold req.
  destruct (truthy_str cid) eqn:Hc; cbn [negb andb].
  { repeat split; try done; eauto. }
  destruct (cfg_apiKey cfg) as [|y k] eqn:Hk.
  { cbn. repeat split; try done; eauto. }
  replace (truthy_str (Some (String y k))) with true by (by destruct y).
  destruct (cfg_apiDomain cfg) as [|x d] eqn:Hd.
  { cbn. repeat split; try done; eauto. by intros [?|?]. }
  replace (truthy_str (Some (String x d))) with true by (by destruct x).
  cbn [negb].
  destruct (fetch req) as [m|st body|[m|data]] eqn:E; cbn [fst snd world configured fetched].
  1-3: (split; [by eauto|]; split; [done|]; split; [done|]; split; [by intros [?|?]|];
        split; [by intros data _ _ _ [=]|]; done).
  split; [by eauto|]. split.
  { destruct (truthy_str (tk_telproDomain data)); by repeat split. }
  split; [done|]. split; [by intros [?|?]|]. split.
  - intros data' _ _ _ [= <-].
    destruct (truthy_str (tk_telproDomain data)); by repeat split.
  - intros [H|H]; [by destruct (H data)|done].
Qed.

Lemma call_goes_on_without_a_token_witness :
  let cfg := mkConfig "api.example.com" "key-1" None in
  let c := mkCaller (mkWorld Store.initialStore (Transport.initial 0) None None None None None
                       [] false None false None []) [] [] in
  let fetch : Request → FetchOutcome := λ _, NotOk 503 None in
  (acquire_token cfg "https://api.example.com" fetch 1000 "ep-1" "Desk" "App" None None c).2
    = Returned (None, None).
Proof.
  intros cfg c fetch.
  destruct (call_goes_on_without_a_token cfg "https://api.example.com" fetch 1000
              "ep-1" "Desk" "App" None None c) as (_ & _ & _ & _ & _ & H).
  destruct H as (H & _); [|exact H]. left. intros data. discriminate.
Defined.

(** the negotiation, outcome by outcome *)
Lemma negotiate_eq h cfg a domain servers callId c :
  negotiate h cfg a domain servers callId c =
  let w0 := with_store (Store.setStatus "Getting microphone...") (world c) in
  let w1 := called [GetUserMedia] w0 in
  match getUserMedia h (host w0) with
  | inl e => (mkCaller w1 (fetched c) (configured c), Threw (Some e))
  | inr stream =>
      let w2 := set_localStreamRef (Some stream) w1 in
      let w3 := match localAudioRef w2 with
                | Some _ => set_localAudioRef (Some (mkAudio (Some (stream_id stream)))) w2
                | None => w2
                end in
      let pc := newPeerConnection h (host w3) in
      let conf := configured c ++ [(pc, servers)] in
      let w4 := called [SetAudioCodecPreferences pc (default true (cfg_preferPcma cfg))]
                  (called (PcAddTrack pc <$> getTracks stream)
                     (set_pcRef (Some pc) (called [NewPeerConnection pc domain] w3))) in
      let w5 := called [PcCreateOffer pc] w4 in
      match createOffer h (host w4) pc with
      | inl e => (mkCaller w5 (fetched c) conf, Threw (Some e))
      | inr offer =>
          let w6 := called [PcSetLocalDescription pc offer] w5 in
          match setLocalDescription_ok h (host w5) pc offer with
          | Some e => (mkCaller w6 (fetched c) conf, Threw (Some e))
          | None =>
              let dom := Store.telproDomain (Store.callData (store w6)) in
              if negb (truthy_str dom)
              then (mkCaller w6 (fetched c) conf,
                    Threw (Some "TelPro domain not available. Please ensure call token was received."))
              else
                let sent := await_send a (call_request (default "" dom) callId offer) w6 in
                (mkCaller sent.1 (fetched c) conf,
                 match sent.2 with
                 | Some (Transport.Fulfilled _) => Returned tt
                 | Some (Transport.Rejected reason) => Threw (Some reason)
                 | None => Suspended
                 end)
          end
      end
  end.
Proof.
  unfold negotiate. rewrite then_in_world. cbv zeta.
  unfold mbind, caller_bind. unfold call_bind at 1. unfold lift at 1.
  unfold await_getUserMedia. cbn [world fetched configured].
  destruct (getUserMedia h _) as [e|stream]; cbn [fst snd]; [done|].
  rewrite !call_bind_in_world. cbn [world fetched configured].
  unfold call_bind at 1. unfold new_peer_connection at 1. cbn [world fetched configured].
  rewrite !call_bind_in_world. cbn [world fetched configured].
  unfold call_bind at 1. unfold lift at 1. unfold await_createOffer.
  cbn [world fetched configured].
  destruct (createOffer h _ _) as [e|offer]; cbn [fst snd]; [done|].
  unfold call_bind at 1. unfold lift at 1. unfold await_setLocalDescription.
  cbn [world fetched configured].
  destruct (setLocalDescription_ok h _ _ _) as [e|]; cbn [fst snd]; [done|].
  unfold call_bind at 1. cbn [world fetched configured].
  destruct (negb (truthy_str _)); [done|].
  unfold call_bind, lift, await_sendMessage. cbn [world fetched configured].
  destruct (await_send a _ _) as [w10 [[resp|reason]|]]; done.
Qed.

Lemma truthy_str_Some s : s ≠ "" → truthy_str (Some s) = true.
Proof. intros H. destruct s as [|x s]; [done|]. by destruct x. Qed.

Lemma call_catch_spec e w :
  let w' := call_catch e w in
  Store.calling (Store.connection (store w')) = false ∧
  Store.currentCallId (Store.callData (store w')) = None ∧
  Store.currentWsToken (Store.callData (store w')) = None ∧
  Store.status (Store.connection (store w')) = "Call failed: " +:+ default "Unknown" e ∧
  pcRef w' = None ∧ localStreamRef w' = None ∧ pendingCandidatesRef w' = [] ∧
  remoteDescriptionSetRef w' = false ∧
  sessionStorage w' = sessionStorage w ∧ transport w' = transport w ∧
  (∀ pc, pcRef w = Some pc → PcClose pc ∈ host w') ∧
  (∀ stream track, localStreamRef w = Some stream → track ∈ getTracks stream →
     TrackStop track ∈ host w').
Proof.
  unfold call_catch. cbv zeta. rewrite cleanupCall_eq.
  cbn [store sessionStorage pcRef localStreamRef host transport pendingCandidatesRef
       remoteDescriptionSetRef with_store called].
  repeat split.
  - intros pc ->. apply elem_of_app. right. apply elem_of_app. left. left.
  - intros stream track -> Ht. apply elem_of_app. right. apply elem_of_app. right.
    apply list_elem_of_fmap. by exists track.
Qed.

(** X20.  A call that cannot be placed is cleaned up.  [makeCall] does
    nothing unless the phone is registered and an endpoint is chosen, and it
    never throws.  Whatever step of its [try] block fails, the token apart,
    the microphone, the offer, the local description, a missing signalling
    domain or the call request itself, the failure is reported in the status
    as [Call failed: <message>], the calling flag and the call and token
    identifiers of the store are cleared, the peer connection created so far
    is closed and the tracks acquired are stopped; the transport and the
    persisted call state are left as the failing step left them.  A [try]
    block that does not throw is the whole of [makeCall]. *)
Theorem failed_call_is_cleaned_up :
  ∀ (h : Host) (cfg : WebRTCConfig) (ov : Overrides) (telapiUrl : string)
    (fetch : Request → FetchOutcome) (now : Z) (a : Await) (c : Caller),
    let st := store (world c) in
    let d := Store.callData st in
    let r := makeCall h cfg ov telapiUrl fetch now a c in
    let b := call_body h cfg telapiUrl fetch now a
               (Store.or_empty (Store.telproDomain d))
               (derivedIceServers (getDerivedUrlsFor ov st (cfg_apiDomain cfg)))
               (Store.endpointId d) (Store.endpointName d) (Store.appName d)
               (Store.currentCallId d) (Store.currentWsToken d) c in
    (Store.registered (Store.connection st) = false ∨ Store.endpointId d = "" →
       r = (c, Returned tt)) ∧
    (r.2 = Returned tt ∨ r.2 = Suspended) ∧
    (Store.registered (Store.connection st) = true → Store.endpointId d ≠ "" →
       (∀ e, b.2 = Threw e →
          r.2 = Returned tt ∧
          Store.calling (Store.connection (store (world r.1))) = false ∧
          Store.currentCallId (Store.callData (store (world r.1))) = None ∧
          Store.currentWsToken (Store.callData (store (world r.1))) = None ∧
          Store.status (Store.connection (store (world r.1)))
            = "Call failed: " +:+ default "Unknown" e ∧
          pcRef (world r.1) = None ∧ localStreamRef (world r.1) = None ∧
          (∀ pc, pcRef (world b.1) = Some pc → PcClose pc ∈ host (world r.1)) ∧
          (∀ stream track, localStreamRef (world b.1) = Some stream →
             track ∈ getTracks stream → TrackStop track ∈ host (world r.1)) ∧
          transport (world r.1) = transport (world b.1) ∧
          sessionStorage (world r.1) = sessionStorage (world b.1) ∧
          fetched r.1 = fetched b.1) ∧
       ((∀ e, b.2 ≠ Threw e) → r = b)).
Proof.
  intros h cfg ov telapiUrl fetch now a c st d r b. subst r b d st. unfold makeCall.
  cbv zeta. unfold try_catch.
  set (b := call_body _ _ _ _ _ _ _ _ _ _ _ _ _ _). clearbody b.
  destruct (Store.registered (Store.connection (store (world c)))) eqn:Hr; cbn [negb].
  2: { split; [done|]. split; [by left|]. done. }
  destruct (decide (Store.endpointId (Store.callData (store (world c))) = "")) as [He|He].
  { rewrite He. cbn. split; [done|]. split; [by left|]. done. }
  rewrite (truthy_str_Some _ He). cbn [negb].
  split; [by intros [?|?]|].
  destruct b as [c1 [[]|e|]]; cbn [fst snd].
  - split; [by left|]. intros _ _. split; [done|]. done.
  - rewrite in_world_eq. cbn [fst snd world fetched].
    destruct (call_catch_spec e (world c1))
      as (C1 & C2 & C3 & C4 & C5 & C6 & _ & _ & C9 & C10 & C11 & C12).
    split; [by left|].
    intros _ _. split; [|by intros H; destruct (H e)].
    intros e' [= <-]. repeat split; done.
  - split; [by right|]. intros _ _. split; [done|]. done.
Qed.

Lemma failed_call_is_cleaned_up_witness :
  let h := mkHost (λ _ _ _, true) (λ _ _ _, true) (λ _, inl "Permission denied")
             (λ _, 2) (λ _ _, inr (mkJsep "offer" (Some "v=0"))) (λ _ _ _, None) in
  let cfg := mkConfig "api.example.com" "" None in
  let ov := mkOverrides None None None in
  let st := Store.setRegistered true (Store.setEndpointId "ep-1" Store.initialStore) in
  let c := mkCaller (mkWorld st (Transport.initial 0) None None None None None
                       [] false None false None []) [] [] in
  let r := makeCall h cfg ov "https://api.example.com" (λ _, FetchRejects "offline") 1000
             (mkAwait "Xk3mP0qLw9Zt" []) c in
  r.2 = Returned tt ∧
  Store.status (Store.connection (store (world r.1))) = "Call failed: Permission denied" ∧
  Store.calling (Store.connection (store (world r.1))) = false.
Proof.
  intros h cfg ov st c r.
  destruct (failed_call_is_cleaned_up h cfg ov "https://api.example.com"
              (λ _, FetchRejects "offline") 1000 (mkAwait "Xk3mP0qLw9Zt" []) c)
    as (_ & _ & H).
  destruct (H eq_refl ltac:(discriminate)) as (H' & _).
  destruct (H' (Some "Permission denied") ltac:(by vm_compute)) as (H1 & H2 & _ & _ & H5 & _).
  split; [exact H1|]. split; [exact H5|exact H2].
Defined.

(** a request that was answered was sent *)
Lemma await_send_fulfilled a msg w resp :
  Transport.wf (transport w) →
  (await_send a msg w).2 = Some (Transport.Fulfilled resp) →
  Transport.ws_open (transport w) = true ∧
  Transport.build_message (transaction a) msg (transport w)
    ∈ Transport.wire (transport (await_send a msg w).1).
Proof.
  intros Hwf. unfold await_send. cbn [fst snd transport set_transport].
  pose proof (settlements_unused _ Hwf) as Hnone.
  destruct (settlements_run
              (Transport.sendMessage (transaction a) msg (transport w)).2 (during a)
              (Transport.sendMessage (transaction a) msg (transport w)).1) as [l ->].
  destruct (wire_run (during a)
              (Transport.sendMessage (transaction a) msg (transport w)).1) as [l' ->].
  unfold Transport.sendMessage.
  destruct (Transport.ws_open (transport w)) eqn:Hopen; cbn [fst snd Transport.wire].
  - intros _. split; [done|]. apply elem_of_app. left. apply elem_of_app. right. left.
  - unfold Transport.settlements in *. cbn [Transport.settled].
    rewrite settlements_snoc, Hnone. by destruct (decide _).
Qed.

Lemma acquire_token_cases cfg telapiUrl fetch now eid ename aname cid tok c :
  let r := acquire_token cfg telapiUrl fetch now eid ename aname cid tok c in
  ∃ ids, r.2 = Returned ids ∧ token_frame (world c) (world r.1) ∧
    configured r.1 = configured c ∧
    (Store.currentCallId (Store.callData (store (world c))) = cid →
       Store.currentCallId (Store.callData (store (world r.1))) = ids.1).
Proof.
  cbv zeta. rewrite acquire_token_eq. cbv zeta.
  destruct (negb (truthy_str cid) && truthy_str (Some (cfg_apiKey cfg)));
    [|exists (cid, tok); by repeat split].
  destruct (negb (truthy_str (Some (cfg_apiDomain cfg))));
    [exists (cid, tok); by repeat split|].
  destruct (fetch _) as [m|st body|[m|data]]; try (exists (cid, tok); by repeat split).
  eexists. split; [done|]. cbn [fst snd world configured].
  destruct (truthy_str (tk_telproDomain data)); by repeat split.
Qed.

Lemma await_send_frame a msg w :
  store (await_send a msg w).1 = store w ∧
  sessionStorage (await_send a msg w).1 = sessionStorage w ∧
  pcRef (await_send a msg w).1 = pcRef w ∧
  localStreamRef (await_send a msg w).1 = localStreamRef w ∧
  host (await_send a msg w).1 = host w.
Proof. done. Qed.

(** the negotiation, when it went through *)
Lemma negotiate_returned h cfg a domain servers callId c c' :
  Transport.wf (transport (world c)) →
  negotiate h cfg a domain servers callId c = (c', Returned tt) →
  ∃ stream pc offer dom,
    Store.telproDomain (Store.callData (store (world c))) = Some dom ∧ dom ≠ "" ∧
    Transport.ws_open (transport (world c)) = true ∧
    Transport.build_message (transaction a) (call_request dom callId offer)
      (transport (world c)) ∈ Transport.wire (transport (world c')) ∧
    pcRef (world c') = Some pc ∧ localStreamRef (world c') = Some stream ∧
    configured c' = configured c ++ [(pc, servers)] ∧ fetched c' = fetched c ∧
    Store.callData (store (world c')) = Store.callData (store (world c)) ∧
    Store.calling (Store.connection (store (world c')))
      = Store.calling (Store.connection (store (world c))) ∧
    sessionStorage (world c') = sessionStorage (world c) ∧
    host (world c') =
      host (world c) ++ [GetUserMedia; NewPeerConnection pc domain] ++
        (PcAddTrack pc <$> getTracks stream) ++
        [SetAudioCodecPreferences pc (default true (cfg_preferPcma cfg));
         PcCreateOffer pc; PcSetLocalDescription pc offer].
Proof.
  intros Hwf. rewrite negotiate_eq. cbv zeta.
  destruct (getUserMedia h _) as [e|stream]; [done|].
  set (w3 := match localAudioRef _ with Some _ => _ | None => _ end).
  assert (transport w3 = transport (world c) ∧ store w3 =
            Store.setStatus "Getting microphone..." (store (world c)) ∧
          sessionStorage w3 = sessionStorage (world c) ∧
          host w3 = host (world c) ++ [GetUserMedia] ∧
          localStreamRef w3 = Some stream) as (T3 & S3 & SS3 & H3 & L3).
  { subst w3. cbn [localAudioRef set_localStreamRef called with_store].
    by destruct (localAudioRef (world c)). }
  clearbody w3.
  set (pc := newPeerConnection h (host w3)). clearbody pc.
  destruct (createOffer h _ _) as [e|offer]; [done|].
  destruct (setLocalDescription_ok h _ _ _) as [e|]; [done|].
  cbn [store called set_pcRef]. rewrite S3.
  change (Store.telproDomain (Store.callData (Store.setStatus _ (store (world c)))))
    with (Store.telproDomain (Store.callData (store (world c)))).
  destruct (Store.telproDomain (Store.callData (store (world c)))) as [dom|] eqn:Hdom;
    cbn [truthy_str negb default from_option id]; [|done].
  destruct (String.eqb dom "") eqn:Hne; cbn [negb]; [done|].
  set (w6 := called [PcSetLocalDescription pc offer] _).
  assert (transport w6 = transport (world c) ∧
          store w6 = Store.setStatus "Getting microphone..." (store (world c)) ∧
          sessionStorage w6 = sessionStorage (world c) ∧
          pcRef w6 = Some pc ∧ localStreamRef w6 = Some stream ∧
          host w6 = host (world c) ++ [GetUserMedia; NewPeerConnection pc domain] ++
            (PcAddTrack pc <$> getTracks stream) ++
            [SetAudioCodecPreferences pc (default true (cfg_preferPcma cfg));
             PcCreateOffer pc; PcSetLocalDescription pc offer])
    as (T6 & S6 & SS6 & P6 & L6 & H6).
  { subst w6. cbn [transport store sessionStorage pcRef localStreamRef host called set_pcRef].
    rewrite T3, S3, SS3, H3, L3. repeat split; try done.
    by rewrite <-!app_assoc. }
  clearbody w6.
  destruct (await_send a _ w6) as [w7 o] eqn:Es. cbn [fst snd].
  destruct o as [[resp|reason]|]; try done. intros [= <-].
  assert ((await_send a (call_request dom callId offer) w6).2
          = Some (Transport.Fulfilled resp)) as Hs by (by rewrite Es).
  destruct (await_send_fulfilled a (call_request dom callId offer) w6 resp)
    as [Hopen Hwire]; [by rewrite T6|done|].
  rewrite Es in Hwire. cbn [fst] in Hwire. rewrite T6 in Hopen, Hwire.
  assert (store w7 = store w6 ∧ sessionStorage w7 = sessionStorage w6 ∧
          pcRef w7 = pcRef w6 ∧ localStreamRef w7 = localStreamRef w6 ∧
          host w7 = host w6) as (E1 & E2 & E3 & E4 & E5).
  { pose proof (await_send_frame a (call_request dom callId offer) w6) as H.
    by rewrite Es in H. }
  exists stream, pc, offer, dom. cbn [world configured fetched].
  rewrite E1, E2, E3, E4, E5, S6, SS6, P6, L6, H6.
  split; [done|]. split; [by intros ->|]. repeat split; done.
Qed.

Lemma call_body_eq h cfg telapiUrl fetch now a domain servers eid ename aname cid tok c :
  call_body h cfg telapiUrl fetch now a domain servers eid ename aname cid tok c =
  let c1 := mkCaller (with_store (Store.setStatus "Setting up call...")
                        (with_store (Store.setCalling true) (world c)))
              (fetched c) (configured c) in
  let r := acquire_token cfg telapiUrl fetch now eid ename aname cid tok c1 in
  match r.2 with
  | Returned ids => negotiate h cfg a domain servers ids.1 r.1
  | Threw e => (r.1, Threw e)
  | Suspended => (r.1, Suspended)
  end.
Proof.
  unfold call_body. rewrite !then_in_world. cbn [world fetched configured]. cbv zeta.
  unfold mbind, caller_bind, call_bind.
  by destruct (acquire_token _ _ _ _ _ _ _ _ _ _) as [c2 [ids|e|]].
Qed.

(** X22.  A call that went through was placed as the store says.  When
    [makeCall] has returned and the store still shows the call as being set
    up, the call request is on the wire: it dials [sip:webrtc@] followed by
    the signalling domain the store holds, which is not empty, it carries the
    call identifier of the store as its [X-Call-ID] header when there is one
    and no header otherwise, and it was built with the session and handle of
    the transport as they were when the call began.  The microphone was
    asked for once, one peer connection was created with the ICE servers
    derived when the call began, every track of the stream was added to it,
    the codec preference was applied, and the offer created was set as the
    local description before the request was sent, in that order; the refs
    hold that stream and that connection. *)
Theorem completed_call_was_placed_as_the_store_says :
  ∀ (h : Host) (cfg : WebRTCConfig) (ov : Overrides) (telapiUrl : string)
    (fetch : Request → FetchOutcome) (now : Z) (a : Await) (c : Caller),
    let st := store (world c) in
    let d := Store.callData st in
    let r := makeCall h cfg ov telapiUrl fetch now a c in
    Transport.wf (transport (world c)) →
    Store.registered (Store.connection st) = true → Store.endpointId d ≠ "" →
    r.2 = Returned tt →
    Store.calling (Store.connection (store (world r.1))) = true →
    ∃ stream pc offer dom,
      Store.telproDomain (Store.callData (store (world r.1))) = Some dom ∧ dom ≠ "" ∧
      Transport.build_message (transaction a)
        (call_request dom (Store.currentCallId (Store.callData (store (world r.1)))) offer)
        (transport (world c)) ∈ Transport.wire (transport (world r.1)) ∧
      pcRef (world r.1) = Some pc ∧ localStreamRef (world r.1) = Some stream ∧
      configured r.1 = configured c ++
        [(pc, derivedIceServers (getDerivedUrlsFor ov st (cfg_apiDomain cfg)))] ∧
      host (world r.1) =
        host (world c) ++
          [GetUserMedia; NewPeerConnection pc (Store.or_empty (Store.telproDomain d))] ++
          (PcAddTrack pc <$> getTracks stream) ++
          [SetAudioCodecPreferences pc (default true (cfg_preferPcma cfg));
           PcCreateOffer pc; PcSetLocalDescription pc offer].
Proof.
  intros h cfg ov telapiUrl fetch now a c st d r Hwf Hreg Heid. subst r d st.
  unfold makeCall. cbv zeta. rewrite Hreg, (truthy_str_Some _ Heid). cbn [negb].
  unfold try_catch. rewrite call_body_eq. cbv zeta.
  set (c1 := mkCaller _ (fetched c) (configured c)).
  destruct (acquire_token_cases cfg telapiUrl fetch now
              (Store.endpointId (Store.callData (store (world c))))
              (Store.endpointName (Store.callData (store (world c))))
              (Store.appName (Store.callData (store (world c))))
              (Store.currentCallId (Store.callData (store (world c))))
              (Store.currentWsToken (Store.callData (store (world c)))) c1)
    as (ids & Hret & Hframe & Hconf & Hid).
  rewrite Hret.
  set (c2 := (acquire_token _ _ _ _ _ _ _ _ _ c1).1) in *. clearbody c2.
  specialize (Hid eq_refl).
  destruct Hframe as ((Ht & _ & _ & _ & _ & _ & _ & _ & _ & Hh) & _ & _ & _ & _ & Hcal & _).
  change (transport (world c1)) with (transport (world c)) in Ht.
  change (host (world c1)) with (host (world c)) in Hh.
  change (Store.calling (Store.connection (store (world c1)))) with true in Hcal.
  change (configured c1) with (configured c) in Hconf.
  destruct (negotiate h cfg a _ _ ids.1 c2) as [c3 [[]|e|]] eqn:En; cbn [fst snd].
  - intros _ _.
    destruct (negotiate_returned _ _ _ _ _ _ _ _ ltac:(by rewrite Ht) En)
      as (stream & pc & offer & dom & N1 & N2 & _ & N4 & N5 & N6 & N7 & _ & N9 & _ & _ & N12).
    exists stream, pc, offer, dom. rewrite N9, N1, Hid, N7, Hconf, N12, Hh.
    rewrite Ht in N4. done.
  - intros _. rewrite in_world_eq. cbn [fst world].
    destruct (call_catch_spec e (world c3)) as (-> & _). done.
  - done.
Qed.

Lemma completed_call_was_placed_as_the_store_says_witness :
  let h := mkHost (λ _ _ _, true) (λ _ _ _, true) (λ _, inr (mkStream 1 [10]))
             (λ _, 2) (λ _ _, inr (mkJsep "offer" (Some "v=0"))) (λ _ _ _, None) in
  let cfg := mkConfig "api.example.com" "key-1" None in
  let ov := mkOverrides None None None in
  let st := Store.setRegistered true (Store.setEndpointId "ep-1" Store.initialStore) in
  let t := Transport.run [Transport.EConnection (Some Transport.OPEN) (Some 42%Z) (Some 7%Z)]
             (Transport.initial 0) in
  let c := mkCaller (mkWorld st t None None None None None [] false None false None [])
             [] [] in
  let fetch : Request → FetchOutcome :=
    λ _, Ok (inr (mkToken "call-1" "token-1" (Some "eu.telpro.example"))) in
  let ack : Obj := <["janus" := JStr "ack"]> {["transaction" := JStr "Xk3mP0qLw9Zt"]} in
  let a := mkAwait "Xk3mP0qLw9Zt" [Transport.EFrame ack] in
  let r := makeCall h cfg ov "https://api.example.com" fetch 1000 a c in
  ∃ stream pc offer dom,
    Store.telproDomain (Store.callData (store (world r.1))) = Some dom ∧ dom ≠ "" ∧
    Transport.build_message (transaction a)
      (call_request dom (Store.currentCallId (Store.callData (store (world r.1)))) offer)
      (transport (world c)) ∈ Transport.wire (transport (world r.1)) ∧
    pcRef (world r.1) = Some pc ∧ localStreamRef (world r.1) = Some stream ∧
    configured r.1 = configured c ++
      [(pc, derivedIceServers (getDerivedUrlsFor ov st (cfg_apiDomain cfg)))] ∧
    host (world r.1) =
      host (world c) ++
        [GetUserMedia; NewPeerConnection pc (Store.or_empty (Store.telproDomain
                                                               (Store.callData st)))] ++
        (PcAddTrack pc <$> getTracks stream) ++
        [SetAudioCodecPreferences pc (default true (cfg_preferPcma cfg));
         PcCreateOffer pc; PcSetLocalDescription pc offer].
Proof.
  intros h cfg ov st t c fetch ack a r.
  apply (completed_call_was_placed_as_the_store_says h cfg ov "https://api.example.com"
           fetch 1000 a c).
  - apply wf_run, wf_initial.
  - reflexivity.
  - discriminate.
  - by vm_compute.
  - by vm_compute.
Defined.

End CallingFacts.

(** ** The gateway session *)
Section SessionFacts.
Import Phone Session.

Lemma job_bind_in_world {A} f (k : unit → Job A) s :
  job_bind (in_world f) k s = k tt (set_world (f (world s)) s).
Proof. done. Qed.

(** the handshake, outcome by outcome *)
Lemma init_body_eq connecting hostname janusUrl hs provided s :
  init_body connecting hostname janusUrl hs provided s =
  let dom := if truthy_str provided then provided
             else Store.telproDomain (Store.callData (store (world s))) in
  if negb (truthy_str dom)
  then (s, Threw (Some "TelPro domain is required to initialize Janus"))
  else
    let domain := default "" dom in
    let url := if truthy_str janusUrl then default "" janusUrl else "wss://" +:+ domain in
    let w0 := with_store (Store.setStatus "Connecting...") (world s) in
    let opened ws (w : World) :=
      mkRefs w (initializingRef s) (initializedRef s) (keepAliveRef s) (intervals s)
        (next_interval s) (sockets s ++ [url]) in
    let kept (w : World) (initializing initialized : bool) :=
      mkRefs w initializing initialized (Some (next_interval s))
        (<[next_interval s := 25000%Z]> (intervals s)) (S (next_interval s))
        (sockets s ++ [url]) in
    match connecting with
    | SocketThrows message => (set_world w0 s, Threw (Some message))
    | Errors =>
        (opened Transport.CLOSED
           (called [ConsoleError "WebSocket error:"] (set_ws (Some Transport.CLOSED) w0)),
         Threw (Some "Connection failed"))
    | TimesOut =>
        (opened Transport.CONNECTING (set_ws (Some Transport.CONNECTING) w0),
         Threw (Some "Connection timeout"))
    | Opens =>
        let sent1 :=
          await_send (on_create hs) create_request
            (with_store (Store.setStatus "Creating session...")
               (set_ws (Some Transport.OPEN) w0)) in
        match sent1.2 with
        | None => (opened Transport.OPEN sent1.1, Suspended)
        | Some (Transport.Rejected reason) =>
            (opened Transport.OPEN sent1.1, Threw (Some reason))
        | Some (Transport.Fulfilled createResp) =>
            let sent2 :=
              await_send (on_attach hs) attach_request
                (with_store (Store.setStatus "Attaching SIP plugin...")
                   (set_sessionId (id_of createResp) sent1.1)) in
            match sent2.2 with
            | None => (kept sent2.1 (initializingRef s) (initializedRef s), Suspended)
            | Some (Transport.Rejected reason) =>
                (kept sent2.1 (initializingRef s) (initializedRef s), Threw (Some reason))
            | Some (Transport.Fulfilled attachResp) =>
                let sent3 :=
                  await_send (on_register hs) (register_request hostname domain)
                    (with_store (Store.setStatus "Registering...")
                       (set_handleId (id_of attachResp) sent2.1)) in
                match sent3.2 with
                | None => (kept sent3.1 (initializingRef s) (initializedRef s), Suspended)
                | Some (Transport.Rejected reason) =>
                    (kept sent3.1 (initializingRef s) (initializedRef s),
                     Threw (Some reason))
                | Some (Transport.Fulfilled _) => (kept sent3.1 false true, Returned tt)
                end
            end
        end
    end.
Proof.
  unfold init_body. cbv zeta. unfold mbind, session_bind. unfold job_bind at 1.
  unfold domain_to_use. cbn [fst snd].
  destruct (negb (truthy_str _)); [done|].
  rewrite job_bind_in_world. unfold job_bind at 1. unfold open_socket.
  cbn [world initializingRef initializedRef keepAliveRef intervals next_interval sockets
       set_world].
  destruct connecting; try done.
  rewrite job_bind_in_world.
  cbn [world initializingRef initializedRef keepAliveRef intervals next_interval sockets
       set_world].
  unfold job_bind at 1. unfold lift at 1. unfold await_sendMessage. cbv zeta.
  cbn [world initializingRef initializedRef keepAliveRef intervals next_interval sockets
       set_world].
  destruct (await_send (on_create hs) _ _) as [w1 [[createResp|reason]|]]; cbn [fst snd];
    [|done|done].
  rewrite job_bind_in_world. unfold job_bind at 1. unfold start_keepalive.
  cbn [world initializingRef initializedRef keepAliveRef intervals next_interval sockets
       set_world].
  rewrite job_bind_in_world.
  cbn [world initializingRef initializedRef keepAliveRef intervals next_interval sockets
       set_world].
  unfold job_bind at 1. unfold lift at 1. unfold await_sendMessage. cbv zeta.
  cbn [world initializingRef initializedRef keepAliveRef intervals next_interval sockets
       set_world].
  destruct (await_send (on_attach hs) _ _) as [w2 [[attachResp|reason]|]]; cbn [fst snd];
    [|done|done].
  rewrite !job_bind_in_world.
  cbn [world initializingRef initializedRef keepAliveRef intervals next_interval sockets
       set_world].
  unfold job_bind, lift, await_sendMessage, mark_initialized, set_flags. cbv zeta.
  cbn [world initializingRef initializedRef keepAliveRef intervals next_interval sockets
       set_world].
  destruct (await_send (on_register hs) _ _) as [w3 [[resp|reason]|]]; done.
Qed.

Lemma init_catch_spec e s :
  Store.status (Store.connection (store (world (init_catch e s))))
    = "Failed: " +:+ default "Unknown" e ∧
  initializingRef (init_catch e s) = false ∧
  initializedRef (init_catch e s) = initializedRef s ∧
  keepAliveRef (init_catch e s) = keepAliveRef s ∧
  intervals (init_catch e s) = intervals s ∧
  sockets (init_catch e s) = sockets s ∧
  transport (world (init_catch e s)) = transport (world s).
Proof. done. Qed.

(** X23.  Connecting to the gateway.  [initJanus] does nothing while an
    initialisation is in flight or done, and it never throws.  While it is
    suspended at a request the in-flight flag stays up, so that a second call
    does nothing.  When it returns the in-flight flag is down, and either
    the session is initialised, which takes a signalling domain, a socket
    that opened and three answered requests, and then the status is
    [Registering...], one socket was opened to the override URL or to
    [wss://] followed by the domain and the keepalive interval is armed with
    a period of 25 s; or the session is not initialised and the status
    reports [Failed: ] and the reason.  Without a domain no socket is
    opened; with a socket that does not open nothing is sent and no
    keepalive is armed. *)
Theorem janus_init_is_guarded_and_reports_failure :
  ∀ (connecting : Connecting) (hostname : string) (janusUrl : option string)
    (hs : Handshake) (provided : option string) (s : Refs),
    let r := initJanus connecting hostname janusUrl hs provided s in
    let dom := if truthy_str provided then provided
               else Store.telproDomain (Store.callData (store (world s))) in
    let url := if truthy_str janusUrl then default "" janusUrl
               else "wss://" +:+ default "" dom in
    let status (q : Refs) := Store.status (Store.connection (store (world q))) in
    (initializingRef s = true ∨ initializedRef s = true → r = (s, Returned tt)) ∧
    (r.2 = Returned tt ∨ r.2 = Suspended) ∧
    (initializingRef s = false → initializedRef s = false →
       (r.2 = Suspended → initializingRef r.1 = true ∧ initializedRef r.1 = false) ∧
       (r.2 = Returned tt →
          initializingRef r.1 = false ∧
          ((initializedRef r.1 = true ∧ connecting = Opens ∧ truthy_str dom = true ∧
            status r.1 = "Registering..." ∧ sockets r.1 = sockets s ++ [url] ∧
            keepAliveRef r.1 = Some (next_interval s) ∧
            intervals r.1 !! next_interval s = Some 25000%Z) ∨
           (initializedRef r.1 = false ∧ ∃ e, status r.1 = "Failed: " +:+ e))) ∧
       (truthy_str dom = false →
          r.2 = Returned tt ∧
          status r.1 = "Failed: TelPro domain is required to initialize Janus" ∧
          sockets r.1 = sockets s ∧ transport (world r.1) = transport (world s)) ∧
       (truthy_str dom = true → connecting ≠ Opens →
          r.2 = Returned tt ∧ (∃ e, status r.1 = "Failed: " +:+ e) ∧
          Transport.wire (transport (world r.1)) = Transport.wire (transport (world s)) ∧
          keepAliveRef r.1 = keepAliveRef s ∧ intervals r.1 = intervals s)).
Proof.
  intros connecting hostname janusUrl hs provided s r dom url status. subst r status.
  unfold initJanus. cbv beta.
  destruct (initializingRef s) eqn:Hi; cbn [orb].
  { split; [done|]. split; [by left|]. done. }
  destruct (initializedRef s) eqn:Hd; cbn [orb].
  { split; [done|]. split; [by left|]. done. }
  split; [by intros [?|?]|].
  rewrite init_body_eq. cbv zeta.
  cbn [world initializingRef initializedRef keepAliveRef intervals next_interval sockets
       set_flags].
  fold dom. destruct (truthy_str dom) eqn:Hdom; cbn [negb].
  2: { cbn [fst snd]. split; [by left|]. intros _ _.
       split; [done|]. split; [|split; [done|done]].
       intros _. split; [done|]. right. split; [done|]. by eexists. }
  fold url.
  destruct connecting.
  1, 3, 4: (cbn [fst snd]; split; [by left|]; intros _ _;
            split; [done|]; split;
            [intros _; split; [done|]; right; split; [done|]; by eexists
            |split; [done|]; intros _ _; split; [done|]; split; [by eexists|done]]).
  set (sent1 := await_send (on_create hs) _ _).
  destruct (sent1.2) as [[createResp|reason]|] eqn:E1.
  2: { cbn [fst snd]. split; [by left|]. intros _ _. split; [done|].
       split; [|split; done].
       intros _. split; [done|]. right. split; [done|]. by eexists. }
  2: { cbn [fst snd]. split; [by right|]. intros _ _. split; [done|]. done. }
  set (sent2 := await_send (on_attach hs) _ _).
  destruct (sent2.2) as [[attachResp|reason]|] eqn:E2.
  2: { cbn [fst snd]. split; [by left|]. intros _ _. split; [done|].
       split; [|split; done].
       intros _. split; [done|]. right. split; [done|]. by eexists. }
  2: { cbn [fst snd]. split; [by right|]. intros _ _. split; [done|]. done. }
  set (sent3 := await_send (on_register hs) _ _).
  destruct (sent3.2) as [[resp|reason]|] eqn:E3.
  2: { cbn [fst snd]. split; [by left|]. intros _ _. split; [done|].
       split; [|split; done].
       intros _. split; [done|]. right. split; [done|]. by eexists. }
  2: { cbn [fst snd]. split; [by right|]. intros _ _. split; [done|]. done. }
  cbn [fst snd world initializingRef initializedRef keepAliveRef intervals next_interval
       sockets].
  split; [by left|]. intros _ _. split; [done|]. split; [|split; done].
  intros _. split; [done|]. left.
  pose proof (await_send_frame (on_register hs)
                (register_request hostname (default "" dom))
                (with_store (Store.setStatus "Registering...")
                   (set_handleId (id_of attachResp) sent2.1))) as (Hst & _).
  fold sent3 in Hst. rewrite Hst.
  repeat split; try done. by rewrite lookup_insert_eq.
Qed.

Lemma janus_init_is_guarded_and_reports_failure_witness :
  let w := mkWorld Store.initialStore (Transport.initial 0) None None None None None
             [] false None false None [] in
  let s := mkRefs w false false None ∅ 0 [] in
  let hs := mkHandshake (mkAwait "Aa3mP0qLw9Zt" []) (mkAwait "Bb3mP0qLw9Zt" [])
              (mkAwait "Cc3mP0qLw9Zt" []) in
  let r := initJanus TimesOut "shop.example" None hs (Some "eu.telpro.example") s in
  r.2 = Returned tt ∧
  Transport.wire (transport (world r.1)) = [] ∧ keepAliveRef r.1 = None.
Proof.
  intros w s hs r.
  destruct (janus_init_is_guarded_and_reports_failure TimesOut "shop.example" None hs
              (Some "eu.telpro.example") s) as (_ & _ & H).
  destruct (H eq_refl eq_refl) as (_ & _ & _ & H').
  destruct (H' eq_refl ltac:(discriminate)) as (H1 & _ & H3 & H4 & _).
  split; [exact H1|]. split; [exact H3|exact H4].
Defined.

(** the state [cleanupJanus] leaves, field by field *)
Lemma cleanupJanus_eq s :
  cleanupJanus s =
  mkRefs
    (mkWorld
       (Store.setCalling false
          (Store.setInCall false
             (Store.setRegistered false
                (Store.setConnected false
                   (Store.setAudioBlocked false (store (world s)))))))
       (Transport.cleanupJanus (transport (world s))) (pendingReconnectRef (world s))
       None None
       (match remoteAudioRef (world s) with Some _ => Some (mkAudio None) | None => None end)
       (match localAudioRef (world s) with Some _ => Some (mkAudio None) | None => None end)
       [] false (onHangupRef (world s)) (chatOpen (world s)) (sessionStorage (world s))
       (host (world s)
          ++ match pcRef (world s) with Some pc => [PcClose pc] | None => [] end
          ++ match localStreamRef (world s) with
             | Some stream => TrackStop <$> getTracks stream
             | None => []
             end))
    false false None
    (match keepAliveRef s with Some t => delete t (intervals s) | None => intervals s end)
    (next_interval s) (sockets s).
Proof.
  unfold cleanupJanus. cbv zeta. rewrite cleanupCall_eq.
  by destruct s as [w i d [t|] iv n so].
Qed.

Lemma cleanupJanus_quiet s :
  pcRef (world s) = None → localStreamRef (world s) = None → keepAliveRef s = None →
  initializingRef s = false → initializedRef s = false →
  pendingCandidatesRef (world s) = [] → remoteDescriptionSetRef (world s) = false →
  remoteAudioRef (world s) = None ∨ remoteAudioRef (world s) = Some (mkAudio None) →
  localAudioRef (world s) = None ∨ localAudioRef (world s) = Some (mkAudio None) →
  transport (world s) = Transport.cleanupJanus (transport (world s)) →
  store (world s) =
    Store.setCalling false
      (Store.setInCall false
         (Store.setRegistered false
            (Store.setConnected false (Store.setAudioBlocked false (store (world s)))))) →
  cleanupJanus s = s.
Proof.
  rewrite cleanupJanus_eq.
  destruct s as [[st tr pr pc stream ra la q f cb co ss hs] i d k iv n so].
  cbn [world pcRef localStreamRef keepAliveRef initializingRef initializedRef
       pendingCandidatesRef remoteDescriptionSetRef remoteAudioRef localAudioRef
       transport store pendingReconnectRef onHangupRef chatOpen sessionStorage host
       intervals next_interval sockets].
  intros -> -> -> -> -> -> -> Hra Hla <- <-.
  rewrite !app_nil_r.
  by destruct Hra as [->| ->], Hla as [->| ->].
Qed.

Lemma disconnect_teardown_spec c :
  let s := session c in
  let q := session (disconnect_teardown c) in
  let conn := Store.connection (store (world q)) in
  initializingRef q = false ∧ initializedRef q = false ∧ keepAliveRef q = None ∧
  (∀ t, keepAliveRef s = Some t → intervals q !! t = None) ∧
  (keepAliveRef s = None → intervals q = intervals s) ∧
  Transport.wsRef (transport (world q)) = None ∧
  Transport.sessionIdRef (transport (world q)) = None ∧
  Transport.handleIdRef (transport (world q)) = None ∧
  Transport.transactionsRef (transport (world q)) = ∅ ∧
  Transport.wire (transport (world q)) = Transport.wire (transport (world s)) ∧
  Store.connected conn = false ∧ Store.registered conn = false ∧
  Store.inCall conn = false ∧ Store.calling conn = false ∧
  Store.initialized conn = false ∧
  Store.status conn = Store.status (Store.connection (store (world s))) ∧
  Store.open (Store.ui (store (world q))) = Store.open (Store.ui (store (world s))) ∧
  open (disconnect_teardown c) = false ∧
  pcRef (world q) = None ∧ localStreamRef (world q) = None ∧
  sessionStorage (world q) = sessionStorage (world s) ∧
  cleanupJanus q = q.
Proof.
  intros s q conn. subst s q conn. unfold disconnect_teardown. cbv zeta.
  cbn [session open]. rewrite cleanupJanus_eq.
  cbn [world set_world initializingRef initializedRef keepAliveRef intervals
       with_store store transport pcRef localStreamRef sessionStorage].
  do 3 (split; [done|]).
  split. { intros t ->. apply lookup_delete_eq. }
  split. { by intros ->. }
  do 16 (split; [done|]).
  apply cleanupJanus_quiet; try done.
  - cbn [world set_world with_store remoteAudioRef].
    destruct (remoteAudioRef (world (session c))); [by right|by left].
  - cbn [world set_world with_store localAudioRef].
    destruct (localAudioRef (world (session c))); [by right|by left].
Qed.

(** a hangup that ran to its end leaves the store's [open] flag alone and
    deletes the saved call state *)
Lemma handleHangup_open cb a w w1 :
  handleHangup cb a w = (w1, true) →
  Store.open (Store.ui (store w1)) = Store.open (Store.ui (store w)) ∧
  sessionStorage w1 = None.
Proof.
  unfold handleHangup. destruct cb as [registered].
  pose proof (await_send_frame a hangup_request w) as (Hst & _).
  destruct (await_send a hangup_request w) as [w' [o|]]; cbn [fst] in Hst; [|done].
  intros [= <-]. rewrite <-Hst. unfold hangup_teardown. cbv zeta.
  by rewrite cleanupCall_eq.
Qed.

(** X24.  The full disconnect.  [handleDisconnect] never throws; when no
    call is up or being placed it returns at once and sends nothing, and
    otherwise it waits for the hangup and is suspended as long as that has
    not finished, with the session and the dialog as they were.  When it has
    returned, the component's [open] state is false, while the [open] flag of
    the store is not written; the initialisation flags are down, the
    keepalive interval is cleared, the socket, the session and handle
    identifiers and the pending requests are dropped, the store says not
    connected, not registered, not in a call, not calling and not
    initialised, the peer connection and the local stream are released, the
    saved call state is gone if a call was up, and cleaning up once more
    changes nothing. *)
Theorem disconnect_tears_the_session_down :
  ∀ (cb : HangupCallback) (a : Await) (c : Component),
    let s := session c in
    let r := handleDisconnect cb a c in
    let q := session r.1 in
    let busy := Store.inCall (Store.connection (store (world s)))
                || Store.calling (Store.connection (store (world s))) in
    let conn := Store.connection (store (world q)) in
    (r.2 = Returned tt ∨ r.2 = Suspended) ∧
    (busy = false →
       r.2 = Returned tt ∧
       Transport.wire (transport (world q)) = Transport.wire (transport (world s)) ∧
       sessionStorage (world q) = sessionStorage (world s)) ∧
    (r.2 = Suspended →
       busy = true ∧ open r.1 = open c ∧ initializingRef q = initializingRef s ∧
       initializedRef q = initializedRef s ∧ keepAliveRef q = keepAliveRef s ∧
       intervals q = intervals s ∧ store (world q) = store (world s)) ∧
    (r.2 = Returned tt →
       open r.1 = false ∧
       Store.open (Store.ui (store (world q))) = Store.open (Store.ui (store (world s))) ∧
       initializingRef q = false ∧ initializedRef q = false ∧
       keepAliveRef q = None ∧
       (∀ t, keepAliveRef s = Some t → intervals q !! t = None) ∧
       Transport.wsRef (transport (world q)) = None ∧
       Transport.sessionIdRef (transport (world q)) = None ∧
       Transport.handleIdRef (transport (world q)) = None ∧
       Transport.transactionsRef (transport (world q)) = ∅ ∧
       Store.connected conn = false ∧ Store.registered conn = false ∧
       Store.inCall conn = false ∧ Store.calling conn = false ∧
       Store.initialized conn = false ∧
       pcRef (world q) = None ∧ localStreamRef (world q) = None ∧
       (busy = true → sessionStorage (world q) = None) ∧
       cleanupJanus q = q).
Proof.
  intros cb a c s r q busy conn. subst r q conn. unfold handleDisconnect. cbv zeta.
  fold s. fold busy. destruct busy eqn:Hb.
  - destruct (handleHangup cb a (world s)) as [w1 [|]] eqn:Eh; cbn [fst snd].
    + destruct (handleHangup_open cb a (world s) w1 Eh) as (Hopen & Hgone).
      set (c1 := mkComponent (set_world w1 s) (open c)).
      destruct (disconnect_teardown_spec c1)
        as (H1 & H2 & H3 & H4 & _ & H5 & H6 & H7 & H8 & _ & H9 & H10 & H11 & H12 &
            H13 & _ & H14 & H15 & H16 & H17 & H18 & H19).
      cbn [session c1 world set_world keepAliveRef] in H4, H14, H18.
      split; [by left|]. split; [done|]. split; [done|]. intros _.
      split; [exact H15|]. split; [by rewrite H14|].
      do 15 (split; [done|]). split; [|done].
      intros _. by rewrite H18.
    + split; [by right|]. split; [done|]. split; [|done]. intros _.
      split; [done|]. cbn [session open world set_world initializingRef initializedRef
                           keepAliveRef intervals].
      do 5 (split; [done|]).
      unfold handleHangup in Eh. destruct cb as [registered].
      pose proof (await_send_frame a hangup_request (world s)) as (Hst & _).
      destruct (await_send a hangup_request (world s)) as [w' [o|]]; [done|].
      cbn [fst] in Hst. by injection Eh as <-.
  - cbn [fst snd].
    destruct (disconnect_teardown_spec c)
      as (H1 & H2 & H3 & H4 & _ & H5 & H6 & H7 & H8 & Hw & H9 & H10 & H11 & H12 &
          H13 & _ & H14 & H15 & H16 & H17 & H18 & H19).
    fold s in H4, Hw, H14, H18.
    split; [by left|]. split; [done|]. split; [done|]. intros _.
    split; [exact H15|]. split; [exact H14|].
    do 15 (split; [done|]). split; [done|done].
Qed.

Lemma disconnect_tears_the_session_down_witness :
  let st := Store.setInCall true (Store.setRegistered true
              (Store.setConnected true Store.initialStore)) in
  let tr := Transport.set_connection (Some Transport.OPEN) (Some 11%Z) (Some 12%Z)
              (Transport.initial 0) in
  let w := mkWorld st tr None (Some 0) (Some (mkStream 1 [7])) None None
             [] true (Some (HandleHangup true)) false None [] in
  let s := mkRefs w false true (Some 0) {[0 := 25000%Z]} 1 ["wss://eu.telpro.example"] in
  let a := mkAwait "Xk3mP0qLw9Zt"
             [Transport.ETick 10000; Transport.ETimer 0] in
  let r := handleDisconnect (HandleHangup true) a (mkComponent s true) in
  r.2 = Returned tt ∧ open r.1 = false ∧ initializedRef (session r.1) = false ∧
  keepAliveRef (session r.1) = None ∧ intervals (session r.1) !! 0 = None ∧
  pcRef (world (session r.1)) = None ∧ sessionStorage (world (session r.1)) = None ∧
  cleanupJanus (session r.1) = session r.1.
Proof.
  intros st tr w s a r.
  assert (r.2 = Returned tt) as Hr by (vm_compute; reflexivity).
  destruct (disconnect_tears_the_session_down (HandleHangup true) a (mkComponent s true))
    as (_ & _ & _ & H).
  destruct (H Hr) as (H0 & _ & _ & H2 & H3 & H4 & _ & _ & _ & _ & _ & _ & _ & _ & _ & H5 &
                      _ & H6 & H7).
  split; [exact Hr|]. split; [exact H0|]. split; [exact H2|]. split; [exact H3|].
  split; [exact (H4 0 eq_refl)|]. split; [exact H5|].
  split; [exact (H6 eq_refl)|exact H7].
Defined.

(** what an admitted [initJanus] leaves of the keepalive and of the sockets *)
Lemma initJanus_outcome connecting hostname janusUrl hs provided s :
  initializingRef s = false → initializedRef s = false →
  let r := initJanus connecting hostname janusUrl hs provided s in
  let dom := if truthy_str provided then provided
             else Store.telproDomain (Store.callData (store (world s))) in
  let url := if truthy_str janusUrl then default "" janusUrl
             else "wss://" +:+ default "" dom in
  (r.2 = Returned tt → initializingRef r.1 = false) ∧
  ((keepAliveRef r.1 = keepAliveRef s ∧ intervals r.1 = intervals s ∧
    next_interval r.1 = next_interval s ∧
    (r.2 = Returned tt → initializedRef r.1 = false)) ∨
   (keepAliveRef r.1 = Some (next_interval s) ∧
    intervals r.1 = <[next_interval s := 25000%Z]> (intervals s) ∧
    next_interval r.1 = S (next_interval s))) ∧
  (truthy_str dom = true → (∀ message, connecting ≠ SocketThrows message) →
   sockets r.1 = sockets s ++ [url]).
Proof.
  intros Hi Hd r dom url. subst r. unfold initJanus. rewrite Hi, Hd. cbn [orb].
  rewrite init_body_eq. cbv zeta.
  cbn [world initializingRef initializedRef keepAliveRef intervals next_interval sockets
       set_flags].
  fold dom. destruct (truthy_str dom) eqn:Hdom; cbn [negb].
  2: { cbn [fst snd]. split; [done|]. split; [by left|done]. }
  fold url.
  destruct connecting.
  { cbn [fst snd]. split; [done|]. split; [by left|]. intros _ H. by destruct (H message). }
  2, 3: (cbn [fst snd]; split; [done|]; split; [by left|done]).
  set (sent1 := await_send (on_create hs) _ _).
  destruct (sent1.2) as [[createResp|reason]|] eqn:E1.
  2, 3: (cbn [fst snd]; split; [done|]; split; [by left|done]).
  set (sent2 := await_send (on_attach hs) _ _).
  destruct (sent2.2) as [[attachResp|reason]|] eqn:E2.
  2, 3: (cbn [fst snd]; split; [done|]; split; [by right|done]).
  set (sent3 := await_send (on_register hs) _ _).
  destruct (sent3.2) as [[resp|reason]|] eqn:E3.
  all: cbn [fst snd]; split; [done|]; split; [by right|done].
Qed.

(** X25.  A socket that closed.  When the socket of an initialised session
    closes, the store says not connected and not registered and the keepalive
    interval is cleared, but the session still counts as initialised: a call
    of [initJanus] then does nothing.  After [cleanupJanus] the same call is
    admitted, and with a signalling domain it opens a socket to the override
    URL or to [wss://] followed by the domain. *)
Theorem closed_socket_is_reopened_only_after_cleanup :
  ∀ (connecting : Connecting) (hostname : string) (janusUrl : option string)
    (hs : Handshake) (provided : option string) (s : Refs),
    initializedRef s = true →
    let q := onclose s in
    let dom := if truthy_str provided then provided
               else Store.telproDomain (Store.callData (store (world s))) in
    let url := if truthy_str janusUrl then default "" janusUrl
               else "wss://" +:+ default "" dom in
    Store.connected (Store.connection (store (world q))) = false ∧
    Store.registered (Store.connection (store (world q))) = false ∧
    keepAliveRef q = None ∧
    (∀ t, keepAliveRef s = Some t → intervals q !! t = None) ∧
    initJanus connecting hostname janusUrl hs provided q = (q, Returned tt) ∧
    (truthy_str dom = true → (∀ message, connecting ≠ SocketThrows message) →
     sockets (initJanus connecting hostname janusUrl hs provided (cleanupJanus q)).1
       = sockets s ++ [url]).
Proof.
  intros connecting hostname janusUrl hs provided s Hd q dom url.
  assert (initializedRef q = true) as Hq.
  { subst q. unfold onclose, clear_keepalive. cbv zeta.
    by destruct s as [w i d [t|] iv n so]. }
  split. { subst q. unfold onclose, clear_keepalive. cbv zeta.
           by destruct s as [w i d [t|] iv n so]. }
  split. { subst q. unfold onclose, clear_keepalive. cbv zeta.
           by destruct s as [w i d [t|] iv n so]. }
  split. { subst q. unfold onclose, clear_keepalive. cbv zeta.
           by destruct s as [w i d [t|] iv n so]. }
  split. { intros t Ht. subst q. unfold onclose, clear_keepalive. cbv zeta.
           destruct s as [w i d k iv n so]. cbn in Ht. subst k. cbn.
           apply lookup_delete_eq. }
  split. { unfold initJanus. rewrite Hq. by rewrite orb_true_r. }
  intros Hdom Hc.
  destruct (initJanus_outcome connecting hostname janusUrl hs provided (cleanupJanus q))
    as (_ & _ & H).
  { by rewrite cleanupJanus_eq. }
  { by rewrite cleanupJanus_eq. }
  assert (Store.telproDomain (Store.callData (store (world (cleanupJanus q))))
          = Store.telproDomain (Store.callData (store (world s)))) as Hdomain.
  { rewrite cleanupJanus_eq. subst q. unfold onclose, clear_keepalive. cbv zeta.
    by destruct s as [w i d [t|] iv n so]. }
  assert (sockets (cleanupJanus q) = sockets s) as Hso.
  { rewrite cleanupJanus_eq. subst q. unfold onclose, clear_keepalive. cbv zeta.
    by destruct s as [w i d [t|] iv n so]. }
  rewrite Hdomain, Hso in H. by apply H.
Qed.

Lemma closed_socket_is_reopened_only_after_cleanup_witness :
  let st := Store.setRegistered true (Store.setConnected true Store.initialStore) in
  let tr := Transport.set_connection (Some Transport.CLOSED) (Some 11%Z) (Some 12%Z)
              (Transport.initial 0) in
  let w := mkWorld st tr None None None None None [] false None false None [] in
  let s := mkRefs w false true (Some 0) {[0 := 25000%Z]} 1 ["wss://eu.telpro.example"] in
  let hs := mkHandshake (mkAwait "Aa3mP0qLw9Zt" []) (mkAwait "Bb3mP0qLw9Zt" [])
              (mkAwait "Cc3mP0qLw9Zt" []) in
  initJanus Opens "shop.example" None hs (Some "eu.telpro.example") (onclose s)
    = (onclose s, Returned tt) ∧
  sockets (initJanus Opens "shop.example" None hs (Some "eu.telpro.example")
             (cleanupJanus (onclose s))).1
    = ["wss://eu.telpro.example"; "wss://eu.telpro.example"].
Proof.
  intros st tr w s hs.
  destruct (closed_socket_is_reopened_only_after_cleanup Opens "shop.example" None hs
              (Some "eu.telpro.example") s eq_refl) as (_ & _ & _ & _ & H1 & H2).
  split; [exact H1|].
  exact (H2 eq_refl ltac:(discriminate)).
Defined.

(** X26.  The keepalive of a handshake that failed.  When [initJanus]
    has returned without initialising the session but after it had armed the
    keepalive, that interval stays armed with its period of 25 s.  A later
    [initJanus] that succeeds arms an interval of its own and holds that one;
    the earlier interval is still armed, and [cleanupJanus] clears the later
    one only. *)
Theorem keepalive_of_a_failed_handshake_stays_armed :
  ∀ (c1 c2 : Connecting) (hostname : string) (janusUrl : option string)
    (hs1 hs2 : Handshake) (p1 p2 : option string) (s : Refs) (t : nat),
    initializingRef s = false → initializedRef s = false →
    keepAliveRef s = None →
    let r1 := initJanus c1 hostname janusUrl hs1 p1 s in
    r1.2 = Returned tt → initializedRef r1.1 = false →
    keepAliveRef r1.1 = Some t →
    let r2 := initJanus c2 hostname janusUrl hs2 p2 r1.1 in
    t = next_interval s ∧ intervals r1.1 !! t = Some 25000%Z ∧
    (r2.2 = Returned tt → initializedRef r2.1 = true →
       keepAliveRef r2.1 = Some (S t) ∧
       intervals r2.1 !! t = Some 25000%Z ∧ intervals r2.1 !! S t = Some 25000%Z ∧
       intervals (cleanupJanus r2.1) !! t = Some 25000%Z ∧
       intervals (cleanupJanus r2.1) !! S t = None).
Proof.
  intros c1 c2 hostname janusUrl hs1 hs2 p1 p2 s t Hi Hd Hk r1 Hr1 Hd1 Hk1 r2.
  destruct (initJanus_outcome c1 hostname janusUrl hs1 p1 s Hi Hd) as (Hi1 & Hcase & _).
  fold r1 in Hi1, Hcase. specialize (Hi1 Hr1).
  destruct Hcase as [(Hsame & _)|(Hk1' & Hiv1 & Hn1)].
  { rewrite Hsame, Hk in Hk1. discriminate. }
  assert (t = next_interval s) as -> by congruence.
  split; [done|]. split. { by rewrite Hiv1, lookup_insert_eq. }
  intros Hr2 Hd2.
  destruct (initJanus_outcome c2 hostname janusUrl hs2 p2 r1.1 Hi1 Hd1) as (_ & Hcase & _).
  fold r2 in Hcase.
  destruct Hcase as [(_ & _ & _ & Hno)|(Hk2 & Hiv2 & _)].
  { rewrite (Hno Hr2) in Hd2. discriminate. }
  rewrite Hn1 in Hk2, Hiv2. rewrite Hiv1 in Hiv2.
  split; [done|].
  split. { rewrite Hiv2, lookup_insert_ne by lia. by rewrite lookup_insert_eq. }
  split. { by rewrite Hiv2, lookup_insert_eq. }
  rewrite cleanupJanus_eq. cbn [intervals]. rewrite Hk2, Hiv2.
  split.
  - rewrite lookup_delete_ne by lia. rewrite lookup_insert_ne by lia.
    by rewrite lookup_insert_eq.
  - apply lookup_delete_eq.
Qed.

Lemma keepalive_of_a_failed_handshake_stays_armed_witness :
  let tr := Transport.initial 0 in
  let w := mkWorld Store.initialStore tr None None None None None
             [] false None false None [] in
  let s := mkRefs w false false None ∅ 0 [] in
  let reply tx := Transport.EFrame
                    (<["janus" := JStr "success"]>
                       (<["transaction" := JStr tx]>
                          {["data" := JObj {["id" := JNum 7]}]})) in
  let hs1 := mkHandshake (mkAwait "Aa3mP0qLw9Zt" [reply "Aa3mP0qLw9Zt"])
               (mkAwait "Bb3mP0qLw9Zt" [Transport.ETick 10000; Transport.ETimer 1])
               (mkAwait "Cc3mP0qLw9Zt" []) in
  let hs2 := mkHandshake (mkAwait "Dd3mP0qLw9Zt" [reply "Dd3mP0qLw9Zt"])
               (mkAwait "Ee3mP0qLw9Zt" [reply "Ee3mP0qLw9Zt"])
               (mkAwait "Ff3mP0qLw9Zt" [reply "Ff3mP0qLw9Zt"]) in
  let r1 := initJanus Opens "shop.example" None hs1 (Some "eu.telpro.example") s in
  let r2 := initJanus Opens "shop.example" None hs2 (Some "eu.telpro.example") r1.1 in
  keepAliveRef r2.1 = Some 1 ∧ intervals (cleanupJanus r2.1) !! 0 = Some 25000%Z.
Proof.
  intros tr w s reply hs1 hs2 r1 r2.
  assert (r1.2 = Returned tt) as H1 by (vm_compute; reflexivity).
  assert (initializedRef r1.1 = false) as H2 by (vm_compute; reflexivity).
  assert (keepAliveRef r1.1 = Some 0) as H3 by (vm_compute; reflexivity).
  assert (r2.2 = Returned tt) as H4 by (vm_compute; reflexivity).
  assert (initializedRef r2.1 = true) as H5 by (vm_compute; reflexivity).
  destruct (keepalive_of_a_failed_handshake_stays_armed Opens Opens "shop.example" None
              hs1 hs2 (Some "eu.telpro.example") (Some "eu.telpro.example") s 0
              eq_refl eq_refl eq_refl H1 H2 H3) as (_ & _ & H).
  destruct (H H4 H5) as (Ha & _ & _ & Hb & _).
  split; [exact Ha|exact Hb].
Defined.

End SessionFacts.

(** ** Preparing a call *)
Section PreparingFacts.
Import Phone Session.

(** what a request to the gateway keeps of the phone *)
Lemma await_send_kept a msg w :
  Store.callData (store (await_send a msg w).1) = Store.callData (store w) ∧
  Store.initialized (Store.connection (store (await_send a msg w).1))
    = Store.initialized (Store.connection (store w)) ∧
  Store.calling (Store.connection (store (await_send a msg w).1))
    = Store.calling (Store.connection (store w)) ∧
  sessionStorage (await_send a msg w).1 = sessionStorage w.
Proof. done. Qed.

Ltac name_send a sent H :=
  match goal with
  | |- context [await_send a ?m ?w] =>
      pose proof (await_send_kept a m w) as H;
      set (sent := await_send a m w) in *;
      clearbody sent
  end.

Ltac kept_compute :=
  cbn [world set_world set_flags init_catch with_store called store sessionStorage
       set_ws set_sessionId set_handleId set_transport fst snd
       Store.setStatus Store.with_connection Store.callData Store.connection
       Store.initialized Store.calling] in *.

Lemma initJanus_frame connecting hostname janusUrl hs provided s :
  let r := initJanus connecting hostname janusUrl hs provided s in
  Store.callData (store (world r.1)) = Store.callData (store (world s)) ∧
  Store.initialized (Store.connection (store (world r.1)))
    = Store.initialized (Store.connection (store (world s))) ∧
  Store.calling (Store.connection (store (world r.1)))
    = Store.calling (Store.connection (store (world s))) ∧
  sessionStorage (world r.1) = sessionStorage (world s).
Proof.
  intros r. subst r. unfold initJanus.
  destruct (initializingRef s || initializedRef s). { repeat split; reflexivity. }
  rewrite init_body_eq. cbv zeta.
  destruct (negb (truthy_str _)). { repeat split; reflexivity. }
  destruct connecting.
  1, 3, 4: (repeat split; reflexivity).
  name_send (on_create hs) sent1 H1.
  destruct sent1 as [w1 [[createResp|reason]|]]; kept_compute.
  2, 3: (destruct H1 as (-> & -> & -> & ->); repeat split; reflexivity).
  name_send (on_attach hs) sent2 H2.
  destruct sent2 as [w2 [[attachResp|reason]|]]; kept_compute.
  2, 3: (destruct H2 as (-> & -> & -> & ->); destruct H1 as (-> & -> & -> & ->);
         repeat split; reflexivity).
  name_send (on_register hs) sent3 H3.
  destruct sent3 as [w3 [[resp|reason]|]]; kept_compute.
  all: destruct H3 as (-> & -> & -> & ->); destruct H2 as (-> & -> & -> & ->);
       destruct H1 as (-> & -> & -> & ->); repeat split; reflexivity.
Qed.

(** the outcome of a token request does not depend on the phone *)
Lemma requestCallToken_any cfg telapiUrl fetch target c c' :
  let r := Calling.requestCallToken cfg telapiUrl fetch target c in
  let req := Calling.mkRequest (telapiUrl +:+ "/api/v1/calls/token")
               (Calling.cfg_apiKey cfg) target in
  r.2 = (Calling.requestCallToken cfg telapiUrl fetch target c').2 ∧
  Calling.world r.1 = Calling.world c ∧ r.2 ≠ Suspended ∧
  (Calling.fetched r.1 = Calling.fetched c ∨
   Calling.fetched r.1 = Calling.fetched c ++ [req]).
Proof.
  intros r req. subst r.
  destruct (decide (Calling.cfg_apiDomain cfg = "")) as [Hd|Hd].
  { unfold Calling.requestCallToken. rewrite Hd. cbn. repeat split; try done. by left. }
  destruct (decide (Calling.cfg_apiKey cfg = "")) as [Hk|Hk].
  { unfold Calling.requestCallToken. rewrite Hk.
    destruct (Calling.cfg_apiDomain cfg) as [|x d]; [done|]. cbn.
    replace (negb (String.eqb (String x d) "")) with true by (by destruct x).
    cbn. repeat split; try done. by left. }
  rewrite !(requestCallToken_eq cfg telapiUrl fetch target _ Hd Hk). cbv zeta. fold req.
  destruct (fetch req) as [m|st body|[m|data]];
    cbn [fst snd Calling.world Calling.fetched]; repeat split; try done; by right.
Qed.

(** [initJanus] never throws *)
Lemma initJanus_ends connecting hostname janusUrl hs provided s :
  let r := Session.initJanus connecting hostname janusUrl hs provided s in
  r.2 = Returned tt ∨ r.2 = Suspended.
Proof.
  intros r. subst r. unfold Session.initJanus.
  destruct (Session.initializingRef s || Session.initializedRef s); [by left|].
  rewrite init_body_eq. cbv zeta.
  destruct (negb (truthy_str _)); [by left|].
  destruct connecting; [by left| |by left|by left].
  destruct ((await_send (Session.on_create hs) _ _).2) as [[createResp|reason]|];
    [|by left|by right].
  destruct ((await_send (Session.on_attach hs) _ _).2) as [[attachResp|reason]|];
    [|by left|by right].
  destruct ((await_send (Session.on_register hs) _ _).2) as [[resp|reason]|];
    [by left|by left|by right].
Qed.


Ltac prep_compute :=
  cbn [Preparing.refs Preparing.fetched Preparing.in_phone Preparing.prepare_catch
       Session.world Session.set_world Session.initializingRef Session.initializedRef
       Session.sockets Session.keepAliveRef Session.intervals Session.next_interval
       with_store called store sessionStorage set_sessionStorage fst snd
       Store.setStatus Store.setCalling Store.setCurrentCallId Store.setCurrentWsToken
       Calling.setTelproDomain Session.setInitialized
       Store.with_connection Store.with_callData Store.callData Store.connection
       Store.initialized Store.calling Store.status Store.currentCallId
       Store.currentWsToken Store.telproDomain] in *.

(** X27.  Preparing a call.  [initializeForCall] never throws.  Without
    an API key it asks for nothing and reports that the key is missing.  When
    the token cannot be had, the status reports [Failed: ] and the reason, the
    calling flag is cleared and the call data, the saved call state and the
    sockets are as they were.  A token without a signalling domain is reported
    as a failure too, after its call identifier and WebSocket token were
    stored, and nothing is saved.  A token with a domain is stored with its
    identifiers and its domain, and the call is saved with these, the pending
    endpoint and its names (or the empty string), stamped with the time of
    saving; the session is then brought up only when the store does not count
    it as initialised and no initialisation is in flight: in that case the
    store counts it as initialised from then on, whatever becomes of the
    connection, and, unless the session ref says initialised or the socket
    cannot be created, a socket is opened to the override URL or to [wss://]
    followed by the domain of the token; otherwise no socket is opened. *)
Theorem call_is_prepared_only_with_a_key_and_a_domain :
  ∀ (cfg : Calling.WebRTCConfig) (telapiUrl : string)
    (fetch : Calling.Request → Calling.FetchOutcome)
    (stringify : Calling.CallTokenResponse → string) (now : Z)
    (connecting : Session.Connecting) (hostname : string) (janusUrl : option string)
    (hs : Session.Handshake) (pendingCall : Preparing.PendingCall) (p : Preparing.Prep),
    let r := Preparing.initializeForCall cfg telapiUrl fetch stringify now connecting
               hostname janusUrl hs pendingCall p in
    let asked := (Calling.requestCallToken cfg telapiUrl fetch
                    (Preparing.endpointId pendingCall)
                    (Calling.mkCaller (Session.world (Preparing.refs p))
                       (Preparing.fetched p) [])).2 in
    let st (q : Preparing.Prep) := store (Session.world (Preparing.refs q)) in
    let status (q : Preparing.Prep) := Store.status (Store.connection (st q)) in
    let storage (q : Preparing.Prep) := sessionStorage (Session.world (Preparing.refs q)) in
    let sockets (q : Preparing.Prep) := Session.sockets (Preparing.refs q) in
    (r.2 = Returned tt ∨ r.2 = Suspended) ∧
    (Calling.cfg_apiKey cfg = "" →
       r.2 = Returned tt ∧ Preparing.fetched r.1 = Preparing.fetched p ∧
       status r.1 = "Failed: " +:+ Preparing.no_key ∧
       Store.callData (st r.1) = Store.callData (st p) ∧
       storage r.1 = storage p ∧ sockets r.1 = sockets p) ∧
    (Calling.cfg_apiKey cfg ≠ "" →
       (∀ e, asked = Threw e →
          r.2 = Returned tt ∧ status r.1 = "Failed: " +:+ default "Unknown" e ∧
          Store.calling (Store.connection (st r.1)) = false ∧
          Store.callData (st r.1) = Store.callData (st p) ∧
          storage r.1 = storage p ∧ sockets r.1 = sockets p) ∧
       (∀ tk, asked = Returned tk → truthy_str (Calling.tk_telproDomain tk) = false →
          r.2 = Returned tt ∧
          status r.1 = "Failed: " +:+
            ("TelPro domain not provided in call token response. Received: "
             +:+ stringify tk) ∧
          Store.calling (Store.connection (st r.1)) = false ∧
          Store.currentCallId (Store.callData (st r.1)) = Some (Calling.tk_callId tk) ∧
          Store.currentWsToken (Store.callData (st r.1)) = Some (Calling.tk_wsToken tk) ∧
          storage r.1 = storage p ∧ sockets r.1 = sockets p) ∧
       (∀ tk, asked = Returned tk → truthy_str (Calling.tk_telproDomain tk) = true →
          Store.currentCallId (Store.callData (st r.1)) = Some (Calling.tk_callId tk) ∧
          Store.currentWsToken (Store.callData (st r.1)) = Some (Calling.tk_wsToken tk) ∧
          Store.telproDomain (Store.callData (st r.1)) = Calling.tk_telproDomain tk ∧
          storage r.1 =
            Some (Persisted.Json
                    (Persisted.mkPersisted (Calling.tk_callId tk)
                       (Preparing.endpointId pendingCall)
                       (Preparing.or_empty (Preparing.endpointName pendingCall))
                       (Preparing.or_empty (Preparing.appName pendingCall)) now
                       (Some (Calling.tk_wsToken tk)) (Calling.tk_telproDomain tk))) ∧
          (Store.initialized (Store.connection (st p)) = true ∨
           Session.initializingRef (Preparing.refs p) = true →
             r.2 = Returned tt ∧ sockets r.1 = sockets p ∧
             status r.1 = "Preparing call..." ∧
             Store.initialized (Store.connection (st r.1))
               = Store.initialized (Store.connection (st p))) ∧
          (Store.initialized (Store.connection (st p)) = false →
           Session.initializingRef (Preparing.refs p) = false →
             Store.initialized (Store.connection (st r.1)) = true ∧
             (Session.initializedRef (Preparing.refs p) = false →
              (∀ message, connecting ≠ Session.SocketThrows message) →
              sockets r.1 = sockets p ++
                [if truthy_str janusUrl then default "" janusUrl
                 else "wss://" +:+ default "" (Calling.tk_telproDomain tk)])))).
Proof.
  intros cfg telapiUrl fetch stringify now connecting hostname janusUrl hs pendingCall p
         r asked st status storage sockets.
  subst r st status storage sockets. cbv beta.
  unfold Preparing.initializeForCall.
  destruct (decide (Calling.cfg_apiKey cfg = "")) as [Hk|Hk].
  { rewrite Hk. cbn [truthy_str String.eqb negb]. prep_compute.
    split; [by left|]. split; [|done]. intros _. by repeat split. }
  assert (negb (truthy_str (Some (Calling.cfg_apiKey cfg))) = false) as ->.
  { destruct (Calling.cfg_apiKey cfg) as [|x k]; [done|]. by destruct x. }
  unfold Preparing.prepare_body. cbv zeta. unfold Preparing.await_requestCallToken.
  cbv zeta. prep_compute.
  match goal with
  | |- context [Calling.requestCallToken _ _ _ _ ?c] =>
      pose proof (requestCallToken_any cfg telapiUrl fetch
                    (Preparing.endpointId pendingCall) c
                    (Calling.mkCaller (Session.world (Preparing.refs p))
                       (Preparing.fetched p) [])) as (Hout & Hw & Hns & Hf);
      destruct (Calling.requestCallToken cfg telapiUrl fetch
                  (Preparing.endpointId pendingCall) c) as [c1 o]
  end.
  fold asked in Hout. cbn [fst snd Calling.world Calling.fetched] in Hout, Hw, Hns, Hf.
  clearbody asked. subst asked.
  cbn [fst snd]. rewrite Hw. clear Hw Hf.
  destruct o as [tk|e|]; [|clear Hns|done].
  2: { cbn [fst snd]. prep_compute.
       split; [by left|]. split; [done|]. intros _.
       split; [|split; intros tk [=]].
       intros e' [= <-]. by repeat split. }
  clear Hns. destruct (truthy_str (Calling.tk_telproDomain tk)) eqn:Hdom.
  2: { cbn [fst snd]. prep_compute.
       split; [by left|]. split; [done|]. intros _.
       split; [intros e [=]|]. split; intros tk' [= <-] Hdom'; [|congruence].
       by repeat split. }
  destruct (Store.initialized (Store.connection (store (world (Preparing.refs p)))))
    eqn:Hinit; cbn [negb andb].
  { cbn [fst snd]. prep_compute.
    split; [by left|]. split; [done|]. intros _.
    split; [intros e [=]|]. split; intros tk' [= <-] Hdom'; [congruence|].
    do 4 (split; [done|]). split; [by intros _|]. by intros [=]. }
  destruct (initializingRef (Preparing.refs p)) eqn:Hing; cbn [negb andb].
  { cbn [fst snd]. prep_compute.
    split; [by left|]. split; [done|]. intros _.
    split; [intros e [=]|]. split; intros tk' [= <-] Hdom'; [congruence|].
    do 4 (split; [done|]). split; [by intros _|]. by intros _ [=]. }
  unfold Preparing.await_initJanus. cbv zeta. prep_compute.
  match goal with
  | |- context [initJanus connecting hostname janusUrl hs ?d ?s'] =>
      pose proof (initJanus_frame connecting hostname janusUrl hs d s') as Hframe;
      pose proof (initJanus_ends connecting hostname janusUrl hs d s') as Hends;
      pose proof (λ Hd, initJanus_outcome connecting hostname janusUrl hs d s' Hing Hd)
        as Hout;
      cbv zeta in Hframe, Hends, Hout;
      set (R := initJanus connecting hostname janusUrl hs d s') in *;
      clearbody R
  end.
  destruct R as [q o']. prep_compute. rewrite Hdom in Hout.
  destruct Hframe as (Hf1 & Hf2 & Hf3 & Hf4).
  assert (o' = Returned tt ∨ o' = Suspended) as Ho' by exact Hends.
  destruct Hends as [-> | ->]; cbn [fst snd Preparing.refs].
  all: split; [exact Ho'|]; split; [done|]; intros _.
  all: split; [intros e [=]|]; split; intros tk' [= <-] Hdom'; [congruence|].
  all: rewrite Hf1, Hf2, Hf4; prep_compute.
  all: do 4 (split; [done|]); split; [by intros [[=]|[=]]|]; intros _ _.
  all: split; [done|]; intros Hd Hc; by destruct (Hout Hd) as (_ & _ & ->).
Qed.

Lemma call_is_prepared_only_with_a_key_and_a_domain_witness :
  let cfg := Calling.mkConfig "api.example.com" "key-1" None in
  let tk := Calling.mkToken "call-1" "token-1" (Some "eu.telpro.example") in
  let fetch : Calling.Request → Calling.FetchOutcome := λ _, Calling.Ok (inr tk) in
  let w := mkWorld Store.initialStore (Transport.initial 0) None None None None None
             [] false None false None [] in
  let p := Preparing.mkPrep (mkRefs w false false None ∅ 0 []) [] in
  let hs := mkHandshake (mkAwait "Aa3mP0qLw9Zt" []) (mkAwait "Bb3mP0qLw9Zt" [])
              (mkAwait "Cc3mP0qLw9Zt" []) in
  let r := Preparing.initializeForCall cfg "https://api.example.com" fetch (λ _, "{}")
             100000 TimesOut "shop.example" None hs
             (Preparing.mkPending "ep-1" None (Some "Sales")) p in
  sessionStorage (world (Preparing.refs r.1)) =
    Some (Persisted.Json
            (Persisted.mkPersisted "call-1" "ep-1" (Some "") (Some "Sales") 100000
               (Some "token-1") (Some "eu.telpro.example"))) ∧
  Store.initialized (Store.connection (store (world (Preparing.refs r.1)))) = true ∧
  sockets (Preparing.refs r.1) = ["wss://eu.telpro.example"].
Proof.
  intros cfg tk fetch w p hs r.
  destruct (call_is_prepared_only_with_a_key_and_a_domain cfg "https://api.example.com"
              fetch (λ _, "{}") 100000%Z TimesOut "shop.example" None hs
              (Preparing.mkPending "ep-1" None (Some "Sales")) p) as (_ & _ & H).
  destruct (H ltac:(discriminate)) as (_ & _ & H').
  destruct (H' tk eq_refl eq_refl) as (_ & _ & _ & H1 & _ & H2).
  destruct (H2 eq_refl eq_refl) as (H3 & H4).
  split; [exact H1|]. split; [exact H3|].
  exact (H4 eq_refl ltac:(discriminate)).
Defined.

End PreparingFacts.
